(** * Ram-Tester, 16-pin DRAM module: a shallow embedding of the test firmware

  The development follows the firmware sources

  - [Software/4.0.6/16Pin.cpp]  (address tables, sensing, address check,
    pattern engine, retention check, refresh test),
  - [Software/4.0.5/common.cpp] (test patterns, RAM type table, random
    table, [error]),
  - [Software/4.1.0/common.h]   (type numbers, [countBits], [rotate_left],
    [mix8]),
  - [Software/4.0.1/16Pin.h]    (pin assignment, control-line macros),
  - [Software/3.0.1/16Pin.cpp]  (the monolithic address table).

  Machine integers are [Z] with the wrap-around written out, port
  registers are 8-bit [Z] values, the firmware's globals and the I/O
  registers live in one state record that is threaded through a small
  state-and-halt monad, and the DRAM in the socket is a device that reacts
  to the edges the firmware produces on RAS and CAS. *)

From Stdlib Require Import ZArith List Bool Lia String.
From stdpp Require Import base list gmap.

Import ListNotations.
Local Open Scope Z_scope.

(** ** Machine integers *)

Module Word.

Definition u8 (x : Z) : Z := x mod 256.
Definition u16 (x : Z) : Z := x mod 65536.

(** Unary minus on [uint16_t], as in [-(lfsr & 1u)]. *)
Definition neg16 (x : Z) : Z := u16 (- x).

(** Bit [n] of [v] as 0 or 1. *)
Definition bit (v n : Z) : Z := Z.land (Z.shiftr v n) 1.

(** [uint8_t] array read; the firmware never reads out of range, the
    default stands for whatever lies behind the array. *)
Definition rd (l : list Z) (i : Z) : Z := nth (Z.to_nat i) l 0.

(** The index range of [for (i = 0; i < n; i++)]. *)
Definition upto (n : Z) : list Z := map Z.of_nat (seq 0 (Z.to_nat n)).

(** The index range of [for (c = n - 1; c >= 0; c--)]. *)
Definition downfrom (n : Z) : list Z := rev (upto n).

End Word.
Import Word.

(** ** Address translation (4.0.6/16Pin.cpp, lines 41-109; 3.0.1/16Pin.cpp) *)

Module Addr.

(** [GET_PB], [GET_PC], [GET_PD]: the bits of a 9-bit address scattered
    over the three ports. *)
Definition GET_PB (a : Z) : Z :=
  Z.lor (Z.lor (Z.land a 0x0010) (Z.shiftr (Z.land a 0x0008) 1))
        (Z.shiftr (Z.land a 0x0040) 6).

Definition GET_PC (a : Z) : Z :=
  Z.lor (Z.shiftl (Z.land a 0x0001) 4) (Z.shiftr (Z.land a 0x0100) 8).

Definition GET_PD (a : Z) : Z :=
  Z.lor (Z.lor (Z.lor (Z.shiftr (Z.land a 0x0080) 1)
                      (Z.shiftl (Z.land a 0x0020) 2))
               (Z.shiftr (Z.land a 0x0004) 2))
        (Z.land a 0x0002).

(** [ROW32_Px(0)]: entries [GET_Px(0 + i)], i = 0..31. *)
Definition lut_16_low_b : list Z := map GET_PB (upto 32).
Definition lut_16_low_c : list Z := map GET_PC (upto 32).
Definition lut_16_low_d : list Z := map GET_PD (upto 32).

Definition high_steps : list Z :=
  [0; 32; 64; 96; 128; 160; 192; 224; 256; 288; 320; 352; 384; 416; 448; 480].

Definition lut_16_high_b : list Z := map GET_PB high_steps.
Definition lut_16_high_c : list Z := map GET_PC high_steps.
Definition lut_16_high_d : list Z := map GET_PD high_steps.

(** 3.0.1: [struct port_config16_t] and the 512-entry [lut_combined],
    generated by [MAP_COMBINED]. *)
Record port_config16_t := { portb : Z; portc : Z; portd : Z }.

Definition MAP_COMBINED (a : Z) : port_config16_t :=
  {| portb := Z.lor (Z.lor (Z.land a 0x0010) (Z.shiftr (Z.land a 0x0008) 1))
                    (Z.shiftr (Z.land a 0x0040) 6);
     portc := Z.lor (Z.shiftl (Z.land a 0x0001) 4) (Z.shiftr (Z.land a 0x0100) 8);
     portd := Z.lor (Z.lor (Z.lor (Z.shiftr (Z.land a 0x0080) 1)
                                  (Z.shiftl (Z.land a 0x0020) 2))
                           (Z.shiftr (Z.land a 0x0004) 2))
                    (Z.land a 0x0002) |}.

Definition lut_combined : list port_config16_t := map MAP_COMBINED (upto 512).

Definition lut_combined_at (a : Z) : port_config16_t :=
  nth (Z.to_nat a) lut_combined {| portb := 0; portc := 0; portd := 0 |}.

(** The address part that [setAddr16_Random] ORs into the ports: the low
    table indexed by [a & 0x1F], the high table by [a >> 5]. *)
Definition split_lookup (a : Z) : port_config16_t :=
  let idx_low := u8 (Z.land a 0x1F) in
  let idx_high := u8 (Z.shiftr a 5) in
  {| portb := Z.lor (rd lut_16_low_b idx_low) (rd lut_16_high_b idx_high);
     portc := Z.lor (rd lut_16_low_c idx_low) (rd lut_16_high_c idx_high);
     portd := Z.lor (rd lut_16_low_d idx_low) (rd lut_16_high_d idx_high) |}.

(** The wiring of the socket (16Pin.h): A0 = PC4, A1 = PD1, A2 = PD0,
    A3 = PB2, A4 = PB4, A5 = PD7, A6 = PB0, A7 = PD6, A8 = PC0.  This is
    the address the chip sees for given port values. *)
Definition addr_pins (pb pc pd : Z) : Z :=
  bit pc 4 + 2 * bit pd 1 + 4 * bit pd 0 + 8 * bit pb 2 + 16 * bit pb 4
  + 32 * bit pd 7 + 64 * bit pb 0 + 128 * bit pd 6 + 256 * bit pc 0.

Definition translate (a : Z) : port_config16_t :=
  {| portb := GET_PB a; portc := GET_PC a; portd := GET_PD a |}.

Definition reverseTranslate (p : port_config16_t) : Z :=
  addr_pins (portb p) (portc p) (portd p).

End Addr.
Import Addr.

(** ** Test patterns, RAM types, random table (4.0.5/common.cpp, 4.1.0/common.h) *)

Module Common.

Definition T_4164 : Z := 0.
Definition T_41256 : Z := 1.
Definition T_41257 : Z := 2.
Definition T_4416 : Z := 3.
Definition T_4464 : Z := 4.
Definition T_514256 : Z := 5.
Definition T_514258 : Z := 6.
Definition T_514400 : Z := 7.
Definition T_514402 : Z := 8.
Definition T_411000 : Z := 9.
Definition T_4116 : Z := 10.
Definition T_4816 : Z := 11.
Definition T_4027 : Z := 12.
Definition T_4532 : Z := 13.
Definition T_3732 : Z := 14.

Definition pattern : list Z := [0x00; 0xff; 0xaa; 0x55; 0xaa; 0x55].

Record RAM_Definition := {
  name : string;
  mSRetention : Z;
  delayRows : Z;
  rows : Z;
  columns : Z;
  flags : Z;
  delays : list Z;
  writeTime : Z
}.

Definition RAM_FLAG_STATIC_COLUMN : Z := 1.
Definition RAM_FLAG_NIBBLE_MODE : Z := 2.
Definition RAM_FLAG_SMALL_TYPE : Z := 4.

(** The table of 4.0.5/common.cpp.  Its entries 13 and 14 are the table
    rows that 4.0.5 has at the indices which the 4.1.0 header names
    [T_4532] and [T_3732]; no result below reads the geometry of these two
    entries. *)
Definition ramTypes : list RAM_Definition :=
  [ Build_RAM_Definition "4164 64Kx1" 4 2 256 256 RAM_FLAG_SMALL_TYPE [62; 61; 20; 20; 20; 20] 39;
    Build_RAM_Definition "41256 256Kx1" 4 1 512 512 0 [125; 41; 41; 41; 41; 41] 75;
    Build_RAM_Definition "41257 256Kx1-NM" 4 0 512 512 RAM_FLAG_NIBBLE_MODE [0; 0; 0; 0; 0; 0] 0;
    Build_RAM_Definition "4416 16Kx4" 4 4 256 64 RAM_FLAG_SMALL_TYPE [30; 30; 30; 30; 11; 11] 21;
    Build_RAM_Definition "4464 64Kx4" 4 1 256 256 0 [122; 48; 48; 48; 48; 48] 77;
    Build_RAM_Definition "514256 256Kx4" 4 2 512 512 RAM_FLAG_SMALL_TYPE [69; 68; 27; 27; 27; 27] 31;
    Build_RAM_Definition "514258 256Kx4-SC" 4 2 512 512
      (Z.lor RAM_FLAG_STATIC_COLUMN RAM_FLAG_SMALL_TYPE) [69; 68; 27; 27; 27; 27] 31;
    Build_RAM_Definition "514400 1Mx4" 16 5 1024 1024 0 [98; 98; 98; 98; 98; 16] 62;
    Build_RAM_Definition "514402 1Mx4-SC" 16 5 1024 1024 RAM_FLAG_STATIC_COLUMN [99; 98; 98; 98; 98; 14] 62;
    Build_RAM_Definition "411000 1Mx1" 8 1 1024 1024 0 [244; 135; 135; 135; 135; 135] 255;
    Build_RAM_Definition "4116 16Kx1" 2 2 128 128 0 [30; 30; 6; 6; 6; 6] 24;
    Build_RAM_Definition "4816 16Kx1" 2 2 128 128 0 [30; 30; 7; 7; 7; 7] 24;
    Build_RAM_Definition "4027 4Kx1" 2 2 64 64 0 [40; 40; 27; 27; 27; 27] 12;
    Build_RAM_Definition "4532/3732-L 32Kx1" 2 1 128 256 RAM_FLAG_SMALL_TYPE [54; 5; 5; 5; 5; 5] 50;
    Build_RAM_Definition "4532/3732-H 32Kx1" 2 1 128 256 RAM_FLAG_SMALL_TYPE [54; 5; 5; 5; 5; 5] 50 ].

(** [ramTypes[type]]. *)
Definition ram (t : Z) : RAM_Definition :=
  nth (Z.to_nat t) ramTypes (Build_RAM_Definition "" 0 0 0 0 0 [] 0).

(** [countBits]: number of bits needed for [value]; a 16-bit value is
    exhausted after 16 shifts. *)
Fixpoint countBits_loop (fuel : nat) (value bits : Z) : Z :=
  match fuel with
  | O => bits
  | S f => if value =? 0 then bits
           else countBits_loop f (Z.shiftr value 1) (u8 (bits + 1))
  end.

Definition countBits (value : Z) : Z := countBits_loop 17 (u16 value) 0.

(** [rotate_left]: [lsl] followed by [adc] with zero, an 8-bit rotation. *)
Definition rotate_left (val : Z) : Z :=
  let shifted := Z.shiftl val 1 in
  let carry := bit shifted 8 in
  u8 (u8 shifted + carry).

(** [mix8]. *)
Definition mix8 (col row : Z) : Z :=
  let v := Z.lxor col (u16 (row + Z.shiftr row 4)) in
  u8 (Z.lxor v (Z.shiftr v 8)).

(** [uint8_t randomTable[256]], zero-initialised static storage. *)
Definition randomTable_init : list Z := replicate 256 0.

Definition lfsr_step (lfsr : Z) : Z :=
  Z.lxor (Z.shiftr lfsr 1) (Z.land (neg16 (Z.land lfsr 1)) 0xB400).

Definition lfsr_of (i : Z) : Z :=
  fold_left (fun lfsr (_ : Z) => lfsr_step lfsr) (upto 8)
            (Z.lxor 0xACE1 (u16 (i * 0x3D))).

(** [generateRandomTable]: one store per index. *)
Definition generateRandomTable (tbl : list Z) : list Z :=
  fold_left
    (fun t i => let lfsr := lfsr_of i in
                <[Z.to_nat i := Z.land (Z.lxor lfsr (Z.shiftr lfsr 8)) 0x0F]> t)
    (upto 256) tbl.

(** [invertRandomTable]: one read-modify-write per index. *)
Definition invertRandomTable (tbl : list Z) : list Z :=
  fold_left
    (fun t i => <[Z.to_nat i := Z.lxor (Z.land (rd t i) 0x0F) 0x0F]> t)
    (upto 256) tbl.

(** The byte that write and verification both recompute for a cell. *)
Definition expected (tbl : list Z) (col row : Z) : Z := rd tbl (mix8 col row).

(** Table contents the firmware can be in: the zeroed array, and whatever
    the two mutators make of a reachable table. *)
Inductive table_reachable : list Z -> Prop :=
| reach_init : table_reachable randomTable_init
| reach_generate t : table_reachable t -> table_reachable (generateRandomTable t)
| reach_invert t : table_reachable t -> table_reachable (invertRandomTable t).

End Common.
Import Common.

(** ** The DRAM in the socket

  The firmware only talks to port registers; what it tests is the chip
  behind them.  A chip is described by which physical row and column an
  address on the multiplexed pins selects (missing or defective address
  lines make addresses coincide) and by which cells are stuck at a value.
  Its dynamic state is the cell array, the row latched at the last RAS
  edge, the output latch that drives Dout, and a count of
  CAS-before-RAS refresh cycles. *)

Module Device.

Record Chip := {
  row_sel : Z -> Z;
  col_sel : Z -> Z;
  stuck : Z -> Z -> option bool
}.

Record Dram := {
  cells : gmap (Z * Z) bool;
  row_latch : Z;
  dout : bool;
  cbr_count : Z
}.

Definition read_cell (chip : Chip) (m : gmap (Z * Z) bool) (R C : Z) : bool :=
  match stuck chip R C with
  | Some b => b
  | None => default false (m !! (R, C))
  end.

(** A chip without defects whose address pins are those set in [mask]. *)
Definition ideal (mask : Z) : Chip :=
  {| row_sel := fun a => Z.land a mask;
     col_sel := fun a => Z.land a mask;
     stuck := fun _ _ => None |}.

(** A 64K chip whose columns 128..255 are stuck at the values [sv]. *)
Definition upper_columns_stuck (sv : Z -> Z -> bool) : Chip :=
  {| row_sel := fun a => Z.land a 0xFF;
     col_sel := fun a => Z.land a 0xFF;
     stuck := fun R C => if 128 <=? C then Some (sv R C) else None |}.

(** A chip with address pin [b] stuck low. *)
Definition pin_stuck_low (mask b : Z) : Chip :=
  {| row_sel := fun a => Z.land (Z.land a mask) (Z.lnot (Z.shiftl 1 b));
     col_sel := fun a => Z.land (Z.land a mask) (Z.lnot (Z.shiftl 1 b));
     stuck := fun _ _ => None |}.

(** A chip with one cell stuck at [v]. *)
Definition one_cell_stuck (mask R0 C0 : Z) (v : bool) : Chip :=
  {| row_sel := fun a => Z.land a mask;
     col_sel := fun a => Z.land a mask;
     stuck := fun R C => if (R =? R0) && (C =? C0) then Some v else None |}.

Definition power_on : Dram :=
  {| cells := ∅; row_latch := 0; dout := false; cbr_count := 0 |}.

End Device.
Import Device.

(** ** Machine state and the state-and-halt monad *)

Module Machine.

(** What the firmware does that is visible only in time: a row has been
    written, a row is about to be verified, a busy-wait, a display
    update. *)
Inductive event :=
| EvWriteRow (row patNr : Z)
| EvCheckRow (row patNr check : Z)
| EvDelay (us : Z)
| EvRAMType (shown : string).

Record state := {
  PORTB : Z; PORTC : Z; PORTD : Z;
  DDRB : Z; DDRC : Z; DDRD : Z;
  dram : Dram;
  type : Z;
  typeSuffix : string;
  error_in_lower_half : Z;
  error_in_upper_half : Z;
  randomTable : list Z;
  log : list event
}.

(** How a run ends: [error(code, kind, row, col)] or [testOK()]; neither
    returns to its caller. *)
Inductive final :=
| Error (code kind row col : Z)
| TestOK.

Inductive outcome (A : Type) :=
| Ret (a : A) (s : state)
| Halt (f : final) (s : state).
Arguments Ret {A} a s.
Arguments Halt {A} f s.

Definition M (A : Type) : Type := state -> outcome A.

Definition ret {A} (a : A) : M A := fun s => Ret a s.

Definition bind {A B} (m : M A) (k : A -> M B) : M B :=
  fun s => match m s with
           | Ret a s' => k a s'
           | Halt f s' => Halt f s'
           end.

Definition final_state {A} (o : outcome A) : state :=
  match o with Ret _ s => s | Halt _ s => s end.

End Machine.
Import Machine.

Declare Scope mach_scope.
Delimit Scope mach_scope with mach.
Notation "x ← y ; z" := (bind y (fun x => z))
(at level 20, y at level 100, z at level 200, only parsing) : mach_scope.
Notation "x ;; z" := (bind x (fun _ => z))
(at level 100, z at level 200, only parsing, right associativity) : mach_scope.
Local Open Scope mach_scope.

(** ** Registers, pins and the reaction of the DRAM to port writes *)

Module Pins.

Inductive reg := rPORTB | rPORTC | rPORTD | rDDRB | rDDRC | rDDRD.

(** Control lines (16Pin.h): RAS = PB1, WE = PB3, CAS = PC3, Din = PC1
    (driven only while PC1 is configured as output), Dout = PC2. *)
Definition RAS_pin (pb : Z) : bool := Z.testbit pb 1.
Definition WE_pin (pb : Z) : bool := Z.testbit pb 3.
Definition CAS_pin (pc : Z) : bool := Z.testbit pc 3.
Definition DIN_pin (pc ddrc : Z) : bool := Z.testbit pc 1 && Z.testbit ddrc 1.

(** What the chip does when the port registers go from [(pb0, pc0)] to
    [(pb, pc, pd)]:
    - RAS falls while CAS is high: the row address on the pins is latched;
    - RAS falls while CAS is low: a CAS-before-RAS refresh cycle;
    - CAS falls while RAS is low: the column address on the pins is
      taken; with WE low the cell is written from Din (early write), with
      WE high it is read into the output latch. *)
Definition react (chip : Chip) (pb0 pc0 pb pc pd ddrc : Z) (d : Dram) : Dram :=
  if RAS_pin pb0 && negb (RAS_pin pb) then
    if CAS_pin pc then
      {| cells := cells d; row_latch := addr_pins pb pc pd;
         dout := dout d; cbr_count := cbr_count d |}
    else
      {| cells := cells d; row_latch := row_latch d;
         dout := dout d; cbr_count := cbr_count d + 1 |}
  else if CAS_pin pc0 && negb (CAS_pin pc) && negb (RAS_pin pb) then
    let R := row_sel chip (row_latch d) in
    let C := col_sel chip (addr_pins pb pc pd) in
    if WE_pin pb then
      {| cells := cells d; row_latch := row_latch d;
         dout := read_cell chip (cells d) R C; cbr_count := cbr_count d |}
    else
      {| cells := <[(R, C) := DIN_pin pc ddrc]> (cells d); row_latch := row_latch d;
         dout := dout d; cbr_count := cbr_count d |}
  else d.

Definition set_io (pb pc pd ddrb ddrc ddrd : Z) (d : Dram) (s : state) : state :=
  {| PORTB := pb; PORTC := pc; PORTD := pd;
     DDRB := ddrb; DDRC := ddrc; DDRD := ddrd; dram := d;
     type := type s; typeSuffix := typeSuffix s;
     error_in_lower_half := error_in_lower_half s;
     error_in_upper_half := error_in_upper_half s;
     randomTable := randomTable s; log := log s |}.

Definition inp (r : reg) : M Z :=
  fun s => Ret (match r with
                | rPORTB => PORTB s | rPORTC => PORTC s | rPORTD => PORTD s
                | rDDRB => DDRB s | rDDRC => DDRC s | rDDRD => DDRD s
                end) s.

(** A store to an 8-bit I/O register, followed by the chip's reaction. *)
Definition out (chip : Chip) (r : reg) (v : Z) : M unit :=
  fun s =>
    let v := u8 v in
    let pb := match r with rPORTB => v | _ => PORTB s end in
    let pc := match r with rPORTC => v | _ => PORTC s end in
    let pd := match r with rPORTD => v | _ => PORTD s end in
    let ddrb := match r with rDDRB => v | _ => DDRB s end in
    let ddrc := match r with rDDRC => v | _ => DDRC s end in
    let ddrd := match r with rDDRD => v | _ => DDRD s end in
    Ret tt (set_io pb pc pd ddrb ddrc ddrd
                   (react chip (PORTB s) (PORTC s) pb pc pd ddrc (dram s)) s).

(** [PINC]: PC2 is Dout; every use masks the value with 0x04, the other
    bits are taken to read back the port latch. *)
Definition inp_PINC : M Z :=
  fun s => Ret (Z.lor (Z.land (PORTC s) (Z.lnot 0x04))
                      (if dout (dram s) then 0x04 else 0)) s.

Definition get_type : M Z := fun s => Ret (type s) s.
Definition get_randomTable : M (list Z) := fun s => Ret (randomTable s) s.
(** [randomTable[i]]. *)
Definition randomTable_at (i : Z) : M Z := fun s => Ret (rd (randomTable s) i) s.
Definition get_lower : M Z := fun s => Ret (error_in_lower_half s) s.
Definition get_upper : M Z := fun s => Ret (error_in_upper_half s) s.

Definition set_type (t : Z) : M unit :=
  fun s => Ret tt
    {| PORTB := PORTB s; PORTC := PORTC s; PORTD := PORTD s;
       DDRB := DDRB s; DDRC := DDRC s; DDRD := DDRD s;
       dram := dram s; type := t; typeSuffix := typeSuffix s;
       error_in_lower_half := error_in_lower_half s;
       error_in_upper_half := error_in_upper_half s;
       randomTable := randomTable s; log := log s |}.

Definition set_typeSuffix (x : string) : M unit :=
  fun s => Ret tt
    {| PORTB := PORTB s; PORTC := PORTC s; PORTD := PORTD s;
       DDRB := DDRB s; DDRC := DDRC s; DDRD := DDRD s;
       dram := dram s; type := type s; typeSuffix := x;
       error_in_lower_half := error_in_lower_half s;
       error_in_upper_half := error_in_upper_half s;
       randomTable := randomTable s; log := log s |}.

Definition set_lower (v : Z) : M unit :=
  fun s => Ret tt
    {| PORTB := PORTB s; PORTC := PORTC s; PORTD := PORTD s;
       DDRB := DDRB s; DDRC := DDRC s; DDRD := DDRD s;
       dram := dram s; type := type s; typeSuffix := typeSuffix s;
       error_in_lower_half := u8 v;
       error_in_upper_half := error_in_upper_half s;
       randomTable := randomTable s; log := log s |}.

Definition set_upper (v : Z) : M unit :=
  fun s => Ret tt
    {| PORTB := PORTB s; PORTC := PORTC s; PORTD := PORTD s;
       DDRB := DDRB s; DDRC := DDRC s; DDRD := DDRD s;
       dram := dram s; type := type s; typeSuffix := typeSuffix s;
       error_in_lower_half := error_in_lower_half s;
       error_in_upper_half := u8 v;
       randomTable := randomTable s; log := log s |}.

Definition set_randomTable (t : list Z) : M unit :=
  fun s => Ret tt
    {| PORTB := PORTB s; PORTC := PORTC s; PORTD := PORTD s;
       DDRB := DDRB s; DDRC := DDRC s; DDRD := DDRD s;
       dram := dram s; type := type s; typeSuffix := typeSuffix s;
       error_in_lower_half := error_in_lower_half s;
       error_in_upper_half := error_in_upper_half s;
       randomTable := t; log := log s |}.

Definition emit (e : event) : M unit :=
  fun s => Ret tt
    {| PORTB := PORTB s; PORTC := PORTC s; PORTD := PORTD s;
       DDRB := DDRB s; DDRC := DDRC s; DDRD := DDRD s;
       dram := dram s; type := type s; typeSuffix := typeSuffix s;
       error_in_lower_half := error_in_lower_half s;
       error_in_upper_half := error_in_upper_half s;
       randomTable := randomTable s; log := log s ++ [e] |}.

(** [error()] and [testOK()] end the run. *)
Definition error {A} (code kind row col : Z) : M A :=
  fun s => Halt (Error code kind row col) s.
Definition testOK {A} : M A := fun s => Halt TestOK s.

Definition delayMicroseconds (us : Z) : M unit := emit (EvDelay us).
Definition writeRAMType (shown : string) : M unit := emit (EvRAMType shown).

(** [NOP], [cli()], [sei()]: no effect on registers or chip. *)
Definition NOP : M unit := ret tt.
Definition cli : M unit := ret tt.
Definition sei : M unit := ret tt.

(** Loops. *)
Fixpoint for_each {A} (l : list A) (body : A -> M unit) : M unit :=
  match l with
  | [] => ret tt
  | x :: l' => body x;; for_each l' body
  end.

Fixpoint foldM {A B} (l : list A) (acc : B) (body : B -> A -> M B) : M B :=
  match l with
  | [] => ret acc
  | x :: l' => acc' ← body acc x; foldM l' acc' body
  end.

(** A [for] loop whose body may [break]: the body returns [Some b] to
    leave the loop with [b]. *)
Fixpoint for_break {A B} (l : list A) (body : A -> M (option B)) : M (option B) :=
  match l with
  | [] => ret None
  | x :: l' => r ← body x;
               match r with
               | Some b => ret (Some b)
               | None => for_break l' body
               end
  end.

(** Conversion of a [uint8_t] to [int8_t]. *)
Definition s8 (x : Z) : Z := if u8 x <? 128 then u8 x else u8 x - 256.

End Pins.
Import Pins.

(** ** The 16-pin test code (4.0.6/16Pin.cpp) *)

Module Pin16.
Section Firmware.

Variable chip : Chip.

Definition SBI (r : reg) (b : Z) : M unit :=
  v ← inp r; out chip r (Z.lor v (Z.shiftl 1 b)).
Definition CBI (r : reg) (b : Z) : M unit :=
  v ← inp r; out chip r (Z.land v (Z.lnot (Z.shiftl 1 b))).

Definition CAS_LOW16 : M unit := CBI rPORTC 3.
Definition CAS_HIGH16 : M unit := SBI rPORTC 3.
Definition RAS_LOW16 : M unit := CBI rPORTB 1.
Definition RAS_HIGH16 : M unit := SBI rPORTB 1.
Definition WE_LOW16 : M unit := CBI rPORTB 3.
Definition WE_HIGH16 : M unit := SBI rPORTB 3.

(** [reg |= m] and [reg &= ~m]. *)
Definition or_reg (r : reg) (m : Z) : M unit := v ← inp r; out chip r (Z.lor v m).
Definition andnot_reg (r : reg) (m : Z) : M unit :=
  v ← inp r; out chip r (Z.land v (Z.lnot m)).

Definition setAddr16_Random (a : Z) : M unit :=
  let idx_low := u8 (Z.land a 0x1F) in
  let idx_high := u8 (Z.shiftr a 5) in
  let lb := rd lut_16_low_b idx_low in
  let lc := rd lut_16_low_c idx_low in
  let ld := rd lut_16_low_d idx_low in
  let hb := rd lut_16_high_b idx_high in
  let hc := rd lut_16_high_c idx_high in
  let hd := rd lut_16_high_d idx_high in
  pb ← inp rPORTB; out chip rPORTB (Z.lor (Z.lor (Z.land pb 0xEA) lb) hb);;
  pc ← inp rPORTC; out chip rPORTC (Z.lor (Z.lor (Z.land pc 0xEE) lc) hc);;
  pd ← inp rPORTD; out chip rPORTD (Z.lor (Z.lor (Z.land pd 0x3C) ld) hd).

(** [SET_DIN_16(d)]. *)
Definition SET_DIN_16 (d : Z) : M unit :=
  if Z.land d 0x04 =? 0 then andnot_reg rPORTC 0x02 else or_reg rPORTC 0x02.

Definition setAddrData (addr dataVal : Z) : M unit :=
  setAddr16_Random addr;; SET_DIN_16 dataVal.

(** [SET_ADDR_PIN16] is redefined to the table version in 16Pin.cpp. *)
Definition SET_ADDR_PIN16 (row : Z) : M unit := setAddr16_Random row.

Definition rasHandling_16Pin (row : Z) : M unit :=
  RAS_HIGH16;; setAddr16_Random row;; RAS_LOW16.

Definition refreshRow_16Pin (row : Z) : M unit :=
  rasHandling_16Pin row;; RAS_HIGH16.

Definition write16Pin (row col data : Z) : M unit :=
  or_reg rDDRC 0x02;;
  SET_ADDR_PIN16 row;;
  RAS_LOW16;;
  WE_LOW16;;
  setAddrData col (if data =? 0 then 0 else 0x04);;
  CAS_LOW16;;
  NOP;;
  CAS_HIGH16;;
  WE_HIGH16;;
  RAS_HIGH16.

Definition read16Pin (row col : Z) : M Z :=
  andnot_reg rPORTC 0x02;;
  andnot_reg rDDRC 0x02;;
  SET_ADDR_PIN16 row;;
  RAS_LOW16;;
  setAddrData col 0;;
  CAS_LOW16;;
  NOP;;
  NOP;;
  pinc ← inp_PINC;
  let result := Z.shiftr (Z.land pinc 0x04) 2 in
  CAS_HIGH16;;
  RAS_HIGH16;;
  ret result.

Definition ram_present_16Pin : M bool :=
  write16Pin 0 0 0;;
  write16Pin 1 0 1;;
  r0 ← read16Pin 0 0;
  r1 ← read16Pin 1 0;
  r2 ← read16Pin 0 0;
  ret ((r0 =? 0) && (r1 =? 1) && (r2 =? 0)).

Definition sense41256_16Pin : M unit :=
  CAS_HIGH16;;
  (* step 1 *)
  write16Pin 0 0 0;;
  r ← read16Pin 0 0;
  (if r =? 0 then ret tt
   else write16Pin 0 192 0;;
        r' ← read16Pin 0 192;
        if r' =? 0 then ret tt else error 0 0 (-1) (-1));;
  (* step 2: A8 *)
  write16Pin 0 0 0;;
  write16Pin 256 0 1;;
  r ← read16Pin 0 0;
  if r =? 0 then set_type T_41256
  else
    (* step 3: row A7 *)
    write16Pin 0 0 0;;
    write16Pin 128 0 1;;
    r ← read16Pin 0 0;
    if negb (r =? 0) then
      write16Pin 0 0 0;;
      write16Pin 0 128 1;;
      r ← read16Pin 0 0;
      if r =? 0 then set_type T_4532 else set_type T_4816
    else
      (* 3732 detection deferred to the pattern tests *)
      set_type T_4164.

(** The body of the row loop of [checkAddressing_16Pin]. *)
Definition check_row_bit (b : Z) : M unit :=
  let base_row := 0 in
  let peer_row := u16 (Z.shiftl 1 b) in
  write16Pin base_row 0 0;;
  write16Pin peer_row 0 1;;
  base_result ← read16Pin base_row 0;
  peer_result ← read16Pin peer_row 0;
  t ← get_type;
  if (t =? T_4532) && (b =? 7) then ret tt (* continue *)
  else
    (if base_result =? 0 then ret tt else error b 1 (-1) (-1));;
    (if peer_result =? 1 then ret tt else error b 1 (-1) (-1)).

(** The body of its column loop. *)
Definition check_col_bit (test_row b : Z) : M unit :=
  let base_col := 0 in
  let peer_col := u16 (Z.shiftl 1 b) in
  write16Pin test_row base_col 0;;
  write16Pin test_row peer_col 1;;
  r ← read16Pin test_row base_col;
  (if r =? 0 then ret tt else error (b + 16) 1 (-1) (-1));;
  r ← read16Pin test_row peer_col;
  (if r =? 1 then ret tt else error (b + 16) 1 (-1) (-1)).

Definition checkAddressing_16Pin : M unit :=
  t ← get_type;
  let max_rows := rows (ram t) in
  let max_cols := columns (ram t) in
  let row_bits := countBits (max_rows - 1) in
  let col_bits := countBits (max_cols - 1) in
  CAS_HIGH16;;
  RAS_HIGH16;;
  WE_LOW16;;
  for_each (upto row_bits) check_row_bit;;
  let test_row := Z.shiftr max_rows 1 in
  for_each (upto col_bits) (check_col_bit test_row).

(** Half-good error tracking. *)
Definition or_lower (m : Z) : M unit := v ← get_lower; set_lower (Z.lor v m).
Definition or_upper (m : Z) : M unit := v ← get_upper; set_upper (Z.lor v m).

Definition half_good_type (t : Z) : bool :=
  (t =? T_4164) || (t =? T_4532) || (t =? T_3732).

Definition is_nibble_type (t : Z) : bool :=
  negb (Z.land (flags (ram t)) RAM_FLAG_NIBBLE_MODE =? 0).

(** The local tables of [fastPatternTest_16Pin]. *)
Definition fast_din_a0_0 (patNr : Z) : Z :=
  if Z.land (rd pattern patNr) 0x04 =? 0 then 0x00 else 0x02.

Definition fast_din_a0_1 (patNr : Z) : Z :=
  if patNr <=? 1 then fast_din_a0_0 patNr
  else if Z.land (rotate_left (rd pattern patNr)) 0x04 =? 0 then 0x00 else 0x02.

Definition fast_pd_lut (pd_base : Z) : list Z :=
  map (fun i => Z.lor (Z.lor pd_base (Z.land i 0x03)) (Z.shiftl (Z.land i 0x0C) 4))
      (upto 16).

Definition fast_pb_addr : list Z :=
  map (fun i => Z.lor (Z.lor (Z.land i 1) (Z.shiftl (Z.land i 2) 1))
                      (Z.shiftl (Z.land i 4) 2))
      (upto 8).

Definition fast_pc_w (din_a0_0 din_a0_1 : Z) : list Z :=
  [ Z.lor 0x08 din_a0_0;
    Z.lor (Z.lor 0x08 0x10) din_a0_1;
    Z.lor (Z.lor 0x08 0x01) din_a0_0;
    Z.lor (Z.lor 0x08 0x11) din_a0_1 ].

Definition fast_pc_r : list Z :=
  [ 0x08; Z.lor 0x08 0x10; Z.lor 0x08 0x01; Z.lor 0x08 0x11 ].

Definition fast_exp_a0 (din_a0_0 din_a0_1 : Z) : list Z :=
  let e0 := if din_a0_0 =? 0 then 0x00 else 0x04 in
  let e1 := if din_a0_1 =? 0 then 0x00 else 0x04 in
  [ e0; e1; e0; e1 ].

(** The write phase of one row in [fastPatternTest_16Pin]. *)
Definition fast_write_row (pd_lut pb_addr pc_w : list Z) (num_pc : Z)
           (is_nibble : bool) (row : Z) : M unit :=
  or_reg rDDRC 0x02;;
  rasHandling_16Pin row;;
  WE_LOW16;;
  pb ← inp rPORTB;
  _ ← foldM (upto num_pc) (Z.land pb 0xEA) (fun pb_base pc_i =>
    out chip rPORTC (rd pc_w pc_i);;
    foldM (upto 8) pb_base (fun pb_base pb_i =>
      out chip rPORTB (Z.lor pb_base (rd pb_addr pb_i));;
      for_each (upto 16) (fun k =>
        CAS_HIGH16;;
        out chip rPORTD (rd pd_lut k);;
        CAS_LOW16);;
      CAS_HIGH16;;
      if is_nibble then
        rasHandling_16Pin row;;
        pb ← inp rPORTB;
        out chip rPORTC (rd pc_w pc_i);;
        ret (Z.land pb 0xEA)
      else ret pb_base));
  WE_HIGH16;;
  RAS_HIGH16.

(** What [fastPatternTest_16Pin] does on a mismatch on Dout. *)
Definition fast_mismatch (patNr row : Z) : M unit :=
  (if 128 <=? row then or_upper 0x01 else or_lower 0x01);;
  pd ← inp rPORTD;
  (if Z.land pd 0x40 =? 0 then or_lower 0x02 else or_upper 0x02);;
  t ← get_type;
  lo ← get_lower;
  up ← get_upper;
  if half_good_type t && negb (Z.land (Z.land lo up) 0x03 =? 0x03)
  then ret tt (* continue *)
  else
    sei;; RAS_HIGH16;; or_reg rDDRC 0x02;;
    error (u8 (patNr + 1)) 2 (-1) (-1).

(** The read phase of the same row. *)
Definition fast_read_row (pd_lut pb_addr pc_r exp_a0 : list Z) (num_pc : Z)
           (is_nibble : bool) (patNr row : Z) : M unit :=
  andnot_reg rPORTC 0x02;;
  andnot_reg rDDRC 0x02;;
  rasHandling_16Pin row;;
  pb ← inp rPORTB;
  _ ← foldM (upto num_pc) (Z.land pb 0xEA) (fun pb_base pc_i =>
    out chip rPORTC (rd pc_r pc_i);;
    let exp := rd exp_a0 pc_i in
    foldM (upto 8) pb_base (fun pb_base pb_i =>
      out chip rPORTB (Z.lor pb_base (rd pb_addr pb_i));;
      for_each (upto 16) (fun pd_i =>
        out chip rPORTD (rd pd_lut pd_i);;
        CAS_LOW16;;
        NOP;;
        CAS_HIGH16;;
        pinc ← inp_PINC;
        if Z.land (Z.lxor pinc exp) 0x04 =? 0 then ret tt
        else fast_mismatch patNr row);;
      if is_nibble then
        rasHandling_16Pin row;;
        pb ← inp rPORTB;
        out chip rPORTC (rd pc_r pc_i);;
        ret (Z.land pb 0xEA)
      else ret pb_base));
  RAS_HIGH16.

Definition fastPatternTest_16Pin (patNr : Z) : M unit :=
  t ← get_type;
  let total_rows := rows (ram t) in
  let is_nibble := is_nibble_type t in
  let num_pc := if 256 <? columns (ram t) then 4 else 2 in
  let din_a0_0 := fast_din_a0_0 patNr in
  let din_a0_1 := fast_din_a0_1 patNr in
  pd ← inp rPORTD;
  let pd_base := Z.land pd 0x3C in
  let pd_lut := fast_pd_lut pd_base in
  let pb_addr := fast_pb_addr in
  let pc_w := fast_pc_w din_a0_0 din_a0_1 in
  let pc_r := fast_pc_r in
  let exp_a0 := fast_exp_a0 din_a0_0 din_a0_1 in
  CAS_HIGH16;;
  cli;;
  for_each (upto total_rows) (fun row =>
    fast_write_row pd_lut pb_addr pc_w num_pc is_nibble row;;
    fast_read_row pd_lut pb_addr pc_r exp_a0 num_pc is_nibble patNr row);;
  sei;;
  or_reg rDDRC 0x02.

(** [checkRow_16Pin], page-mode path: the read loop with its locals
    [pat], [error_found] and [error_column]. *)
Definition checkRow_scan_page (cols row patNr : Z) : M (bool * Z) :=
  let pat := rd pattern patNr in
  let isRandom := 4 <=? patNr in
  let num_chunks := u8 (Z.shiftr cols 5) in
  rasHandling_16Pin row;;
  cli;;
  acc ← foldM (upto num_chunks) (pat, (false, 0)) (fun acc chunk =>
    let hb := rd lut_16_high_b chunk in
    let hc := rd lut_16_high_c chunk in
    let hd := rd lut_16_high_d chunk in
    pb ← inp rPORTB;
    pc ← inp rPORTC;
    pd ← inp rPORTD;
    let base_b := Z.lor (Z.land pb 0xEA) hb in
    let base_c := Z.lor (Z.land pc 0xEC) hc in
    let base_d := Z.lor (Z.land pd 0x3C) hd in
    let chunkBase := u16 (Z.shiftl chunk 5) in
    foldM (downfrom 32) acc (fun acc c =>
      let pat := fst acc in
      let error_found := fst (snd acc) in
      let error_column := snd (snd acc) in
      (* SET_ADDR_16_LOW(c) *)
      out chip rPORTB (Z.lor base_b (rd lut_16_low_b c));;
      out chip rPORTC (Z.lor base_c (rd lut_16_low_c c));;
      out chip rPORTD (Z.lor base_d (rd lut_16_low_d c));;
      CAS_LOW16;;
      expected ←
        (if isRandom then randomTable_at (mix8 (Z.lor chunkBase c) row)
         else ret pat);
      pinc ← inp_PINC;
      let mismatch := negb (Z.land (Z.lxor pinc expected) 0x04 =? 0) in
      let error_column :=
        if mismatch && negb error_found then Z.lor chunkBase c
        else error_column in
      let error_found := error_found || mismatch in
      CAS_HIGH16;;
      ret (if isRandom then pat else rotate_left pat,
           (error_found, error_column))));
  CAS_HIGH16;;
  sei;;
  RAS_HIGH16;;
  ret (snd acc).

(** [checkRow_16Pin], nibble path. *)
Definition checkRow_scan_nibble (cols row : Z) : M (bool * Z) :=
  r ← for_break (upto (cols / 2)) (fun col =>
    data0 ← randomTable_at (mix8 col row);
    let data1 := Z.shiftr data0 1 in
    let data2 := u8 (Z.shiftl data0 1) in
    let data3 := u8 (Z.shiftl data0 2) in
    setAddr16_Random row;;
    RAS_LOW16;;
    setAddr16_Random col;;
    CAS_LOW16;;
    CAS_HIGH16;;
    p0 ← inp_PINC;
    let data0 := Z.lxor p0 data0 in
    CAS_LOW16;;
    CAS_HIGH16;;
    p1 ← inp_PINC;
    let data1 := Z.lxor p1 data1 in
    CAS_LOW16;;
    CAS_HIGH16;;
    p2 ← inp_PINC;
    let data2 := Z.lxor p2 data2 in
    CAS_LOW16;;
    CAS_HIGH16;;
    p3 ← inp_PINC;
    let data3 := Z.lxor p3 data3 in
    if Z.land (Z.lor (Z.lor (Z.lor data0 data1) data2) data3) 0x04 =? 0
    then RAS_HIGH16;; ret None
    else CAS_HIGH16;; RAS_HIGH16;; ret (Some col));
  ret (match r with Some col => (true, col) | None => (false, 0) end).

(** [checkRow_16Pin], error handling with half-good detection. *)
Definition checkRow_verdict (row patNr check : Z) (error_found : bool)
           (error_column : Z) : M unit :=
  if error_found then
    (if 128 <=? row then or_upper 0x01 else or_lower 0x01);;
    (if 128 <=? error_column then or_upper 0x02 else or_lower 0x02);;
    t ← get_type;
    lo ← get_lower;
    up ← get_upper;
    if half_good_type t && negb (Z.land (Z.land lo up) 0x03 =? 0x03)
    then ret tt
    else error (u8 (patNr + 1)) check (-1) (-1)
  else ret tt.

Definition checkRow_16Pin (cols row patNr check : Z) : M unit :=
  emit (EvCheckRow row patNr check);;
  t ← get_type;
  let is_nibble := is_nibble_type t in
  andnot_reg rPORTC 0x02;;
  andnot_reg rDDRC 0x02;;
  found ← (if negb is_nibble then checkRow_scan_page cols row patNr
           else checkRow_scan_nibble cols row);
  or_reg rDDRC 0x02;;
  checkRow_verdict row patNr check (fst found) (snd found).

(** [writeRow_16Pin], page-mode path. *)
Definition writeRow_page (row cols : Z) : M unit :=
  let num_chunks := u8 (Z.shiftr cols 5) in
  rasHandling_16Pin row;;
  WE_LOW16;;
  cli;;
  for_each (upto num_chunks) (fun chunk =>
    let hb := rd lut_16_high_b chunk in
    let hc := rd lut_16_high_c chunk in
    let hd := rd lut_16_high_d chunk in
    pb ← inp rPORTB;
    pc ← inp rPORTC;
    pd ← inp rPORTD;
    let base_b := Z.lor (Z.land pb 0xEA) hb in
    let base_c := Z.lor (Z.land pc 0xEC) hc in
    let base_d := Z.lor (Z.land pd 0x3C) hd in
    let chunkBase := u16 (Z.shiftl chunk 5) in
    for_each (downfrom 32) (fun c =>
      let val_c := Z.lor base_c (rd lut_16_low_c c) in
      data_check ← randomTable_at (mix8 (Z.lor chunkBase c) row);
      let val_c := if Z.land data_check 0x04 =? 0 then val_c else Z.lor val_c 0x02 in
      CAS_HIGH16;;
      out chip rPORTB (Z.lor base_b (rd lut_16_low_b c));;
      out chip rPORTD (Z.lor base_d (rd lut_16_low_d c));;
      out chip rPORTC val_c;;
      CAS_LOW16));;
  CAS_HIGH16;;
  sei;;
  WE_HIGH16;;
  refreshRow_16Pin row.

(** [writeRow_16Pin], nibble path. *)
Definition writeRow_nibble (row cols : Z) : M unit :=
  WE_LOW16;;
  for_each (upto (cols / 2)) (fun col =>
    setAddr16_Random row;;
    RAS_LOW16;;
    data0 ← randomTable_at (mix8 col row);
    let data1 := Z.shiftr data0 1 in
    let data2 := u8 (Z.shiftl data0 1) in
    let data3 := u8 (Z.shiftl data0 2) in
    setAddr16_Random col;;
    SET_DIN_16 data0;;
    CAS_LOW16;;
    NOP;;
    CAS_HIGH16;;
    SET_DIN_16 data1;;
    CAS_LOW16;;
    NOP;;
    CAS_HIGH16;;
    SET_DIN_16 data2;;
    CAS_LOW16;;
    NOP;;
    CAS_HIGH16;;
    SET_DIN_16 data3;;
    CAS_LOW16;;
    NOP;;
    CAS_HIGH16;;
    RAS_HIGH16);;
  WE_HIGH16.

(** [writeRow_16Pin], retention testing. *)
Definition retention_check (row cols patNr : Z) : M unit :=
  t ← get_type;
  let last_row := u16 (rows (ram t) - 1) in
  let k := delayRows (ram t) in
  if row =? last_row then
    for_each (downfrom (s8 k + 1)) (fun x =>
      checkRow_16Pin cols (u16 (row - x)) patNr 3;;
      delayMicroseconds (writeTime (ram t) * 20);;
      delayMicroseconds (rd (delays (ram t)) k * 20))
  else if k <=? row then
    checkRow_16Pin cols (u16 (row - k)) patNr 3;;
    delayMicroseconds (rd (delays (ram t)) k * 20)
  else
    delayMicroseconds (rd (delays (ram t)) row * 20).

Definition writeRow_16Pin (row cols patNr : Z) : M unit :=
  t ← get_type;
  or_reg rDDRC 0x02;;
  CAS_HIGH16;;
  (if negb (is_nibble_type t) then writeRow_page row cols
   else writeRow_nibble row cols);;
  emit (EvWriteRow row patNr);;
  retention_check row cols patNr.

(** The rows of one pass of pattern 4 or 5. *)
Definition random_pass (total_rows patNr : Z) : M unit :=
  for_each (upto total_rows) (fun row =>
    t ← get_type;
    writeRow_16Pin row (columns (ram t)) patNr).

Definition run_16Pin_tests : M unit :=
  t ← get_type;
  let total_rows := rows (ram t) in
  set_lower 0;;
  set_upper 0;;
  for_each (upto 4) (fun patNr => fastPatternTest_16Pin patNr);;
  t ← get_type;
  let total_rows := if is_nibble_type t then total_rows / 2 else total_rows in
  for_each [4; 5] (fun patNr =>
    (if patNr =? 5
     then tbl ← get_randomTable; set_randomTable (invertRandomTable tbl)
     else ret tt);;
    random_pass total_rows patNr);;
  (* half-good subtype determination *)
  t ← get_type;
  lo ← get_lower;
  up ← get_upper;
  (if (t =? T_4164) && negb (Z.land lo 0x02 =? Z.land up 0x02)
   then set_type T_3732 else ret tt);;
  t ← get_type;
  if t =? T_3732 then
    lo ← get_lower;
    set_typeSuffix (if Z.land lo 0x02 =? 0 then "(L)" else "(H)")
  else ret tt.

Definition casBeforeRasRefresh_16Pin : M unit :=
  RAS_HIGH16;;
  CAS_LOW16;;
  RAS_LOW16;;
  NOP;;
  NOP;;
  RAS_HIGH16;;
  CAS_HIGH16.

(** The three phases of [refreshTimeTest_16Pin]. *)
Definition refresh_write_phase (rows : Z) : M unit :=
  or_reg rDDRC 0x02;;
  CAS_HIGH16;;
  WE_LOW16;;
  for_each (upto rows) (fun row =>
    dataByte ← randomTable_at (Z.land row 0xFF);
    SET_ADDR_PIN16 row;;
    RAS_LOW16;;
    for_each (upto 8) (fun col =>
      let bit := Z.land (Z.shiftr dataByte col) 0x01 in
      (if bit =? 0 then andnot_reg rPORTC 0x02 else or_reg rPORTC 0x02);;
      setAddrData col (if bit =? 0 then 0x00 else 0x04);;
      CAS_LOW16;;
      NOP;;
      CAS_HIGH16);;
    RAS_HIGH16;;
    casBeforeRasRefresh_16Pin);;
  WE_HIGH16.

(** One full refresh sequence: the inner loop of phase 2. *)
Definition refresh_sequence : M unit :=
  for_each (upto 256) (fun refresh_count =>
    casBeforeRasRefresh_16Pin;;
    delayMicroseconds 15;;
    NOP;; NOP;; NOP;; NOP;; NOP).

Definition refresh_cycles_phase : M unit :=
  for_each (upto 10) (fun cycle => refresh_sequence).

Definition refresh_verify_phase (rows : Z) : M unit :=
  andnot_reg rPORTC 0x02;;
  andnot_reg rDDRC 0x02;;
  for_each (upto rows) (fun row =>
    expectedByte ← randomTable_at (Z.land row 0xFF);
    SET_ADDR_PIN16 row;;
    RAS_LOW16;;
    for_each (upto 8) (fun col =>
      setAddrData col 0;;
      CAS_LOW16;;
      NOP;;
      NOP;;
      pinc ← inp_PINC;
      let actualBit := if Z.land pinc 0x04 =? 0 then 0 else 1 in
      let expectedBit := Z.land (Z.shiftr expectedByte col) 0x01 in
      CAS_HIGH16;;
      if actualBit =? expectedBit then ret tt
      else
        RAS_HIGH16;;
        or_reg rDDRC 0x02;;
        error 0 5 (-1) (-1));;
    RAS_HIGH16;;
    casBeforeRasRefresh_16Pin);;
  or_reg rDDRC 0x02.

Definition refreshTimeTest_16Pin : M unit :=
  t ← get_type;
  let rows := rows (ram t) in
  refresh_write_phase rows;;
  refresh_cycles_phase;;
  refresh_verify_phase rows.

Definition detect41257_16Pin : M unit :=
  write16Pin 0 0 0;;
  write16Pin 0 256 0;;
  write16Pin 256 0 0;;
  write16Pin 256 256 0;;
  (* nibble-mode write 1,0,1,0 *)
  or_reg rDDRC 0x02;;
  SET_ADDR_PIN16 0;;
  RAS_LOW16;;
  WE_LOW16;;
  or_reg rPORTC 0x02;;
  NOP;;
  CAS_LOW16;;
  NOP;;
  CAS_HIGH16;;
  andnot_reg rPORTC 0x02;;
  NOP;;
  CAS_LOW16;;
  NOP;;
  CAS_HIGH16;;
  or_reg rPORTC 0x02;;
  NOP;;
  CAS_LOW16;;
  NOP;;
  CAS_HIGH16;;
  andnot_reg rPORTC 0x02;;
  NOP;;
  CAS_LOW16;;
  NOP;;
  NOP;;
  CAS_HIGH16;;
  NOP;;
  WE_HIGH16;;
  NOP;;
  RAS_HIGH16;;
  (* nibble-mode read *)
  andnot_reg rPORTC 0x02;;
  andnot_reg rDDRC 0x02;;
  SET_ADDR_PIN16 0;;
  RAS_LOW16;;
  NOP;;
  CAS_LOW16;;
  NOP;;
  NOP;;
  v0 ← inp_PINC;
  CAS_HIGH16;;
  NOP;;
  CAS_LOW16;;
  NOP;;
  NOP;;
  v1 ← inp_PINC;
  CAS_HIGH16;;
  NOP;;
  CAS_LOW16;;
  NOP;;
  NOP;;
  v2 ← inp_PINC;
  CAS_HIGH16;;
  NOP;;
  CAS_LOW16;;
  NOP;;
  NOP;;
  v3 ← inp_PINC;
  CAS_HIGH16;;
  RAS_HIGH16;;
  or_reg rDDRC 0x02;;
  if negb (Z.land v0 0x04 =? 0) && (Z.land v1 0x04 =? 0)
     && negb (Z.land v2 0x04 =? 0) && (Z.land v3 0x04 =? 0)
  then set_type T_41257
  else ret tt.

Definition test_16Pin : M unit :=
  out chip rDDRB 0x3F (* 0b00111111 *);;
  out chip rPORTB 0x2A (* 0b00101010 *);;
  out chip rDDRC 0x1B (* 0b00011011 *);;
  out chip rPORTC 0x08 (* 0b00001000 *);;
  out chip rDDRD 0xC3 (* 0b11000011 *);;
  out chip rPORTD 0x00;;
  present ← ram_present_16Pin;
  (if present : bool then ret tt else error 0 0 (-1) (-1));;
  sense41256_16Pin;;
  t ← get_type;
  (if t =? T_41256 then detect41257_16Pin else ret tt);;
  t ← get_type;
  (if t =? T_4164 then writeRAMType "4164/3732(?)"
   else writeRAMType (name (ram t)));;
  out chip rDDRB 0x3F (* 0b00111111 *);;
  out chip rPORTB 0x2A (* 0b00101010 *);;
  checkAddressing_16Pin;;
  run_16Pin_tests;;
  t ← get_type;
  (if t =? T_41256 then refreshTimeTest_16Pin else ret tt);;
  testOK.

End Firmware.

(** The state at reset: registers cleared, [type = -1], the random table
    as [generateRandomTable] leaves it in [setup()]. *)
Definition reset_state (d : Dram) : state :=
  {| PORTB := 0; PORTC := 0; PORTD := 0; DDRB := 0; DDRC := 0; DDRD := 0;
     dram := d; type := -1; typeSuffix := "";
     error_in_lower_half := 0; error_in_upper_half := 0;
     randomTable := generateRandomTable randomTable_init; log := [] |}.

End Pin16.
Import Pin16.

(** ** The body of [error()] (4.0.5/common.cpp; timing constants of
  4.1.0/common.h).  The display output under [#ifdef OLED] is left out;
  what is modelled is the LED signalling and the loop that is never
  left. *)

Module Report.

Inductive LedColor := LED_OFF | LED_RED | LED_GREEN | LED_ORANGE.

Inductive signal :=
| SetLED (c : LedColor)
| DelayMs (ms : Z).

Definition BLINK_ON_MS : Z := 500.
Definition BLINK_OFF_MS : Z := 500.
Definition SLOW_BLINK_MS : Z := 1000.
Definition INTER_BLINK_MS : Z := 300.
Definition ERROR_PAUSE_MS : Z := 1500.

Definition blinkLED_color (color : LedColor) (count on_ms off_ms : Z) : list signal :=
  flat_map (fun i =>
              [SetLED color; DelayMs on_ms; SetLED LED_OFF]
              ++ (if i <? count - 1 then [DelayMs off_ms] else []))
           (upto count).

Record blink := { redBlinks : Z; orangeCount : Z; slowMode : bool }.

(** The second [switch (error)]. *)
Definition blink_of (code error : Z) : blink :=
  let none := {| redBlinks := 0; orangeCount := 0; slowMode := false |} in
  if error =? 0 then {| redBlinks := 0; orangeCount := 0; slowMode := true |}
  else if error =? 1 then
    {| redBlinks := 1;
       orangeCount := if (0 <? code) && (code <=? 20) then code else 0;
       slowMode := false |}
  else if error =? 2 then
    {| redBlinks := 2;
       orangeCount := if code <=? 4 then u8 (code + 1) else 6;
       slowMode := false |}
  else if error =? 3 then {| redBlinks := 2; orangeCount := 7; slowMode := false |}
  else if error =? 4 then
    {| redBlinks := 3;
       orangeCount := if (0 <? code) && (code <=? 20) then code else 0;
       slowMode := false |}
  else if error =? 5 then {| redBlinks := 2; orangeCount := 8; slowMode := false |}
  else none.

(** One round of the body of [while (true)]. *)
Definition blink_round (b : blink) : list signal :=
  if slowMode b then
    [SetLED LED_RED; DelayMs SLOW_BLINK_MS; SetLED LED_OFF; DelayMs SLOW_BLINK_MS]
  else
    blinkLED_color LED_RED (redBlinks b) BLINK_ON_MS BLINK_OFF_MS
    ++ [DelayMs INTER_BLINK_MS]
    ++ (if 0 <? orangeCount b
        then blinkLED_color LED_ORANGE (orangeCount b) BLINK_ON_MS BLINK_OFF_MS
        else [])
    ++ [DelayMs ERROR_PAUSE_MS].

(** [while (cond) body] run for at most [fuel] rounds: [Some] is the
    state in which the loop was left, [None] means it is still running. *)
Fixpoint while_loop {S : Type} (fuel : nat) (cond : S -> bool) (body : S -> S)
         (s : S) : option S :=
  match fuel with
  | O => None
  | Datatypes.S f => if cond s then while_loop f cond body (body s) else Some s
  end.

(** The signals after [n] rounds of a loop body. *)
Fixpoint rounds {S : Type} (n : nat) (body : S -> S) (s : S) : S :=
  match n with
  | O => s
  | Datatypes.S k => rounds k body (body s)
  end.

(** [error(code, error, row, col)], from [setupLED()] on: the result is
    the signal trace with which the function returns, if it does. *)
Definition error_body (fuel : nat) (code error row col : Z) : option (list signal) :=
  let b := blink_of code error in
  while_loop fuel (fun _ => true) (fun tr => tr ++ blink_round b) [SetLED LED_OFF].

Definition error_signals (n : nat) (code error row col : Z) : list signal :=
  rounds n (fun tr => tr ++ blink_round (blink_of code error)) [SetLED LED_OFF].

End Report.
Import Report.

(** * Vocabulary of the statements

  Nothing here is firmware: these are the notions in which the
  properties below are stated and proved. *)

Module Spec.

(** ** Address translation and random table *)

Definition translation_check (a : Z) : bool :=
  (reverseTranslate (translate a) =? a)
  && (portb (split_lookup a) =? GET_PB a)
  && (portc (split_lookup a) =? GET_PC a)
  && (portd (split_lookup a) =? GET_PD a)
  && (portb (lut_combined_at a) =? GET_PB a)
  && (portc (lut_combined_at a) =? GET_PC a)
  && (portd (lut_combined_at a) =? GET_PD a).

Definition nibble (x : Z) : Prop := 0 <= x <= 0x0F.

Definition random_entry (i : Z) : Z :=
  let lfsr := lfsr_of i in Z.land (Z.lxor lfsr (Z.shiftr lfsr 8)) 0x0F.

(** ** The pins as the chip sees them

    Per port: the control lines it carries and its share of the
    address. *)

Record pinsB := { ras : bool; we : bool; aB : Z }.
Record pinsC := { cas : bool; din : bool; aC : Z }.
Record pinv := { pB : pinsB; pC : pinsC; aD : Z; dir : bool }.

Definition viewB (pb : Z) : pinsB :=
  {| ras := RAS_pin pb; we := WE_pin pb;
     aB := 8 * bit pb 2 + 16 * bit pb 4 + 64 * bit pb 0 |}.

Definition viewC (pc : Z) : pinsC :=
  {| cas := CAS_pin pc; din := Z.testbit pc 1;
     aC := bit pc 4 + 256 * bit pc 0 |}.

Definition viewD (pd : Z) : Z :=
  2 * bit pd 1 + 4 * bit pd 0 + 32 * bit pd 7 + 128 * bit pd 6.

Definition view (pb pc pd ddrc : Z) : pinv :=
  {| pB := viewB pb; pC := viewC pc; aD := viewD pd; dir := Z.testbit ddrc 1 |}.

Definition pinsB_eqb (x y : pinsB) : bool :=
  Bool.eqb (ras x) (ras y) && Bool.eqb (we x) (we y) && (aB x =? aB y).
Definition pinsC_eqb (x y : pinsC) : bool :=
  Bool.eqb (cas x) (cas y) && Bool.eqb (din x) (din y) && (aC x =? aC y).

Definition pins_of (s : state) : pinv :=
  view (PORTB s) (PORTC s) (PORTD s) (DDRC s).

Definition adr (p : pinv) : Z := aB (pB p) + aC (pC p) + aD p.

Definition with_B (b : pinsB) (p : pinv) : pinv :=
  {| pB := b; pC := pC p; aD := aD p; dir := dir p |}.
Definition with_C (c : pinsC) (p : pinv) : pinv :=
  {| pB := pB p; pC := c; aD := aD p; dir := dir p |}.
Definition with_D (d : Z) (p : pinv) : pinv :=
  {| pB := pB p; pC := pC p; aD := d; dir := dir p |}.
Definition with_dir (x : bool) (p : pinv) : pinv :=
  {| pB := pB p; pC := pC p; aD := aD p; dir := x |}.

(** The parts of an address that travel over each port. *)
Definition partB (a : Z) : Z := Z.land a 0x58.
Definition partC (a : Z) : Z := Z.land a 0x101.
Definition partD (a : Z) : Z := Z.land a 0xA6.

(** The pins after [setAddr16_Random a]. *)
Definition addressed (a : Z) (p : pinv) : pinv :=
  {| pB := {| ras := ras (pB p); we := we (pB p); aB := partB a |};
     pC := {| cas := cas (pC p); din := din (pC p); aC := partC a |};
     aD := partD a; dir := dir p |}.

(** The chip's reaction, in terms of the pins: [r0], [c0] are RAS and
    CAS before the port write, [p] the pins after it. *)
Definition areact (chip : Chip) (r0 c0 : bool) (p : pinv) (d : Dram) : Dram :=
  if r0 && negb (ras (pB p)) then
    if cas (pC p) then
      {| cells := cells d; row_latch := adr p;
         dout := dout d; cbr_count := cbr_count d |}
    else
      {| cells := cells d; row_latch := row_latch d;
         dout := dout d; cbr_count := cbr_count d + 1 |}
  else if c0 && negb (cas (pC p)) && negb (ras (pB p)) then
    let R := row_sel chip (row_latch d) in
    let C := col_sel chip (adr p) in
    if we (pB p) then
      {| cells := cells d; row_latch := row_latch d;
         dout := read_cell chip (cells d) R C; cbr_count := cbr_count d |}
    else
      {| cells := <[(R, C) := din (pC p) && dir p]> (cells d);
         row_latch := row_latch d;
         dout := dout d; cbr_count := cbr_count d |}
  else d.

(** Pins at rest after an access to address [a]; the chip after a
    write and after a read. *)
Definition idle_pins (a : Z) (w di x : bool) : pinv :=
  {| pB := {| ras := true; we := w; aB := partB a |};
     pC := {| cas := true; din := di; aC := partC a |};
     aD := partD a; dir := x |}.

Definition written (chip : Chip) (row col : Z) (v : bool) (d : Dram) : Dram :=
  {| cells := <[(row_sel chip row, col_sel chip col) := v]> (cells d);
     row_latch := row; dout := dout d; cbr_count := cbr_count d |}.

Definition was_read (chip : Chip) (row col : Z) (d : Dram) : Dram :=
  {| cells := cells d; row_latch := row;
     dout := read_cell chip (cells d) (row_sel chip row) (col_sel chip col);
     cbr_count := cbr_count d |}.

(** The registers that matter hold bytes. *)
Definition regs_ok (s : state) : Prop :=
  0 <= PORTB s < 256 /\ 0 <= PORTC s < 256
  /\ 0 <= PORTD s < 256 /\ 0 <= DDRC s < 256.

(** The firmware's globals. *)
Record globs := {
  g_type : Z;
  g_suffix : string;
  g_lower : Z;
  g_upper : Z;
  g_table : list Z;
  g_log : list event
}.

Definition globals (s : state) : globs :=
  {| g_type := type s; g_suffix := typeSuffix s;
     g_lower := error_in_lower_half s; g_upper := error_in_upper_half s;
     g_table := randomTable s; g_log := log s |}.

Definition with_type (t : Z) (g : globs) : globs :=
  {| g_type := t; g_suffix := g_suffix g; g_lower := g_lower g;
     g_upper := g_upper g; g_table := g_table g; g_log := g_log g |}.
Definition with_suffix (x : string) (g : globs) : globs :=
  {| g_type := g_type g; g_suffix := x; g_lower := g_lower g;
     g_upper := g_upper g; g_table := g_table g; g_log := g_log g |}.
Definition with_lower (v : Z) (g : globs) : globs :=
  {| g_type := g_type g; g_suffix := g_suffix g; g_lower := v;
     g_upper := g_upper g; g_table := g_table g; g_log := g_log g |}.
Definition with_upper (v : Z) (g : globs) : globs :=
  {| g_type := g_type g; g_suffix := g_suffix g; g_lower := g_lower g;
     g_upper := v; g_table := g_table g; g_log := g_log g |}.
Definition with_table (t : list Z) (g : globs) : globs :=
  {| g_type := g_type g; g_suffix := g_suffix g; g_lower := g_lower g;
     g_upper := g_upper g; g_table := t; g_log := g_log g |}.
Definition with_log (l : list event) (g : globs) : globs :=
  {| g_type := g_type g; g_suffix := g_suffix g; g_lower := g_lower g;
     g_upper := g_upper g; g_table := g_table g; g_log := l |}.

(** A state seen through pins, chip and globals. *)
Definition abs (s : state) (p : pinv) (d : Dram) (g : globs) : Prop :=
  regs_ok s /\ pins_of s = p /\ dram s = d /\ globals s = g.

(** The control lines at rest: RAS, CAS and WE high. *)
Definition at_rest (s : state) : Prop :=
  regs_ok s /\ RAS_pin (PORTB s) = true /\ CAS_pin (PORTC s) = true
  /\ WE_pin (PORTB s) = true.

Definition pins_rest (p : pinv) : Prop :=
  ras (pB p) = true /\ cas (pC p) = true /\ we (pB p) = true.

End Spec.
Import Spec.

Module Spec2.

(** The cell array after the two probe writes of a sensing step: 0 at
    row 0 and then 1 at row [peer], both in column [col0]. *)
Definition probed (chip : Chip) (peer_row peer_col : Z) (m : gmap (Z * Z) bool)
  : gmap (Z * Z) bool :=
  <[(row_sel chip peer_row, col_sel chip peer_col) := true]>
    (<[(row_sel chip 0, col_sel chip 0) := false]> m).

(** The state right after the port set-up of [test_16Pin], with an
    empty chip in the socket. *)
Definition bench_state : state :=
  {| PORTB := 0x2A; PORTC := 0x08; PORTD := 0x00;
     DDRB := 0x3F; DDRC := 0x1B; DDRD := 0xC3;
     dram := power_on; type := -1; typeSuffix := "";
     error_in_lower_half := 0; error_in_upper_half := 0;
     randomTable := generateRandomTable randomTable_init; log := [] |}.

Definition with_type_state (t : Z) (s : state) : state :=
  final_state (set_type t s).

(** The address with only bit [b] set, as [checkAddressing_16Pin] forms
    it. *)
Definition peer (b : Z) : Z := u16 (Z.shiftl 1 b).

Definition row_bits (t : Z) : Z := countBits (rows (ram t) - 1).
Definition col_bits (t : Z) : Z := countBits (columns (ram t) - 1).

(** All cells store what is written to them. *)
Definition sound_cells (chip : Chip) : Prop := forall R C, stuck chip R C = None.

(** RAS and CAS high; WE may be in either state. *)
Definition strobes_high (s : state) : Prop :=
  regs_ok s /\ RAS_pin (PORTB s) = true /\ CAS_pin (PORTC s) = true.

(** The invariant of the probing loops: RAS and CAS are high. *)
Definition probing (g : globs) (s : state) : Prop :=
  exists p d, abs s p d g /\ ras (pB p) = true /\ cas (pC p) = true.

(** How an outcome ended, and the value a returning run produced. *)
Definition verdict_of {A} (o : outcome A) : option final :=
  match o with Ret _ _ => None | Halt f _ => Some f end.

Definition result_of {A} (o : outcome A) : option A :=
  match o with Ret a _ => Some a | Halt _ _ => None end.

(** A program that can only halt with a final record satisfying [P]. *)
Definition halts_only {A} (P : final -> Prop) (m : M A) : Prop :=
  forall s f s', m s = Halt f s' -> P f.

(** The half-good bookkeeping of a mismatch in row [row], column
    [error_column]: the two flag bytes afterwards. *)
Definition lower_after (row error_column lo : Z) : Z :=
  let lo := if 128 <=? row then lo else u8 (Z.lor lo 0x01) in
  if 128 <=? error_column then lo else u8 (Z.lor lo 0x02).

Definition upper_after (row error_column up : Z) : Z :=
  let up := if 128 <=? row then u8 (Z.lor up 0x01) else up in
  if 128 <=? error_column then u8 (Z.lor up 0x02) else up.

(** The mismatch is swallowed: the type is one of the half-good
    candidates and the two halves have not both shown errors. *)
Definition swallowed (t lo up : Z) : bool :=
  half_good_type t && negb (Z.land (Z.land lo up) 0x03 =? 0x03).

End Spec2.
Import Spec2.

(** ** Vocabulary of the event log *)

Module Spec3.

(** A program that, run with type byte [t], keeps the type byte and
    appends the events [tr] to the log when it returns. *)
Definition logs {A} (t : Z) (tr : list event) (m : M A) : Prop :=
  forall s a s', type s = t -> m s = Ret a s' ->
                 type s' = t /\ log s' = log s ++ tr.

Definition event_eqb (a b : event) : bool :=
  match a, b with
  | EvWriteRow r p, EvWriteRow r' p' => (r =? r') && (p =? p')
  | EvCheckRow r p c, EvCheckRow r' p' c' => (r =? r') && (p =? p') && (c =? c')
  | EvDelay u, EvDelay u' => u =? u'
  | EvRAMType x, EvRAMType y => String.eqb x y
  | _, _ => false
  end.

(** How often [e] occurs in a trace. *)
Definition occurrences (e : event) (tr : list event) : nat :=
  length (filter (event_eqb e) tr).

(** The part of a trace before the first occurrence of [e]. *)
Fixpoint before (e : event) (tr : list event) : list event :=
  match tr with
  | [] => []
  | x :: tr' => if event_eqb e x then [] else x :: before e tr'
  end.

(** The rows written in a trace, in the order of the writes. *)
Definition written_rows (tr : list event) : list Z :=
  flat_map (fun e => match e with EvWriteRow r _ => [r] | _ => [] end) tr.

(** The rows checked in a trace, in the order of the checks. *)
Definition checked_rows (tr : list event) : list Z :=
  flat_map (fun e => match e with EvCheckRow r _ _ => [r] | _ => [] end) tr.

(** The events of [retention_check] for a row of a chip of type [t]. *)
Definition retention_events (t row patNr : Z) : list event :=
  let last_row := u16 (rows (ram t) - 1) in
  let k := delayRows (ram t) in
  if row =? last_row then
    flat_map (fun x => [EvCheckRow (u16 (row - x)) patNr 3;
                        EvDelay (writeTime (ram t) * 20);
                        EvDelay (rd (delays (ram t)) k * 20)])
             (downfrom (s8 k + 1))
  else if k <=? row then
    [EvCheckRow (u16 (row - k)) patNr 3; EvDelay (rd (delays (ram t)) k * 20)]
  else [EvDelay (rd (delays (ram t)) row * 20)].

(** The events of one pass of pattern 4 or 5 over [total_rows] rows. *)
Definition pass_events (t total_rows patNr : Z) : list event :=
  flat_map (fun row => EvWriteRow row patNr :: retention_events t row patNr)
           (upto total_rows).

(** The rows a pass of [run_16Pin_tests] covers. *)
Definition pass_rows (t : Z) : Z :=
  if is_nibble_type t then rows (ram t) / 2 else rows (ram t).

(** *** The refresh-counter test *)

(** The control lines and the direction of PC1 as seen at the pins. *)
Definition pins_are (r c w x : bool) (p : pinv) : Prop :=
  ras (pB p) = r /\ cas (pC p) = c /\ we (pB p) = w /\ dir p = x.

(** A state with control lines [r c w], PC1 direction [x], chip [d] and
    globals [g]. *)
Definition holds (r c w x : bool) (d : Dram) (g : globs) (s : state) : Prop :=
  exists p, abs s p d g /\ pins_are r c w x p.

(** The chip after [n] CAS-before-RAS refresh cycles. *)
Definition refreshed (n : Z) (d : Dram) : Dram :=
  {| cells := cells d; row_latch := row_latch d; dout := dout d;
     cbr_count := cbr_count d + n |}.

(** Bit [col] of the data byte of [row], [randomTable[row & 0xFF]]. *)
Definition refresh_bit (tbl : list Z) (row col : Z) : bool :=
  negb (Z.land (Z.shiftr (rd tbl (Z.land row 0xFF)) col) 0x01 =? 0).

(** The cells after columns [0 .. n-1] of [row] have been written, and
    after the first [rows] rows have been. *)
Definition row_image (chip : Chip) (tbl : list Z) (row n : Z)
           (c : gmap (Z * Z) bool) : gmap (Z * Z) bool :=
  fold_left (fun c col =>
               <[(row_sel chip row, col_sel chip col) := refresh_bit tbl row col]> c)
            (upto n) c.

Definition refresh_image (chip : Chip) (tbl : list Z) (rows : Z)
           (c : gmap (Z * Z) bool) : gmap (Z * Z) bool :=
  fold_left (fun c row => row_image chip tbl row 8 c) (upto rows) c.

(** The read-back of a cell agrees with the data byte of its row. *)
Definition refresh_agrees (chip : Chip) (tbl : list Z) (c : gmap (Z * Z) bool)
           (row col : Z) : bool :=
  Bool.eqb (read_cell chip c (row_sel chip row) (col_sel chip col))
           (refresh_bit tbl row col).

Definition refresh_verified (chip : Chip) (tbl : list Z) (rows : Z)
           (c : gmap (Z * Z) bool) : bool :=
  forallb (fun row => forallb (refresh_agrees chip tbl c row) (upto 8)) (upto rows).

(** The chip tells the row addresses below [rows] apart, and the column
    addresses below [cols]. *)
Definition decodes (chip : Chip) (rows cols : Z) : Prop :=
  (forall a b, 0 <= a < rows -> 0 <= b < rows ->
               row_sel chip a = row_sel chip b -> a = b)
  /\ (forall a b, 0 <= a < cols -> 0 <= b < cols ->
                  col_sel chip a = col_sel chip b -> a = b).

(** *** Signals on the LED *)

Definition LedColor_eqb (a b : LedColor) : bool :=
  match a, b with
  | LED_OFF, LED_OFF | LED_RED, LED_RED
  | LED_GREEN, LED_GREEN | LED_ORANGE, LED_ORANGE => true
  | _, _ => false
  end.

(** How often a trace switches the LED to colour [c], and how long it
    waits in total. *)
Definition led_on_count (c : LedColor) (tr : list signal) : Z :=
  Z.of_nat (length (List.filter (fun x => match x with
                                     | SetLED c' => LedColor_eqb c c'
                                     | DelayMs _ => false
                                     end) tr)).

Definition total_delay (tr : list signal) : Z :=
  fold_right (fun x acc => match x with DelayMs ms => ms + acc | SetLED _ => acc end)
             0 tr.

(** *** Frames *)

(** A program that leaves the component [f] of the state as it was when
    it returns. *)
Definition preserves {X A} (f : state -> X) (m : M A) : Prop :=
  forall s a s', m s = Ret a s' -> f s' = f s.

(** A program that never returns to its caller. *)
Definition never_returns {A} (m : M A) : Prop :=
  forall s, result_of (m s) = None.

(** The finals a run of [test_16Pin] can end in: success, or an error of
    kind 0, 1, 2, 3 or 5 reported without row and column. *)
Definition final_of_test_16Pin (f : final) : Prop :=
  f = TestOK
  \/ f = Error 0 0 (-1) (-1)
  \/ (exists b, 0 <= b /\ (f = Error b 1 (-1) (-1) \/ f = Error (b + 16) 1 (-1) (-1)))
  \/ (exists patNr, 0 <= patNr < 6
        /\ (f = Error (patNr + 1) 2 (-1) (-1) \/ f = Error (patNr + 1) 3 (-1) (-1)))
  \/ f = Error 0 5 (-1) (-1).

(** The type byte and its suffix. *)
Definition type_and_suffix (s : state) : Z * string := (type s, typeSuffix s).

(** The two half-good flag bytes. *)
Definition half_flags (s : state) : Z * Z :=
  (error_in_lower_half s, error_in_upper_half s).

(** The key that [mix8] combines with the column, for a row. *)
Definition row_key (row : Z) : Z :=
  let r := u16 (row + Z.shiftr row 4) in
  u8 (Z.lxor r (Z.shiftr r 8)).

End Spec3.
Import Spec3.

(** ** Vocabulary of the page-mode row access *)

Module Spec4.

(** The bit that patterns 4 and 5 store in a cell: bit 2 of the table
    entry that [mix8] selects. *)
Definition data_bit (tbl : list Z) (col row : Z) : bool :=
  negb (Z.land (rd tbl (mix8 col row)) 0x04 =? 0).

(** Column [c] of chunk [chunk], as [writeRow_16Pin] forms it. *)
Definition page_col (chunk c : Z) : Z := Z.lor (u16 (Z.shiftl chunk 5)) c.

(** The columns of the first [n] chunks in the order of the accesses:
    chunks upwards, the 32 columns of a chunk downwards. *)
Definition page_cols (n : Z) : list Z :=
  flat_map (fun chunk => map (page_col chunk) (downfrom 32)) (upto n).

(** The cells after [row] has been written in the columns [l]. *)
Definition page_image (chip : Chip) (tbl : list Z) (row : Z) (l : list Z)
           (c : gmap (Z * Z) bool) : gmap (Z * Z) bool :=
  fold_left (fun m col =>
               <[(row_sel chip row, col_sel chip col) := data_bit tbl col row]> m)
            l c.

(** Row [row] holds its pattern data in the columns below [cols]. *)
Definition row_holds (chip : Chip) (tbl : list Z) (cols row : Z)
           (c : gmap (Z * Z) bool) : Prop :=
  forall col, 0 <= col < cols ->
    read_cell chip c (row_sel chip row) (col_sel chip col) = data_bit tbl col row.

(** RAS low on a latched row, with WE [w], the direction of PC1 [x] and
    CAS in either state. *)
Definition in_page (w x : bool) (d : Dram) (g : globs) (s : state) : Prop :=
  exists p, abs s p d g /\ ras (pB p) = false /\ we (pB p) = w /\ dir p = x.

(** The cell at ([row], [col]) does not read back as its data bit. *)
Definition cell_mismatch (chip : Chip) (tbl : list Z) (c : gmap (Z * Z) bool)
           (row col : Z) : bool :=
  negb (Bool.eqb (read_cell chip c (row_sel chip row) (col_sel chip col))
                 (data_bit tbl col row)).

(** [error_found] and [error_column] of [checkRow_16Pin] after the
    columns [l] have been compared, in this order. *)
Definition scan_step (chip : Chip) (tbl : list Z) (c : gmap (Z * Z) bool) (row : Z)
           (acc : bool * Z) (col : Z) : bool * Z :=
  let mm := cell_mismatch chip tbl c row col in
  (fst acc || mm, if mm && negb (fst acc) then col else snd acc).

Definition scan_page (chip : Chip) (tbl : list Z) (c : gmap (Z * Z) bool) (row : Z)
           (l : list Z) (acc : bool * Z) : bool * Z :=
  fold_left (scan_step chip tbl c row) l acc.

(** Globals that differ in the log only. *)
Definition same_but_log (g g' : globs) : Prop := exists l, g' = with_log l g.

(** The state between two rows of a pass: control lines at rest, PC1 an
    output, globals [g] up to the log, and the rows below [i] holding
    their data. *)
Definition rows_written (chip : Chip) (g : globs) (cols i : Z) (s : state) : Prop :=
  exists d g', holds true true true true d g' s /\ same_but_log g g'
    /\ forall j, 0 <= j < i -> row_holds chip (g_table g) cols j (cells d).

End Spec4.
Import Spec4.

(** ** Vocabulary of a whole pass *)

Module Spec5.

(** Globals with the two half-good flag bytes replaced. *)
Definition with_flags (lo up : Z) (g : globs) : globs :=
  {| g_type := g_type g; g_suffix := g_suffix g; g_lower := lo;
     g_upper := up; g_table := g_table g; g_log := g_log g |}.

(** The cells after the rows below [i] have been written in the columns
    of their first [n] chunks, in the order of the pass. *)
Definition pass_image (chip : Chip) (tbl : list Z) (n i : Z)
           (c : gmap (Z * Z) bool) : gmap (Z * Z) bool :=
  fold_left (fun c row => page_image chip tbl row (page_cols n) c) (upto i) c.

(** The last row that has been written when row [r] gets its retention
    check, for [k] delay rows and a pass over [total] rows. *)
Definition written_before_check (k total r : Z) : Z := Z.min (r + k) (total - 1).

(** The state between two rows of a pass on any chip: control lines at
    rest, PC1 an output, globals [g] up to the log, and the cells what the
    writes of the rows below [i] made of the cells [c0]. *)
Definition pass_state (chip : Chip) (g : globs) (n : Z) (c0 : gmap (Z * Z) bool)
           (i : Z) (s : state) : Prop :=
  exists d g', holds true true true true d g' s /\ same_but_log g g'
    /\ cells d = pass_image chip (g_table g) n i c0.

(** *** The fast pattern test *)

(** The address bits that [fastPatternTest_16Pin] drives on each port
    for its loop indices: [pb_i] on PB0, PB2, PB4 (A6, A3, A4), [pc_i] on
    PC4, PC0 (A0, A8), [k] on PD0, PD1, PD6, PD7 (A2, A1, A7, A5). *)
Definition fastB (pb_i : Z) : Z := 8 * bit pb_i 1 + 16 * bit pb_i 2 + 64 * bit pb_i 0.
Definition fastC (pc_i : Z) : Z := bit pc_i 0 + 256 * bit pc_i 1.
Definition fastD (k : Z) : Z :=
  2 * bit k 1 + 4 * bit k 0 + 32 * bit k 3 + 128 * bit k 2.

(** The column addressed in step ([pc_i], [pb_i], [k]). *)
Definition fast_col (pc_i pb_i k : Z) : Z := fastB pb_i + fastC pc_i + fastD k.

(** The loop indices that address column [col]. *)
Definition fast_pc_of (col : Z) : Z := bit col 0 + 2 * bit col 8.
Definition fast_pb_of (col : Z) : Z := bit col 6 + 2 * bit col 3 + 4 * bit col 4.
Definition fast_k_of (col : Z) : Z :=
  bit col 2 + 2 * bit col 1 + 4 * bit col 7 + 8 * bit col 5.

(** The bit that pattern [patNr] (0 to 3) stores in the cells of column
    [col] and expects back: it depends on A0 only. *)
Definition fast_bit (patNr col : Z) : bool :=
  negb ((if Z.odd col then fast_din_a0_1 patNr else fast_din_a0_0 patNr) =? 0).

(** The columns of one row in the order of the accesses of the fast
    pattern test, for [num_pc] values of [pc_i]. *)
Definition fast_cols (num_pc : Z) : list Z :=
  flat_map (fun pc_i =>
    flat_map (fun pb_i => map (fast_col pc_i pb_i) (upto 16)) (upto 8))
    (upto num_pc).

(** The cells after [row] has been written in the columns [l] under
    pattern [patNr]. *)
Definition fast_image (chip : Chip) (patNr row : Z) (l : list Z)
           (c : gmap (Z * Z) bool) : gmap (Z * Z) bool :=
  fold_left (fun m col =>
               <[(row_sel chip row, col_sel chip col) := fast_bit patNr col]> m)
            l c.

(** Row [row] reads back as pattern [patNr] in the columns below [cols]. *)
Definition fast_row_holds (chip : Chip) (patNr cols row : Z)
           (c : gmap (Z * Z) bool) : Prop :=
  forall col, 0 <= col < cols ->
    read_cell chip c (row_sel chip row) (col_sel chip col) = fast_bit patNr col.

(** The cells after the rows below [i] have been written by the fast
    pattern test. *)
Definition fast_pass_image (chip : Chip) (patNr num_pc i : Z)
           (c : gmap (Z * Z) bool) : gmap (Z * Z) bool :=
  fold_left (fun c row => fast_image chip patNr row (fast_cols num_pc) c) (upto i) c.

(** The state between two rows of the fast pattern test: CAS and WE
    high, RAS high once a row has been done, the globals [g], and the
    cells what the writes of the rows below [i] made of [c0]. *)
Definition fast_state (chip : Chip) (g : globs) (patNr num_pc : Z)
           (c0 : gmap (Z * Z) bool) (i : Z) (s : state) : Prop :=
  exists r x rl dn cnt,
    (0 < i -> r = true)
    /\ holds r true true x
             {| cells := fast_pass_image chip patNr num_pc i c0; row_latch := rl;
                dout := dn; cbr_count := cnt |} g s.

(** [num_pc] of [fastPatternTest_16Pin] for a type. *)
Definition fast_num_pc (t : Z) : Z := if 256 <? columns (ram t) then 4 else 2.

(** *** The log of a run that may halt *)

(** A program that, run with type byte [t], keeps the type byte and
    appends the events [tr] to the log when it returns, and has appended
    a part of them, from the start on, when it halts. *)
Definition traces {A} (t : Z) (tr : list event) (m : M A) : Prop :=
  forall s, type s = t ->
    match m s with
    | Ret _ s' => type s' = t /\ log s' = log s ++ tr
    | Halt _ s' => exists done rest, tr = done ++ rest /\ log s' = log s ++ done
    end.

(** The rows whose retention check follows the write of row [i], in the
    order of the checks, for [n] rows and [k] delay rows. *)
Definition checks_after (n k i : Z) : list Z :=
  if i =? n - 1 then map (fun x => i - x) (downfrom (k + 1))
  else if k <=? i then [i - k] else [].

(** The table entry of a type allows the staggering: the delay rows fit
    [int8_t] and the array, and the pass covers the whole array unless
    there are no delay rows. *)
Definition staggers (t total : Z) : Prop :=
  0 <= delayRows (ram t) < 128
  /\ delayRows (ram t) < rows (ram t) <= 65536
  /\ (total = rows (ram t)
      \/ (delayRows (ram t) = 0 /\ 0 <= total < rows (ram t))).

(** The report of a retention mismatch and of a pattern mismatch. *)
Definition retention_fault (patNr : Z) : final := Error (u8 (patNr + 1)) 3 (-1) (-1).
Definition pattern_fault (patNr : Z) : final := Error (u8 (patNr + 1)) 2 (-1) (-1).

End Spec5.
Import Spec5.

(** * Part II: properties *)

(** ** Index ranges *)

Section Ranges.

Lemma upto_length n : length (upto n) = Z.to_nat n.
Proof. unfold upto. now rewrite length_map, length_seq. Qed.

Lemma in_upto n x : In x (upto n) <-> 0 <= x < n.
Proof.
  unfold upto. rewrite in_map_iff. split.
  - intros (k & <- & Hk). apply in_seq in Hk. lia.
  - intros H. exists (Z.to_nat x). split; [lia|]. apply in_seq. lia.
Qed.

Lemma upto_succ n : 0 <= n -> upto (n + 1) = upto n ++ [n].
Proof.
  intros Hn. unfold upto.
  replace (Z.to_nat (n + 1)) with (S (Z.to_nat n)) by lia.
  rewrite seq_S, map_app. simpl. now rewrite Z2Nat.id.
Qed.

Lemma upto_nonpos n : n <= 0 -> upto n = [].
Proof. intros H. unfold upto. now replace (Z.to_nat n) with O by lia. Qed.

Lemma nth_upto n i : 0 <= i < n -> nth (Z.to_nat i) (upto n) 0 = i.
Proof.
  intros H. unfold upto.
  change (nth (Z.to_nat i) (map Z.of_nat (seq 0 (Z.to_nat n))) (Z.of_nat 0) = i).
  rewrite map_nth, seq_nth by lia. lia.
Qed.

(** Checking a decidable property over a whole index range by
    evaluation. *)
Lemma forallb_upto (P : Z -> bool) n :
  forallb P (upto n) = true -> forall x, 0 <= x < n -> P x = true.
Proof.
  intros H x Hx. rewrite forallb_forall in H. apply H, in_upto, Hx.
Qed.

Lemma rd_map (f : Z -> Z) n i :
  0 <= i < n -> f 0 = f 0 -> rd (map f (upto n)) i = f i.
Proof.
  intros H _. unfold rd.
  rewrite (nth_indep _ 0 (f 0)) by (rewrite length_map, upto_length; lia).
  now rewrite map_nth, nth_upto.
Qed.

End Ranges.

(** ** Address translation *)

Section Translation.

Lemma translation_checked : forallb translation_check (upto 512) = true.
Proof. vm_compute. reflexivity. Qed.

Lemma translation_facts a :
  0 <= a < 512 ->
  reverseTranslate (translate a) = a
  /\ split_lookup a = translate a
  /\ lut_combined_at a = translate a.
Proof.
  intros Ha.
  pose proof (forallb_upto _ _ translation_checked a Ha) as H.
  unfold translation_check in H.
  repeat (apply andb_prop in H; destruct H as [H ?]).
  repeat match goal with E : (_ =? _) = true |- _ => apply Z.eqb_eq in E end.
  split; [assumption|].
  unfold translate.
  split.
  - destruct (split_lookup a); simpl in *; congruence.
  - destruct (lut_combined_at a); simpl in *; congruence.
Qed.

(** C6.  On the 9-bit address range the scattering of address bits
    over PORTB, PORTC and PORTD is undone by reading the address back
    from the pins (the wiring of 16Pin.h), so distinct addresses give
    distinct port patterns; the split tables of 4.0.6 and the combined
    table of 3.0.1 hold exactly these patterns. *)
Theorem address_translation_roundtrip (a b : Z) :
  0 <= a < 512 -> 0 <= b < 512 ->
  reverseTranslate (translate a) = a
  /\ split_lookup a = translate a
  /\ lut_combined_at a = translate a
  /\ (translate a = translate b -> a = b).
Proof.
  intros Ha Hb.
  destruct (translation_facts a Ha) as (Hr & Hs & Hc).
  destruct (translation_facts b Hb) as (Hrb & _ & _).
  repeat split; try assumption.
  intros E. rewrite <- Hr, <- Hrb. now rewrite E.
Qed.

Lemma address_translation_roundtrip_witness :
  reverseTranslate (translate 300) = 300
  /\ split_lookup 300 = translate 300
  /\ lut_combined_at 300 = translate 300
  /\ (translate 300 = translate 45 -> 300 = 45).
Proof. apply (address_translation_roundtrip 300 45); lia. Defined.

End Translation.

(** ** The random table *)

Section RandomTable.

Lemma land_15_nibble x : nibble (Z.land x 0x0F).
Proof.
  unfold nibble. change 0x0F with (Z.ones 4). rewrite Z.land_ones by lia.
  change (2 ^ 4) with 16. change (Z.ones 4) with 15.
  pose proof (Z.mod_pos_bound x 16). lia.
Qed.

Lemma invert_nibble x : nibble (Z.lxor (Z.land x 0x0F) 0x0F).
Proof.
  pose proof (land_15_nibble x) as H. unfold nibble in *.
  assert (forallb (fun y => (0 <=? Z.lxor y 0x0F) && (Z.lxor y 0x0F <=? 0x0F)) (upto 16) = true)
    as C by (vm_compute; reflexivity).
  pose proof (forallb_upto _ _ C (Z.land x 15) ltac:(lia)) as D.
  apply andb_prop in D. lia.
Qed.

Lemma invert_twice_nibble x : nibble x ->
  Z.lxor (Z.land (Z.lxor (Z.land x 0x0F) 0x0F) 0x0F) 0x0F = x.
Proof.
  intros H. unfold nibble in H.
  assert (forallb (fun y => Z.lxor (Z.land (Z.lxor (Z.land y 0x0F) 0x0F) 0x0F) 0x0F =? y)
                  (upto 16) = true) as C by (vm_compute; reflexivity).
  pose proof (forallb_upto _ _ C x ltac:(lia)) as D.
  cbv beta in D. now apply Z.eqb_eq in D.
Qed.

(** A loop that stores [g i (t[i])] at every index [i < n] is a map over
    the first [n] entries. *)
Lemma store_loop (step : list Z -> Z -> list Z) (g : nat -> Z -> Z)
      (n : nat) (t : list Z) :
  (forall t i, step t (Z.of_nat i) = <[i := g i (nth i t 0)]> t) ->
  (n <= length t)%nat ->
  fold_left step (map Z.of_nat (seq 0 n)) t = imap g (take n t) ++ drop n t.
Proof.
  intros Hstep. induction n as [|n IH]; intros Hn.
  - simpl. now rewrite drop_0.
  - rewrite seq_S, map_app, fold_left_app, IH by lia. simpl.
    rewrite Hstep.
    assert (Hlen : length (imap g (take n t)) = n)
      by (rewrite length_imap, length_take; lia).
    destruct (drop n t) as [|x rest] eqn:Hd.
    { apply (f_equal length) in Hd. rewrite length_drop in Hd. simpl in Hd. lia. }
    rewrite app_nth2 by lia. rewrite Hlen, Nat.sub_diag. simpl.
    rewrite insert_app_r_alt by lia. rewrite Hlen, Nat.sub_diag. simpl.
    assert (Hx : t !! n = Some x).
    { rewrite <- (take_drop n t), Hd.
      rewrite lookup_app_r by (rewrite length_take; lia).
      rewrite length_take. replace (n - n `min` length t)%nat with O by lia.
      reflexivity. }
    rewrite (take_S_r t n x Hx).
    rewrite imap_app, length_take. replace (n `min` length t)%nat with n by lia.
    simpl. rewrite Nat.add_0_r, <- app_assoc. simpl.
    f_equal. f_equal.
    change rest with (drop 1 (x :: rest)). rewrite <- Hd, drop_drop.
    f_equal. lia.
Qed.

Lemma imap_const_map {A B} (f : A -> B) (l : list A) : imap (fun _ => f) l = map f l.
Proof. induction l as [|x l IH]; [reflexivity|]. simpl. f_equal. apply IH. Qed.

Lemma invertRandomTable_map t :
  length t = 256%nat ->
  invertRandomTable t = map (fun x => Z.lxor (Z.land x 0x0F) 0x0F) t.
Proof.
  intros Hl. unfold invertRandomTable, upto.
  rewrite (store_loop _ (fun _ x => Z.lxor (Z.land x 0x0F) 0x0F)).
  - change (Z.to_nat 256) with 256%nat.
    rewrite <- Hl, firstn_all, drop_all, app_nil_r. apply imap_const_map.
  - intros t' i. unfold rd. rewrite Nat2Z.id. reflexivity.
  - rewrite Hl. apply Nat.le_refl.
Qed.

Lemma imap_seq_map {A} (g : nat -> Z) (l : list A) :
  imap (fun i _ => g i) l = map g (seq 0 (length l)).
Proof.
  assert (G : forall k, imap (fun i _ => g (k + i)%nat) l = map g (seq k (length l))).
  { induction l as [|x l IH]; intros k; [reflexivity|].
    simpl. rewrite Nat.add_0_r. f_equal.
    rewrite <- IH. apply imap_ext. intros. simpl. f_equal. lia. }
  apply (G O).
Qed.

Lemma generateRandomTable_map t :
  length t = 256%nat ->
  generateRandomTable t = map random_entry (upto 256).
Proof.
  intros Hl. unfold generateRandomTable, upto.
  rewrite (store_loop _ (fun i _ => random_entry (Z.of_nat i))).
  - change (Z.to_nat 256) with 256%nat.
    rewrite <- Hl, firstn_all, drop_all, app_nil_r.
    rewrite (imap_seq_map (fun i => random_entry (Z.of_nat i))).
    now rewrite map_map.
  - intros t' i. unfold random_entry. cbv beta zeta. rewrite Nat2Z.id. reflexivity.
  - rewrite Hl. apply Nat.le_refl.
Qed.

Lemma invertRandomTable_length t : length (invertRandomTable t) = length t.
Proof.
  unfold invertRandomTable. generalize (upto 256). intros l. revert t.
  induction l as [|i l IH]; intros t; [reflexivity|].
  simpl. rewrite IH. apply length_insert.
Qed.

Lemma generateRandomTable_length t : length (generateRandomTable t) = length t.
Proof.
  unfold generateRandomTable. generalize (upto 256). intros l. revert t.
  induction l as [|i l IH]; intros t; [reflexivity|].
  simpl. rewrite IH. apply length_insert.
Qed.

Lemma table_reachable_length t : table_reachable t -> length t = 256%nat.
Proof.
  induction 1.
  - reflexivity.
  - now rewrite generateRandomTable_length.
  - now rewrite invertRandomTable_length.
Qed.

Lemma generated_nibbles t :
  length t = 256%nat -> Forall nibble (generateRandomTable t).
Proof.
  intros Hl. rewrite generateRandomTable_map by assumption.
  apply List.Forall_forall. intros x Hx. apply in_map_iff in Hx.
  destruct Hx as (i & <- & _). apply land_15_nibble.
Qed.

Lemma inverted_nibbles t :
  length t = 256%nat -> Forall nibble (invertRandomTable t).
Proof.
  intros Hl. rewrite invertRandomTable_map by assumption.
  apply List.Forall_forall. intros x Hx. apply in_map_iff in Hx.
  destruct Hx as (i & <- & _). apply invert_nibble.
Qed.

Lemma table_reachable_nibbles t : table_reachable t -> Forall nibble t.
Proof.
  induction 1 as [|t Ht IH|t Ht IH].
  - apply List.Forall_forall. intros x Hx. unfold randomTable_init in Hx.
    apply list_elem_of_In, elem_of_replicate in Hx. destruct Hx as [-> _].
    unfold nibble; lia.
  - apply generated_nibbles, table_reachable_length, Ht.
  - apply inverted_nibbles, table_reachable_length, Ht.
Qed.

Lemma invert_involutive_on_nibbles t :
  length t = 256%nat -> Forall nibble t ->
  invertRandomTable (invertRandomTable t) = t.
Proof.
  intros Hl Hn.
  rewrite (invertRandomTable_map (invertRandomTable t))
    by (now rewrite invertRandomTable_length).
  rewrite invertRandomTable_map by assumption.
  rewrite map_map. rewrite <- (map_id t) at 2.
  apply map_ext_in. intros x Hx.
  apply invert_twice_nibble. rewrite List.Forall_forall in Hn. now apply Hn.
Qed.

(** C7.  Evaluating [randomTable[mix8(col, row)]] leaves the state
    untouched and yields a byte that depends on the column, the row and
    the table contents only; and on every table the firmware can reach,
    inverting twice restores the table. *)
Theorem random_data_pure_and_inversion_involutive :
  (forall (s1 s2 : state) (col row : Z),
      randomTable s1 = randomTable s2 ->
      randomTable_at (mix8 col row) s1 = Ret (expected (randomTable s1) col row) s1
      /\ randomTable_at (mix8 col row) s2 = Ret (expected (randomTable s1) col row) s2)
  /\ (forall t, table_reachable t ->
                invertRandomTable (invertRandomTable t) = t).
Proof.
  split.
  - intros s1 s2 col row E. unfold randomTable_at, expected.
    now rewrite E.
  - intros t Ht. apply invert_involutive_on_nibbles.
    + now apply table_reachable_length.
    + now apply table_reachable_nibbles.
Qed.

(** C10.  [generateRandomTable] leaves only 4-bit entries,
    [invertRandomTable] keeps it that way, so every reachable table is
    made of 4-bit values; on such tables double inversion is the
    identity. *)
Theorem random_table_entries_are_nibbles (t : list Z) :
  length t = 256%nat ->
  Forall nibble (generateRandomTable t)
  /\ Forall nibble (invertRandomTable t)
  /\ (forall t', table_reachable t' -> Forall nibble t')
  /\ (Forall nibble t -> invertRandomTable (invertRandomTable t) = t).
Proof.
  intros Hl. repeat split.
  - now apply generated_nibbles.
  - now apply inverted_nibbles.
  - apply table_reachable_nibbles.
  - now apply invert_involutive_on_nibbles.
Qed.

Lemma random_table_entries_are_nibbles_witness :
  Forall nibble (generateRandomTable randomTable_init)
  /\ Forall nibble (invertRandomTable randomTable_init)
  /\ (forall t', table_reachable t' -> Forall nibble t')
  /\ (Forall nibble randomTable_init ->
      invertRandomTable (invertRandomTable randomTable_init) = randomTable_init).
Proof. apply (random_table_entries_are_nibbles randomTable_init). reflexivity. Defined.

(** Without the 4-bit invariant the double inversion is not the
    identity: it clears the upper nibble. *)
Example invert_twice_clears_upper_nibble :
  invertRandomTable (invertRandomTable (replicate 256 0x1B)) = replicate 256 0x0B.
Proof. vm_compute. reflexivity. Qed.

End RandomTable.

(** ** The monad *)

Section MonadLaws.

Lemma bind_ret_step {A B} (m : M A) (k : A -> M B) s a s' :
  m s = Ret a s' -> bind m k s = k a s'.
Proof. intros H. unfold bind. now rewrite H. Qed.

Lemma bind_halt_step {A B} (m : M A) (k : A -> M B) s f s' :
  m s = Halt f s' -> bind m k s = Halt f s'.
Proof. intros H. unfold bind. now rewrite H. Qed.

Lemma bind_assoc {A B C} (m : M A) (k1 : A -> M B) (k2 : B -> M C) s :
  bind (bind m k1) k2 s = bind m (fun a => bind (k1 a) k2) s.
Proof. unfold bind. now destruct (m s). Qed.

Lemma bind_ret_l {A B} (a : A) (k : A -> M B) s : bind (ret a) k s = k a s.
Proof. reflexivity. Qed.

Lemma for_each_app {A} (l1 l2 : list A) (body : A -> M unit) s :
  for_each (l1 ++ l2) body s = bind (for_each l1 body) (fun _ => for_each l2 body) s.
Proof.
  revert s. induction l1 as [|x l1 IH]; intros s; simpl.
  - reflexivity.
  - unfold bind in *. destruct (body x s) as [[] s1|f s1]; [|reflexivity].
    apply IH.
Qed.

Lemma foldM_app {A B} (l1 l2 : list A) (acc : B) (body : B -> A -> M B) s :
  foldM (l1 ++ l2) acc body s
  = bind (foldM l1 acc body) (fun acc' => foldM l2 acc' body) s.
Proof.
  revert acc s. induction l1 as [|x l1 IH]; intros acc s; simpl.
  - reflexivity.
  - unfold bind in *. destruct (body acc x s) as [acc1 s1|f s1]; [|reflexivity].
    apply IH.
Qed.

End MonadLaws.

(** ** Port values seen as pins: facts checked over all byte values *)

Section PortFacts.

Lemma forallb_upto2 (P : Z -> Z -> bool) n m :
  forallb (fun x => forallb (P x) (upto m)) (upto n) = true ->
  forall x y, 0 <= x < n -> 0 <= y < m -> P x y = true.
Proof.
  intros H x y Hx Hy.
  pose proof (forallb_upto _ _ H x Hx) as H1. cbv beta in H1.
  exact (forallb_upto _ _ H1 y Hy).
Qed.

Lemma pinsB_eqb_eq x y : pinsB_eqb x y = true -> x = y.
Proof.
  destruct x, y. unfold pinsB_eqb. simpl. intros H.
  apply andb_prop in H. destruct H as [H H3].
  apply andb_prop in H. destruct H as [H1 H2].
  apply Bool.eqb_prop in H1, H2. apply Z.eqb_eq in H3. congruence.
Qed.

Lemma pinsC_eqb_eq x y : pinsC_eqb x y = true -> x = y.
Proof.
  destruct x, y. unfold pinsC_eqb. simpl. intros H.
  apply andb_prop in H. destruct H as [H H3].
  apply andb_prop in H. destruct H as [H1 H2].
  apply Bool.eqb_prop in H1, H2. apply Z.eqb_eq in H3. congruence.
Qed.

Lemma u8_range x : 0 <= u8 x < 256.
Proof. unfold u8. apply Z.mod_pos_bound. lia. Qed.

(** Setting and clearing RAS (PB1) and WE (PB3). *)
Lemma viewB_sbi1 pb : 0 <= pb < 256 ->
  viewB (u8 (Z.lor pb (Z.shiftl 1 1)))
  = {| ras := true; we := we (viewB pb); aB := aB (viewB pb) |}.
Proof.
  intros H. apply pinsB_eqb_eq. revert pb H. apply forallb_upto.
  vm_compute. reflexivity.
Qed.

Lemma viewB_cbi1 pb : 0 <= pb < 256 ->
  viewB (u8 (Z.land pb (Z.lnot (Z.shiftl 1 1))))
  = {| ras := false; we := we (viewB pb); aB := aB (viewB pb) |}.
Proof.
  intros H. apply pinsB_eqb_eq. revert pb H. apply forallb_upto.
  vm_compute. reflexivity.
Qed.

Lemma viewB_sbi3 pb : 0 <= pb < 256 ->
  viewB (u8 (Z.lor pb (Z.shiftl 1 3)))
  = {| ras := ras (viewB pb); we := true; aB := aB (viewB pb) |}.
Proof.
  intros H. apply pinsB_eqb_eq. revert pb H. apply forallb_upto.
  vm_compute. reflexivity.
Qed.

Lemma viewB_cbi3 pb : 0 <= pb < 256 ->
  viewB (u8 (Z.land pb (Z.lnot (Z.shiftl 1 3))))
  = {| ras := ras (viewB pb); we := false; aB := aB (viewB pb) |}.
Proof.
  intros H. apply pinsB_eqb_eq. revert pb H. apply forallb_upto.
  vm_compute. reflexivity.
Qed.

(** Setting and clearing CAS (PC3) and Din (PC1). *)
Lemma viewC_sbi3 pc : 0 <= pc < 256 ->
  viewC (u8 (Z.lor pc (Z.shiftl 1 3)))
  = {| cas := true; din := din (viewC pc); aC := aC (viewC pc) |}.
Proof.
  intros H. apply pinsC_eqb_eq. revert pc H. apply forallb_upto.
  vm_compute. reflexivity.
Qed.

Lemma viewC_cbi3 pc : 0 <= pc < 256 ->
  viewC (u8 (Z.land pc (Z.lnot (Z.shiftl 1 3))))
  = {| cas := false; din := din (viewC pc); aC := aC (viewC pc) |}.
Proof.
  intros H. apply pinsC_eqb_eq. revert pc H. apply forallb_upto.
  vm_compute. reflexivity.
Qed.

Lemma viewC_or2 pc : 0 <= pc < 256 ->
  viewC (u8 (Z.lor pc 0x02))
  = {| cas := cas (viewC pc); din := true; aC := aC (viewC pc) |}.
Proof.
  intros H. apply pinsC_eqb_eq. revert pc H. apply forallb_upto.
  vm_compute. reflexivity.
Qed.

Lemma viewC_andnot2 pc : 0 <= pc < 256 ->
  viewC (u8 (Z.land pc (Z.lnot 0x02)))
  = {| cas := cas (viewC pc); din := false; aC := aC (viewC pc) |}.
Proof.
  intros H. apply pinsC_eqb_eq. revert pc H. apply forallb_upto.
  vm_compute. reflexivity.
Qed.

(** The direction of PC1. *)
Lemma dir_or2 ddrc : 0 <= ddrc < 256 -> Z.testbit (u8 (Z.lor ddrc 0x02)) 1 = true.
Proof.
  intros H. apply Bool.eqb_prop. revert ddrc H.
  apply (forallb_upto (fun x => Bool.eqb (Z.testbit (u8 (Z.lor x 0x02)) 1) true)).
  vm_compute. reflexivity.
Qed.

Lemma dir_andnot2 ddrc : 0 <= ddrc < 256 ->
  Z.testbit (u8 (Z.land ddrc (Z.lnot 0x02))) 1 = false.
Proof.
  intros H. apply Bool.eqb_prop. revert ddrc H.
  apply (forallb_upto (fun x => Bool.eqb (Z.testbit (u8 (Z.land x (Z.lnot 0x02))) 1) false)).
  vm_compute. reflexivity.
Qed.

(** [setAddr16_Random]: each port keeps its control lines and takes its
    part of the address. *)
Lemma viewB_setaddr pb a : 0 <= pb < 256 -> 0 <= a < 512 ->
  viewB (u8 (Z.lor (Z.lor (Z.land pb 0xEA) (rd lut_16_low_b (u8 (Z.land a 0x1F))))
                   (rd lut_16_high_b (u8 (Z.shiftr a 5)))))
  = {| ras := ras (viewB pb); we := we (viewB pb); aB := partB a |}.
Proof.
  intros H1 H2. apply pinsB_eqb_eq. revert pb a H1 H2. apply forallb_upto2.
  vm_compute. reflexivity.
Qed.

Lemma viewC_setaddr pc a : 0 <= pc < 256 -> 0 <= a < 512 ->
  viewC (u8 (Z.lor (Z.lor (Z.land pc 0xEE) (rd lut_16_low_c (u8 (Z.land a 0x1F))))
                   (rd lut_16_high_c (u8 (Z.shiftr a 5)))))
  = {| cas := cas (viewC pc); din := din (viewC pc); aC := partC a |}.
Proof.
  intros H1 H2. apply pinsC_eqb_eq. revert pc a H1 H2. apply forallb_upto2.
  vm_compute. reflexivity.
Qed.

Lemma viewD_setaddr pd a : 0 <= pd < 256 -> 0 <= a < 512 ->
  viewD (u8 (Z.lor (Z.lor (Z.land pd 0x3C) (rd lut_16_low_d (u8 (Z.land a 0x1F))))
                   (rd lut_16_high_d (u8 (Z.shiftr a 5)))))
  = partD a.
Proof.
  intros H1 H2. apply Z.eqb_eq. revert pd a H1 H2. apply forallb_upto2.
  vm_compute. reflexivity.
Qed.

Lemma parts_sum a : 0 <= a < 512 -> partB a + partC a + partD a = a.
Proof.
  intros H. apply Z.eqb_eq. revert a H. apply forallb_upto.
  vm_compute. reflexivity.
Qed.

End PortFacts.

(** ** Port writes seen through the pins *)

Section Steps.

Variable chip : Chip.

Lemma addr_pins_view pb pc pd ddrc : addr_pins pb pc pd = adr (view pb pc pd ddrc).
Proof. unfold addr_pins, adr, view, viewB, viewC, viewD. simpl. ring. Qed.

Lemma react_areact pb0 pc0 pb pc pd ddrc d :
  react chip pb0 pc0 pb pc pd ddrc d
  = areact chip (RAS_pin pb0) (CAS_pin pc0) (view pb pc pd ddrc) d.
Proof.
  unfold react, areact. rewrite (addr_pins_view pb pc pd ddrc).
  reflexivity.
Qed.

Lemma abs_out_B v s p d g :
  abs s p d g ->
  exists s', out chip rPORTB v s = Ret tt s'
    /\ abs s' (with_B (viewB (u8 v)) p)
           (areact chip (ras (pB p)) (cas (pC p)) (with_B (viewB (u8 v)) p) d) g.
Proof.
  intros (Hr & Hp & Hd & Hg). eexists. split; [reflexivity|].
  unfold abs, regs_ok, pins_of, globals in *. simpl.
  rewrite react_areact. subst p d. simpl.
  pose proof (u8_range v). repeat split; try tauto; try lia; assumption.
Qed.

Lemma abs_out_C v s p d g :
  abs s p d g ->
  exists s', out chip rPORTC v s = Ret tt s'
    /\ abs s' (with_C (viewC (u8 v)) p)
           (areact chip (ras (pB p)) (cas (pC p)) (with_C (viewC (u8 v)) p) d) g.
Proof.
  intros (Hr & Hp & Hd & Hg). eexists. split; [reflexivity|].
  unfold abs, regs_ok, pins_of, globals in *. simpl.
  rewrite react_areact. subst p d. simpl.
  pose proof (u8_range v). repeat split; try tauto; try lia; assumption.
Qed.

Lemma abs_out_D v s p d g :
  abs s p d g ->
  exists s', out chip rPORTD v s = Ret tt s'
    /\ abs s' (with_D (viewD (u8 v)) p)
           (areact chip (ras (pB p)) (cas (pC p)) (with_D (viewD (u8 v)) p) d) g.
Proof.
  intros (Hr & Hp & Hd & Hg). eexists. split; [reflexivity|].
  unfold abs, regs_ok, pins_of, globals in *. simpl.
  rewrite react_areact. subst p d. simpl.
  pose proof (u8_range v). repeat split; try tauto; try lia; assumption.
Qed.

Lemma abs_out_DDRC v s p d g :
  abs s p d g ->
  exists s', out chip rDDRC v s = Ret tt s'
    /\ abs s' (with_dir (Z.testbit (u8 v) 1) p)
           (areact chip (ras (pB p)) (cas (pC p)) (with_dir (Z.testbit (u8 v) 1) p) d) g.
Proof.
  intros (Hr & Hp & Hd & Hg). eexists. split; [reflexivity|].
  unfold abs, regs_ok, pins_of, globals in *. simpl.
  rewrite react_areact. subst p d. simpl.
  pose proof (u8_range v). repeat split; try tauto; try lia; assumption.
Qed.

(** No edge on RAS or CAS: the chip does not react. *)
Lemma areact_quiet r0 c0 p d :
  (r0 && negb (ras (pB p))) = false ->
  (c0 && negb (cas (pC p)) && negb (ras (pB p))) = false ->
  areact chip r0 c0 p d = d.
Proof. intros H1 H2. unfold areact. now rewrite H1, H2. Qed.

Lemma abs_PORTB s p d g : abs s p d g -> 0 <= PORTB s < 256 /\ viewB (PORTB s) = pB p.
Proof. intros (Hr & Hp & _). subst p. unfold regs_ok in Hr. simpl. tauto. Qed.

Lemma abs_PORTC s p d g : abs s p d g -> 0 <= PORTC s < 256 /\ viewC (PORTC s) = pC p.
Proof. intros (Hr & Hp & _). subst p. unfold regs_ok in Hr. simpl. tauto. Qed.

Lemma abs_PORTD s p d g : abs s p d g -> 0 <= PORTD s < 256 /\ viewD (PORTD s) = aD p.
Proof. intros (Hr & Hp & _). subst p. unfold regs_ok in Hr. simpl. tauto. Qed.

Lemma abs_DDRC s p d g : abs s p d g -> 0 <= DDRC s < 256 /\ Z.testbit (DDRC s) 1 = dir p.
Proof. intros (Hr & Hp & _). subst p. unfold regs_ok in Hr. simpl. tauto. Qed.

(** The control-line macros. *)
Lemma step_RAS_HIGH16 s p d g :
  abs s p d g ->
  exists s', RAS_HIGH16 chip s = Ret tt s'
    /\ abs s' (with_B {| ras := true; we := we (pB p); aB := aB (pB p) |} p) d g.
Proof.
  intros H. destruct (abs_PORTB _ _ _ _ H) as (Hb & Hv).
  destruct (abs_out_B (Z.lor (PORTB s) (Z.shiftl 1 1)) _ _ _ _ H) as (s' & E & H').
  exists s'. split; [exact E|].
  rewrite viewB_sbi1, Hv in H' by assumption.
  rewrite areact_quiet in H'; [exact H'| |]; simpl;
    destruct (ras (pB p)), (cas (pC p)); reflexivity.
Qed.

Lemma step_RAS_LOW16 s p d g :
  abs s p d g ->
  exists s', RAS_LOW16 chip s = Ret tt s'
    /\ let p' := with_B {| ras := false; we := we (pB p); aB := aB (pB p) |} p in
       abs s' p' (areact chip (ras (pB p)) (cas (pC p)) p' d) g.
Proof.
  intros H. destruct (abs_PORTB _ _ _ _ H) as (Hb & Hv).
  destruct (abs_out_B (Z.land (PORTB s) (Z.lnot (Z.shiftl 1 1))) _ _ _ _ H) as (s' & E & H').
  exists s'. split; [exact E|].
  rewrite viewB_cbi1, Hv in H' by assumption. exact H'.
Qed.

Lemma step_WE_HIGH16 s p d g :
  abs s p d g ->
  exists s', WE_HIGH16 chip s = Ret tt s'
    /\ abs s' (with_B {| ras := ras (pB p); we := true; aB := aB (pB p) |} p) d g.
Proof.
  intros H. destruct (abs_PORTB _ _ _ _ H) as (Hb & Hv).
  destruct (abs_out_B (Z.lor (PORTB s) (Z.shiftl 1 3)) _ _ _ _ H) as (s' & E & H').
  exists s'. split; [exact E|].
  rewrite viewB_sbi3, Hv in H' by assumption.
  rewrite areact_quiet in H'; [exact H'| |]; simpl;
    destruct (ras (pB p)), (cas (pC p)); reflexivity.
Qed.

Lemma step_WE_LOW16 s p d g :
  abs s p d g ->
  exists s', WE_LOW16 chip s = Ret tt s'
    /\ abs s' (with_B {| ras := ras (pB p); we := false; aB := aB (pB p) |} p) d g.
Proof.
  intros H. destruct (abs_PORTB _ _ _ _ H) as (Hb & Hv).
  destruct (abs_out_B (Z.land (PORTB s) (Z.lnot (Z.shiftl 1 3))) _ _ _ _ H) as (s' & E & H').
  exists s'. split; [exact E|].
  rewrite viewB_cbi3, Hv in H' by assumption.
  rewrite areact_quiet in H'; [exact H'| |]; simpl;
    destruct (ras (pB p)), (cas (pC p)); reflexivity.
Qed.

Lemma step_CAS_HIGH16 s p d g :
  abs s p d g ->
  exists s', CAS_HIGH16 chip s = Ret tt s'
    /\ abs s' (with_C {| cas := true; din := din (pC p); aC := aC (pC p) |} p) d g.
Proof.
  intros H. destruct (abs_PORTC _ _ _ _ H) as (Hb & Hv).
  destruct (abs_out_C (Z.lor (PORTC s) (Z.shiftl 1 3)) _ _ _ _ H) as (s' & E & H').
  exists s'. split; [exact E|].
  rewrite viewC_sbi3, Hv in H' by assumption.
  rewrite areact_quiet in H'; [exact H'| |]; simpl;
    destruct (ras (pB p)), (cas (pC p)); reflexivity.
Qed.

Lemma step_CAS_LOW16 s p d g :
  abs s p d g ->
  exists s', CAS_LOW16 chip s = Ret tt s'
    /\ let p' := with_C {| cas := false; din := din (pC p); aC := aC (pC p) |} p in
       abs s' p' (areact chip (ras (pB p)) (cas (pC p)) p' d) g.
Proof.
  intros H. destruct (abs_PORTC _ _ _ _ H) as (Hb & Hv).
  destruct (abs_out_C (Z.land (PORTC s) (Z.lnot (Z.shiftl 1 3))) _ _ _ _ H) as (s' & E & H').
  exists s'. split; [exact E|].
  rewrite viewC_cbi3, Hv in H' by assumption. exact H'.
Qed.

Lemma step_or_PORTC_2 s p d g :
  abs s p d g ->
  exists s', or_reg chip rPORTC 0x02 s = Ret tt s'
    /\ abs s' (with_C {| cas := cas (pC p); din := true; aC := aC (pC p) |} p) d g.
Proof.
  intros H. destruct (abs_PORTC _ _ _ _ H) as (Hb & Hv).
  destruct (abs_out_C (Z.lor (PORTC s) 0x02) _ _ _ _ H) as (s' & E & H').
  exists s'. split; [exact E|].
  rewrite viewC_or2, Hv in H' by assumption.
  rewrite areact_quiet in H'; [exact H'| |]; simpl;
    destruct (ras (pB p)), (cas (pC p)); reflexivity.
Qed.

Lemma step_andnot_PORTC_2 s p d g :
  abs s p d g ->
  exists s', andnot_reg chip rPORTC 0x02 s = Ret tt s'
    /\ abs s' (with_C {| cas := cas (pC p); din := false; aC := aC (pC p) |} p) d g.
Proof.
  intros H. destruct (abs_PORTC _ _ _ _ H) as (Hb & Hv).
  destruct (abs_out_C (Z.land (PORTC s) (Z.lnot 0x02)) _ _ _ _ H) as (s' & E & H').
  exists s'. split; [exact E|].
  rewrite viewC_andnot2, Hv in H' by assumption.
  rewrite areact_quiet in H'; [exact H'| |]; simpl;
    destruct (ras (pB p)), (cas (pC p)); reflexivity.
Qed.

Lemma step_or_DDRC_2 s p d g :
  abs s p d g ->
  exists s', or_reg chip rDDRC 0x02 s = Ret tt s' /\ abs s' (with_dir true p) d g.
Proof.
  intros H. destruct (abs_DDRC _ _ _ _ H) as (Hb & Hv).
  destruct (abs_out_DDRC (Z.lor (DDRC s) 0x02) _ _ _ _ H) as (s' & E & H').
  exists s'. split; [exact E|].
  rewrite dir_or2 in H' by assumption.
  rewrite areact_quiet in H'; [exact H'| |]; simpl;
    destruct (ras (pB p)), (cas (pC p)); reflexivity.
Qed.

Lemma step_andnot_DDRC_2 s p d g :
  abs s p d g ->
  exists s', andnot_reg chip rDDRC 0x02 s = Ret tt s' /\ abs s' (with_dir false p) d g.
Proof.
  intros H. destruct (abs_DDRC _ _ _ _ H) as (Hb & Hv).
  destruct (abs_out_DDRC (Z.land (DDRC s) (Z.lnot 0x02)) _ _ _ _ H) as (s' & E & H').
  exists s'. split; [exact E|].
  rewrite dir_andnot2 in H' by assumption.
  rewrite areact_quiet in H'; [exact H'| |]; simpl;
    destruct (ras (pB p)), (cas (pC p)); reflexivity.
Qed.

Lemma step_setAddr16_Random a :
  0 <= a < 512 ->
  forall s p d g,
  abs s p d g ->
  exists s', setAddr16_Random chip a s = Ret tt s' /\ abs s' (addressed a p) d g.
Proof.
  intros Ha s p d g H. unfold setAddr16_Random.
  destruct (abs_PORTB _ _ _ _ H) as (Hb & Hv).
  destruct (abs_out_B (Z.lor (Z.lor (Z.land (PORTB s) 0xEA)
                                    (rd lut_16_low_b (u8 (Z.land a 0x1F))))
                             (rd lut_16_high_b (u8 (Z.shiftr a 5)))) _ _ _ _ H)
    as (s1 & E1 & H1).
  rewrite viewB_setaddr, Hv in H1 by assumption.
  rewrite areact_quiet in H1
    by (simpl; destruct (ras (pB p)), (cas (pC p)); reflexivity).
  destruct (abs_PORTC _ _ _ _ H1) as (Hc & Hvc).
  destruct (abs_out_C (Z.lor (Z.lor (Z.land (PORTC s1) 0xEE)
                                    (rd lut_16_low_c (u8 (Z.land a 0x1F))))
                             (rd lut_16_high_c (u8 (Z.shiftr a 5)))) _ _ _ _ H1)
    as (s2 & E2 & H2).
  rewrite viewC_setaddr, Hvc in H2 by assumption.
  rewrite areact_quiet in H2
    by (simpl; destruct (ras (pB p)), (cas (pC p)); reflexivity).
  destruct (abs_PORTD _ _ _ _ H2) as (Hd & Hvd).
  destruct (abs_out_D (Z.lor (Z.lor (Z.land (PORTD s2) 0x3C)
                                    (rd lut_16_low_d (u8 (Z.land a 0x1F))))
                             (rd lut_16_high_d (u8 (Z.shiftr a 5)))) _ _ _ _ H2)
    as (s3 & E3 & H3).
  rewrite viewD_setaddr in H3 by assumption.
  rewrite areact_quiet in H3
    by (simpl; destruct (ras (pB p)), (cas (pC p)); reflexivity).
  exists s3. split; [|exact H3].
  unfold bind, inp. cbv zeta. rewrite E1, E2. exact E3.
Qed.

Lemma adr_addressed a p : 0 <= a < 512 -> adr (addressed a p) = a.
Proof. intros H. unfold adr, addressed. simpl. now apply parts_sum. Qed.

Lemma adr_parts a r w c di x : 0 <= a < 512 ->
  adr {| pB := {| ras := r; we := w; aB := partB a |};
         pC := {| cas := c; din := di; aC := partC a |};
         aD := partD a; dir := x |} = a.
Proof. intros H. unfold adr. simpl. now apply parts_sum. Qed.

(** Reading Dout through [PINC] and masking with 0x04. *)
Lemma land_4 x : Z.land x 0x04 = if Z.testbit x 2 then 0x04 else 0.
Proof.
  apply Z.bits_inj'. intros n Hn. rewrite Z.land_spec.
  destruct (Z.eq_dec n 2) as [->|Hne].
  - change (Z.testbit 4 2) with true. rewrite andb_true_r.
    now destruct (Z.testbit x 2).
  - assert (Z.testbit 4 n = false) as E
      by (change 4 with (2 ^ 2); apply Z.pow2_bits_false; congruence).
    rewrite E, andb_false_r. destruct (Z.testbit x 2); [now rewrite E|].
    now rewrite Z.bits_0.
Qed.

Lemma PINC_bit s e :
  exists v, inp_PINC s = Ret v s
    /\ (Z.land (Z.lxor v e) 0x04 =? 0) = Bool.eqb (dout (dram s)) (Z.testbit e 2)
    /\ Z.shiftr (Z.land v 0x04) 2 = Z.b2z (dout (dram s))
    /\ (Z.land v 0x04 =? 0) = negb (dout (dram s)).
Proof.
  eexists. split; [reflexivity|].
  assert (T : Z.testbit (Z.lor (Z.land (PORTC s) (Z.lnot 4))
                               (if dout (dram s) then 4 else 0)) 2 = dout (dram s)).
  { rewrite Z.lor_spec, Z.land_spec.
    change (Z.testbit (Z.lnot 4) 2) with false. rewrite andb_false_r.
    now destruct (dout (dram s)). }
  repeat split.
  - rewrite land_4, Z.lxor_spec, T.
    destruct (dout (dram s)), (Z.testbit e 2); reflexivity.
  - rewrite land_4, T. now destruct (dout (dram s)).
  - rewrite land_4, T. now destruct (dout (dram s)).
Qed.

End Steps.

(** Symbolic execution of one step: [L] is the step lemma of the
  operation at the head of the program. *)
Ltac simpl_pins H :=
cbv beta iota zeta delta
    [with_B with_C with_D with_dir addressed pB pC aD dir
     ras we cas din aB aC areact negb andb] in H.

Ltac norm_prog :=
repeat match goal with
       | |- context [bind (bind ?m ?k1) ?k2 ?s] => rewrite (bind_assoc m k1 k2 s)
       | |- context [bind (ret ?a) ?k ?s] => rewrite (bind_ret_l a k s)
       end.

Ltac fix_adr :=
try match goal with
    | H : abs _ _ _ _ |- _ => rewrite !adr_parts in H by assumption
    end.

(** Reading [PINC]: introduces the value [v] read and what masking it
  with 0x04 gives, in terms of the output latch. *)
Ltac step_pinc e v :=
norm_prog;
lazymatch goal with
| H : abs ?s _ ?d _ |- _ =>
    let Ev := fresh "Ev" in
    let Hx := fresh "Hx" in
    let Hsh := fresh "Hsh" in
    let Hz := fresh "Hz" in
    destruct (PINC_bit s e) as (v & Ev & Hx & Hsh & Hz);
    rewrite (bind_ret_step _ _ _ _ _ Ev); clear Ev;
    replace (dram s) with d in Hx, Hsh, Hz
      by (destruct H as (_ & _ & -> & _); reflexivity);
    cbn [dout] in Hx, Hsh, Hz
end.

Ltac step L :=
norm_prog;
lazymatch goal with
| H : abs ?s _ _ _ |- _ =>
    let s1 := fresh "s" in
    let E := fresh "E" in
    let H1 := fresh "H" in
    destruct (L _ _ _ _ H) as (s1 & E & H1);
    rewrite (bind_ret_step _ _ _ _ _ E); clear E H;
    simpl_pins H1; fix_adr
end.

(** The program has come down to [ret]. *)
Ltac finish :=
norm_prog;
lazymatch goal with
| H : abs ?s _ _ _ |- _ => exists s; split; [reflexivity|exact H]
end.

(** The last step of a program. *)
Ltac last_step L :=
norm_prog;
lazymatch goal with
| H : abs ?s _ _ _ |- _ =>
    let s1 := fresh "s" in
    let E := fresh "E" in
    let H1 := fresh "H" in
    destruct (L _ _ _ _ H) as (s1 & E & H1);
    simpl_pins H1; fix_adr;
    exists s1; split; [exact E|exact H1]
end.

Section Cycles.

Variable chip : Chip.

Lemma write16Pin_spec row col data s p d g :
  0 <= row < 512 -> 0 <= col < 512 ->
  abs s p d g -> ras (pB p) = true -> cas (pC p) = true ->
  exists s', write16Pin chip row col data s = Ret tt s'
    /\ abs s' (idle_pins col true (negb (data =? 0)) true)
           (written chip row col (negb (data =? 0)) d) g.
Proof.
  intros Hrow Hcol H Hras Hcas.
  destruct p as [[r w ab] [c di ac] ad x]. simpl in Hras, Hcas. subst r c.
  unfold write16Pin, SET_ADDR_PIN16, setAddrData, NOP.
  step (step_or_DDRC_2 chip).
  step (step_setAddr16_Random chip row Hrow).
  step (step_RAS_LOW16 chip).
  step (step_WE_LOW16 chip).
  step (step_setAddr16_Random chip col Hcol).
  destruct (data =? 0).
  - unfold SET_DIN_16. change (Z.land 0 4 =? 0) with true. cbv iota.
    step (step_andnot_PORTC_2 chip).
    step (step_CAS_LOW16 chip).
    step (step_CAS_HIGH16 chip).
    step (step_WE_HIGH16 chip).
    last_step (step_RAS_HIGH16 chip).
  - unfold SET_DIN_16. change (Z.land 4 4 =? 0) with false. cbv iota.
    step (step_or_PORTC_2 chip).
    step (step_CAS_LOW16 chip).
    step (step_CAS_HIGH16 chip).
    step (step_WE_HIGH16 chip).
    last_step (step_RAS_HIGH16 chip).
Qed.

Lemma read16Pin_spec row col s p d g :
  0 <= row < 512 -> 0 <= col < 512 ->
  abs s p d g -> ras (pB p) = true -> cas (pC p) = true -> we (pB p) = true ->
  exists s', read16Pin chip row col s
             = Ret (Z.b2z (read_cell chip (cells d) (row_sel chip row) (col_sel chip col))) s'
    /\ abs s' (idle_pins col true false false) (was_read chip row col d) g.
Proof.
  intros Hrow Hcol H Hras Hcas Hwe.
  destruct p as [[r w ab] [c di ac] ad x]. simpl in Hras, Hcas, Hwe. subst r c w.
  unfold read16Pin, SET_ADDR_PIN16, setAddrData, NOP.
  step (step_andnot_PORTC_2 chip).
  step (step_andnot_DDRC_2 chip).
  step (step_setAddr16_Random chip row Hrow).
  step (step_RAS_LOW16 chip).
  step (step_setAddr16_Random chip col Hcol).
  unfold SET_DIN_16. change (Z.land 0 4 =? 0) with true. cbv iota.
  step (step_andnot_PORTC_2 chip).
  step (step_CAS_LOW16 chip).
  step_pinc 0 v.
  rewrite Hsh.
  step (step_CAS_HIGH16 chip).
  step (step_RAS_HIGH16 chip).
  finish.
Qed.

End Cycles.

(** ** Globals and loops *)

Section Globals.

Lemma abs_get_type s p d g : abs s p d g -> get_type s = Ret (g_type g) s.
Proof. intros (_ & _ & _ & <-). reflexivity. Qed.

Lemma abs_get_lower s p d g : abs s p d g -> get_lower s = Ret (g_lower g) s.
Proof. intros (_ & _ & _ & <-). reflexivity. Qed.

Lemma abs_get_upper s p d g : abs s p d g -> get_upper s = Ret (g_upper g) s.
Proof. intros (_ & _ & _ & <-). reflexivity. Qed.

Lemma abs_get_randomTable s p d g :
  abs s p d g -> get_randomTable s = Ret (g_table g) s.
Proof. intros (_ & _ & _ & <-). reflexivity. Qed.

Lemma abs_randomTable_at i s p d g :
  abs s p d g -> randomTable_at i s = Ret (rd (g_table g) i) s.
Proof. intros (_ & _ & _ & <-). reflexivity. Qed.

Lemma step_set_type t s p d g :
  abs s p d g -> exists s', set_type t s = Ret tt s' /\ abs s' p d (with_type t g).
Proof.
  intros (Hr & Hp & Hd & <-). eexists. split; [reflexivity|].
  repeat split; try assumption; apply Hr.
Qed.

Lemma step_set_typeSuffix x s p d g :
  abs s p d g -> exists s', set_typeSuffix x s = Ret tt s' /\ abs s' p d (with_suffix x g).
Proof.
  intros (Hr & Hp & Hd & <-). eexists. split; [reflexivity|].
  repeat split; try assumption; apply Hr.
Qed.

Lemma step_set_lower v s p d g :
  abs s p d g -> exists s', set_lower v s = Ret tt s' /\ abs s' p d (with_lower (u8 v) g).
Proof.
  intros (Hr & Hp & Hd & <-). eexists. split; [reflexivity|].
  repeat split; try assumption; apply Hr.
Qed.

Lemma step_set_upper v s p d g :
  abs s p d g -> exists s', set_upper v s = Ret tt s' /\ abs s' p d (with_upper (u8 v) g).
Proof.
  intros (Hr & Hp & Hd & <-). eexists. split; [reflexivity|].
  repeat split; try assumption; apply Hr.
Qed.

Lemma step_set_randomTable t s p d g :
  abs s p d g -> exists s', set_randomTable t s = Ret tt s' /\ abs s' p d (with_table t g).
Proof.
  intros (Hr & Hp & Hd & <-). eexists. split; [reflexivity|].
  repeat split; try assumption; apply Hr.
Qed.

Lemma step_emit e s p d g :
  abs s p d g -> exists s', emit e s = Ret tt s' /\ abs s' p d (with_log (g_log g ++ [e]) g).
Proof.
  intros (Hr & Hp & Hd & <-). eexists. split; [reflexivity|].
  repeat split; try assumption; apply Hr.
Qed.

Lemma at_rest_abs s :
  at_rest s -> abs s (pins_of s) (dram s) (globals s) /\ pins_rest (pins_of s).
Proof.
  intros (Hr & H1 & H2 & H3). split.
  - repeat split; apply Hr.
  - repeat split; assumption.
Qed.

Lemma abs_at_rest s p d g : abs s p d g -> pins_rest p -> at_rest s.
Proof.
  intros (Hr & <- & _) (H1 & H2 & H3). repeat split; try apply Hr; assumption.
Qed.

End Globals.

(** A read of a global at the head of the program. *)
Ltac step_get L :=
  norm_prog;
  lazymatch goal with
  | H : abs ?s _ _ _ |- _ =>
      rewrite (bind_ret_step _ _ _ _ _ (L _ _ _ _ H))
  end.

Section Loops.

Lemma for_each_inv {A} (I : state -> Prop) (l : list A) (body : A -> M unit) :
  (forall x s, In x l -> I s -> exists s', body x s = Ret tt s' /\ I s') ->
  forall s, I s -> exists s', for_each l body s = Ret tt s' /\ I s'.
Proof.
  induction l as [|x l IH]; intros Hb s Hs.
  - exists s. split; [reflexivity|assumption].
  - simpl. destruct (Hb x s (or_introl eq_refl) Hs) as (s1 & E1 & H1).
    rewrite (bind_ret_step _ _ _ _ _ E1).
    apply IH; [|assumption]. intros y s' Hy. apply Hb. now right.
Qed.

(** A loop over [0..n-1] with an invariant indexed by the number of
    iterations done. *)
Lemma for_upto_inv (I : Z -> state -> Prop) (n : Z) (body : Z -> M unit) :
  (forall i s, 0 <= i < n -> I i s -> exists s', body i s = Ret tt s' /\ I (i + 1) s') ->
  forall s, I 0 s -> exists s', for_each (upto n) body s = Ret tt s' /\ I (Z.max 0 n) s'.
Proof.
  intros Hb s Hs.
  assert (G : forall m : nat, Z.of_nat m <= Z.max 0 n ->
                exists s', for_each (upto (Z.of_nat m)) body s = Ret tt s'
                           /\ I (Z.of_nat m) s').
  { induction m as [|m IH]; intros Hm.
    - exists s. split; [reflexivity|assumption].
    - destruct IH as (s1 & E1 & H1); [lia|].
      rewrite Nat2Z.inj_succ, <- Z.add_1_r, upto_succ by lia.
      rewrite for_each_app, (bind_ret_step _ _ _ _ _ E1). simpl.
      destruct (Hb (Z.of_nat m) s1 ltac:(lia) H1) as (s2 & E2 & H2).
      rewrite (bind_ret_step _ _ _ _ _ E2). exists s2. split; [reflexivity|assumption]. }
  destruct (G (Z.to_nat n)) as (s' & E & H); [lia|].
  exists s'. unfold upto in *. rewrite Nat2Z.id in E. split; [exact E|].
  replace (Z.max 0 n) with (Z.of_nat (Z.to_nat n)) by lia. exact H.
Qed.

Lemma seq_offset (a k : nat) :
  map Z.of_nat (seq a k) = map (fun i => Z.of_nat a + i) (map Z.of_nat (seq 0 k)).
Proof.
  induction k as [|k IH]; [reflexivity|].
  rewrite !seq_S, !map_app, IH. simpl. f_equal. f_equal. lia.
Qed.

Lemma upto_split n b :
  0 <= b < n ->
  upto n = upto b ++ b :: map (fun i => b + 1 + i) (upto (n - b - 1)).
Proof.
  intros H. unfold upto.
  replace (Z.to_nat n) with (Z.to_nat b + S (Z.to_nat (n - b - 1)))%nat by lia.
  rewrite seq_app, map_app. f_equal. simpl. f_equal; [lia|].
  rewrite (seq_offset (S (Z.to_nat b))). apply map_ext. intros i. lia.
Qed.

(** The loop halts in iteration [b] when the iterations before it pass. *)
Lemma for_upto_halt (I : Z -> state -> Prop) (n b : Z) (body : Z -> M unit)
      (Q : final -> state -> Prop) :
  0 <= b < n ->
  (forall i s, 0 <= i < b -> I i s -> exists s', body i s = Ret tt s' /\ I (i + 1) s') ->
  (forall s, I b s -> exists f s', body b s = Halt f s' /\ Q f s') ->
  forall s, I 0 s -> exists f s', for_each (upto n) body s = Halt f s' /\ Q f s'.
Proof.
  intros Hbn Hpass Hhalt s Hs.
  destruct (for_upto_inv I b body Hpass s Hs) as (s1 & E1 & H1).
  rewrite Z.max_r in H1 by lia.
  destruct (Hhalt s1 H1) as (f & s2 & E2 & H2).
  exists f, s2. split; [|assumption].
  pose proof (upto_split n b Hbn) as Hsplit.
  rewrite Hsplit, for_each_app, (bind_ret_step _ _ _ _ _ E1). simpl.
  now rewrite (bind_halt_step _ _ _ _ _ E2).
Qed.

End Loops.

(** ** Single-cell accesses: sensing and the address-line check *)

Ltac wstep chip row col data :=
  norm_prog;
  lazymatch goal with
  | H : abs ?s ?p ?d ?g |- _ =>
      let s1 := fresh "s" in
      let E := fresh "E" in
      let H1 := fresh "H" in
      destruct (write16Pin_spec chip row col data s p d g
                  ltac:(lia) ltac:(lia) H eq_refl eq_refl) as (s1 & E & H1);
      rewrite (bind_ret_step _ _ _ _ _ E); clear E H;
      change (negb (0 =? 0)) with false in H1;
      change (negb (1 =? 0)) with true in H1
  end.

Ltac rstep chip row col :=
  norm_prog;
  lazymatch goal with
  | H : abs ?s ?p ?d ?g |- _ =>
      let s1 := fresh "s" in
      let E := fresh "E" in
      let H1 := fresh "H" in
      destruct (read16Pin_spec chip row col s p d g
                  ltac:(lia) ltac:(lia) H eq_refl eq_refl eq_refl) as (s1 & E & H1);
      rewrite (bind_ret_step _ _ _ _ _ E); clear E H;
      cbn [written was_read cells] in *
  end.

Section Sensing.

Variable chip : Chip.

Lemma read_cell_insert_eq m R C v :
  stuck chip R C = None -> read_cell chip (<[(R, C) := v]> m) R C = v.
Proof. intros H. unfold read_cell. rewrite H, lookup_insert_eq. reflexivity. Qed.

Lemma read_cell_insert_ne m R C R' C' v :
  (R', C') <> (R, C) ->
  read_cell chip (<[(R', C') := v]> m) R C = read_cell chip m R C.
Proof. intros H. unfold read_cell. rewrite lookup_insert_ne by assumption. reflexivity. Qed.

Lemma read_cell_stuck m R C b : stuck chip R C = Some b -> read_cell chip m R C = b.
Proof. intros H. unfold read_cell. now rewrite H. Qed.

(** What the re-read of the base cell gives after the two probe writes
    does not depend on the earlier contents. *)
Lemma probed_lookup pr pc m :
  probed chip pr pc m !! (row_sel chip 0, col_sel chip 0)
  = Some (bool_decide ((row_sel chip pr, col_sel chip pc) = (row_sel chip 0, col_sel chip 0))).
Proof.
  unfold probed. case_bool_decide as Hd.
  - rewrite Hd. apply lookup_insert_eq.
  - rewrite lookup_insert_ne by assumption. apply lookup_insert_eq.
Qed.

Lemma probed_base_read pr pc m m' :
  read_cell chip (probed chip pr pc m) (row_sel chip 0) (col_sel chip 0)
  = read_cell chip (probed chip pr pc m') (row_sel chip 0) (col_sel chip 0).
Proof. unfold read_cell. rewrite !probed_lookup. reflexivity. Qed.

Lemma probed_base_aliased pr pc m :
  stuck chip (row_sel chip 0) (col_sel chip 0) = None ->
  row_sel chip pr = row_sel chip 0 -> col_sel chip pc = col_sel chip 0 ->
  read_cell chip (probed chip pr pc m) (row_sel chip 0) (col_sel chip 0) = true.
Proof.
  intros Hs Hr Hc. unfold probed. rewrite Hr, Hc. now apply read_cell_insert_eq.
Qed.

Lemma probed_base_distinct pr pc m :
  stuck chip (row_sel chip 0) (col_sel chip 0) = None ->
  (row_sel chip pr, col_sel chip pc) <> (row_sel chip 0, col_sel chip 0) ->
  read_cell chip (probed chip pr pc m) (row_sel chip 0) (col_sel chip 0) = false.
Proof.
  intros Hs Hne. unfold probed.
  rewrite read_cell_insert_ne by assumption. now apply read_cell_insert_eq.
Qed.

Lemma base_read_after_clear m :
  read_cell chip (probed chip 256 0 m) (row_sel chip 0) (col_sel chip 0) = false ->
  read_cell chip (<[(row_sel chip 0, col_sel chip 0) := false]> m)
            (row_sel chip 0) (col_sel chip 0) = false.
Proof.
  unfold probed, read_cell.
  destruct (stuck chip (row_sel chip 0) (col_sel chip 0)); [tauto|].
  intros _. rewrite lookup_insert_eq. reflexivity.
Qed.

(** C2.  On a chip where row address 256 selects the same row as
    row address 0 while row address 128 selects another one (the probe
    cell itself being sound), [sense41256_16Pin] sets [type] to [T_4164],
    not [T_41256]; and whenever the re-read of row 0 after the writes of 0
    to row 0 and 1 to row 256 gives 0, it sets [type] to [T_41256]. *)
Theorem sense_A8_probe (s : state) :
  at_rest s ->
  (stuck chip (row_sel chip 0) (col_sel chip 0) = None ->
   row_sel chip 256 = row_sel chip 0 ->
   row_sel chip 128 <> row_sel chip 0 ->
   exists s', sense41256_16Pin chip s = Ret tt s'
              /\ type s' = T_4164 /\ type s' <> T_41256 /\ at_rest s')
  /\ (read_cell chip (probed chip 256 0 (cells (dram s)))
                (row_sel chip 0) (col_sel chip 0) = false ->
      exists s', sense41256_16Pin chip s = Ret tt s'
                 /\ type s' = T_41256 /\ at_rest s').
Proof.
  intros Hrest. destruct (at_rest_abs s Hrest) as (H & Hr1 & Hr2 & Hr3).
  destruct (pins_of s) as [[r w ab] [c di ac] ad x]. simpl in Hr1, Hr2, Hr3. subst r c w.
  split.
  - intros Hstuck Halias Hdist.
    unfold sense41256_16Pin.
    step (step_CAS_HIGH16 chip).
    wstep chip 0 0 0. rstep chip 0 0.
    rewrite read_cell_insert_eq by assumption. cbn [Z.b2z Z.eqb].
    wstep chip 0 0 0. wstep chip 256 0 1. rstep chip 0 0.
    rewrite Halias. rewrite read_cell_insert_eq by assumption. cbn [Z.b2z Z.eqb].
    wstep chip 0 0 0. wstep chip 128 0 1. rstep chip 0 0.
    rewrite read_cell_insert_ne by congruence.
    rewrite read_cell_insert_eq by assumption. cbn [Z.b2z Z.eqb negb].
    match goal with H : abs _ _ _ _ |- _ =>
      destruct (step_set_type T_4164 _ _ _ _ H) as (s' & E & H') end.
    exists s'. split; [exact E|].
    pose proof H' as (_ & _ & _ & Hg).
    apply (f_equal g_type) in Hg. simpl in Hg.
    repeat split; try (rewrite Hg; easy).
    all: eapply abs_at_rest; [exact H'|repeat split].
  - intros Hread.
    unfold sense41256_16Pin.
    step (step_CAS_HIGH16 chip).
    wstep chip 0 0 0. rstep chip 0 0.
    rewrite base_read_after_clear by exact Hread.
    cbn [Z.b2z Z.eqb].
    wstep chip 0 0 0. wstep chip 256 0 1. rstep chip 0 0.
    match goal with |- context [read_cell chip ?m _ _] =>
      change m with (probed chip 256 0 (<[(row_sel chip 0, col_sel chip 0):=false]> (cells (dram s))))
    end.
    rewrite (probed_base_read _ _ _ (cells (dram s))), Hread. cbn [Z.b2z Z.eqb].
    match goal with H : abs _ _ _ _ |- _ =>
      destruct (step_set_type T_41256 _ _ _ _ H) as (s' & E & H') end.
    exists s'. split; [exact E|].
    pose proof H' as (_ & _ & _ & Hg).
    apply (f_equal g_type) in Hg. simpl in Hg.
    split; [exact Hg|].
    eapply abs_at_rest; [exact H'|repeat split].
Qed.

End Sensing.

Lemma sense_A8_probe_witness :
  (exists s', sense41256_16Pin (ideal 0xFF) bench_state = Ret tt s'
              /\ type s' = T_4164 /\ type s' <> T_41256 /\ at_rest s')
  /\ (exists s', sense41256_16Pin (ideal 0x1FF) bench_state = Ret tt s'
                 /\ type s' = T_41256 /\ at_rest s').
Proof.
  assert (R : at_rest bench_state).
  { unfold at_rest, regs_ok. simpl. repeat split; try lia; reflexivity. }
  split.
  - apply (proj1 (sense_A8_probe (ideal 0xFF) bench_state R)).
    + reflexivity.
    + reflexivity.
    + simpl. discriminate.
  - apply (proj2 (sense_A8_probe (ideal 0x1FF) bench_state R)).
    vm_compute. reflexivity.
Defined.


Section Addressing.

Variable chip : Chip.

Lemma peer_range b : 0 <= b <= 8 -> 0 <= peer b < 512.
Proof.
  intros H.
  assert (C : forallb (fun b => (0 <=? peer b) && (peer b <? 512)) (upto 9) = true)
    by (vm_compute; reflexivity).
  pose proof (forallb_upto _ _ C b ltac:(lia)) as D. cbv beta in D.
  apply andb_prop in D. lia.
Qed.

Lemma countBits_le_9 x : 0 <= x < 512 -> 0 <= countBits x <= 9.
Proof.
  intros H.
  assert (C : forallb (fun x => (0 <=? countBits x) && (countBits x <=? 9)) (upto 512) = true)
    by (vm_compute; reflexivity).
  pose proof (forallb_upto _ _ C x H) as D. cbv beta in D.
  apply andb_prop in D. lia.
Qed.

(** One probe: write 0 to the base cell, 1 to the peer cell, read both. *)
Lemma probe_pair g row0 col0 row1 col1 s :
  0 <= row0 < 512 -> 0 <= col0 < 512 -> 0 <= row1 < 512 -> 0 <= col1 < 512 ->
  sound_cells chip ->
  probing g s ->
  exists s1,
    probing g s1
    /\ forall (k : Z -> Z -> M unit),
       (write16Pin chip row0 col0 0;;
        write16Pin chip row1 col1 1;;
        r0 ← read16Pin chip row0 col0;
        r1 ← read16Pin chip row1 col1;
        k r0 r1) s
       = k (Z.b2z (bool_decide ((row_sel chip row1, col_sel chip col1)
                                = (row_sel chip row0, col_sel chip col0))))
           1 s1.
Proof.
  intros Hr0 Hc0 Hr1 Hc1 Hsound (p & d & H & Hras & Hcas).
  destruct p as [[r w ab] [c di ac] ad x]. simpl in Hras, Hcas. subst r c.
  destruct (write16Pin_spec chip row0 col0 0 _ _ _ _ Hr0 Hc0 H eq_refl eq_refl)
    as (s1 & E1 & H1).
  destruct (write16Pin_spec chip row1 col1 1 _ _ _ _ Hr1 Hc1 H1 eq_refl eq_refl)
    as (s2 & E2 & H2).
  destruct (read16Pin_spec chip row0 col0 _ _ _ _ Hr0 Hc0 H2 eq_refl eq_refl eq_refl)
    as (s3 & E3 & H3).
  destruct (read16Pin_spec chip row1 col1 _ _ _ _ Hr1 Hc1 H3 eq_refl eq_refl eq_refl)
    as (s4 & E4 & H4).
  exists s4. split.
  - eexists _, _. split; [exact H4|]. split; reflexivity.
  - intros k.
    rewrite (bind_ret_step _ _ _ _ _ E1), (bind_ret_step _ _ _ _ _ E2),
            (bind_ret_step _ _ _ _ _ E3), (bind_ret_step _ _ _ _ _ E4).
    cbn [written was_read cells]. change (negb (0 =? 0)) with false.
    change (negb (1 =? 0)) with true.
    rewrite (read_cell_insert_eq chip _ (row_sel chip row1) (col_sel chip col1))
      by apply Hsound.
    f_equal. f_equal. case_bool_decide as Hd.
    + rewrite Hd. apply read_cell_insert_eq, Hsound.
    + rewrite read_cell_insert_ne by assumption.
      apply read_cell_insert_eq, Hsound.
Qed.

Lemma probing_type g s : probing g s -> get_type s = Ret (g_type g) s.
Proof. intros (p & d & H & _). eapply abs_get_type, H. Qed.

Lemma probing_log g s : probing g s -> log s = g_log g.
Proof. intros (p & d & (_ & _ & _ & <-) & _). reflexivity. Qed.

Lemma pair_eq_iff (a b c : Z) : (a, c) = (b, c) <-> a = b.
Proof. split; [now inversion 1|now intros ->]. Qed.

Lemma check_row_bit_pass g b s :
  0 <= b <= 8 -> sound_cells chip ->
  row_sel chip (peer b) <> row_sel chip 0 ->
  probing g s ->
  exists s', check_row_bit chip b s = Ret tt s' /\ probing g s'.
Proof.
  intros Hb Hsound Hok Hp.
  destruct (probe_pair g 0 0 (peer b) 0 s ltac:(lia) ltac:(lia) (peer_range b Hb)
                       ltac:(lia) Hsound Hp) as (s1 & P1 & E).
  unfold check_row_bit. cbv zeta. fold (peer b). rewrite E.
  rewrite bool_decide_eq_false_2 by (rewrite pair_eq_iff; exact Hok).
  rewrite (bind_ret_step _ _ _ _ _ (probing_type _ _ P1)).
  exists s1. split; [|exact P1].
  destruct ((g_type g =? T_4532) && (b =? 7)); reflexivity.
Qed.

Lemma check_row_bit_halt g b s :
  0 <= b <= 8 -> sound_cells chip ->
  row_sel chip (peer b) = row_sel chip 0 ->
  (g_type g =? T_4532) && (b =? 7) = false ->
  probing g s ->
  exists f s', check_row_bit chip b s = Halt f s'
               /\ (f = Error b 1 (-1) (-1) /\ log s' = g_log g).
Proof.
  intros Hb Hsound Hbad Hskip Hp.
  destruct (probe_pair g 0 0 (peer b) 0 s ltac:(lia) ltac:(lia) (peer_range b Hb)
                       ltac:(lia) Hsound Hp) as (s1 & P1 & E).
  unfold check_row_bit. cbv zeta. fold (peer b). rewrite E.
  rewrite bool_decide_eq_true_2 by (rewrite pair_eq_iff; exact Hbad).
  rewrite (bind_ret_step _ _ _ _ _ (probing_type _ _ P1)).
  rewrite Hskip. eexists _, s1. split; [reflexivity|].
  split; [reflexivity|]. now apply probing_log.
Qed.

Lemma pair_eq_iff_r (a b c : Z) : (c, a) = (c, b) <-> a = b.
Proof. split; [now inversion 1|now intros ->]. Qed.

(** The column probe up to the first read. *)
Lemma col_probe_first g tr b s :
  0 <= tr < 512 -> 0 <= b <= 8 -> sound_cells chip -> probing g s ->
  exists s1 d1,
    abs s1 (idle_pins 0 true false false) d1 g
    /\ read_cell chip (cells d1) (row_sel chip tr) (col_sel chip (peer b)) = true
    /\ forall (k : Z -> M unit),
       (write16Pin chip tr 0 0;;
        write16Pin chip tr (peer b) 1;;
        r ← read16Pin chip tr 0;
        k r) s
       = k (Z.b2z (bool_decide (col_sel chip (peer b) = col_sel chip 0))) s1.
Proof.
  intros Htr Hb Hsound (p & d & H & Hras & Hcas).
  destruct p as [[r w ab] [c di ac] ad x]. simpl in Hras, Hcas. subst r c.
  pose proof (peer_range b Hb) as Hpeer.
  destruct (write16Pin_spec chip tr 0 0 _ _ _ _ Htr ltac:(lia) H eq_refl eq_refl)
    as (s1 & E1 & H1).
  destruct (write16Pin_spec chip tr (peer b) 1 _ _ _ _ Htr Hpeer H1 eq_refl eq_refl)
    as (s2 & E2 & H2).
  destruct (read16Pin_spec chip tr 0 _ _ _ _ Htr ltac:(lia) H2 eq_refl eq_refl eq_refl)
    as (s3 & E3 & H3).
  eexists s3, _. split; [exact H3|]. split.
  - cbn [written was_read cells]. apply read_cell_insert_eq, Hsound.
  - intros k.
    rewrite (bind_ret_step _ _ _ _ _ E1), (bind_ret_step _ _ _ _ _ E2),
            (bind_ret_step _ _ _ _ _ E3).
    cbn [written was_read cells]. change (negb (0 =? 0)) with false.
    change (negb (1 =? 0)) with true.
    f_equal. f_equal. case_bool_decide as Hd.
    + rewrite Hd. apply read_cell_insert_eq, Hsound.
    + rewrite read_cell_insert_ne by (rewrite pair_eq_iff_r; exact Hd).
      apply read_cell_insert_eq, Hsound.
Qed.

Lemma check_col_bit_pass g tr b s :
  0 <= tr < 512 -> 0 <= b <= 8 -> sound_cells chip ->
  col_sel chip (peer b) <> col_sel chip 0 ->
  probing g s ->
  exists s', check_col_bit chip tr b s = Ret tt s' /\ probing g s'.
Proof.
  intros Htr Hb Hsound Hok Hp.
  destruct (col_probe_first g tr b s Htr Hb Hsound Hp) as (s1 & d1 & H1 & Hpeer & E).
  unfold check_col_bit. cbv zeta. fold (peer b). rewrite E.
  rewrite bool_decide_eq_false_2 by exact Hok. cbn [Z.b2z Z.eqb].
  rewrite bind_ret_l.
  destruct (read16Pin_spec chip tr (peer b) _ _ _ _ Htr (peer_range b Hb) H1
                           eq_refl eq_refl eq_refl) as (s2 & E2 & H2).
  rewrite (bind_ret_step _ _ _ _ _ E2), Hpeer. cbn [Z.b2z Z.eqb].
  exists s2. split; [reflexivity|].
  eexists _, _. split; [exact H2|]. split; reflexivity.
Qed.

Lemma check_col_bit_halt g tr b s :
  0 <= tr < 512 -> 0 <= b <= 8 -> sound_cells chip ->
  col_sel chip (peer b) = col_sel chip 0 ->
  probing g s ->
  exists f s', check_col_bit chip tr b s = Halt f s'
               /\ (f = Error (b + 16) 1 (-1) (-1) /\ log s' = g_log g).
Proof.
  intros Htr Hb Hsound Hbad Hp.
  destruct (col_probe_first g tr b s Htr Hb Hsound Hp) as (s1 & d1 & H1 & Hpeer & E).
  unfold check_col_bit. cbv zeta. fold (peer b). rewrite E.
  rewrite bool_decide_eq_true_2 by exact Hbad. cbn [Z.b2z Z.eqb].
  eexists _, s1. split; [reflexivity|]. split; [reflexivity|].
  destruct H1 as (_ & _ & _ & <-). reflexivity.
Qed.

(** The prologue of [checkAddressing_16Pin]. *)
Lemma checkAddressing_unfold s :
  strobes_high s ->
  exists s0,
    probing (globals s) s0
    /\ checkAddressing_16Pin chip s
       = (for_each (upto (row_bits (type s))) (check_row_bit chip);;
          for_each (upto (col_bits (type s)))
                   (check_col_bit chip (Z.shiftr (rows (ram (type s))) 1))) s0.
Proof.
  intros (Hr & Hras & Hcas).
  assert (H : abs s (pins_of s) (dram s) (globals s)) by (repeat split; apply Hr).
  unfold checkAddressing_16Pin.
  rewrite (bind_ret_step _ _ _ _ _ (abs_get_type _ _ _ _ H)). cbv zeta.
  change (g_type (globals s)) with (type s).
  fold (row_bits (type s)) (col_bits (type s)).
  destruct (step_CAS_HIGH16 chip _ _ _ _ H) as (s1 & E1 & H1).
  destruct (step_RAS_HIGH16 chip _ _ _ _ H1) as (s2 & E2 & H2).
  destruct (step_WE_LOW16 chip _ _ _ _ H2) as (s3 & E3 & H3).
  rewrite (bind_ret_step _ _ _ _ _ E1), (bind_ret_step _ _ _ _ _ E2),
          (bind_ret_step _ _ _ _ _ E3).
  exists s3. split; [|reflexivity].
  eexists _, _. split; [exact H3|]. split; reflexivity.
Qed.

Lemma row_defect_reported s b :
  strobes_high s -> sound_cells chip ->
  1 <= rows (ram (type s)) <= 512 ->
  0 <= b < row_bits (type s) ->
  (forall b', 0 <= b' < b -> row_sel chip (peer b') <> row_sel chip 0) ->
  row_sel chip (peer b) = row_sel chip 0 ->
  (type s =? T_4532) && (b =? 7) = false ->
  exists s', checkAddressing_16Pin chip s = Halt (Error b 1 (-1) (-1)) s'
             /\ log s' = log s.
Proof.
  intros Hs Hsound Hrows Hb Hlow Hbad Hskip.
  destruct (checkAddressing_unfold s Hs) as (s0 & P0 & ->).
  pose proof (countBits_le_9 (rows (ram (type s)) - 1) ltac:(lia)) as Hcb.
  fold (row_bits (type s)) in Hcb.
  destruct (for_upto_halt (fun _ => probing (globals s)) (row_bits (type s)) b
              (check_row_bit chip)
              (fun f s' => f = Error b 1 (-1) (-1) /\ log s' = g_log (globals s))
              Hb) with (s := s0) as (f & s' & E & -> & Hlog).
  - intros i s1 Hi P1. apply check_row_bit_pass; try assumption; [lia|].
    apply Hlow. lia.
  - intros s1 P1. apply check_row_bit_halt; try assumption. lia.
  - exact P0.
  - exists s'. split; [|exact Hlog].
    now rewrite (bind_halt_step _ _ _ _ _ E).
Qed.

Lemma col_defect_reported s b :
  strobes_high s -> sound_cells chip ->
  1 <= rows (ram (type s)) <= 512 ->
  1 <= columns (ram (type s)) <= 512 ->
  0 <= b < col_bits (type s) ->
  (forall b', 0 <= b' < row_bits (type s) -> row_sel chip (peer b') <> row_sel chip 0) ->
  (forall b', 0 <= b' < b -> col_sel chip (peer b') <> col_sel chip 0) ->
  col_sel chip (peer b) = col_sel chip 0 ->
  exists s', checkAddressing_16Pin chip s = Halt (Error (b + 16) 1 (-1) (-1)) s'
             /\ log s' = log s.
Proof.
  intros Hs Hsound Hrows Hcols Hb Hrowok Hlow Hbad.
  destruct (checkAddressing_unfold s Hs) as (s0 & P0 & ->).
  pose proof (countBits_le_9 (rows (ram (type s)) - 1) ltac:(lia)) as Hrb.
  pose proof (countBits_le_9 (columns (ram (type s)) - 1) ltac:(lia)) as Hcb.
  fold (row_bits (type s)) in Hrb. fold (col_bits (type s)) in Hcb.
  destruct (for_upto_inv (fun _ => probing (globals s)) (row_bits (type s))
              (check_row_bit chip)) with (s := s0) as (s1 & E1 & P1).
  - intros i s1 Hi P1. apply check_row_bit_pass; try assumption; [lia|].
    now apply Hrowok.
  - exact P0.
  - rewrite (bind_ret_step _ _ _ _ _ E1).
    assert (Htr : 0 <= Z.shiftr (rows (ram (type s))) 1 < 512).
    { rewrite Z.shiftr_div_pow2 by lia. change (2 ^ 1) with 2.
      split; [apply Z.div_pos; lia|]. apply Z.div_lt_upper_bound; lia. }
    destruct (for_upto_halt (fun _ => probing (globals s)) (col_bits (type s)) b
                (check_col_bit chip (Z.shiftr (rows (ram (type s))) 1))
                (fun f s' => f = Error (b + 16) 1 (-1) (-1) /\ log s' = g_log (globals s))
                Hb) with (s := s1) as (f & s' & E & -> & Hlog).
    + intros i s2 Hi P2. apply check_col_bit_pass; try assumption; [lia|].
      apply Hlow. lia.
    + intros s2 P2. apply check_col_bit_halt; try assumption. lia.
    + exact P1.
    + exists s'. split; [exact E|exact Hlog].
Qed.

End Addressing.


(** C5.  With all cells sound, a row address bit [b] that does not
    separate its peer row from row 0 (the bits below it being fine) makes
    [checkAddressing_16Pin] end in [error(b, 1)]; a column address bit [b]
    with that defect (all row bits and the column bits below it being
    fine) makes it end in [error(b + 16, 1)].  The run ends there: the
    outcome is the halt, and nothing has been logged since the call.  In
    particular a 64K chip with address pin A3 stuck low ends in
    [error(3, 1)]. *)
Theorem checkAddressing_reports (chip : Chip) (s : state) (b : Z) :
  strobes_high s -> sound_cells chip ->
  1 <= rows (ram (type s)) <= 512 ->
  1 <= columns (ram (type s)) <= 512 ->
  (0 <= b < row_bits (type s) ->
   (forall b', 0 <= b' < b -> row_sel chip (peer b') <> row_sel chip 0) ->
   row_sel chip (peer b) = row_sel chip 0 ->
   (type s =? T_4532) && (b =? 7) = false ->
   exists s', checkAddressing_16Pin chip s = Halt (Error b 1 (-1) (-1)) s'
              /\ log s' = log s)
  /\ (0 <= b < col_bits (type s) ->
      (forall b', 0 <= b' < row_bits (type s) ->
                  row_sel chip (peer b') <> row_sel chip 0) ->
      (forall b', 0 <= b' < b -> col_sel chip (peer b') <> col_sel chip 0) ->
      col_sel chip (peer b) = col_sel chip 0 ->
      exists s', checkAddressing_16Pin chip s = Halt (Error (b + 16) 1 (-1) (-1)) s'
                 /\ log s' = log s)
  /\ (type s = T_4164 ->
      exists s', checkAddressing_16Pin (pin_stuck_low 0xFF 3) s
                 = Halt (Error 3 1 (-1) (-1)) s'
                 /\ log s' = log s).
Proof.
  intros Hs Hsound Hrows Hcols. split; [|split].
  - intros. now apply row_defect_reported.
  - intros. now apply col_defect_reported.
  - intros Ht. apply row_defect_reported; try assumption.
    + intros R C. reflexivity.
    + rewrite Ht. vm_compute. split; [discriminate|reflexivity].
    + intros b' Hb'.
      assert (b' = 0 \/ b' = 1 \/ b' = 2) as [->|[->| ->]] by lia;
        vm_compute; discriminate.
    + reflexivity.
    + rewrite Ht. reflexivity.
Qed.

Lemma checkAddressing_reports_witness :
  exists s', checkAddressing_16Pin (pin_stuck_low 0xFF 3)
                                   (with_type_state T_4164 bench_state)
             = Halt (Error 3 1 (-1) (-1)) s'
             /\ log s' = log (with_type_state T_4164 bench_state).
Proof.
  apply (proj1 (checkAddressing_reports (pin_stuck_low 0xFF 3)
                  (with_type_state T_4164 bench_state) 3
                  ltac:(unfold strobes_high, regs_ok; simpl;
                        repeat split; try lia; reflexivity)
                  ltac:(intros R C; reflexivity)
                  ltac:(simpl; unfold ram; simpl; lia)
                  ltac:(simpl; unfold ram; simpl; lia))).
  - vm_compute. split; [discriminate|reflexivity].
  - intros b' Hb'.
    assert (b' = 0 \/ b' = 1 \/ b' = 2) as [->|[->| ->]] by lia;
      vm_compute; discriminate.
  - reflexivity.
  - reflexivity.
Defined.

(** ** How a run can end *)

Section Halting.

Variable chip : Chip.
Variable P : final -> Prop.

Lemma halts_only_bind {A B} (m : M A) (k : A -> M B) :
  halts_only P m -> (forall a, halts_only P (k a)) -> halts_only P (bind m k).
Proof.
  intros Hm Hk s f s'. unfold bind. destruct (m s) as [a s1|f1 s1] eqn:E.
  - apply Hk.
  - intros [= <- <-]. eapply Hm, E.
Qed.

Lemma halts_only_ret {A} (a : A) : halts_only P (ret a).
Proof. intros s f s'. discriminate. Qed.

Lemma halts_only_inp r : halts_only P (inp r).
Proof. intros s f s'. discriminate. Qed.

Lemma halts_only_out r v : halts_only P (out chip r v).
Proof. intros s f s'. discriminate. Qed.

Lemma halts_only_PINC : halts_only P inp_PINC.
Proof. intros s f s'. discriminate. Qed.

Lemma halts_only_error {A} code kind row col :
  P (Error code kind row col) -> halts_only P (@error A code kind row col).
Proof. intros H s f s'. unfold error. now intros [= <- <-]. Qed.

Lemma halts_only_for_each {A} (l : list A) (body : A -> M unit) :
  (forall x, halts_only P (body x)) -> halts_only P (for_each l body).
Proof.
  intros Hb. induction l as [|x l IH]; simpl.
  - apply halts_only_ret.
  - apply halts_only_bind; [apply Hb|]. intros _. apply IH.
Qed.

Lemma halts_only_foldM {A B} (l : list A) (acc : B) (body : B -> A -> M B) :
  (forall acc x, halts_only P (body acc x)) -> halts_only P (foldM l acc body).
Proof.
  intros Hb. revert acc. induction l as [|x l IH]; intros acc; simpl.
  - apply halts_only_ret.
  - apply halts_only_bind; [apply Hb|]. intros acc'. apply IH.
Qed.

Lemma halts_only_for_break {A B} (l : list A) (body : A -> M (option B)) :
  (forall x, halts_only P (body x)) -> halts_only P (for_break l body).
Proof.
  intros Hb. induction l as [|x l IH]; simpl.
  - apply halts_only_ret.
  - apply halts_only_bind; [apply Hb|]. intros [b|]; [apply halts_only_ret|apply IH].
Qed.

End Halting.

(** Proves that a program built from port operations, reads of globals
    and loops cannot halt, or halts only as its [error] calls say. *)
Ltac halt_prim :=
  intros ? ? ?;
  unfold get_type, get_lower, get_upper, get_randomTable, randomTable_at,
         set_type, set_typeSuffix, set_lower, set_upper, set_randomTable,
         delayMicroseconds, writeRAMType, emit, NOP, cli, sei, ret, inp, out, inp_PINC;
  discriminate.

Ltac halt_unfold :=
  progress unfold
    SBI, CBI, CAS_LOW16, CAS_HIGH16, RAS_LOW16, RAS_HIGH16, WE_LOW16, WE_HIGH16,
    or_reg, andnot_reg, setAddr16_Random, SET_DIN_16, setAddrData, SET_ADDR_PIN16,
    rasHandling_16Pin, refreshRow_16Pin, write16Pin, read16Pin,
    or_lower, or_upper, casBeforeRasRefresh_16Pin.

Ltac halts :=
  repeat
    lazymatch goal with
    | |- halts_only _ (bind _ _) => apply halts_only_bind; [|intros ?]
    | |- halts_only _ (for_each _ _) => apply halts_only_for_each; intros ?
    | |- halts_only _ (foldM _ _ _) => apply halts_only_foldM; intros ? ?
    | |- halts_only _ (for_break _ _) => apply halts_only_for_break; intros ?
    | |- halts_only _ (error _ _ _ _) => apply halts_only_error
    | |- halts_only _ (if ?c then _ else _) => destruct c
    | |- halts_only _ (match ?c with _ => _ end) => destruct c
    | |- halts_only _ _ => first [halt_unfold | halt_prim]
    end.

Section Verdicts.

Variable chip : Chip.

Lemma checkRow_halts_only cols row patNr check :
  halts_only (fun f => f = Error (u8 (patNr + 1)) check (-1) (-1))
             (checkRow_16Pin chip cols row patNr check).
Proof.
  unfold checkRow_16Pin, checkRow_scan_page, checkRow_scan_nibble, checkRow_verdict.
  halts. all: reflexivity.
Qed.

Lemma fastPatternTest_halts_only patNr :
  halts_only (fun f => f = Error (u8 (patNr + 1)) 2 (-1) (-1))
             (fastPatternTest_16Pin chip patNr).
Proof.
  unfold fastPatternTest_16Pin, fast_write_row, fast_read_row, fast_mismatch.
  halts. all: reflexivity.
Qed.

Lemma writeRow_halts_only row cols patNr :
  halts_only (fun f => f = Error (u8 (patNr + 1)) 3 (-1) (-1))
             (writeRow_16Pin chip row cols patNr).
Proof.
  unfold writeRow_16Pin, writeRow_page, writeRow_nibble, retention_check.
  repeat (halts; try apply checkRow_halts_only).
Qed.

Lemma checkRow_verdict_escalates row patNr check ec s :
  swallowed (type s) (lower_after row ec (error_in_lower_half s))
            (upper_after row ec (error_in_upper_half s)) = false ->
  exists s', checkRow_verdict row patNr check true ec s
             = Halt (Error (u8 (patNr + 1)) check (-1) (-1)) s'.
Proof.
  unfold swallowed, lower_after, upper_after, checkRow_verdict.
  intros H.
  destruct (128 <=? row), (128 <=? ec);
    cbv beta iota delta [bind or_upper or_lower get_upper get_lower set_upper
                         set_lower get_type ret];
    cbn [type error_in_lower_half error_in_upper_half] in *;
    rewrite H; eexists; reflexivity.
Qed.

Lemma checkRow_verdict_swallows row patNr check ec s :
  swallowed (type s) (lower_after row ec (error_in_lower_half s))
            (upper_after row ec (error_in_upper_half s)) = true ->
  exists s', checkRow_verdict row patNr check true ec s = Ret tt s'.
Proof.
  unfold swallowed, lower_after, upper_after, checkRow_verdict.
  intros H.
  destruct (128 <=? row), (128 <=? ec);
    cbv beta iota delta [bind or_upper or_lower get_upper get_lower set_upper
                         set_lower get_type ret];
    cbn [type error_in_lower_half error_in_upper_half] in *;
    rewrite H; eexists; reflexivity.
Qed.

Lemma fast_mismatch_escalates patNr row s :
  let ec := if Z.land (PORTD s) 0x40 =? 0 then 0 else 128 in
  swallowed (type s) (lower_after row ec (error_in_lower_half s))
            (upper_after row ec (error_in_upper_half s)) = false ->
  exists s', fast_mismatch chip patNr row s
             = Halt (Error (u8 (patNr + 1)) 2 (-1) (-1)) s'.
Proof.
  cbv zeta. unfold swallowed, lower_after, upper_after, fast_mismatch.
  intros H.
  destruct (128 <=? row);
    cbv beta iota delta [bind or_upper or_lower get_upper get_lower set_upper
                         set_lower get_type ret inp];
    cbn [PORTD type error_in_lower_half error_in_upper_half] in *;
    destruct (Z.land (PORTD s) 64 =? 0);
    cbn [PORTD type error_in_lower_half error_in_upper_half] in *;
    change (128 <=? 128) with true in H; change (128 <=? 0) with false in H;
    cbv beta iota in H;
    rewrite H; eexists; reflexivity.
Qed.

End Verdicts.

Section NeverReturns.

Lemma while_true_runs {S : Type} (body : S -> S) (fuel : nat) (s : S) :
  while_loop fuel (fun _ => true) body s = None.
Proof. revert s. induction fuel as [|fuel IH]; intros s; simpl; [reflexivity|apply IH]. Qed.

Lemma rounds_length (b : blink) (n : nat) (tr : list signal) :
  (length tr + n <= length (rounds n (fun tr => tr ++ blink_round b) tr))%nat.
Proof.
  revert tr. induction n as [|n IH]; intros tr; simpl; [lia|].
  specialize (IH (tr ++ blink_round b)). rewrite length_app in IH.
  assert (1 <= length (blink_round b))%nat; [|lia].
  unfold blink_round. destruct (slowMode b); simpl; [lia|].
  rewrite !length_app. simpl. lia.
Qed.

Lemma error_never_returns fuel code kind row col :
  error_body fuel code kind row col = None.
Proof. apply while_true_runs. Qed.

Lemma error_keeps_signalling n code kind row col :
  (n < length (error_signals n code kind row col))%nat.
Proof.
  unfold error_signals.
  pose proof (rounds_length (blink_of code kind) n [SetLED LED_OFF]). simpl in H. lia.
Qed.

End NeverReturns.

(** ** Reporting of mismatches *)

(** C9, the sentence of the specification: the report of a mismatch
    carries the failing row and column.  The chip has the single faulty
    cell (300, 5); row 300 is written and checked under pattern 4, and the
    run ends in [error 5 3] with row and column at -1. *)
Lemma mismatch_report_omits_row_and_column :
  stuck (one_cell_stuck 0x1FF 300 5 true) 300 5 = Some true /\
  verdict_of ((writeRow_page (one_cell_stuck 0x1FF 300 5 true) 300 512;;
               checkRow_16Pin (one_cell_stuck 0x1FF 300 5 true) 512 300 4 3)
                (with_type_state T_41256 bench_state))
  = Some (Error 5 3 (-1) (-1)) /\
  Error 5 3 (-1) (-1) <> Error 5 3 300 5.
Proof.
  split; [reflexivity|]. split; [vm_compute; reflexivity|discriminate].
Qed.

(** ** The event log of a pass *)

Section Logging.

Variable chip : Chip.
Variable t : Z.

Lemma logs_bind {A B} tr1 tr2 (m : M A) (k : A -> M B) :
  logs t tr1 m -> (forall a, logs t tr2 (k a)) -> logs t (tr1 ++ tr2) (bind m k).
Proof.
  intros Hm Hk s b s' Ht. unfold bind. destruct (m s) as [a s1|f1 s1] eqn:E; [|discriminate].
  intros E2. destruct (Hm _ _ _ Ht E) as [T1 L1].
  destruct (Hk a _ _ _ T1 E2) as [T2 L2]. split; [assumption|].
  rewrite L2, L1. now rewrite <- List.app_assoc.
Qed.

Lemma quiet_bind {A B} (m : M A) (k : A -> M B) :
  logs t [] m -> (forall a, logs t [] (k a)) -> logs t [] (bind m k).
Proof. apply (logs_bind [] []). Qed.

Lemma quiet_then {A B} tr (m : M A) (k : A -> M B) :
  logs t [] m -> (forall a, logs t tr (k a)) -> logs t tr (bind m k).
Proof. apply (logs_bind [] tr). Qed.

Lemma logs_then_quiet {A B} tr (m : M A) (k : A -> M B) :
  logs t tr m -> (forall a, logs t [] (k a)) -> logs t tr (bind m k).
Proof. intros Hm Hk. rewrite <- (List.app_nil_r tr). now apply logs_bind. Qed.

Lemma logs_get_type {B} tr (k : Z -> M B) :
  logs t tr (k t) -> logs t tr (bind get_type k).
Proof. intros Hk s b s' Ht. unfold bind, get_type. rewrite Ht. now apply Hk. Qed.

Lemma quiet_ret {A} (a : A) : logs t [] (ret a).
Proof.
  intros s b s' Ht E. assert (Hs : s = s') by (unfold ret in E; congruence).
  rewrite <- Hs. split; [assumption|now rewrite List.app_nil_r].
Qed.

Lemma logs_emit e : logs t [e] (emit e).
Proof.
  intros s a s' Ht E. unfold emit in E. inversion E. cbn [type log].
  split; [assumption|reflexivity].
Qed.

Lemma quiet_error {A} code kind row col : logs t [] (@error A code kind row col).
Proof. intros s a s' _. discriminate. Qed.

Lemma quiet_for_each {A} (l : list A) (body : A -> M unit) :
  (forall x, logs t [] (body x)) -> logs t [] (for_each l body).
Proof.
  intros Hb. induction l as [|x l IH]; simpl.
  - apply quiet_ret.
  - apply quiet_bind; [apply Hb|]. intros _. apply IH.
Qed.

Lemma logs_for_each {A} (f : A -> list event) (l : list A) (body : A -> M unit) :
  (forall x, logs t (f x) (body x)) -> logs t (flat_map f l) (for_each l body).
Proof.
  intros Hb. induction l as [|x l IH]; simpl.
  - apply quiet_ret.
  - apply logs_bind; [apply Hb|]. intros _. apply IH.
Qed.

Lemma quiet_foldM {A B} (l : list A) (acc : B) (body : B -> A -> M B) :
  (forall acc x, logs t [] (body acc x)) -> logs t [] (foldM l acc body).
Proof.
  intros Hb. revert acc. induction l as [|x l IH]; intros acc; simpl.
  - apply quiet_ret.
  - apply quiet_bind; [apply Hb|]. intros acc'. apply IH.
Qed.

Lemma quiet_for_break {A B} (l : list A) (body : A -> M (option B)) :
  (forall x, logs t [] (body x)) -> logs t [] (for_break l body).
Proof.
  intros Hb. induction l as [|x l IH]; simpl.
  - apply quiet_ret.
  - apply quiet_bind; [apply Hb|]. intros [b|]; [|apply IH].
    apply quiet_ret.
Qed.

End Logging.

(** Proves that a program without [emit] leaves type byte and log alone. *)
Ltac quiet_prim :=
  let Ht := fresh in let E := fresh in
  intros ? ? ? Ht E;
  unfold get_type, get_lower, get_upper, get_randomTable, randomTable_at,
         set_lower, set_upper, set_randomTable,
         NOP, cli, sei, ret, inp, out, inp_PINC, error in E;
  first [discriminate E
        | injection E as <-; cbn [type log]; rewrite ?List.app_nil_r;
          split; [assumption|reflexivity]
        | injection E as _ <-; cbn [type log]; rewrite ?List.app_nil_r;
          split; [assumption|reflexivity]].

Ltac quiets :=
  repeat
    lazymatch goal with
    | |- logs _ [] (bind _ _) => apply quiet_bind; [|intros ?]
    | |- logs _ [] (for_each _ _) => apply quiet_for_each; intros ?
    | |- logs _ [] (foldM _ _ _) => apply quiet_foldM; intros ? ?
    | |- logs _ [] (for_break _ _) => apply quiet_for_break; intros ?
    | |- logs _ [] (if ?c then _ else _) => destruct c
    | |- logs _ [] (match ?c with _ => _ end) => destruct c
    | |- logs _ [] _ => first [halt_unfold | quiet_prim]
    end.

Section PassLog.

Variable chip : Chip.
Variable t : Z.

Lemma checkRow_logs cols row patNr check :
  logs t [EvCheckRow row patNr check] (checkRow_16Pin chip cols row patNr check).
Proof.
  unfold checkRow_16Pin. apply logs_then_quiet; [apply logs_emit|]. intros _.
  unfold checkRow_scan_page, checkRow_scan_nibble, checkRow_verdict. quiets.
Qed.

Lemma retention_check_logs row cols patNr :
  logs t (retention_events t row patNr) (retention_check chip row cols patNr).
Proof.
  unfold retention_check, retention_events. apply logs_get_type. cbv zeta.
  destruct (row =? u16 (rows (ram t) - 1)).
  - apply logs_for_each. intros x.
    apply (logs_bind t [_] [_; _]); [apply checkRow_logs|]. intros _.
    apply (logs_bind t [_] [_]); [apply logs_emit|]. intros _. apply logs_emit.
  - destruct (delayRows (ram t) <=? row).
    + apply (logs_bind t [_] [_]); [apply checkRow_logs|]. intros _. apply logs_emit.
    + apply logs_emit.
Qed.

Lemma writeRow_logs row cols patNr :
  logs t (EvWriteRow row patNr :: retention_events t row patNr)
       (writeRow_16Pin chip row cols patNr).
Proof.
  unfold writeRow_16Pin. apply logs_get_type.
  apply quiet_then; [quiets|]. intros _.
  apply quiet_then; [quiets|]. intros _.
  apply quiet_then.
  { unfold writeRow_page, writeRow_nibble. quiets. }
  intros _. apply (logs_bind t [_]); [apply logs_emit|]. intros _.
  apply retention_check_logs.
Qed.

Lemma random_pass_logs total_rows patNr :
  logs t (pass_events t total_rows patNr) (random_pass chip total_rows patNr).
Proof.
  unfold random_pass, pass_events. apply logs_for_each. intros row.
  apply logs_get_type. apply writeRow_logs.
Qed.

End PassLog.

(** A run that returns [a] returns it in its final state. *)
Lemma ret_final_state {A} (m : M A) (s : state) (a : A) :
  result_of (m s) = Some a -> m s = Ret a (final_state (m s)).
Proof. destruct (m s) as [b s1|f s1]; simpl; [now intros [= ->]|discriminate]. Qed.

(** ** The refresh-counter test *)

(** A loop over [0..n-1] whose iteration [i] passes when [ok i] and ends
    the run in [F] otherwise. *)
Lemma for_upto_verified (I : Z -> state -> Prop) (ok : Z -> bool) (n : Z)
      (body : Z -> M unit) (F : final) :
  (forall i s, 0 <= i < n -> I i s ->
     if ok i then exists s', body i s = Ret tt s' /\ I (i + 1) s'
     else exists s', body i s = Halt F s') ->
  forall s, I 0 s ->
    if forallb ok (upto n)
    then exists s', for_each (upto n) body s = Ret tt s' /\ I (Z.max 0 n) s'
    else exists s', for_each (upto n) body s = Halt F s'.
Proof.
  intros Hb s Hs.
  assert (G : forall m : nat, Z.of_nat m <= Z.max 0 n ->
     if forallb ok (upto (Z.of_nat m))
     then exists s', for_each (upto (Z.of_nat m)) body s = Ret tt s'
                     /\ I (Z.of_nat m) s'
     else exists s', for_each (upto (Z.of_nat m)) body s = Halt F s').
  { induction m as [|m IH]; intros Hm.
    - exists s. split; [reflexivity|assumption].
    - specialize (IH ltac:(lia)).
      rewrite Nat2Z.inj_succ, <- Z.add_1_r, upto_succ by lia.
      rewrite forallb_app. simpl forallb.
      destruct (forallb ok (upto (Z.of_nat m))).
      + destruct IH as (s1 & E1 & H1). cbn [andb].
        specialize (Hb (Z.of_nat m) s1 ltac:(lia) H1).
        destruct (ok (Z.of_nat m)); cbn [andb].
        * destruct Hb as (s2 & E2 & H2). exists s2.
          rewrite for_each_app, (bind_ret_step _ _ _ _ _ E1). simpl.
          rewrite (bind_ret_step _ _ _ _ _ E2). split; [reflexivity|assumption].
        * destruct Hb as (s2 & E2). exists s2.
          rewrite for_each_app, (bind_ret_step _ _ _ _ _ E1). simpl.
          now rewrite (bind_halt_step _ _ _ _ _ E2).
      + destruct IH as (s1 & E1). cbn [andb]. exists s1.
        rewrite for_each_app. now rewrite (bind_halt_step _ _ _ _ _ E1). }
  specialize (G (Z.to_nat n) ltac:(lia)).
  unfold upto in *. rewrite Nat2Z.id in G.
  replace (Z.max 0 n) with (Z.of_nat (Z.to_nat n)) by lia. exact G.
Qed.

Section Refresh.

Variable chip : Chip.

Lemma casBeforeRasRefresh_spec s p d g :
  abs s p d g ->
  exists s', casBeforeRasRefresh_16Pin chip s = Ret tt s'
    /\ abs s' {| pB := {| ras := true; we := we (pB p); aB := aB (pB p) |};
                 pC := {| cas := true; din := din (pC p); aC := aC (pC p) |};
                 aD := aD p; dir := dir p |}
           (refreshed 1 d) g.
Proof.
  intros H. destruct p as [[r w ab] [c di ac] ad x].
  unfold casBeforeRasRefresh_16Pin, NOP.
  step (step_RAS_HIGH16 chip).
  destruct c.
  - step (step_CAS_LOW16 chip).
    step (step_RAS_LOW16 chip).
    step (step_RAS_HIGH16 chip).
    last_step (step_CAS_HIGH16 chip).
  - step (step_CAS_LOW16 chip).
    step (step_RAS_LOW16 chip).
    step (step_RAS_HIGH16 chip).
    last_step (step_CAS_HIGH16 chip).
Qed.

Lemma refreshed_refreshed n m d : refreshed n (refreshed m d) = refreshed (m + n) d.
Proof. unfold refreshed. simpl. f_equal. lia. Qed.

Lemma refreshed_0 d : refreshed 0 d = d.
Proof. destruct d. unfold refreshed. simpl. f_equal. lia. Qed.

Lemma casBeforeRasRefresh_holds r c w x d g s :
  holds r c w x d g s ->
  exists s', casBeforeRasRefresh_16Pin chip s = Ret tt s'
             /\ holds true true w x (refreshed 1 d) g s'.
Proof.
  intros (p & H & Hr & Hc & Hw & Hx).
  destruct (casBeforeRasRefresh_spec s p d g H) as (s' & E & H').
  exists s'. split; [exact E|]. eexists. split; [exact H'|].
  repeat split; assumption.
Qed.

Lemma repeat_snoc {A} (a : A) (i : Z) :
  0 <= i -> repeat a (Z.to_nat (i + 1)) = repeat a (Z.to_nat i) ++ [a].
Proof.
  intros Hi. replace (Z.to_nat (i + 1)) with (S (Z.to_nat i)) by lia.
  simpl. apply repeat_cons.
Qed.

(** One refresh sequence: 256 CAS-before-RAS cycles, each followed by a
    delay of 15 microseconds; the cells are left alone. *)
Lemma refresh_sequence_spec r c w x d g s :
  holds r c w x d g s ->
  exists s', refresh_sequence chip s = Ret tt s'
    /\ holds true true w x (refreshed 256 d)
             (with_log (g_log g ++ repeat (EvDelay 15) 256) g) s'.
Proof.
  intros H. unfold refresh_sequence.
  pose (I := fun (i : Z) (s : state) =>
    holds (if i =? 0 then r else true) (if i =? 0 then c else true) w x
          (refreshed i d)
          (with_log (g_log g ++ repeat (EvDelay 15) (Z.to_nat i)) g) s).
  destruct (for_upto_inv I 256
              (fun _ => casBeforeRasRefresh_16Pin chip;; delayMicroseconds 15;;
                        NOP;; NOP;; NOP;; NOP;; NOP)) with (s := s)
    as (s' & E & H').
  - intros i s0 Hi H0. unfold I in H0.
    destruct (casBeforeRasRefresh_holds _ _ _ _ _ _ _ H0) as (s1 & E1 & (p1 & H1 & P1)).
    rewrite (bind_ret_step _ _ _ _ _ E1).
    unfold delayMicroseconds, NOP.
    destruct (step_emit (EvDelay 15) _ _ _ _ H1) as (s2 & E2 & H2).
    rewrite (bind_ret_step _ _ _ _ _ E2).
    exists s2. split; [reflexivity|]. unfold I.
    replace (i + 1 =? 0) with false by lia.
    exists p1. split; [|exact P1].
    rewrite refreshed_refreshed in H2. rewrite repeat_snoc by lia.
    cbn [with_log g_log g_type g_suffix g_lower g_upper g_table] in H2.
    rewrite List.app_assoc. exact H2.
  - unfold I. change (0 =? 0) with true. cbv iota.
    rewrite refreshed_0. change (Z.to_nat 0) with 0%nat. simpl repeat.
    rewrite List.app_nil_r. destruct g. exact H.
  - exists s'. split; [exact E|]. exact H'.
Qed.

(** Phase 2: ten refresh sequences. *)
Lemma refresh_cycles_phase_spec r c w x d g s :
  holds r c w x d g s ->
  exists s', refresh_cycles_phase chip s = Ret tt s'
    /\ holds true true w x (refreshed 2560 d)
             (with_log (g_log g ++ repeat (EvDelay 15) 2560) g) s'.
Proof.
  intros H. unfold refresh_cycles_phase.
  pose (I := fun (i : Z) (s : state) =>
    holds (if i =? 0 then r else true) (if i =? 0 then c else true) w x
          (refreshed (256 * i) d)
          (with_log (g_log g ++ repeat (EvDelay 15) (Z.to_nat (256 * i))) g) s).
  destruct (for_upto_inv I 10 (fun _ => refresh_sequence chip)) with (s := s)
    as (s' & E & H').
  - intros i s0 Hi H0. unfold I in H0.
    destruct (refresh_sequence_spec _ _ _ _ _ _ _ H0) as (s1 & E1 & H1).
    exists s1. split; [exact E1|]. unfold I.
    replace (i + 1 =? 0) with false by lia.
    rewrite refreshed_refreshed in H1.
    cbn [with_log g_log g_type g_suffix g_lower g_upper g_table] in H1.
    replace (256 * (i + 1)) with (256 * i + 256) by lia.
    replace (Z.to_nat (256 * i + 256)) with (Z.to_nat (256 * i) + 256)%nat by lia.
    rewrite repeat_app, List.app_assoc. exact H1.
  - unfold I. change (0 =? 0) with true. cbv iota.
    change (256 * 0) with 0. rewrite refreshed_0. change (Z.to_nat 0) with 0%nat.
    simpl repeat. rewrite List.app_nil_r. destruct g. exact H.
  - exists s'. split; [exact E|]. exact H'.
Qed.

(** One column of the write phase, with RAS low on [row] and WE low. *)
Lemma refresh_write_col dataByte col s cl rl dn cb g :
  0 <= col < 512 ->
  holds false true false true
        {| cells := cl; row_latch := rl; dout := dn; cbr_count := cb |} g s ->
  exists s',
    ((if Z.land (Z.shiftr dataByte col) 0x01 =? 0
      then andnot_reg chip rPORTC 0x02 else or_reg chip rPORTC 0x02);;
     setAddrData chip col
       (if Z.land (Z.shiftr dataByte col) 0x01 =? 0 then 0x00 else 0x04);;
     CAS_LOW16 chip;; NOP;; CAS_HIGH16 chip) s = Ret tt s'
    /\ holds false true false true
          {| cells := <[(row_sel chip rl, col_sel chip col)
                        := negb (Z.land (Z.shiftr dataByte col) 0x01 =? 0)]> cl;
             row_latch := rl; dout := dn; cbr_count := cb |} g s'.
Proof.
  intros Hcol (p & H & Hr & Hc & Hw & Hx).
  destruct p as [[r w ab] [c di ac] ad x]. simpl in Hr, Hc, Hw, Hx. subst r c w x.
  unfold setAddrData, SET_DIN_16, NOP.
  destruct (Z.land (Z.shiftr dataByte col) 1 =? 0).
  - change (Z.land 0 4 =? 0) with true. cbv iota.
    step (step_andnot_PORTC_2 chip).
    step (step_setAddr16_Random chip col Hcol).
    step (step_andnot_PORTC_2 chip).
    step (step_CAS_LOW16 chip).
    destruct (step_CAS_HIGH16 chip _ _ _ _ H) as (s' & E & H').
    exists s'. split; [exact E|]. eexists. split; [exact H'|].
    repeat split.
  - change (Z.land 4 4 =? 0) with false. cbv iota.
    step (step_or_PORTC_2 chip).
    step (step_setAddr16_Random chip col Hcol).
    step (step_or_PORTC_2 chip).
    step (step_CAS_LOW16 chip).
    destruct (step_CAS_HIGH16 chip _ _ _ _ H) as (s' & E & H').
    exists s'. split; [exact E|]. eexists. split; [exact H'|].
    repeat split.
Qed.

Lemma row_image_succ tbl row j cl :
  0 <= j ->
  row_image chip tbl row (j + 1) cl
  = <[(row_sel chip row, col_sel chip j) := refresh_bit tbl row j]>
      (row_image chip tbl row j cl).
Proof.
  intros Hj. unfold row_image. rewrite upto_succ by assumption.
  now rewrite fold_left_app.
Qed.

Lemma refresh_image_succ tbl i cl :
  0 <= i ->
  refresh_image chip tbl (i + 1) cl
  = row_image chip tbl i 8 (refresh_image chip tbl i cl).
Proof.
  intros Hi. unfold refresh_image. rewrite upto_succ by assumption.
  now rewrite fold_left_app.
Qed.

(** One row of the write phase. *)
Lemma refresh_write_row row s cl rl dn cb g :
  0 <= row < 512 ->
  holds true true false true
        {| cells := cl; row_latch := rl; dout := dn; cbr_count := cb |} g s ->
  exists s',
    (dataByte ← randomTable_at (Z.land row 0xFF);
     SET_ADDR_PIN16 chip row;;
     RAS_LOW16 chip;;
     for_each (upto 8) (fun col =>
       let bit := Z.land (Z.shiftr dataByte col) 0x01 in
       (if bit =? 0 then andnot_reg chip rPORTC 0x02 else or_reg chip rPORTC 0x02);;
       setAddrData chip col (if bit =? 0 then 0x00 else 0x04);;
       CAS_LOW16 chip;; NOP;; CAS_HIGH16 chip);;
     RAS_HIGH16 chip;;
     casBeforeRasRefresh_16Pin chip) s = Ret tt s'
    /\ holds true true false true
          {| cells := row_image chip (g_table g) row 8 cl;
             row_latch := row; dout := dn; cbr_count := cb + 1 |} g s'.
Proof.
  intros Hrow (p & H & Hr & Hc & Hw & Hx).
  destruct p as [[r w ab] [c di ac] ad x]. simpl in Hr, Hc, Hw, Hx. subst r c w x.
  unfold SET_ADDR_PIN16.
  step_get (abs_randomTable_at (Z.land row 0xFF)).
  step (step_setAddr16_Random chip row Hrow).
  step (step_RAS_LOW16 chip).
  lazymatch goal with Habs : abs _ _ _ _ |- _ => rename Habs into HA end.
  cbn [cells row_latch dout cbr_count] in HA.
  pose (I := fun (j : Z) (s : state) =>
    holds false true false true
          {| cells := row_image chip (g_table g) row j cl;
             row_latch := row; dout := dn; cbr_count := cb |} g s).
  norm_prog.
  match goal with
  | |- context [bind (for_each (upto 8) ?b) _ ?st] =>
      destruct (for_upto_inv I 8 b) with (s := st) as (st2 & E2 & H2)
  end.
  - intros j st0 Hj H0. unfold I in *. rewrite row_image_succ by lia.
    apply (refresh_write_col _ j st0 _ _ _ _ g); [lia|exact H0].
  - unfold I. eexists. split; [exact HA|]. repeat split.
  - rewrite (bind_ret_step _ _ _ _ _ E2). clear E2 HA.
    destruct H2 as (p2 & H & Hr & Hc & Hw & Hx).
    destruct p2 as [[r w ab2] [c di2 ac2] ad2 x].
    simpl in Hr, Hc, Hw, Hx. subst r c w x.
    change (Z.max 0 8) with 8 in H.
    step (step_RAS_HIGH16 chip).
    lazymatch goal with Habs : abs _ _ _ _ |- _ => rename Habs into HB end.
    destruct (casBeforeRasRefresh_spec _ _ _ _ HB) as (s' & E & H').
    exists s'. split; [exact E|]. eexists. split; [exact H'|]. repeat split.
Qed.

(** Phase 1: the data byte of each row goes to its columns 0-7, and
    each row is followed by one refresh cycle. *)
Lemma refresh_write_phase_spec rows c w x d g s :
  0 <= rows <= 512 ->
  holds true c w x d g s ->
  exists s' rl,
    refresh_write_phase chip rows s = Ret tt s'
    /\ holds true true true true
          {| cells := refresh_image chip (g_table g) rows (cells d);
             row_latch := rl; dout := dout d; cbr_count := cbr_count d + rows |} g s'.
Proof.
  intros Hrows (p & H & Hr & Hc & Hw & Hx).
  destruct p as [[r w0 ab] [c0 di ac] ad x0]. simpl in Hr, Hc, Hw, Hx. subst r c0 w0 x0.
  destruct d as [cl rl dn cb]. cbn [cells row_latch dout cbr_count].
  unfold refresh_write_phase.
  step (step_or_DDRC_2 chip).
  step (step_CAS_HIGH16 chip).
  step (step_WE_LOW16 chip).
  lazymatch goal with Habs : abs _ _ _ _ |- _ => rename Habs into HA end.
  pose (I := fun (i : Z) (s : state) =>
    exists rl', holds true true false true
          {| cells := refresh_image chip (g_table g) i cl;
             row_latch := rl'; dout := dn; cbr_count := cb + i |} g s).
  norm_prog.
  match goal with
  | |- context [bind (for_each (upto rows) ?b) _ ?st] =>
      destruct (for_upto_inv I rows b) with (s := st) as (st2 & E2 & H2)
  end.
  - intros i st0 Hi (rl' & H0). unfold I.
    destruct (refresh_write_row i st0 _ _ _ _ g ltac:(lia) H0) as (st1 & E1 & H1).
    exists st1. split; [exact E1|]. exists i.
    rewrite refresh_image_succ by lia.
    replace (cb + (i + 1)) with (cb + i + 1) by lia. exact H1.
  - unfold I. exists rl. replace (cb + 0) with cb by lia.
    eexists. split; [exact HA|]. repeat split.
  - rewrite (bind_ret_step _ _ _ _ _ E2). clear E2 HA.
    rewrite Z.max_r in H2 by lia.
    destruct H2 as (rl' & p2 & H & Hr & Hc & Hw & Hx).
    destruct p2 as [[r w2 ab2] [c2 di2 ac2] ad2 x2].
    simpl in Hr, Hc, Hw, Hx. subst r c2 w2 x2.
    lazymatch goal with Habs : abs _ _ _ _ |- _ => rename Habs into HB end.
    destruct (step_WE_HIGH16 chip _ _ _ _ HB) as (s' & E & H').
    exists s', rl'. split; [exact E|]. eexists. split; [exact H'|]. repeat split.
Qed.

Lemma land_1_cases y : Z.land y 1 = 0 \/ Z.land y 1 = 1.
Proof.
  assert (E : Z.land y 1 = y mod 2) by exact (Z.land_ones y 1 ltac:(lia)).
  pose proof (Z.mod_pos_bound y 2 eq_refl) as B. lia.
Qed.

(** One column of the verify phase, with RAS low on [rl] and WE high:
    the cell is read and compared with bit [col] of the expected byte. *)
Lemma refresh_verify_col expectedByte col s cl rl dn cb g :
  0 <= col < 512 ->
  holds false true true false
        {| cells := cl; row_latch := rl; dout := dn; cbr_count := cb |} g s ->
  let prog :=
    (setAddrData chip col 0;;
     CAS_LOW16 chip;; NOP;; NOP;;
     pinc ← inp_PINC;
     let actualBit := if Z.land pinc 0x04 =? 0 then 0 else 1 in
     let expectedBit := Z.land (Z.shiftr expectedByte col) 0x01 in
     CAS_HIGH16 chip;;
     if actualBit =? expectedBit then ret tt
     else RAS_HIGH16 chip;; or_reg chip rDDRC 0x02;; error 0 5 (-1) (-1)) in
  if Bool.eqb (read_cell chip cl (row_sel chip rl) (col_sel chip col))
              (negb (Z.land (Z.shiftr expectedByte col) 0x01 =? 0))
  then exists s', prog s = Ret tt s'
         /\ holds false true true false
               {| cells := cl; row_latch := rl;
                  dout := read_cell chip cl (row_sel chip rl) (col_sel chip col);
                  cbr_count := cb |} g s'
  else exists s', prog s = Halt (Error 0 5 (-1) (-1)) s'.
Proof.
  intros Hcol (p & H & Hr & Hc & Hw & Hx) prog. subst prog.
  destruct p as [[r w ab] [c di ac] ad x]. simpl in Hr, Hc, Hw, Hx. subst r c w x.
  unfold setAddrData, SET_DIN_16, NOP.
  change (Z.land 0 4 =? 0) with true. cbv iota.
  assert (Hgo : forall b e, (e = 0 \/ e = 1) ->
            ((if negb b then 0 else 1) =? e) = Bool.eqb b (negb (e =? 0))).
  { intros [|] e [->| ->]; reflexivity. }
  destruct (Bool.eqb _ _) eqn:Hag.
  - step (step_setAddr16_Random chip col Hcol).
    step (step_andnot_PORTC_2 chip).
    step (step_CAS_LOW16 chip).
    step_pinc 0 v. cbv zeta. cbn [cells row_latch dout cbr_count] in *.
    rewrite Hz, Hgo, Hag by apply land_1_cases.
    lazymatch goal with Habs : abs _ _ _ _ |- _ => rename Habs into HA end.
    destruct (step_CAS_HIGH16 chip _ _ _ _ HA) as (s' & E & H').
    rewrite (bind_ret_step _ _ _ _ _ E).
    exists s'. split; [reflexivity|]. eexists. split; [exact H'|]. repeat split.
  - step (step_setAddr16_Random chip col Hcol).
    step (step_andnot_PORTC_2 chip).
    step (step_CAS_LOW16 chip).
    step_pinc 0 v. cbv zeta. cbn [cells row_latch dout cbr_count] in *.
    rewrite Hz, Hgo, Hag by apply land_1_cases.
    step (step_CAS_HIGH16 chip).
    step (step_RAS_HIGH16 chip).
    step (step_or_DDRC_2 chip).
    eexists. reflexivity.
Qed.

(** One row of the verify phase. *)
Lemma refresh_verify_row row s cl rl dn cb g :
  0 <= row < 512 ->
  holds true true true false
        {| cells := cl; row_latch := rl; dout := dn; cbr_count := cb |} g s ->
  let prog :=
    (expectedByte ← randomTable_at (Z.land row 0xFF);
     SET_ADDR_PIN16 chip row;;
     RAS_LOW16 chip;;
     for_each (upto 8) (fun col =>
       setAddrData chip col 0;;
       CAS_LOW16 chip;; NOP;; NOP;;
       pinc ← inp_PINC;
       let actualBit := if Z.land pinc 0x04 =? 0 then 0 else 1 in
       let expectedBit := Z.land (Z.shiftr expectedByte col) 0x01 in
       CAS_HIGH16 chip;;
       if actualBit =? expectedBit then ret tt
       else RAS_HIGH16 chip;; or_reg chip rDDRC 0x02;; error 0 5 (-1) (-1));;
     RAS_HIGH16 chip;;
     casBeforeRasRefresh_16Pin chip) in
  if forallb (refresh_agrees chip (g_table g) cl row) (upto 8)
  then exists s' dn', prog s = Ret tt s'
         /\ holds true true true false
               {| cells := cl; row_latch := row; dout := dn'; cbr_count := cb + 1 |} g s'
  else exists s', prog s = Halt (Error 0 5 (-1) (-1)) s'.
Proof.
  intros Hrow (p & H & Hr & Hc & Hw & Hx) prog. subst prog.
  destruct p as [[r w ab] [c di ac] ad x]. simpl in Hr, Hc, Hw, Hx. subst r c w x.
  unfold SET_ADDR_PIN16.
  step_get (abs_randomTable_at (Z.land row 0xFF)).
  step (step_setAddr16_Random chip row Hrow).
  step (step_RAS_LOW16 chip).
  lazymatch goal with Habs : abs _ _ _ _ |- _ => rename Habs into HA end.
  cbn [cells row_latch dout cbr_count] in HA.
  pose (I := fun (j : Z) (s : state) =>
    exists dn', holds false true true false
          {| cells := cl; row_latch := row; dout := dn'; cbr_count := cb |} g s).
  norm_prog.
  match goal with
  | |- context [bind (for_each (upto 8) ?b) _ ?st] =>
      pose proof (for_upto_verified I (refresh_agrees chip (g_table g) cl row) 8 b
                    (Error 0 5 (-1) (-1))) as P;
      specialize (fun Hb => P Hb st)
  end.
  lapply P; [clear P; intros P|].
  - lapply P; [clear P; intros P|].
    + destruct (forallb _ (upto 8)).
      * destruct P as (st2 & E2 & (dn2 & p2 & H2 & Hr & Hc & Hw & Hx)).
        rewrite (bind_ret_step _ _ _ _ _ E2). clear E2 HA.
        destruct p2 as [[r w ab2] [c di2 ac2] ad2 x].
        simpl in Hr, Hc, Hw, Hx. subst r c w x.
        step (step_RAS_HIGH16 chip).
        lazymatch goal with Habs : abs _ _ _ _ |- _ => rename Habs into HB end.
        destruct (casBeforeRasRefresh_spec _ _ _ _ HB) as (s' & E & H').
        exists s', dn2. split; [exact E|]. eexists. split; [exact H'|]. repeat split.
      * destruct P as (st2 & E2). exists st2.
        now rewrite (bind_halt_step _ _ _ _ _ E2).
    + unfold I. exists dn. eexists. split; [exact HA|]. repeat split.
  - intros j st0 Hj (dn' & H0).
    pose proof (refresh_verify_col (rd (g_table g) (Z.land row 0xFF)) j st0
                  cl row dn' cb g ltac:(lia) H0) as Q.
    cbv zeta in Q. unfold refresh_agrees, refresh_bit.
    destruct (Bool.eqb _ _).
    + destruct Q as (s' & E & H'). exists s'. split; [exact E|].
      eexists. exact H'.
    + exact Q.
Qed.

(** Phase 3: every cell written in phase 1 is read back. *)
Lemma refresh_verify_phase_spec rows x d g s :
  0 <= rows <= 512 ->
  holds true true true x d g s ->
  if refresh_verified chip (g_table g) rows (cells d)
  then exists s' rl dn,
         refresh_verify_phase chip rows s = Ret tt s'
         /\ holds true true true true
               {| cells := cells d; row_latch := rl; dout := dn;
                  cbr_count := cbr_count d + rows |} g s'
  else exists s', refresh_verify_phase chip rows s = Halt (Error 0 5 (-1) (-1)) s'.
Proof.
  intros Hrows (p & H & Hr & Hc & Hw & Hx).
  destruct p as [[r w0 ab] [c0 di ac] ad x0]. simpl in Hr, Hc, Hw, Hx. subst r c0 w0 x0.
  destruct d as [cl rl dn cb]. cbn [cells row_latch dout cbr_count].
  unfold refresh_verify_phase, refresh_verified.
  step (step_andnot_PORTC_2 chip).
  step (step_andnot_DDRC_2 chip).
  lazymatch goal with Habs : abs _ _ _ _ |- _ => rename Habs into HA end.
  pose (I := fun (i : Z) (s : state) =>
    exists rl' dn', holds true true true false
          {| cells := cl; row_latch := rl'; dout := dn'; cbr_count := cb + i |} g s).
  norm_prog.
  match goal with
  | |- context [bind (for_each (upto rows) ?b) _ ?st] =>
      pose proof (for_upto_verified I
                    (fun row => forallb (refresh_agrees chip (g_table g) cl row) (upto 8))
                    rows b (Error 0 5 (-1) (-1))) as P;
      specialize (fun Hb => P Hb st)
  end.
  lapply P; [clear P; intros P|].
  - lapply P; [clear P; intros P|].
    + destruct (forallb _ (upto rows)).
      * destruct P as (st2 & E2 & (rl2 & dn2 & p2 & H2 & Hr & Hc & Hw & Hx)).
        rewrite (bind_ret_step _ _ _ _ _ E2). clear E2 HA.
        destruct p2 as [[r w ab2] [c di2 ac2] ad2 x2].
        simpl in Hr, Hc, Hw, Hx. subst r c w x2.
        rewrite Z.max_r in H2 by lia.
        destruct (step_or_DDRC_2 chip _ _ _ _ H2) as (s' & E & H').
        exists s', rl2, dn2. split; [exact E|]. eexists. split; [exact H'|].
        repeat split.
      * destruct P as (st2 & E2). exists st2.
        now rewrite (bind_halt_step _ _ _ _ _ E2).
    + unfold I. exists rl, dn. replace (cb + 0) with cb by lia.
      eexists. split; [exact HA|]. repeat split.
  - intros i st0 Hi (rl' & dn' & H0).
    pose proof (refresh_verify_row i st0 cl rl' dn' (cb + i) g ltac:(lia) H0) as Q.
    cbv zeta in Q.
    destruct (forallb _ (upto 8)).
    + destruct Q as (s' & dn2 & E & H'). exists s'. split; [exact E|].
      exists i, dn2. replace (cb + (i + 1)) with (cb + i + 1) by lia. exact H'.
    + exact Q.
Qed.

(** The whole test, for a type with at most 512 rows. *)
Lemma refreshTimeTest_spec c w x d g s :
  0 <= rows (ram (g_type g)) <= 512 ->
  holds true c w x d g s ->
  let n := rows (ram (g_type g)) in
  let img := refresh_image chip (g_table g) n (cells d) in
  if refresh_verified chip (g_table g) n img
  then exists s' rl dn,
         refreshTimeTest_16Pin chip s = Ret tt s'
         /\ holds true true true true
               {| cells := img; row_latch := rl; dout := dn;
                  cbr_count := cbr_count d + n + 2560 + n |}
               (with_log (g_log g ++ repeat (EvDelay 15) 2560) g) s'
  else exists s', refreshTimeTest_16Pin chip s = Halt (Error 0 5 (-1) (-1)) s'.
Proof.
  intros Hrows H n img. unfold refreshTimeTest_16Pin.
  assert (Ht : get_type s = Ret (g_type g) s).
  { destruct H as (p & H & _). exact (abs_get_type _ _ _ _ H). }
  rewrite (bind_ret_step _ _ _ _ _ Ht). cbv zeta. fold n.
  destruct (refresh_write_phase_spec n c w x d g s Hrows H) as (s1 & rl1 & E1 & H1).
  rewrite (bind_ret_step _ _ _ _ _ E1). fold img in H1.
  destruct (refresh_cycles_phase_spec _ _ _ _ _ _ _ H1) as (s2 & E2 & H2).
  rewrite (bind_ret_step _ _ _ _ _ E2).
  pose proof (refresh_verify_phase_spec n _ _ _ _ Hrows H2) as Q.
  cbn [refreshed cells row_latch dout cbr_count with_log g_table] in Q.
  destruct (refresh_verified chip (g_table g) n img).
  - destruct Q as (s' & rl & dn & E & H'). exists s', rl, dn. split; [exact E|].
    exact H'.
  - exact Q.
Qed.

(** What the cells hold after phase 1. *)
Lemma row_image_lookup_other tbl row n cl R C :
  0 <= n -> R <> row_sel chip row ->
  row_image chip tbl row n cl !! (R, C) = cl !! (R, C).
Proof.
  intros Hn HR. revert n Hn. apply natlike_ind; [reflexivity|].
  intros j Hj IH. rewrite <- Z.add_1_r, row_image_succ by assumption.
  rewrite lookup_insert_ne; [exact IH|]. intros [= E _]. now apply HR.
Qed.

Lemma row_image_lookup_same tbl row n cl col :
  (forall a b, 0 <= a < n -> 0 <= b < n -> col_sel chip a = col_sel chip b -> a = b) ->
  0 <= col < n ->
  row_image chip tbl row n cl !! (row_sel chip row, col_sel chip col)
  = Some (refresh_bit tbl row col).
Proof.
  intros Hinj [Hc Hn]. assert (H0 : 0 <= n) by lia.
  revert n H0 Hinj Hn. apply (natlike_ind (fun n =>
    (forall a b, 0 <= a < n -> 0 <= b < n -> col_sel chip a = col_sel chip b -> a = b) ->
    col < n -> _)); [lia|].
  intros j Hj IH Hinj Hlt. rewrite <- Z.add_1_r, row_image_succ by assumption.
  destruct (Z.eq_dec col j) as [->|Hne].
  - apply lookup_insert_eq.
  - rewrite lookup_insert_ne.
    + apply IH; [|lia]. intros a b Ha Hb. apply Hinj; lia.
    + intros [= E]. apply Hne. symmetry. apply Hinj; [lia|lia|exact E].
Qed.

Lemma refresh_image_lookup tbl rows cl row col :
  decodes chip rows 8 -> 0 <= row < rows -> 0 <= col < 8 ->
  refresh_image chip tbl rows cl !! (row_sel chip row, col_sel chip col)
  = Some (refresh_bit tbl row col).
Proof.
  intros [Hri Hci] [Hr Hn] Hcol. assert (H0 : 0 <= rows) by lia.
  revert rows H0 Hri Hn. apply (natlike_ind (fun rows =>
    (forall a b, 0 <= a < rows -> 0 <= b < rows ->
                 row_sel chip a = row_sel chip b -> a = b) ->
    row < rows -> _)); [lia|].
  intros i Hi IH Hri Hlt. rewrite <- Z.add_1_r, refresh_image_succ by assumption.
  destruct (Z.eq_dec row i) as [->|Hne].
  - now apply row_image_lookup_same.
  - rewrite row_image_lookup_other; [|lia|].
    + apply IH; [|lia]. intros a b Ha Hb. apply Hri; lia.
    + intros E. apply Hne. apply Hri; [lia|lia|exact E].
Qed.

(** On a chip without stuck cells that tells the addresses apart, every
    cell reads back as written. *)
Lemma refresh_verified_sound tbl rows cl :
  decodes chip rows 8 -> sound_cells chip ->
  refresh_verified chip tbl rows (refresh_image chip tbl rows cl) = true.
Proof.
  intros Hd Hs. unfold refresh_verified.
  apply forallb_forall. intros row Hrow. apply in_upto in Hrow.
  apply forallb_forall. intros col Hcol. apply in_upto in Hcol.
  unfold refresh_agrees, read_cell. rewrite Hs.
  rewrite refresh_image_lookup by assumption. simpl. apply eqb_reflx.
Qed.

Lemma holds_of_state s :
  regs_ok s ->
  holds (RAS_pin (PORTB s)) (CAS_pin (PORTC s)) (WE_pin (PORTB s))
        (Z.testbit (DDRC s) 1) (dram s) (globals s) s.
Proof.
  intros H. exists (pins_of s). split; [|repeat split].
  repeat split; try reflexivity; apply H.
Qed.

Lemma holds_state r c w x d g s :
  holds r c w x d g s -> dram s = d /\ globals s = g.
Proof. intros (p & (_ & _ & Hd & Hg) & _). now split. Qed.

Lemma refreshTimeTest_halts_only :
  halts_only (fun f => f = Error 0 5 (-1) (-1)) (refreshTimeTest_16Pin chip).
Proof.
  unfold refreshTimeTest_16Pin, refresh_write_phase, refresh_cycles_phase,
         refresh_sequence, refresh_verify_phase.
  halts. all: reflexivity.
Qed.

End Refresh.

Lemma holds_pins r c w x d g s :
  holds r c w x d g s ->
  regs_ok s /\ RAS_pin (PORTB s) = r /\ CAS_pin (PORTC s) = c
  /\ WE_pin (PORTB s) = w /\ dram s = d /\ globals s = g.
Proof.
  intros (p & (Hr & Hp & Hd & Hg) & P1 & P2 & P3 & P4). subst p.
  repeat split; try assumption; apply Hr.
Qed.

Lemma land_511 a : 0 <= a < 512 -> Z.land a 0x1FF = a.
Proof.
  intros H. change 0x1FF with (Z.ones 9). rewrite Z.land_ones by lia.
  apply Z.mod_small. change (2 ^ 9) with 512. lia.
Qed.

Lemma ideal_511_decodes n m : n <= 512 -> m <= 512 -> decodes (ideal 0x1FF) n m.
Proof.
  intros Hn Hm. split; intros a b Ha Hb; simpl; intros E;
    rewrite !land_511 in E by lia; exact E.
Qed.

(** ** What the refresh routines do, in terms of registers and chip *)

(** A CAS-before-RAS cycle, started with the control lines in any state,
    advances the chip's internal refresh counter by exactly one, changes
    no cell, and leaves RAS and CAS high. *)
Theorem cbr_cycle_counts_once (chip : Chip) (s : state) :
  regs_ok s ->
  exists s', casBeforeRasRefresh_16Pin chip s = Ret tt s'
    /\ cbr_count (dram s') = cbr_count (dram s) + 1
    /\ cells (dram s') = cells (dram s)
    /\ RAS_pin (PORTB s') = true /\ CAS_pin (PORTC s') = true
    /\ WE_pin (PORTB s') = WE_pin (PORTB s) /\ regs_ok s'.
Proof.
  intros H.
  destruct (casBeforeRasRefresh_holds chip _ _ _ _ _ _ _ (holds_of_state s H))
    as (s' & E & H').
  exists s'. split; [exact E|].
  destruct (holds_pins _ _ _ _ _ _ _ H') as (R & P1 & P2 & P3 & -> & _).
  simpl. repeat split; try assumption; apply R.
Qed.

Lemma cbr_cycle_counts_once_witness :
  exists s', casBeforeRasRefresh_16Pin (ideal 0x1FF) bench_state = Ret tt s'
    /\ cbr_count (dram s') = cbr_count (dram bench_state) + 1
    /\ cells (dram s') = cells (dram bench_state)
    /\ RAS_pin (PORTB s') = true /\ CAS_pin (PORTC s') = true
    /\ WE_pin (PORTB s') = WE_pin (PORTB bench_state) /\ regs_ok s'.
Proof.
  apply (cbr_cycle_counts_once (ideal 0x1FF) bench_state).
  unfold regs_ok. simpl. lia.
Defined.

(** One refresh sequence of [refreshTimeTest_16Pin] is exactly 256
    CAS-before-RAS cycles, each followed by a delay of 15 microseconds; it
    changes no cell. *)
Theorem refresh_sequence_is_256_cycles (chip : Chip) (s : state) :
  regs_ok s ->
  exists s', refresh_sequence chip s = Ret tt s'
    /\ cbr_count (dram s') = cbr_count (dram s) + 256
    /\ cells (dram s') = cells (dram s)
    /\ log s' = log s ++ repeat (EvDelay 15) 256.
Proof.
  intros H.
  destruct (refresh_sequence_spec chip _ _ _ _ _ _ _ (holds_of_state s H))
    as (s' & E & H').
  exists s'. split; [exact E|].
  destruct (holds_pins _ _ _ _ _ _ _ H') as (_ & _ & _ & _ & -> & Hg).
  apply (f_equal g_log) in Hg. simpl in *. repeat split. exact Hg.
Qed.

Lemma refresh_sequence_is_256_cycles_witness :
  exists s', refresh_sequence (ideal 0x1FF) bench_state = Ret tt s'
    /\ cbr_count (dram s') = cbr_count (dram bench_state) + 256
    /\ cells (dram s') = cells (dram bench_state)
    /\ log s' = log bench_state ++ repeat (EvDelay 15) 256.
Proof.
  apply (refresh_sequence_is_256_cycles (ideal 0x1FF) bench_state).
  unfold regs_ok. simpl. lia.
Defined.

(** The refresh-counter test on a chip of type 41256, started with RAS
    high.  Phase 1 stores bit [col] of [randomTable[row & 0xFF]] in column
    [col] of every row, for the columns 0-7 of the 512 rows; the test
    returns when each of these cells reads back as stored, after
    512 + 10 * 256 + 512 refresh cycles, and it ends in [error(0, 5)] when
    one of them does not. *)
Theorem refresh_test_outcome (chip : Chip) (s : state) :
  regs_ok s -> RAS_pin (PORTB s) = true -> type s = T_41256 ->
  if refresh_verified chip (randomTable s) 512
       (refresh_image chip (randomTable s) 512 (cells (dram s)))
  then exists s', refreshTimeTest_16Pin chip s = Ret tt s'
         /\ cells (dram s')
            = refresh_image chip (randomTable s) 512 (cells (dram s))
         /\ cbr_count (dram s') = cbr_count (dram s) + 512 + 10 * 256 + 512
         /\ log s' = log s ++ repeat (EvDelay 15) 2560
  else exists s', refreshTimeTest_16Pin chip s = Halt (Error 0 5 (-1) (-1)) s'.
Proof.
  intros H Hras Ht.
  pose proof (holds_of_state s H) as Hh. rewrite Hras in Hh.
  pose proof (fun Hrows => refreshTimeTest_spec chip _ _ _ _ _ _ Hrows Hh) as P.
  cbv zeta in P.
  change (g_type (globals s)) with (type s) in P.
  change (g_table (globals s)) with (randomTable s) in P.
  rewrite Ht in P. change (rows (ram T_41256)) with 512 in P.
  specialize (P ltac:(lia)).
  destruct (refresh_verified _ _ _ _); [|exact P].
  destruct P as (s' & rl & dn & E & H'). exists s'. split; [exact E|].
  destruct (holds_pins _ _ _ _ _ _ _ H') as (_ & _ & _ & _ & -> & Hg).
  apply (f_equal g_log) in Hg. simpl in *. repeat split; try lia. exact Hg.
Qed.

Lemma refresh_test_outcome_witness :
  exists s', refreshTimeTest_16Pin (one_cell_stuck 0x1FF 300 5 true)
               (with_type_state T_41256 bench_state)
             = Halt (Error 0 5 (-1) (-1)) s'.
Proof.
  assert (R : regs_ok (with_type_state T_41256 bench_state))
    by (unfold regs_ok; simpl; lia).
  pose proof (refresh_test_outcome (one_cell_stuck 0x1FF 300 5 true)
                (with_type_state T_41256 bench_state) R eq_refl eq_refl) as P.
  match type of P with
  | if ?c then _ else _ => replace c with false in P by (vm_compute; reflexivity)
  end.
  exact P.
Defined.

(** On a chip without stuck cells that tells its 512 row addresses and
    the column addresses 0-7 apart, the refresh-counter test returns
    without error, and every cell of columns 0-7 then holds its bit of
    the row's data byte. *)
Theorem refresh_test_passes_on_sound_chip (chip : Chip) (s : state) :
  sound_cells chip -> decodes chip 512 8 ->
  regs_ok s -> RAS_pin (PORTB s) = true -> type s = T_41256 ->
  exists s', refreshTimeTest_16Pin chip s = Ret tt s'
    /\ cbr_count (dram s') = cbr_count (dram s) + 3584
    /\ forall row col, 0 <= row < 512 -> 0 <= col < 8 ->
         read_cell chip (cells (dram s')) (row_sel chip row) (col_sel chip col)
         = refresh_bit (randomTable s) row col.
Proof.
  intros Hs Hd H Hras Ht.
  pose proof (holds_of_state s H) as Hh. rewrite Hras in Hh.
  pose proof (fun Hrows => refreshTimeTest_spec chip _ _ _ _ _ _ Hrows Hh) as P.
  cbv zeta in P.
  change (g_type (globals s)) with (type s) in P.
  change (g_table (globals s)) with (randomTable s) in P.
  rewrite Ht in P. change (rows (ram T_41256)) with 512 in P.
  specialize (P ltac:(lia)).
  rewrite (refresh_verified_sound chip _ _ _ Hd Hs) in P.
  destruct P as (s' & rl & dn & E & H'). exists s'. split; [exact E|].
  destruct (holds_pins _ _ _ _ _ _ _ H') as (_ & _ & _ & _ & -> & _).
  simpl. split; [lia|]. intros row col Hrow Hcol.
  unfold read_cell. rewrite Hs.
  now rewrite (refresh_image_lookup chip _ _ _ _ _ Hd Hrow Hcol).
Qed.

Lemma refresh_test_passes_on_sound_chip_witness :
  exists s', refreshTimeTest_16Pin (ideal 0x1FF)
               (with_type_state T_41256 bench_state) = Ret tt s'
    /\ cbr_count (dram s')
       = cbr_count (dram (with_type_state T_41256 bench_state)) + 3584
    /\ forall row col, 0 <= row < 512 -> 0 <= col < 8 ->
         read_cell (ideal 0x1FF) (cells (dram s'))
                   (row_sel (ideal 0x1FF) row) (col_sel (ideal 0x1FF) col)
         = refresh_bit (randomTable (with_type_state T_41256 bench_state)) row col.
Proof.
  apply (refresh_test_passes_on_sound_chip (ideal 0x1FF)
           (with_type_state T_41256 bench_state)).
  - intros R C. reflexivity.
  - apply ideal_511_decodes; lia.
  - unfold regs_ok. simpl. lia.
  - reflexivity.
  - reflexivity.
Defined.

(** Whatever the chip and the state, the refresh-counter test ends a run
    only in [error(0, 5)]. *)
Theorem refresh_test_reports_only_refresh_timeout (chip : Chip) (s s' : state)
        (f : final) :
  refreshTimeTest_16Pin chip s = Halt f s' -> f = Error 0 5 (-1) (-1).
Proof. apply (refreshTimeTest_halts_only chip). Qed.

Lemma halt_final_state {A} (m : M A) (s : state) (f : final) :
  verdict_of (m s) = Some f -> m s = Halt f (final_state (m s)).
Proof. destruct (m s) as [b s1|f1 s1]; simpl; [discriminate|now intros [= ->]]. Qed.

Lemma refresh_test_reports_only_refresh_timeout_witness :
  exists f s',
    refreshTimeTest_16Pin (one_cell_stuck 0x1FF 300 5 true)
      (with_type_state T_41256 bench_state) = Halt f s'
    /\ f = Error 0 5 (-1) (-1).
Proof.
  assert (H : refreshTimeTest_16Pin (one_cell_stuck 0x1FF 300 5 true)
                (with_type_state T_41256 bench_state)
              = Halt (Error 0 5 (-1) (-1))
                     (final_state
                        (refreshTimeTest_16Pin (one_cell_stuck 0x1FF 300 5 true)
                           (with_type_state T_41256 bench_state))))
    by (apply halt_final_state; vm_compute; reflexivity).
  eexists _, _. split; [exact H|].
  exact (refresh_test_reports_only_refresh_timeout _ _ _ _ H).
Defined.

(** ** Single-cell access as a store *)

Lemma strobes_high_abs s :
  strobes_high s ->
  exists w ab di ac ad x,
    abs s {| pB := {| ras := true; we := w; aB := ab |};
             pC := {| cas := true; din := di; aC := ac |};
             aD := ad; dir := x |} (dram s) (globals s).
Proof.
  intros (Hr & H1 & H2).
  assert (H : abs s (pins_of s) (dram s) (globals s)) by (repeat split; apply Hr).
  assert (P1 : ras (pB (pins_of s)) = true) by exact H1.
  assert (P2 : cas (pC (pins_of s)) = true) by exact H2.
  destruct (pins_of s) as [[r w ab] [c di ac] ad x]. simpl in P1, P2. subst r c.
  now exists w, ab, di, ac, ad, x.
Qed.

Lemma bench_strobes_high t : strobes_high (with_type_state t bench_state).
Proof. unfold strobes_high, regs_ok. simpl. repeat split; lia. Qed.

Lemma bench_strobes_high_0 : strobes_high bench_state.
Proof. unfold strobes_high, regs_ok. simpl. repeat split; lia. Qed.

(** [write16Pin] followed by [read16Pin], started with RAS and CAS high
    and addresses below 512: the read of the cell just written gives the
    written bit, or the value the cell is stuck at; the read of a cell
    that the chip selects as a different one gives what that cell held
    before the write.  Both leave the control lines at rest. *)
Theorem write_then_read (chip : Chip) (s : state) (row col data row' col' : Z) :
  strobes_high s ->
  0 <= row < 512 -> 0 <= col < 512 -> 0 <= row' < 512 -> 0 <= col' < 512 ->
  (exists s', (write16Pin chip row col data;; read16Pin chip row col) s
              = Ret (match stuck chip (row_sel chip row) (col_sel chip col) with
                     | Some b => Z.b2z b
                     | None => if data =? 0 then 0 else 1
                     end) s'
              /\ at_rest s')
  /\ ((row_sel chip row', col_sel chip col') <> (row_sel chip row, col_sel chip col) ->
      exists s', (write16Pin chip row col data;; read16Pin chip row' col') s
                 = Ret (Z.b2z (read_cell chip (cells (dram s))
                                 (row_sel chip row') (col_sel chip col'))) s'
                 /\ at_rest s').
Proof.
  intros Hs Hrow Hcol Hrow' Hcol'.
  destruct (strobes_high_abs s Hs) as (w & ab & di & ac & ad & x & H).
  split.
  - wstep chip row col data.
    match goal with H : abs _ _ _ _ |- _ => rename H into HA end.
    destruct (read16Pin_spec chip row col _ _ _ _ Hrow Hcol HA eq_refl eq_refl eq_refl)
      as (s' & E & H').
    exists s'. split; [|apply (abs_at_rest _ _ _ _ H'); repeat split].
    rewrite E. f_equal. cbn [written cells]. f_equal.
    unfold read_cell. destruct (stuck chip _ _); [reflexivity|].
    rewrite lookup_insert_eq. simpl. now destruct (data =? 0).
  - intros Hne. wstep chip row col data.
    match goal with H : abs _ _ _ _ |- _ => rename H into HA end.
    destruct (read16Pin_spec chip row' col' _ _ _ _ Hrow' Hcol' HA eq_refl eq_refl eq_refl)
      as (s' & E & H').
    exists s'. split; [|apply (abs_at_rest _ _ _ _ H'); repeat split].
    rewrite E. f_equal. cbn [written cells]. f_equal.
    apply read_cell_insert_ne. congruence.
Qed.

Lemma write_then_read_witness :
  (exists s', (write16Pin (ideal 0x1FF) 300 5 1;; read16Pin (ideal 0x1FF) 300 5)
                (with_type_state T_41256 bench_state)
              = Ret 1 s' /\ at_rest s')
  /\ (exists s', (write16Pin (ideal 0x1FF) 300 5 1;; read16Pin (ideal 0x1FF) 7 9)
                   (with_type_state T_41256 bench_state)
                 = Ret 0 s' /\ at_rest s').
Proof.
  destruct (write_then_read (ideal 0x1FF) (with_type_state T_41256 bench_state)
              300 5 1 7 9 (bench_strobes_high T_41256)
              ltac:(lia) ltac:(lia) ltac:(lia) ltac:(lia)) as [P1 P2].
  split; [exact P1|]. apply P2. simpl. intros [=].
Defined.

(** ** Address set-up and RAS-only refresh *)

(** [setAddr16_Random a] puts the address [a] on the nine address pins
    and changes neither RAS, WE, CAS, Din nor the chip. *)
Theorem setAddr16_Random_drives_address (chip : Chip) (s : state) (a : Z) :
  regs_ok s -> 0 <= a < 512 ->
  exists s', setAddr16_Random chip a s = Ret tt s'
    /\ addr_pins (PORTB s') (PORTC s') (PORTD s') = a
    /\ RAS_pin (PORTB s') = RAS_pin (PORTB s)
    /\ WE_pin (PORTB s') = WE_pin (PORTB s)
    /\ CAS_pin (PORTC s') = CAS_pin (PORTC s)
    /\ Z.testbit (PORTC s') 1 = Z.testbit (PORTC s) 1
    /\ dram s' = dram s /\ regs_ok s'.
Proof.
  intros Hr Ha.
  assert (H : abs s (pins_of s) (dram s) (globals s)) by (repeat split; apply Hr).
  destruct (step_setAddr16_Random chip a Ha _ _ _ _ H) as (s' & E & (Hr' & Hp & Hd & _)).
  exists s'. split; [exact E|].
  rewrite (addr_pins_view _ _ _ (DDRC s')).
  change (view (PORTB s') (PORTC s') (PORTD s') (DDRC s')) with (pins_of s').
  change (RAS_pin (PORTB s')) with (ras (pB (pins_of s'))).
  change (WE_pin (PORTB s')) with (we (pB (pins_of s'))).
  change (CAS_pin (PORTC s')) with (cas (pC (pins_of s'))).
  change (Z.testbit (PORTC s') 1) with (din (pC (pins_of s'))).
  rewrite Hp. rewrite adr_addressed by assumption.
  repeat split; try reflexivity; try assumption; apply Hr'.
Qed.

Lemma setAddr16_Random_drives_address_witness :
  exists s', setAddr16_Random (ideal 0x1FF) 0x155 bench_state = Ret tt s'
    /\ addr_pins (PORTB s') (PORTC s') (PORTD s') = 0x155
    /\ RAS_pin (PORTB s') = RAS_pin (PORTB bench_state)
    /\ WE_pin (PORTB s') = WE_pin (PORTB bench_state)
    /\ CAS_pin (PORTC s') = CAS_pin (PORTC bench_state)
    /\ Z.testbit (PORTC s') 1 = Z.testbit (PORTC bench_state) 1
    /\ dram s' = dram bench_state /\ regs_ok s'.
Proof.
  apply (setAddr16_Random_drives_address (ideal 0x1FF) bench_state 0x155).
  - unfold regs_ok. simpl. lia.
  - lia.
Defined.

(** [refreshRow_16Pin] changes no cell and leaves RAS high; with CAS
    high on entry the chip has latched [row], with CAS low it has counted
    one CAS-before-RAS cycle instead. *)
Theorem refreshRow_keeps_cells (chip : Chip) (s : state) (row : Z) :
  regs_ok s -> 0 <= row < 512 ->
  exists s', refreshRow_16Pin chip row s = Ret tt s'
    /\ cells (dram s') = cells (dram s)
    /\ dout (dram s') = dout (dram s)
    /\ RAS_pin (PORTB s') = true
    /\ (if CAS_pin (PORTC s)
        then row_latch (dram s') = row /\ cbr_count (dram s') = cbr_count (dram s)
        else row_latch (dram s') = row_latch (dram s)
             /\ cbr_count (dram s') = cbr_count (dram s) + 1).
Proof.
  intros Hr Hrow.
  assert (H : abs s (pins_of s) (dram s) (globals s)) by (repeat split; apply Hr).
  change (CAS_pin (PORTC s)) with (cas (pC (pins_of s))).
  destruct (pins_of s) as [[r w ab] [c di ac] ad x].
  destruct (dram s) as [cl rl dn cb].
  unfold refreshRow_16Pin, rasHandling_16Pin.
  step (step_RAS_HIGH16 chip).
  step (step_setAddr16_Random chip row Hrow).
  destruct c.
  - step (step_RAS_LOW16 chip).
    match goal with H : abs _ _ _ _ |- _ => rename H into HA end.
    destruct (step_RAS_HIGH16 chip _ _ _ _ HA) as (s' & E & (_ & Hp & Hd & _)).
    exists s'. split; [exact E|].
    change (RAS_pin (PORTB s')) with (ras (pB (pins_of s'))).
    rewrite Hp, Hd. simpl. repeat split.
  - step (step_RAS_LOW16 chip).
    match goal with H : abs _ _ _ _ |- _ => rename H into HA end.
    destruct (step_RAS_HIGH16 chip _ _ _ _ HA) as (s' & E & (_ & Hp & Hd & _)).
    exists s'. split; [exact E|].
    change (RAS_pin (PORTB s')) with (ras (pB (pins_of s'))).
    rewrite Hp, Hd. simpl. repeat split.
Qed.

Lemma refreshRow_keeps_cells_witness :
  exists s', refreshRow_16Pin (ideal 0x1FF) 77 bench_state = Ret tt s'
    /\ cells (dram s') = cells (dram bench_state)
    /\ dout (dram s') = dout (dram bench_state)
    /\ RAS_pin (PORTB s') = true
    /\ (if CAS_pin (PORTC bench_state)
        then row_latch (dram s') = 77
             /\ cbr_count (dram s') = cbr_count (dram bench_state)
        else row_latch (dram s') = row_latch (dram bench_state)
             /\ cbr_count (dram s') = cbr_count (dram bench_state) + 1).
Proof.
  apply (refreshRow_keeps_cells (ideal 0x1FF) bench_state 77).
  - unfold regs_ok. simpl. lia.
  - lia.
Defined.

(** ** Nibble-mode detection on a page-mode chip *)

(** The chip model has no nibble counter: every CAS edge selects the
    column on the address pins.  On such a chip the four reads of
    [detect41257_16Pin] return the same bit, so the 1-0-1-0 signature is
    never seen and [type] is left as it was. *)
Ltac tidy :=
  match goal with H : abs _ _ _ _ |- _ => cbn [cells row_latch dout cbr_count written] in H end.

Theorem detect41257_keeps_page_mode_type (chip : Chip) (s : state) :
  strobes_high s ->
  exists s', detect41257_16Pin chip s = Ret tt s' /\ type s' = type s /\ at_rest s'.
Proof.
  intros Hs.
  destruct (strobes_high_abs s Hs) as (w & ab & di & ac & ad & x & H).
  assert (Z0 : 0 <= 0 < 512) by lia.
  unfold detect41257_16Pin, SET_ADDR_PIN16, NOP.
  wstep chip 0 0 0. wstep chip 0 256 0. wstep chip 256 0 0. wstep chip 256 256 0. tidy.
  step (step_or_DDRC_2 chip).
  step (step_setAddr16_Random chip 0 Z0).
  step (step_RAS_LOW16 chip). tidy.
  step (step_WE_LOW16 chip).
  step (step_or_PORTC_2 chip).
  step (step_CAS_LOW16 chip). tidy.
  step (step_CAS_HIGH16 chip).
  step (step_andnot_PORTC_2 chip).
  step (step_CAS_LOW16 chip). tidy.
  step (step_CAS_HIGH16 chip).
  step (step_or_PORTC_2 chip).
  step (step_CAS_LOW16 chip). tidy.
  step (step_CAS_HIGH16 chip).
  step (step_andnot_PORTC_2 chip).
  step (step_CAS_LOW16 chip). tidy.
  step (step_CAS_HIGH16 chip).
  step (step_WE_HIGH16 chip).
  step (step_RAS_HIGH16 chip).
  step (step_andnot_PORTC_2 chip).
  step (step_andnot_DDRC_2 chip).
  step (step_setAddr16_Random chip 0 Z0).
  step (step_RAS_LOW16 chip). tidy.
  step (step_CAS_LOW16 chip). tidy.
  step_pinc 0 v0. clear Hx Hsh. rename Hz into Hz0.
  step (step_CAS_HIGH16 chip).
  step (step_CAS_LOW16 chip). tidy.
  step_pinc 0 v1. clear Hx Hsh. rename Hz into Hz1.
  step (step_CAS_HIGH16 chip).
  step (step_CAS_LOW16 chip). tidy.
  step_pinc 0 v2. clear Hx Hsh. rename Hz into Hz2.
  step (step_CAS_HIGH16 chip).
  step (step_CAS_LOW16 chip). tidy.
  step_pinc 0 v3. clear Hx Hsh. rename Hz into Hz3.
  step (step_CAS_HIGH16 chip).
  step (step_RAS_HIGH16 chip).
  step (step_or_DDRC_2 chip).
  cbn [cells row_latch dout cbr_count written] in *.
  rewrite Hz0, Hz1.
  match goal with |- context [negb (negb ?b)] => destruct b end.
  all: cbn [negb andb].
  all: match goal with H : abs ?s1 _ _ _ |- _ =>
         exists s1; split; [reflexivity|];
         split; [destruct H as (_ & _ & _ & Hg); apply (f_equal g_type) in Hg; exact Hg
                |apply (abs_at_rest _ _ _ _ H); repeat split] end.
Qed.

Lemma detect41257_keeps_page_mode_type_witness :
  exists s', detect41257_16Pin (ideal 0x1FF) (with_type_state T_41256 bench_state)
             = Ret tt s'
             /\ type s' = type (with_type_state T_41256 bench_state) /\ at_rest s'.
Proof.
  apply (detect41257_keeps_page_mode_type (ideal 0x1FF)).
  apply bench_strobes_high.
Defined.

(** ** Presence check *)

Lemma b2z_eqb_0 b : (Z.b2z b =? 0) = negb b.
Proof. now destruct b. Qed.

Lemma b2z_eqb_1 b : (Z.b2z b =? 1) = b.
Proof. now destruct b. Qed.

Lemma ram_present_spec (chip : Chip) (s : state) :
  strobes_high s ->
  exists s', ram_present_16Pin chip s
             = Ret (negb (read_cell chip (probed chip 1 0 (cells (dram s)))
                            (row_sel chip 0) (col_sel chip 0))
                    && read_cell chip (probed chip 1 0 (cells (dram s)))
                         (row_sel chip 1) (col_sel chip 0)) s'
             /\ at_rest s'.
Proof.
  intros Hs.
  destruct (strobes_high_abs s Hs) as (w & ab & di & ac & ad & x & H).
  unfold ram_present_16Pin.
  wstep chip 0 0 0. wstep chip 1 0 1.
  rstep chip 0 0. rstep chip 1 0. rstep chip 0 0.
  rewrite !b2z_eqb_0, b2z_eqb_1.
  match goal with H : abs ?s1 _ _ _ |- _ =>
    exists s1; split; [|apply (abs_at_rest _ _ _ _ H); repeat split] end.
  unfold probed. destruct (read_cell chip _ (row_sel chip 0) _); simpl;
    [reflexivity|]. now rewrite andb_true_r.
Qed.

(** [ram_present_16Pin] writes 0 to row 0 and 1 to row 1 of column 0 and
    reads both back.  It reports a chip when the two cells are sound and
    the chip tells row 1 from row 0; it reports none when the two rows
    select the same cell, when the cell at row 0 is stuck at 1, or when
    the cell at row 1 is stuck at 0. *)
Theorem ram_present_verdict (chip : Chip) (s : state) :
  strobes_high s ->
  (stuck chip (row_sel chip 0) (col_sel chip 0) = None ->
   stuck chip (row_sel chip 1) (col_sel chip 0) = None ->
   row_sel chip 1 <> row_sel chip 0 ->
   exists s', ram_present_16Pin chip s = Ret true s' /\ at_rest s')
  /\ (row_sel chip 1 = row_sel chip 0 ->
      exists s', ram_present_16Pin chip s = Ret false s' /\ at_rest s')
  /\ (stuck chip (row_sel chip 0) (col_sel chip 0) = Some true ->
      exists s', ram_present_16Pin chip s = Ret false s' /\ at_rest s')
  /\ (stuck chip (row_sel chip 1) (col_sel chip 0) = Some false ->
      exists s', ram_present_16Pin chip s = Ret false s' /\ at_rest s').
Proof.
  intros Hs. destruct (ram_present_spec chip s Hs) as (s' & E & R).
  unfold probed in E. repeat split.
  - intros S0 S1 Hne. exists s'. split; [|exact R]. rewrite E. f_equal.
    rewrite read_cell_insert_ne by congruence.
    rewrite !read_cell_insert_eq by assumption. reflexivity.
  - intros Heq. exists s'. split; [|exact R]. rewrite E. f_equal.
    rewrite Heq. apply andb_negb_l.
  - intros S0. exists s'. split; [|exact R]. rewrite E. f_equal.
    rewrite (read_cell_stuck chip _ _ _ _ S0). reflexivity.
  - intros S1. exists s'. split; [|exact R]. rewrite E. f_equal.
    rewrite (read_cell_stuck chip _ (row_sel chip 1) _ _ S1). apply andb_false_r.
Qed.

Lemma ram_present_verdict_witness :
  (exists s', ram_present_16Pin (ideal 0x1FF) bench_state = Ret true s' /\ at_rest s')
  /\ (exists s', ram_present_16Pin (one_cell_stuck 0x1FF 0 0 true) bench_state
                 = Ret false s' /\ at_rest s').
Proof.
  split.
  - apply (proj1 (ram_present_verdict (ideal 0x1FF) bench_state
                    (bench_strobes_high_0))); [reflexivity|reflexivity|].
    simpl. discriminate.
  - apply (proj1 (proj2 (proj2 (ram_present_verdict (one_cell_stuck 0x1FF 0 0 true)
                    bench_state bench_strobes_high_0)))).
    reflexivity.
Defined.

(** ** Type sensing below 64K *)

(** When the probe cell is sound and neither row address 256 nor row
    address 128 selects a row other than row 0, [sense41256_16Pin] goes
    on to column address 128: the chip is taken for a 4532 when column
    128 is a column of its own, and for a 4816 when it is column 0
    again. *)
Theorem sense_A7_classification (chip : Chip) (s : state) :
  at_rest s ->
  stuck chip (row_sel chip 0) (col_sel chip 0) = None ->
  row_sel chip 256 = row_sel chip 0 ->
  row_sel chip 128 = row_sel chip 0 ->
  exists s', sense41256_16Pin chip s = Ret tt s'
    /\ type s' = (if bool_decide (col_sel chip 128 = col_sel chip 0)
                  then T_4816 else T_4532)
    /\ at_rest s'.
Proof.
  intros Hrest Hstuck H256 H128.
  destruct (at_rest_abs s Hrest) as (H & Hr1 & Hr2 & Hr3).
  destruct (pins_of s) as [[r w ab] [c di ac] ad x]. simpl in Hr1, Hr2, Hr3. subst r c w.
  unfold sense41256_16Pin.
  step (step_CAS_HIGH16 chip).
  wstep chip 0 0 0. rstep chip 0 0.
  rewrite read_cell_insert_eq by assumption. cbn [Z.b2z Z.eqb].
  wstep chip 0 0 0. wstep chip 256 0 1. rstep chip 0 0.
  rewrite H256. rewrite read_cell_insert_eq by assumption. cbn [Z.b2z Z.eqb].
  wstep chip 0 0 0. wstep chip 128 0 1. rstep chip 0 0.
  rewrite H128. rewrite read_cell_insert_eq by assumption. cbn [Z.b2z Z.eqb negb].
  wstep chip 0 0 0. wstep chip 0 128 1. rstep chip 0 0.
  case_bool_decide as Hc.
  - rewrite Hc. rewrite read_cell_insert_eq by assumption. cbn [Z.b2z Z.eqb].
    match goal with H : abs _ _ _ _ |- _ =>
      destruct (step_set_type T_4816 _ _ _ _ H) as (s' & E & H') end.
    exists s'. split; [exact E|].
    pose proof H' as (_ & _ & _ & Hg). apply (f_equal g_type) in Hg.
    split; [exact Hg|]. eapply abs_at_rest; [exact H'|repeat split].
  - rewrite read_cell_insert_ne by congruence.
    rewrite read_cell_insert_eq by assumption. cbn [Z.b2z Z.eqb].
    match goal with H : abs _ _ _ _ |- _ =>
      destruct (step_set_type T_4532 _ _ _ _ H) as (s' & E & H') end.
    exists s'. split; [exact E|].
    pose proof H' as (_ & _ & _ & Hg). apply (f_equal g_type) in Hg.
    split; [exact Hg|]. eapply abs_at_rest; [exact H'|repeat split].
Qed.

Lemma bench_at_rest : at_rest bench_state.
Proof. unfold at_rest, regs_ok. simpl. repeat split; try lia; reflexivity. Qed.

Lemma sense_A7_classification_witness :
  (exists s', sense41256_16Pin (ideal 0x7F) bench_state = Ret tt s'
              /\ type s' = T_4816 /\ at_rest s')
  /\ (exists s', sense41256_16Pin
                   {| row_sel := fun a => Z.land a 0x7F;
                      col_sel := fun a => Z.land a 0xFF;
                      stuck := fun _ _ => None |} bench_state = Ret tt s'
                 /\ type s' = T_4532 /\ at_rest s').
Proof.
  split.
  - apply (sense_A7_classification (ideal 0x7F) bench_state bench_at_rest);
      reflexivity.
  - apply (sense_A7_classification
             {| row_sel := fun a => Z.land a 0x7F;
                col_sel := fun a => Z.land a 0xFF;
                stuck := fun _ _ => None |} bench_state bench_at_rest);
      reflexivity.
Defined.

(** ** The address-line check on a good chip *)

Lemma bits_of_16pin_types t :
  In t [T_4164; T_41256; T_41257; T_4816] ->
  0 <= row_bits t <= 9 /\ 0 <= col_bits t <= 9
  /\ 0 <= Z.shiftr (rows (ram t)) 1 < 512.
Proof.
  simpl. intros [<-|[<-|[<-|[<-|[]]]]]; vm_compute; repeat split; congruence.
Qed.

(** On a chip without stuck cells on which every single-bit row address
    and every single-bit column address of the detected type selects a
    row, respectively a column, other than number 0,
    [checkAddressing_16Pin] returns without error and leaves type byte
    and log alone. *)
Theorem checkAddressing_passes_good_chip (chip : Chip) (s : state) :
  strobes_high s -> sound_cells chip ->
  In (type s) [T_4164; T_41256; T_41257; T_4816] ->
  (forall b, 0 <= b < row_bits (type s) -> row_sel chip (peer b) <> row_sel chip 0) ->
  (forall b, 0 <= b < col_bits (type s) -> col_sel chip (peer b) <> col_sel chip 0) ->
  exists s', checkAddressing_16Pin chip s = Ret tt s'
    /\ type s' = type s /\ log s' = log s /\ strobes_high s'.
Proof.
  intros Hs Hsound Ht Hrow Hcol.
  destruct (bits_of_16pin_types _ Ht) as (Brow & Bcol & Btr).
  destruct (checkAddressing_unfold chip s Hs) as (s0 & P0 & ->).
  destruct (for_each_inv (probing (globals s)) (upto (row_bits (type s)))
              (check_row_bit chip)) with (s := s0) as (s1 & E1 & P1).
  - intros b st Hb Hp. apply in_upto in Hb.
    apply check_row_bit_pass; [lia|assumption|apply Hrow; lia|assumption].
  - exact P0.
  - rewrite (bind_ret_step _ _ _ _ _ E1).
    destruct (for_each_inv (probing (globals s)) (upto (col_bits (type s)))
                (check_col_bit chip (Z.shiftr (rows (ram (type s))) 1)))
      with (s := s1) as (s2 & E2 & P2).
    + intros b st Hb Hp. apply in_upto in Hb.
      apply check_col_bit_pass; [lia|lia|assumption|apply Hcol; lia|assumption].
    + exact P1.
    + exists s2. split; [exact E2|].
      pose proof (probing_type _ _ P2) as T. unfold get_type in T.
      injection T as T. pose proof (probing_log _ _ P2) as L.
      destruct P2 as (p & d & (Hr & Hp & _) & Hras & Hcas). subst p.
      repeat split; try assumption; apply Hr.
Qed.

Lemma peer_511 b : 0 <= b < 9 -> Z.land (peer b) 0x1FF <> Z.land 0 0x1FF.
Proof.
  intros H.
  assert (C : forallb (fun b => negb (Z.land (peer b) 0x1FF =? Z.land 0 0x1FF))
                      (upto 9) = true) by (vm_compute; reflexivity).
  pose proof (forallb_upto _ _ C b H) as D. cbv beta in D.
  apply negb_true_iff, Z.eqb_neq in D. exact D.
Qed.

Lemma checkAddressing_passes_good_chip_witness :
  exists s', checkAddressing_16Pin (ideal 0x1FF) (with_type_state T_41256 bench_state)
             = Ret tt s'
    /\ type s' = type (with_type_state T_41256 bench_state)
    /\ log s' = log (with_type_state T_41256 bench_state) /\ strobes_high s'.
Proof.
  apply (checkAddressing_passes_good_chip (ideal 0x1FF)
           (with_type_state T_41256 bench_state)).
  - apply bench_strobes_high.
  - intros R C. reflexivity.
  - simpl. tauto.
  - intros b Hb. apply peer_511. exact Hb.
  - intros b Hb. apply peer_511. exact Hb.
Defined.

(** ** Helper functions of common.h and common.cpp *)

Lemma u8_testbit y n :
  0 <= n -> Z.testbit (u8 y) n = (n <? 8) && Z.testbit y n.
Proof.
  intros Hn. unfold u8. change 256 with (2 ^ 8).
  destruct (n <? 8) eqn:E.
  - apply Z.ltb_lt in E. now rewrite Z.mod_pow2_bits_low by lia.
  - apply Z.ltb_ge in E. now rewrite Z.mod_pow2_bits_high by lia.
Qed.

Lemma byte_high_bits x n : 0 <= x < 256 -> 8 <= n -> Z.testbit x n = false.
Proof.
  intros Hx Hn. rewrite <- (Z.mod_small x (2 ^ 8)) by (change (2 ^ 8) with 256; lia).
  apply Z.mod_pow2_bits_high. lia.
Qed.

(** Within a row, [mix8] is the exclusive-or of the column with a key
    that depends on the row only: columns 0-255 of a row read the 256
    entries of the random table in a permuted order, each entry once. *)
Theorem mix8_permutes_columns (row col col' : Z) :
  0 <= col < 256 -> 0 <= col' < 256 ->
  mix8 col row = Z.lxor col (row_key row)
  /\ 0 <= mix8 col row < 256
  /\ (mix8 col row = mix8 col' row -> col = col').
Proof.
  intros Hc Hc'.
  assert (X : forall c, 0 <= c < 256 -> mix8 c row = Z.lxor c (row_key row)).
  { intros c Hcc. unfold mix8, row_key. cbv zeta.
    set (r := u16 (row + Z.shiftr row 4)).
    apply Z.bits_inj'. intros n Hn.
    repeat (rewrite ?u8_testbit, ?Z.lxor_spec, ?Z.shiftr_spec by lia).
    destruct (n <? 8) eqn:E; cbn [andb].
    - rewrite (byte_high_bits c (n + 8)) by lia.
      destruct (Z.testbit c n), (Z.testbit r n), (Z.testbit r (n + 8)); reflexivity.
    - apply Z.ltb_ge in E. rewrite (byte_high_bits c n) by lia. reflexivity. }
  split; [apply X; assumption|]. split.
  - unfold mix8, u8. cbv zeta. apply Z.mod_pos_bound. lia.
  - rewrite !X by assumption. intros E.
    apply (f_equal (fun v => Z.lxor v (row_key row))) in E.
    now rewrite !Z.lxor_assoc, !Z.lxor_nilpotent, !Z.lxor_0_r in E.
Qed.

Lemma mix8_permutes_columns_witness :
  mix8 200 300 = Z.lxor 200 (row_key 300)
  /\ 0 <= mix8 200 300 < 256
  /\ (mix8 200 300 = mix8 17 300 -> 200 = 17).
Proof. apply (mix8_permutes_columns 300 200 17); lia. Defined.

Lemma countBits_loop_spec (fuel : nat) (v bits : Z) :
  0 <= v < 2 ^ Z.of_nat fuel -> 0 <= bits -> bits + Z.of_nat fuel < 256 ->
  countBits_loop fuel v bits = bits + (if v =? 0 then 0 else Z.log2 v + 1).
Proof.
  revert v bits. induction fuel as [|fuel IH]; intros v bits Hv Hb Hf.
  - change (2 ^ Z.of_nat 0) with 1 in Hv. replace v with 0 by lia. simpl. lia.
  - cbn [countBits_loop]. destruct (v =? 0) eqn:E; [lia|].
    apply Z.eqb_neq in E.
    assert (Hu : u8 (bits + 1) = bits + 1) by (unfold u8; apply Z.mod_small; lia).
    rewrite Hu, IH; try lia.
    + rewrite Z.shiftr_div_pow2 by lia. change (2 ^ 1) with 2.
      destruct (v / 2 =? 0) eqn:E2.
      * apply Z.eqb_eq in E2.
        assert (v = 1)
          by (pose proof (Z_div_mod_eq_full v 2);
              pose proof (Z.mod_pos_bound v 2 eq_refl); lia).
        subst v. change (Z.log2 1) with 0. lia.
      * apply Z.eqb_neq in E2.
        assert (Hl : Z.log2 v = Z.log2 (v / 2) + 1).
        { pose proof (Z.log2_shiftr v 1 ltac:(lia)) as S1.
          rewrite Z.shiftr_div_pow2 in S1 by lia. change (2 ^ 1) with 2 in S1.
          assert (1 <= Z.log2 v) by (apply Z.log2_le_pow2; [lia|change (2 ^ 1) with 2];
                                     pose proof (Z_div_mod_eq_full v 2);
                                     pose proof (Z.mod_pos_bound v 2 eq_refl);
                                     assert (0 <= v / 2) by (apply Z.div_pos; lia); lia).
          lia. }
        lia.
    + rewrite Z.shiftr_div_pow2 by lia. change (2 ^ 1) with 2.
      rewrite Nat2Z.inj_succ, Z.pow_succ_r in Hv by lia.
      split; [apply Z.div_pos; lia|apply Z.div_lt_upper_bound; lia].
Qed.

(** [countBits] gives the position of the highest set bit of a 16-bit
    value: 0 for 0, and otherwise the [n] with [2^(n-1) <= value < 2^n]. *)
Theorem countBits_is_bit_length (x : Z) :
  0 <= x < 65536 ->
  (x = 0 -> countBits x = 0)
  /\ (0 < x -> 2 ^ (countBits x - 1) <= x < 2 ^ countBits x)
  /\ 0 <= countBits x <= 16.
Proof.
  intros H. unfold countBits.
  assert (Hu : u16 x = x) by (unfold u16; apply Z.mod_small; lia).
  rewrite Hu, countBits_loop_spec; [|change (2 ^ Z.of_nat 17) with 131072; lia|lia|lia].
  rewrite Z.add_0_l. destruct (x =? 0) eqn:E.
  - apply Z.eqb_eq in E. subst x. repeat split; lia.
  - apply Z.eqb_neq in E. assert (Hx : 0 < x) by lia.
    pose proof (Z.log2_spec x Hx) as [L1 L2].
    pose proof (Z.log2_nonneg x) as L0.
    replace (Z.log2 x + 1 - 1) with (Z.log2 x) by lia.
    replace (Z.log2 x + 1) with (Z.succ (Z.log2 x)) by lia.
    repeat split; try lia.
    assert (Z.log2 x < 16); [|lia].
    apply Z.log2_lt_pow2; [lia|]. change (2 ^ 16) with 65536. lia.
Qed.

Lemma countBits_is_bit_length_witness :
  (511 = 0 -> countBits 511 = 0)
  /\ (0 < 511 -> 2 ^ (countBits 511 - 1) <= 511 < 2 ^ countBits 511)
  /\ 0 <= countBits 511 <= 16.
Proof. apply (countBits_is_bit_length 511). lia. Defined.

(** [rotate_left] rotates a byte by one bit to the left: bit 7 comes
    back as bit 0, the result is a byte again, and eight rotations give
    the byte back. *)
Theorem rotate_left_rotates_byte (x : Z) :
  0 <= x < 256 ->
  rotate_left x = Z.lor (u8 (Z.shiftl x 1)) (Z.shiftr x 7)
  /\ 0 <= rotate_left x < 256
  /\ Nat.iter 8 rotate_left x = x.
Proof.
  intros H.
  assert (C : forallb (fun x =>
                (rotate_left x =? Z.lor (u8 (Z.shiftl x 1)) (Z.shiftr x 7))
                && (0 <=? rotate_left x) && (rotate_left x <? 256)
                && (Nat.iter 8 rotate_left x =? x)) (upto 256) = true)
    by (vm_compute; reflexivity).
  pose proof (forallb_upto _ _ C x H) as D. cbv beta in D.
  repeat (apply andb_prop in D; destruct D as [D ?]).
  repeat split; try lia; now apply Z.eqb_eq.
Qed.

Lemma rotate_left_rotates_byte_witness :
  rotate_left 0xAA = Z.lor (u8 (Z.shiftl 0xAA 1)) (Z.shiftr 0xAA 7)
  /\ 0 <= rotate_left 0xAA < 256
  /\ Nat.iter 8 rotate_left 0xAA = 0xAA.
Proof. apply (rotate_left_rotates_byte 0xAA). lia. Defined.

(** [invertRandomTable] complements the data bit (bit 2) of every entry
    of a 256-entry table, so pattern 5 expects in every cell the
    complement of what pattern 4 expects there. *)
Theorem inversion_complements_data_bit (t : list Z) (col row : Z) :
  length t = 256%nat ->
  (Z.land (expected (invertRandomTable t) col row) 0x04 =? 0)
  = negb (Z.land (expected t col row) 0x04 =? 0).
Proof.
  intros Hl. unfold expected.
  assert (Hm : 0 <= mix8 col row < 256)
    by (unfold mix8, u8; cbv zeta; apply Z.mod_pos_bound; lia).
  rewrite invertRandomTable_map by assumption.
  unfold rd. set (i := Z.to_nat (mix8 col row)).
  assert (Hi : (i < length t)%nat) by (subst i; lia).
  rewrite (nth_indep _ 0 (Z.lxor (Z.land 0 0x0F) 0x0F))
    by (rewrite length_map; exact Hi).
  rewrite (map_nth (fun x => Z.lxor (Z.land x 0x0F) 0x0F)).
  set (e := nth i t 0).
  rewrite !land_4. rewrite Z.lxor_spec, Z.land_spec.
  change (Z.testbit 15 2) with true. rewrite andb_true_r.
  now destruct (Z.testbit e 2).
Qed.

Lemma inversion_complements_data_bit_witness :
  (Z.land (expected (invertRandomTable (generateRandomTable randomTable_init)) 5 300)
          0x04 =? 0)
  = negb (Z.land (expected (generateRandomTable randomTable_init) 5 300) 0x04 =? 0).
Proof.
  apply (inversion_complements_data_bit (generateRandomTable randomTable_init) 5 300).
  rewrite generateRandomTable_length. reflexivity.
Defined.

(** ** LED signalling *)

Lemma led_on_count_app c tr1 tr2 :
  led_on_count c (tr1 ++ tr2) = led_on_count c tr1 + led_on_count c tr2.
Proof. unfold led_on_count. rewrite List.filter_app, length_app. lia. Qed.

Lemma total_delay_app tr1 tr2 :
  total_delay (tr1 ++ tr2) = total_delay tr1 + total_delay tr2.
Proof.
  unfold total_delay. induction tr1 as [|x tr1 IH]; simpl; [reflexivity|].
  destruct x; rewrite IH; lia.
Qed.

Lemma blink_prefix color count on_ms off_ms n :
  color <> LED_OFF -> 0 <= n -> n <= count ->
  let tr := flat_map (fun i =>
              [SetLED color; DelayMs on_ms; SetLED LED_OFF]
              ++ (if i <? count - 1 then [DelayMs off_ms] else [])) (upto n) in
  led_on_count color tr = n
  /\ led_on_count LED_OFF tr = n
  /\ total_delay tr = n * on_ms + Z.min n (Z.max 0 (count - 1)) * off_ms.
Proof.
  intros Hc Hn. revert n Hn. apply (natlike_ind (fun n => n <= count -> _)).
  - intros _. cbv zeta. simpl. repeat split; lia.
  - intros n Hn IH Hle. specialize (IH ltac:(lia)). cbv zeta in *.
    rewrite <- Z.add_1_r, upto_succ, flat_map_app by lia.
    rewrite !led_on_count_app, total_delay_app.
    destruct IH as (I1 & I2 & I3). rewrite I1, I2, I3.
    cbn [flat_map]. rewrite List.app_nil_r.
    assert (E1 : led_on_count color
                   ([SetLED color; DelayMs on_ms; SetLED LED_OFF]
                    ++ (if n <? count - 1 then [DelayMs off_ms] else [])) = 1).
    { destruct (n <? count - 1), color; try reflexivity; contradiction. }
    assert (E2 : led_on_count LED_OFF
                   ([SetLED color; DelayMs on_ms; SetLED LED_OFF]
                    ++ (if n <? count - 1 then [DelayMs off_ms] else [])) = 1).
    { destruct (n <? count - 1), color; try reflexivity; contradiction. }
    rewrite E1, E2. repeat split; try lia.
    destruct (n <? count - 1) eqn:E; [apply Z.ltb_lt in E|apply Z.ltb_ge in E].
    + replace (Z.min n (Z.max 0 (count - 1))) with n by lia.
      replace (Z.min (n + 1) (Z.max 0 (count - 1))) with (n + 1) by lia.
      simpl. lia.
    + replace (Z.min n (Z.max 0 (count - 1))) with n by lia.
      replace (Z.min (n + 1) (Z.max 0 (count - 1))) with n by lia.
      simpl. lia.
Qed.

(** [blinkLED_color] with a colour other than off switches the LED on
    [count] times and off again each time, and waits [on_ms] per blink
    and [off_ms] between two blinks but not after the last one; with
    [count = 0] it does nothing. *)
Theorem blinkLED_color_blinks (color : LedColor) (count on_ms off_ms : Z) :
  color <> LED_OFF -> 0 <= count ->
  led_on_count color (blinkLED_color color count on_ms off_ms) = count
  /\ led_on_count LED_OFF (blinkLED_color color count on_ms off_ms) = count
  /\ total_delay (blinkLED_color color count on_ms off_ms)
     = count * on_ms + Z.max 0 (count - 1) * off_ms
  /\ (count = 0 -> blinkLED_color color count on_ms off_ms = []).
Proof.
  intros Hc Hn.
  destruct (blink_prefix color count on_ms off_ms count Hc Hn (Z.le_refl _))
    as (B1 & B2 & B3).
  unfold blinkLED_color. repeat split; try assumption.
  - rewrite B3. replace (Z.min count (Z.max 0 (count - 1))) with (Z.max 0 (count - 1)) by lia.
    reflexivity.
  - intros ->. reflexivity.
Qed.

Lemma blinkLED_color_blinks_witness :
  led_on_count LED_ORANGE (blinkLED_color LED_ORANGE 7 500 500) = 7
  /\ led_on_count LED_OFF (blinkLED_color LED_ORANGE 7 500 500) = 7
  /\ total_delay (blinkLED_color LED_ORANGE 7 500 500)
     = 7 * 500 + Z.max 0 (7 - 1) * 500
  /\ (7 = 0 -> blinkLED_color LED_ORANGE 7 500 500 = []).
Proof. apply (blinkLED_color_blinks LED_ORANGE 7 500 500); [discriminate|lia]. Defined.

Lemma blink_other_colour c color count on_ms off_ms :
  c <> color -> c <> LED_OFF ->
  led_on_count c (blinkLED_color color count on_ms off_ms) = 0.
Proof.
  intros Hc Ho. unfold blinkLED_color.
  induction (upto count) as [|i l IH]; [reflexivity|].
  cbn [flat_map]. rewrite !led_on_count_app, IH.
  destruct (i <? count - 1), c, color; try reflexivity; contradiction.
Qed.

Lemma blink_round_counts n o :
  0 <= n -> 0 <= o ->
  let tr := blink_round {| redBlinks := n; orangeCount := o; slowMode := false |} in
  led_on_count LED_RED tr = n /\ led_on_count LED_ORANGE tr = o
  /\ n * BLINK_ON_MS + INTER_BLINK_MS + ERROR_PAUSE_MS <= total_delay tr.
Proof.
  intros Hn Ho. cbv zeta. unfold blink_round. cbn [slowMode redBlinks orangeCount].
  assert (D : forall c ms, led_on_count c [DelayMs ms] = 0) by reflexivity.
  assert (D0 : forall c, led_on_count c [] = 0) by reflexivity.
  rewrite !led_on_count_app, !total_delay_app, !D, ?D0.
  destruct (blink_prefix LED_RED n BLINK_ON_MS BLINK_OFF_MS n ltac:(discriminate)
              Hn (Z.le_refl _)) as (B1 & _ & B3).
  fold (blinkLED_color LED_RED n BLINK_ON_MS BLINK_OFF_MS) in B1, B3.
  rewrite B1, B3.
  rewrite (blink_other_colour LED_ORANGE LED_RED) by discriminate.
  destruct (0 <? o) eqn:E; [apply Z.ltb_lt in E|apply Z.ltb_ge in E].
  - destruct (blink_prefix LED_ORANGE o BLINK_ON_MS BLINK_OFF_MS o
                ltac:(discriminate) Ho (Z.le_refl _)) as (C1 & _ & C3).
    fold (blinkLED_color LED_ORANGE o BLINK_ON_MS BLINK_OFF_MS) in C1, C3.
    rewrite C1, C3.
    rewrite (blink_other_colour LED_RED LED_ORANGE) by discriminate.
    unfold BLINK_ON_MS, BLINK_OFF_MS, INTER_BLINK_MS, ERROR_PAUSE_MS. simpl.
    repeat split; lia.
  - rewrite !D0.
    unfold BLINK_ON_MS, BLINK_OFF_MS, INTER_BLINK_MS, ERROR_PAUSE_MS. simpl.
    repeat split; lia.
Qed.

(** Red and orange blinks and total waiting time of one round of the
    error loop, for each kind. *)
Lemma blink_round_measures code kind :
  0 <= code < 256 -> 0 <= kind <= 5 ->
  let tr := blink_round (blink_of code kind) in
  let red := led_on_count LED_RED tr in
  let orange := led_on_count LED_ORANGE tr in
  (kind = 0 /\ red = 1 /\ total_delay tr = 2000)
  \/ (kind = 1 /\ red = 1 /\ 2300 <= total_delay tr)
  \/ (kind = 2 /\ red = 2 /\ 1 <= orange <= 6)
  \/ (kind = 3 /\ red = 2 /\ orange = 7)
  \/ (kind = 4 /\ red = 3)
  \/ (kind = 5 /\ red = 2 /\ orange = 8).
Proof.
  intros Hc Hk. cbv zeta.
  pose proof blink_round_counts as R.
  assert (K : kind = 0 \/ kind = 1 \/ kind = 2 \/ kind = 3 \/ kind = 4 \/ kind = 5) by lia.
  destruct K as [->|[->|[->|[->|[->| ->]]]]]; unfold blink_of; cbn [Z.eqb Pos.eqb].
  - left. repeat split.
  - right; left.
    destruct (R 1 (if (0 <? code) && (code <=? 20) then code else 0) ltac:(lia)
                ltac:(destruct ((0 <? code) && (code <=? 20)); lia)) as (R1 & _ & R3).
    unfold BLINK_ON_MS, INTER_BLINK_MS, ERROR_PAUSE_MS in R3. repeat split; [exact R1|lia].
  - right; right; left.
    assert (Ho : 1 <= (if code <=? 4 then u8 (code + 1) else 6) <= 6).
    { destruct (code <=? 4) eqn:E; [apply Z.leb_le in E|lia].
      unfold u8. rewrite Z.mod_small by lia. lia. }
    destruct (R 2 (if code <=? 4 then u8 (code + 1) else 6) ltac:(lia) ltac:(lia))
      as (R1 & R2 & _).
    repeat split; [exact R1|rewrite R2; lia|rewrite R2; lia].
  - right; right; right; left.
    destruct (R 2 7 ltac:(lia) ltac:(lia)) as (R1 & R2 & _). repeat split; assumption.
  - right; right; right; right; left.
    destruct (R 3 (if (0 <? code) && (code <=? 20) then code else 0) ltac:(lia)
                ltac:(destruct ((0 <? code) && (code <=? 20)); lia)) as (R1 & _ & _).
    repeat split; exact R1.
  - right; right; right; right; right.
    destruct (R 2 8 ltac:(lia) ltac:(lia)) as (R1 & R2 & _). repeat split; assumption.
Qed.

(** The LED pattern of [error] tells the kind of the error: calls with
    different kinds between 0 and 5 blink different rounds, whatever
    their codes. *)
Theorem error_blink_identifies_kind (code code' kind kind' : Z) :
  0 <= code < 256 -> 0 <= code' < 256 -> 0 <= kind <= 5 -> 0 <= kind' <= 5 ->
  kind <> kind' ->
  blink_round (blink_of code kind) <> blink_round (blink_of code' kind').
Proof.
  intros Hc Hc' Hk Hk' Hne E.
  pose proof (blink_round_measures code kind Hc Hk) as M.
  pose proof (blink_round_measures code' kind' Hc' Hk') as M'.
  cbv zeta in M, M'. rewrite E in M.
  destruct M as [M|[M|[M|[M|[M|M]]]]], M' as [M'|[M'|[M'|[M'|[M'|M']]]]]; lia.
Qed.

Lemma error_blink_identifies_kind_witness :
  blink_round (blink_of 5 2) <> blink_round (blink_of 5 3).
Proof. apply (error_blink_identifies_kind 5 5 2 3); lia. Defined.

(** An address-line error (kind 1) shows its code as the number of
    orange blinks only for codes 1 to 20: two codes blink the same round
    exactly when they agree after every code outside 1..20 is replaced by
    0.  The codes 21-24 that [checkAddressing_16Pin] uses for the column
    bits 5-8 therefore blink like code 0, the row bit 0. *)
Theorem address_error_led_codes (code code' : Z) :
  0 <= code < 256 -> 0 <= code' < 256 ->
  (blink_round (blink_of code 1) = blink_round (blink_of code' 1)
   <-> (if (0 <? code) && (code <=? 20) then code else 0)
       = (if (0 <? code') && (code' <=? 20) then code' else 0)).
Proof.
  intros Hc Hc'. unfold blink_of. cbn [Z.eqb Pos.eqb]. split.
  - intros E.
    destruct (blink_round_counts 1 (if (0 <? code) && (code <=? 20) then code else 0)
                ltac:(lia) ltac:(destruct ((0 <? code) && (code <=? 20)); lia))
      as (_ & O & _).
    destruct (blink_round_counts 1 (if (0 <? code') && (code' <=? 20) then code' else 0)
                ltac:(lia) ltac:(destruct ((0 <? code') && (code' <=? 20)); lia))
      as (_ & O' & _).
    cbv zeta in O, O'. rewrite E in O. congruence.
  - intros ->. reflexivity.
Qed.

Lemma address_error_led_codes_witness :
  blink_round (blink_of (5 + 16) 1) = blink_round (blink_of 0 1)
  <-> (if (0 <? 5 + 16) && (5 + 16 <=? 20) then 5 + 16 else 0)
      = (if (0 <? 0) && (0 <=? 20) then 0 else 0).
Proof. apply (address_error_led_codes (5 + 16) 0); lia. Defined.

(** ** Frames of the test run *)

Section Frames.

Context {X : Type} (f : state -> X).

Lemma preserves_bind {A B} (m : M A) (k : A -> M B) :
  preserves f m -> (forall a, preserves f (k a)) -> preserves f (bind m k).
Proof.
  intros Hm Hk s b s'. unfold bind. destruct (m s) as [a s1|f1 s1] eqn:E; [|discriminate].
  intros E2. rewrite (Hk a _ _ _ E2). exact (Hm _ _ _ E).
Qed.

Lemma preserves_ret {A} (a : A) : preserves f (ret a).
Proof. intros s b s' E. unfold ret in E. congruence. Qed.

Lemma preserves_error {A} code kind row col : preserves f (@error A code kind row col).
Proof. intros s a s'. discriminate. Qed.

Lemma preserves_for_each {A} (l : list A) (body : A -> M unit) :
  (forall x, preserves f (body x)) -> preserves f (for_each l body).
Proof.
  intros Hb. induction l as [|x l IH]; simpl.
  - apply preserves_ret.
  - apply preserves_bind; [apply Hb|]. intros _. apply IH.
Qed.

Lemma preserves_foldM {A B} (l : list A) (acc : B) (body : B -> A -> M B) :
  (forall acc x, preserves f (body acc x)) -> preserves f (foldM l acc body).
Proof.
  intros Hb. revert acc. induction l as [|x l IH]; intros acc; simpl.
  - apply preserves_ret.
  - apply preserves_bind; [apply Hb|]. intros acc'. apply IH.
Qed.

Lemma preserves_for_break {A B} (l : list A) (body : A -> M (option B)) :
  (forall x, preserves f (body x)) -> preserves f (for_break l body).
Proof.
  intros Hb. induction l as [|x l IH]; simpl.
  - apply preserves_ret.
  - apply preserves_bind; [apply Hb|]. intros [b|]; [apply preserves_ret|apply IH].
Qed.

End Frames.

Lemma bind_ret_inv {A B} (m : M A) (k : A -> M B) s b s' :
  bind m k s = Ret b s' -> exists a s1, m s = Ret a s1 /\ k a s1 = Ret b s'.
Proof.
  unfold bind. destruct (m s) as [a s1|f1 s1]; [|discriminate].
  intros E. now exists a, s1.
Qed.

(** Proves that a program without the setters of a component leaves it
    alone. *)
Ltac keep_prim :=
  let E := fresh in
  intros ? ? ? E;
  unfold get_type, get_lower, get_upper, get_randomTable, randomTable_at,
         set_type, set_typeSuffix, set_lower, set_upper, set_randomTable,
         delayMicroseconds, writeRAMType, emit,
         NOP, cli, sei, ret, inp, out, inp_PINC, error in E;
  first [discriminate E | injection E as _ <-; reflexivity | injection E as <-; reflexivity].

Ltac keep_unfold :=
  progress unfold
    SBI, CBI, CAS_LOW16, CAS_HIGH16, RAS_LOW16, RAS_HIGH16, WE_LOW16, WE_HIGH16,
    or_reg, andnot_reg, setAddr16_Random, SET_DIN_16, setAddrData, SET_ADDR_PIN16,
    rasHandling_16Pin, refreshRow_16Pin, write16Pin, read16Pin,
    or_lower, or_upper, casBeforeRasRefresh_16Pin,
    fast_write_row, fast_read_row, fast_mismatch,
    writeRow_16Pin, writeRow_page, writeRow_nibble, retention_check,
    checkRow_16Pin, checkRow_scan_page, checkRow_scan_nibble, checkRow_verdict,
    random_pass, fastPatternTest_16Pin.

Ltac keeps :=
  repeat
    lazymatch goal with
    | |- preserves _ (bind _ _) => apply preserves_bind; [|intros ?]
    | |- preserves _ (for_each _ _) => apply preserves_for_each; intros ?
    | |- preserves _ (foldM _ _ _) => apply preserves_foldM; intros ? ?
    | |- preserves _ (for_break _ _) => apply preserves_for_break; intros ?
    | |- preserves _ (if ?c then _ else _) => destruct c
    | |- preserves _ (match ?c with _ => _ end) => destruct c
    | |- preserves _ _ => first [keep_unfold | keep_prim]
    end.

Section Reclassification.

Variable chip : Chip.

Lemma fastPatternTest_keeps_type patNr :
  preserves type_and_suffix (fastPatternTest_16Pin chip patNr).
Proof. keeps. Qed.

Lemma random_pass_keeps_type total_rows patNr :
  preserves type_and_suffix (random_pass chip total_rows patNr).
Proof. keeps. Qed.

Lemma bind_ret_keeps {X A B} (f : state -> X) (m : M A) (k : A -> M B) s b s' :
  preserves f m -> bind m k s = Ret b s' ->
  exists a s1, f s1 = f s /\ k a s1 = Ret b s'.
Proof.
  intros Hm E. apply bind_ret_inv in E as (a & s1 & E1 & E2).
  exists a, s1. split; [exact (Hm _ _ _ E1)|exact E2].
Qed.

End Reclassification.

(** ** Half-good subtype determination *)

(** When [run_16Pin_tests] returns, the type byte is what it was, except
    that a 4164 whose column-half flags (bit 1 of the two flag bytes)
    differ has become a 3732; the suffix is set to "(L)" or "(H)" by bit
    1 of the lower-half flags exactly when the type is then 3732, and is
    left alone otherwise. *)
Theorem run_tests_reclassifies_by_column_flags (chip : Chip) (s s' : state) :
  run_16Pin_tests chip s = Ret tt s' ->
  type s' = (if (type s =? T_4164)
                && negb (Z.land (error_in_lower_half s') 0x02
                         =? Z.land (error_in_upper_half s') 0x02)
             then T_3732 else type s)
  /\ typeSuffix s'
     = (if type s' =? T_3732
        then (if Z.land (error_in_lower_half s') 0x02 =? 0
              then "(L)"%string else "(H)"%string)
        else typeSuffix s).
Proof.
  unfold run_16Pin_tests. intros E.
  apply (bind_ret_keeps type_and_suffix) in E as (t & s0 & K0 & E); [|keep_prim].
  cbv zeta in E.
  apply (bind_ret_keeps type_and_suffix) in E as (? & s1 & K1 & E); [|keep_prim].
  apply (bind_ret_keeps type_and_suffix) in E as (? & s2 & K2 & E); [|keep_prim].
  apply (bind_ret_keeps type_and_suffix) in E as (? & s3 & K3 & E);
    [|apply preserves_for_each; intros ?; apply fastPatternTest_keeps_type].
  apply (bind_ret_keeps type_and_suffix) in E as (t' & s4 & K4 & E); [|keep_prim].
  cbv zeta in E.
  apply (bind_ret_keeps type_and_suffix) in E as (? & s5 & K5 & E).
  2:{ apply preserves_for_each. intros patNr. apply preserves_bind.
      - destruct (patNr =? 5); keeps.
      - intros _. apply random_pass_keeps_type. }
  assert (K : type s5 = type s /\ typeSuffix s5 = typeSuffix s).
  { assert (K' : type_and_suffix s5 = type_and_suffix s) by congruence.
    unfold type_and_suffix in K'. now inversion K'. }
  destruct K as [Kt Ks]. clear K0 K1 K2 K3 K4 K5.
  unfold bind, get_type, get_lower, get_upper, set_type, set_typeSuffix, ret in E.
  rewrite Kt in E.
  destruct ((type s =? T_4164)
            && negb (Z.land (error_in_lower_half s5) 2
                     =? Z.land (error_in_upper_half s5) 2)) eqn:C;
    cbn [type error_in_lower_half error_in_upper_half] in E.
  - change (T_3732 =? T_3732) with true in E. cbv beta iota in E.
    cbn [type typeSuffix error_in_lower_half error_in_upper_half] in E.
    injection E as <-. cbn [type typeSuffix error_in_lower_half error_in_upper_half].
    rewrite C. split; reflexivity.
  - cbv beta iota in E. rewrite ?Kt in E.
    destruct (type s =? T_3732) eqn:C2; cbv beta iota in E;
      cbn [type typeSuffix error_in_lower_half error_in_upper_half] in E.
    + injection E as <-. cbn [type typeSuffix error_in_lower_half error_in_upper_half].
      rewrite C, Kt, C2. split; reflexivity.
    + injection E as <-. rewrite C, Kt, C2. split; [reflexivity|exact Ks].
Qed.


(** ** How a run of the 16-pin test can end *)

Lemma halts_only_weaken {A} (P Q : final -> Prop) (m : M A) :
  (forall f, P f -> Q f) -> halts_only P m -> halts_only Q m.
Proof. intros HPQ Hm s f s' E. apply HPQ. exact (Hm s f s' E). Qed.

Lemma halts_only_for_each_in {A} (P : final -> Prop) (l : list A) (body : A -> M unit) :
  (forall x, In x l -> halts_only P (body x)) -> halts_only P (for_each l body).
Proof.
  intros Hb. induction l as [|x l IH]; simpl.
  - apply halts_only_ret.
  - apply halts_only_bind; [apply Hb; now left|]. intros _. apply IH.
    intros y Hy. apply Hb. now right.
Qed.

Lemma halts_only_testOK {A} (P : final -> Prop) : P TestOK -> halts_only P (@testOK A).
Proof. intros H s f s'. unfold testOK. now intros [= <- <-]. Qed.

Lemma never_returns_bind {A B} (m : M A) (k : A -> M B) :
  (forall a, never_returns (k a)) -> never_returns (bind m k).
Proof.
  intros Hk s. unfold bind. destruct (m s) as [a s1|f s1]; [apply Hk|reflexivity].
Qed.

Section Verdict.

Variable chip : Chip.

Lemma checkAddressing_halts_only :
  halts_only (fun f => exists b, 0 <= b /\
                (f = Error b 1 (-1) (-1) \/ f = Error (b + 16) 1 (-1) (-1)))
             (checkAddressing_16Pin chip).
Proof.
  unfold checkAddressing_16Pin.
  apply halts_only_bind; [halts|]. intros t. cbv zeta.
  apply halts_only_bind; [halts|]. intros _.
  apply halts_only_bind; [halts|]. intros _.
  apply halts_only_bind; [halts|]. intros _.
  apply halts_only_bind.
  - apply halts_only_for_each_in. intros b Hb. apply in_upto in Hb.
    unfold check_row_bit. halts. all: exists b; split; [lia|now left].
  - intros _. apply halts_only_for_each_in. intros b Hb. apply in_upto in Hb.
    unfold check_col_bit. halts. all: exists b; split; [lia|now right].
Qed.

Lemma sense41256_halts_only :
  halts_only (fun f => f = Error 0 0 (-1) (-1)) (sense41256_16Pin chip).
Proof. unfold sense41256_16Pin. halts. all: reflexivity. Qed.

Lemma ram_present_halts_only : halts_only (fun _ => False) (ram_present_16Pin chip).
Proof. unfold ram_present_16Pin. halts. Qed.

Lemma detect41257_halts_only : halts_only (fun _ => False) (detect41257_16Pin chip).
Proof. unfold detect41257_16Pin. halts. Qed.

Lemma run_tests_halts_only :
  halts_only (fun f => exists patNr, 0 <= patNr < 6
                /\ (f = Error (patNr + 1) 2 (-1) (-1)
                    \/ f = Error (patNr + 1) 3 (-1) (-1)))
             (run_16Pin_tests chip).
Proof.
  unfold run_16Pin_tests.
  apply halts_only_bind; [halts|]. intros t. cbv zeta.
  apply halts_only_bind; [halts|]. intros _.
  apply halts_only_bind; [halts|]. intros _.
  apply halts_only_bind.
  { apply halts_only_for_each_in. intros patNr Hp. apply in_upto in Hp.
    eapply halts_only_weaken; [|apply (fastPatternTest_halts_only chip patNr)].
    intros f Hf. cbv beta in Hf. exists patNr. split; [lia|]. left.
    rewrite Hf. unfold u8. now rewrite Z.mod_small by lia. }
  intros _. apply halts_only_bind; [halts|]. intros t'. cbv zeta.
  apply halts_only_bind.
  { apply halts_only_for_each_in. intros patNr Hp.
    assert (Hr : 0 <= patNr < 6) by (simpl in Hp; lia).
    apply halts_only_bind; [destruct (patNr =? 5); halts|]. intros _.
    unfold random_pass. apply halts_only_for_each. intros row.
    apply halts_only_bind; [halts|]. intros t2.
    eapply halts_only_weaken;
      [|apply (writeRow_halts_only chip row (columns (ram t2)) patNr)].
    intros f Hf. cbv beta in Hf. exists patNr. split; [lia|]. right.
    rewrite Hf. unfold u8. now rewrite Z.mod_small by lia. }
  intros _. halts.
Qed.

End Verdict.

Ltac verdict_step :=
  lazymatch goal with
  | |- halts_only _ (bind _ _) => apply halts_only_bind; [|intros ?]
  | |- halts_only _ (ram_present_16Pin _) =>
      eapply halts_only_weaken; [|apply ram_present_halts_only]; intros ? []
  | |- halts_only _ (detect41257_16Pin _) =>
      eapply halts_only_weaken; [|apply detect41257_halts_only]; intros ? []
  | |- halts_only _ (sense41256_16Pin _) =>
      eapply halts_only_weaken; [|apply sense41256_halts_only];
      intros ? ->; right; left; reflexivity
  | |- halts_only _ (checkAddressing_16Pin _) =>
      eapply halts_only_weaken; [|apply checkAddressing_halts_only];
      intros ? ?; right; right; left; assumption
  | |- halts_only _ (run_16Pin_tests _) =>
      eapply halts_only_weaken; [|apply run_tests_halts_only];
      intros ? ?; right; right; right; left; assumption
  | |- halts_only _ (refreshTimeTest_16Pin _) =>
      eapply halts_only_weaken; [|apply refreshTimeTest_halts_only];
      intros ? ->; right; right; right; right; reflexivity
  | |- halts_only _ (if ?c then _ else _) => destruct c
  | |- halts_only _ (error 0 0 _ _) =>
      apply halts_only_error; right; left; reflexivity
  | |- halts_only _ testOK => apply halts_only_testOK; left; reflexivity
  | |- halts_only _ _ => halt_prim
  end.

Lemma test_16Pin_halts_only (chip : Chip) :
  halts_only final_of_test_16Pin (test_16Pin chip).
Proof. unfold test_16Pin. repeat verdict_step. Qed.

Lemma test_16Pin_never_returns (chip : Chip) : never_returns (test_16Pin chip).
Proof.
  unfold test_16Pin. repeat (apply never_returns_bind; intros ?).
  intros s. reflexivity.
Qed.

(** [test_16Pin] never returns to its caller.  Whatever the chip in the
    socket and the state it starts from, the run ends in [testOK()] or in
    one of these reports: [error(0, 0)] (no chip), [error(b, 1)] or
    [error(b + 16, 1)] (address line), [error(p + 1, 2)] or
    [error(p + 1, 3)] for a pattern [p] from 0 to 5, or [error(0, 5)]
    (refresh); it never reports kind 4, and never a row or column. *)
Theorem test_16Pin_ends_in_verdict (chip : Chip) (s : state) :
  exists f s', test_16Pin chip s = Halt f s' /\ final_of_test_16Pin f.
Proof.
  pose proof (test_16Pin_never_returns chip s) as N.
  destruct (test_16Pin chip s) as [a s1|f s1] eqn:E; [discriminate N|].
  exists f, s1. split; [reflexivity|].
  exact (test_16Pin_halts_only chip s f s1 E).
Qed.

(** ** Page-mode row access: the ports *)

Lemma lor_byte a b : 0 <= a < 256 -> 0 <= b < 256 -> 0 <= Z.lor a b < 256.
Proof.
  intros Ha Hb.
  assert (E : Z.lor a b = u8 (Z.lor a b)).
  { apply Z.bits_inj'. intros n Hn. rewrite u8_testbit by lia.
    destruct (n <? 8) eqn:C; [reflexivity|]. apply Z.ltb_ge in C.
    now rewrite Z.lor_spec, !byte_high_bits by lia. }
  rewrite E. apply u8_range.
Qed.

Lemma land_byte a m : 0 <= a < 256 -> 0 <= m -> 0 <= Z.land a m < 256.
Proof.
  intros Ha Hm.
  assert (E : Z.land a m = u8 (Z.land a m)).
  { apply Z.bits_inj'. intros n Hn. rewrite u8_testbit by lia.
    destruct (n <? 8) eqn:C; [reflexivity|]. apply Z.ltb_ge in C.
    now rewrite Z.land_spec, (byte_high_bits a) by lia. }
  rewrite E. apply u8_range.
Qed.

Lemma u8_byte a : 0 <= a < 256 -> u8 a = a.
Proof. intros H. unfold u8. now apply Z.mod_small. Qed.

Lemma page_col_facts chunk c :
  0 <= chunk < 16 -> 0 <= c < 32 ->
  page_col chunk c = 32 * chunk + c
  /\ u8 (Z.land (page_col chunk c) 0x1F) = c
  /\ u8 (Z.shiftr (page_col chunk c) 5) = chunk.
Proof.
  intros H1 H2.
  assert (C : forallb (fun chunk => forallb (fun c =>
                (page_col chunk c =? 32 * chunk + c)
                && (u8 (Z.land (page_col chunk c) 0x1F) =? c)
                && (u8 (Z.shiftr (page_col chunk c) 5) =? chunk)) (upto 32))
              (upto 16) = true) by (vm_compute; reflexivity).
  pose proof (forallb_upto2 _ _ _ C chunk c H1 H2) as D. cbv beta in D.
  apply andb_prop in D as [D D3]. apply andb_prop in D as [D1 D2].
  apply Z.eqb_eq in D1, D2, D3. now repeat split.
Qed.

Lemma lut_low_byte c :
  0 <= c < 32 ->
  0 <= rd lut_16_low_b c < 256 /\ 0 <= rd lut_16_low_c c < 256
  /\ 0 <= rd lut_16_low_d c < 256.
Proof.
  intros H.
  assert (C : forallb (fun c =>
                (0 <=? rd lut_16_low_b c) && (rd lut_16_low_b c <? 256)
                && (0 <=? rd lut_16_low_c c) && (rd lut_16_low_c c <? 256)
                && (0 <=? rd lut_16_low_d c) && (rd lut_16_low_d c <? 256))
              (upto 32) = true) by (vm_compute; reflexivity).
  pose proof (forallb_upto _ _ C c H) as D. cbv beta in D.
  repeat (apply andb_prop in D; destruct D as [D ?]). lia.
Qed.

Lemma lut_high_byte chunk :
  0 <= chunk < 16 ->
  0 <= rd lut_16_high_b chunk < 256 /\ 0 <= rd lut_16_high_c chunk < 256
  /\ 0 <= rd lut_16_high_d chunk < 256.
Proof.
  intros H.
  assert (C : forallb (fun c =>
                (0 <=? rd lut_16_high_b c) && (rd lut_16_high_b c <? 256)
                && (0 <=? rd lut_16_high_c c) && (rd lut_16_high_c c <? 256)
                && (0 <=? rd lut_16_high_d c) && (rd lut_16_high_d c <? 256))
              (upto 16) = true) by (vm_compute; reflexivity).
  pose proof (forallb_upto _ _ C chunk H) as D. cbv beta in D.
  repeat (apply andb_prop in D; destruct D as [D ?]). lia.
Qed.

Lemma lor_swap a b c : Z.lor (Z.lor a b) c = Z.lor (Z.lor a c) b.
Proof. now rewrite <- !Z.lor_assoc, (Z.lor_comm b c). Qed.

Lemma viewB_page pb chunk c :
  0 <= pb < 256 -> 0 <= chunk < 16 -> 0 <= c < 32 ->
  viewB (u8 (Z.lor (Z.lor (Z.land pb 0xEA) (rd lut_16_high_b chunk))
                   (rd lut_16_low_b c)))
  = {| ras := ras (viewB pb); we := we (viewB pb); aB := partB (page_col chunk c) |}.
Proof.
  intros Hp Hch Hc. destruct (page_col_facts chunk c Hch Hc) as (E & E1 & E2).
  pose proof (viewB_setaddr pb (page_col chunk c) Hp ltac:(lia)) as V.
  rewrite E1, E2 in V. rewrite lor_swap. exact V.
Qed.

Lemma viewD_page pd chunk c :
  0 <= pd < 256 -> 0 <= chunk < 16 -> 0 <= c < 32 ->
  viewD (u8 (Z.lor (Z.lor (Z.land pd 0x3C) (rd lut_16_high_d chunk))
                   (rd lut_16_low_d c)))
  = partD (page_col chunk c).
Proof.
  intros Hp Hch Hc. destruct (page_col_facts chunk c Hch Hc) as (E & E1 & E2).
  pose proof (viewD_setaddr pd (page_col chunk c) Hp ltac:(lia)) as V.
  rewrite E1, E2 in V. rewrite lor_swap. exact V.
Qed.

Lemma viewC_clear2 pc : 0 <= pc < 256 ->
  viewC (Z.land pc 0xFD)
  = {| cas := cas (viewC pc); din := false; aC := aC (viewC pc) |}.
Proof.
  intros H. apply pinsC_eqb_eq. revert pc H. apply forallb_upto.
  vm_compute. reflexivity.
Qed.

Lemma viewC_page pc chunk c :
  0 <= pc < 256 -> 0 <= chunk < 16 -> 0 <= c < 32 ->
  viewC (u8 (Z.lor (Z.lor (Z.land pc 0xEC) (rd lut_16_high_c chunk))
                   (rd lut_16_low_c c)))
  = {| cas := cas (viewC pc); din := false; aC := partC (page_col chunk c) |}.
Proof.
  intros Hp Hch Hc. destruct (page_col_facts chunk c Hch Hc) as (E & E1 & E2).
  replace (Z.land pc 0xEC) with (Z.land (Z.land pc 0xFD) 0xEE)
    by (rewrite <- Z.land_assoc; reflexivity).
  pose proof (viewC_setaddr (Z.land pc 0xFD) (page_col chunk c)
                ltac:(apply land_byte; lia) ltac:(lia)) as V.
  rewrite E1, E2 in V. rewrite lor_swap, V.
  now rewrite viewC_clear2.
Qed.

Lemma viewC_page_data pc chunk c :
  0 <= pc < 256 -> 0 <= chunk < 16 -> 0 <= c < 32 ->
  viewC (u8 (Z.lor (Z.lor (Z.lor (Z.land pc 0xEC) (rd lut_16_high_c chunk))
                          (rd lut_16_low_c c)) 0x02))
  = {| cas := cas (viewC pc); din := true; aC := partC (page_col chunk c) |}.
Proof.
  intros Hp Hch Hc.
  destruct (lut_low_byte c Hc) as (_ & L & _).
  destruct (lut_high_byte chunk Hch) as (_ & Hh & _).
  assert (B : 0 <= Z.lor (Z.lor (Z.land pc 0xEC) (rd lut_16_high_c chunk))
                         (rd lut_16_low_c c) < 256)
    by (repeat apply lor_byte; try assumption; apply land_byte; lia).
  rewrite viewC_or2 by exact B.
  rewrite <- (u8_byte _ B), viewC_page by assumption. reflexivity.
Qed.

Section PageSteps.

Variable chip : Chip.

Lemma step_page_B pb0 r w ab0 chunk c :
  0 <= pb0 < 256 -> 0 <= chunk < 16 -> 0 <= c < 32 ->
  viewB pb0 = {| ras := r; we := w; aB := ab0 |} ->
  forall s p d g, abs s p d g ->
  exists s', out chip rPORTB (Z.lor (Z.lor (Z.land pb0 0xEA) (rd lut_16_high_b chunk))
                                    (rd lut_16_low_b c)) s = Ret tt s'
    /\ let p' := with_B {| ras := r; we := w; aB := partB (page_col chunk c) |} p in
       abs s' p' (areact chip (ras (pB p)) (cas (pC p)) p' d) g.
Proof.
  intros Hb Hch Hc Hv s p d g H.
  destruct (abs_out_B chip (Z.lor (Z.lor (Z.land pb0 0xEA) (rd lut_16_high_b chunk))
                                  (rd lut_16_low_b c)) _ _ _ _ H) as (s' & E & H').
  exists s'. split; [exact E|].
  rewrite viewB_page, Hv in H' by assumption. exact H'.
Qed.

Lemma step_page_D pd0 chunk c :
  0 <= pd0 < 256 -> 0 <= chunk < 16 -> 0 <= c < 32 ->
  forall s p d g, abs s p d g ->
  exists s', out chip rPORTD (Z.lor (Z.lor (Z.land pd0 0x3C) (rd lut_16_high_d chunk))
                                    (rd lut_16_low_d c)) s = Ret tt s'
    /\ let p' := with_D (partD (page_col chunk c)) p in
       abs s' p' (areact chip (ras (pB p)) (cas (pC p)) p' d) g.
Proof.
  intros Hb Hch Hc s p d g H.
  destruct (abs_out_D chip (Z.lor (Z.lor (Z.land pd0 0x3C) (rd lut_16_high_d chunk))
                                  (rd lut_16_low_d c)) _ _ _ _ H) as (s' & E & H').
  exists s'. split; [exact E|].
  rewrite viewD_page in H' by assumption. exact H'.
Qed.

Lemma step_page_C pc0 cb di0 ac0 chunk c (data : bool) :
  0 <= pc0 < 256 -> 0 <= chunk < 16 -> 0 <= c < 32 ->
  viewC pc0 = {| cas := cb; din := di0; aC := ac0 |} ->
  forall s p d g, abs s p d g ->
  exists s', out chip rPORTC
               (if data
                then Z.lor (Z.lor (Z.lor (Z.land pc0 0xEC) (rd lut_16_high_c chunk))
                                  (rd lut_16_low_c c)) 0x02
                else Z.lor (Z.lor (Z.land pc0 0xEC) (rd lut_16_high_c chunk))
                           (rd lut_16_low_c c)) s = Ret tt s'
    /\ let p' := with_C {| cas := cb; din := data; aC := partC (page_col chunk c) |} p in
       abs s' p' (areact chip (ras (pB p)) (cas (pC p)) p' d) g.
Proof.
  intros Hb Hch Hc Hv s p d g H.
  destruct data.
  - destruct (abs_out_C chip
                (Z.lor (Z.lor (Z.lor (Z.land pc0 0xEC) (rd lut_16_high_c chunk))
                              (rd lut_16_low_c c)) 0x02) _ _ _ _ H) as (s' & E & H').
    exists s'. split; [exact E|].
    rewrite viewC_page_data, Hv in H' by assumption. exact H'.
  - destruct (abs_out_C chip
                (Z.lor (Z.lor (Z.land pc0 0xEC) (rd lut_16_high_c chunk))
                       (rd lut_16_low_c c)) _ _ _ _ H) as (s' & E & H').
    exists s'. split; [exact E|].
    rewrite viewC_page, Hv in H' by assumption. exact H'.
Qed.

(** One column of the page write: with RAS low on the latched row and WE
    low, the cell of the column gets its data bit, whether CAS falls at
    the store to PORTC or at [CAS_LOW16]. *)
Lemma write_page_step pb0 pc0 pd0 ab0 cb di0 ac0 chunk c row s cl rl dn cnt g :
  0 <= pb0 < 256 -> 0 <= pc0 < 256 -> 0 <= pd0 < 256 ->
  0 <= chunk < 16 -> 0 <= c < 32 ->
  viewB pb0 = {| ras := false; we := false; aB := ab0 |} ->
  viewC pc0 = {| cas := cb; din := di0; aC := ac0 |} ->
  in_page false true {| cells := cl; row_latch := rl; dout := dn; cbr_count := cnt |} g s ->
  exists s',
    (let val_c := Z.lor (Z.lor (Z.land pc0 0xEC) (rd lut_16_high_c chunk))
                        (rd lut_16_low_c c) in
     data_check ← randomTable_at (mix8 (Z.lor (u16 (Z.shiftl chunk 5)) c) row);
     let val_c := if Z.land data_check 0x04 =? 0 then val_c else Z.lor val_c 0x02 in
     CAS_HIGH16 chip;;
     out chip rPORTB (Z.lor (Z.lor (Z.land pb0 0xEA) (rd lut_16_high_b chunk))
                            (rd lut_16_low_b c));;
     out chip rPORTD (Z.lor (Z.lor (Z.land pd0 0x3C) (rd lut_16_high_d chunk))
                            (rd lut_16_low_d c));;
     out chip rPORTC val_c;;
     CAS_LOW16 chip) s = Ret tt s'
    /\ in_page false true
         {| cells := <[(row_sel chip rl, col_sel chip (page_col chunk c))
                       := data_bit (g_table g) (page_col chunk c) row]> cl;
            row_latch := rl; dout := dn; cbr_count := cnt |} g s'.
Proof.
  intros Hb Hc Hd Hch Hcc Vb Vc (p & H & Hr & Hw & Hx).
  destruct p as [[r w ab] [c0 di ac] ad x]. simpl in Hr, Hw, Hx. subst r w x.
  assert (Hcol : 0 <= page_col chunk c < 512)
    by (destruct (page_col_facts chunk c Hch Hcc) as (E & _); lia).
  cbv zeta.
  step_get (abs_randomTable_at (mix8 (Z.lor (u16 (Z.shiftl chunk 5)) c) row)).
  fold (page_col chunk c).
  assert (Hd2 : (if Z.land (rd (g_table g) (mix8 (page_col chunk c) row)) 4 =? 0
                 then Z.lor (Z.lor (Z.land pc0 236) (rd lut_16_high_c chunk))
                            (rd lut_16_low_c c)
                 else Z.lor (Z.lor (Z.lor (Z.land pc0 236) (rd lut_16_high_c chunk))
                                   (rd lut_16_low_c c)) 2)
                = (if data_bit (g_table g) (page_col chunk c) row
                   then Z.lor (Z.lor (Z.lor (Z.land pc0 236) (rd lut_16_high_c chunk))
                                     (rd lut_16_low_c c)) 2
                   else Z.lor (Z.lor (Z.land pc0 236) (rd lut_16_high_c chunk))
                              (rd lut_16_low_c c))).
  { unfold data_bit. now destruct (Z.land _ 4 =? 0). }
  rewrite Hd2. clear Hd2.
  step (step_CAS_HIGH16 chip).
  step (step_page_B pb0 false false ab0 chunk c Hb Hch Hcc Vb).
  step (step_page_D pd0 chunk c Hd Hch Hcc).
  destruct cb.
  - step (step_page_C pc0 true di0 ac0 chunk c
            (data_bit (g_table g) (page_col chunk c) row) Hc Hch Hcc Vc).
    lazymatch goal with Habs : abs _ _ _ _ |- _ => rename Habs into HA end.
    destruct (step_CAS_LOW16 chip _ _ _ _ HA) as (s' & E & H').
    exists s'. split; [exact E|]. simpl_pins H'.
    rewrite adr_parts in H' by assumption.
    cbn [cells row_latch dout cbr_count] in H'.
    match type of H' with
    | context [if ?b then true else false] =>
        replace (if b then true else false) with b in H' by now destruct b
    end.
    eexists. split; [exact H'|]. repeat split.
  - step (step_page_C pc0 false di0 ac0 chunk c
            (data_bit (g_table g) (page_col chunk c) row) Hc Hch Hcc Vc).
    lazymatch goal with Habs : abs _ _ _ _ |- _ => rename Habs into HA end.
    cbn [cells row_latch dout cbr_count] in HA.
    match type of HA with
    | context [if ?b then true else false] =>
        replace (if b then true else false) with b in HA by now destruct b
    end.
    destruct (step_CAS_LOW16 chip _ _ _ _ HA) as (s' & E & H').
    exists s'. split; [exact E|]. simpl_pins H'.
    eexists. split; [exact H'|]. repeat split.
Qed.

End PageSteps.

(** A loop over a list with an invariant indexed by the part of the list
    already done. *)
Lemma for_each_prefix_inv {A} (I : list A -> state -> Prop) (l : list A)
      (body : A -> M unit) :
  (forall pre x s, In x l -> I pre s ->
                   exists s', body x s = Ret tt s' /\ I (pre ++ [x]) s') ->
  forall s, I [] s -> exists s', for_each l body s = Ret tt s' /\ I l s'.
Proof.
  intros Hb.
  assert (G : forall post pre s, (forall x, In x post -> In x l) -> I pre s ->
              exists s', for_each post body s = Ret tt s' /\ I (pre ++ post) s').
  { induction post as [|x post IH]; intros pre s Hin Hs.
    - exists s. rewrite List.app_nil_r. split; [reflexivity|assumption].
    - simpl. destruct (Hb pre x s (Hin x (or_introl eq_refl)) Hs) as (s1 & E1 & H1).
      rewrite (bind_ret_step _ _ _ _ _ E1).
      destruct (IH (pre ++ [x]) s1) as (s2 & E2 & H2);
        [intros y Hy; apply Hin; now right|assumption|].
      exists s2. split; [exact E2|]. now rewrite <- List.app_assoc in H2. }
  intros s Hs. exact (G l [] s (fun x Hx => Hx) Hs).
Qed.

Lemma in_downfrom n x : In x (downfrom n) <-> 0 <= x < n.
Proof. unfold downfrom. rewrite <- in_rev. apply in_upto. Qed.

Lemma page_image_snoc chip tbl row l col cl :
  page_image chip tbl row (l ++ [col]) cl
  = <[(row_sel chip row, col_sel chip col) := data_bit tbl col row]>
      (page_image chip tbl row l cl).
Proof. unfold page_image. now rewrite fold_left_app. Qed.

Lemma page_image_app chip tbl row l1 l2 cl :
  page_image chip tbl row (l1 ++ l2) cl
  = page_image chip tbl row l2 (page_image chip tbl row l1 cl).
Proof. unfold page_image. now rewrite fold_left_app. Qed.

Section PageWrite.

Variable chip : Chip.

(** One chunk of 32 columns. *)
Lemma write_page_chunk chunk row s cl dn cnt g :
  0 <= chunk < 16 ->
  in_page false true {| cells := cl; row_latch := row; dout := dn; cbr_count := cnt |} g s ->
  exists s',
    (let hb := rd lut_16_high_b chunk in
     let hc := rd lut_16_high_c chunk in
     let hd := rd lut_16_high_d chunk in
     pb ← inp rPORTB;
     pc ← inp rPORTC;
     pd ← inp rPORTD;
     let base_b := Z.lor (Z.land pb 0xEA) hb in
     let base_c := Z.lor (Z.land pc 0xEC) hc in
     let base_d := Z.lor (Z.land pd 0x3C) hd in
     let chunkBase := u16 (Z.shiftl chunk 5) in
     for_each (downfrom 32) (fun c =>
       let val_c := Z.lor base_c (rd lut_16_low_c c) in
       data_check ← randomTable_at (mix8 (Z.lor chunkBase c) row);
       let val_c := if Z.land data_check 0x04 =? 0 then val_c else Z.lor val_c 0x02 in
       CAS_HIGH16 chip;;
       out chip rPORTB (Z.lor base_b (rd lut_16_low_b c));;
       out chip rPORTD (Z.lor base_d (rd lut_16_low_d c));;
       out chip rPORTC val_c;;
       CAS_LOW16 chip)) s = Ret tt s'
    /\ in_page false true
         {| cells := page_image chip (g_table g) row
                       (map (page_col chunk) (downfrom 32)) cl;
            row_latch := row; dout := dn; cbr_count := cnt |} g s'.
Proof.
  intros Hch Hs. pose proof Hs as (p & H & Hr & Hw & Hx).
  destruct (abs_PORTB _ _ _ _ H) as (Bb & Vb).
  destruct (abs_PORTC _ _ _ _ H) as (Bc & Vc).
  destruct (abs_PORTD _ _ _ _ H) as (Bd & _).
  destruct p as [[r w ab] [c0 di ac] ad x]. simpl in Hr, Hw, Hx. subst r w x.
  cbn [pB pC] in Vb, Vc. cbv zeta. unfold bind at 1 2 3. unfold inp at 1 2 3.
  pose (I := fun (pre : list Z) (s : state) =>
    in_page false true
      {| cells := page_image chip (g_table g) row (map (page_col chunk) pre) cl;
         row_latch := row; dout := dn; cbr_count := cnt |} g s).
  match goal with
  | |- context [for_each (downfrom 32) ?b] =>
      destruct (for_each_prefix_inv I (downfrom 32) b) with (s := s) as (s' & E & H')
  end.
  - intros pre c st Hin HI. apply in_downfrom in Hin. unfold I in *.
    rewrite map_app. cbn [map]. rewrite page_image_snoc.
    exact (write_page_step chip (PORTB s) (PORTC s) (PORTD s) ab c0 di ac chunk c row
             st _ row dn cnt g Bb Bc Bd Hch Hin Vb Vc HI).
  - exact Hs.
  - exists s'. split; [exact E|exact H'].
Qed.

Lemma page_cols_succ i :
  0 <= i -> page_cols (i + 1) = page_cols i ++ map (page_col i) (downfrom 32).
Proof.
  intros Hi. unfold page_cols. rewrite upto_succ, flat_map_app by assumption.
  cbn [flat_map]. now rewrite List.app_nil_r.
Qed.

(** [writeRow_16Pin], page-mode path: the row is written in all columns
    of its [n] chunks and the control lines come back to rest. *)
Lemma writeRow_page_spec row cols n r w s cl rl dn cnt g :
  0 <= row < 512 -> 0 <= n <= 16 -> u8 (Z.shiftr cols 5) = n ->
  holds r true w true {| cells := cl; row_latch := rl; dout := dn; cbr_count := cnt |} g s ->
  exists s', writeRow_page chip row cols s = Ret tt s'
    /\ holds true true true true
          {| cells := page_image chip (g_table g) row (page_cols n) cl;
             row_latch := row; dout := dn; cbr_count := cnt |} g s'.
Proof.
  intros Hrow Hn Hcols (p & H & Hr & Hc & Hw & Hx).
  destruct p as [[r0 w0 ab] [c0 di ac] ad x]. simpl in Hr, Hc, Hw, Hx. subst r0 c0 w0 x.
  unfold writeRow_page. cbv zeta. rewrite Hcols.
  unfold rasHandling_16Pin, cli, sei, refreshRow_16Pin, rasHandling_16Pin.
  step (step_RAS_HIGH16 chip).
  step (step_setAddr16_Random chip row Hrow).
  step (step_RAS_LOW16 chip).
  step (step_WE_LOW16 chip).
  lazymatch goal with Habs : abs _ _ _ _ |- _ => rename Habs into HA end.
  cbn [cells row_latch dout cbr_count] in HA.
  pose (I := fun (i : Z) (s : state) =>
    in_page false true
      {| cells := page_image chip (g_table g) row (page_cols i) cl;
         row_latch := row; dout := dn; cbr_count := cnt |} g s).
  norm_prog.
  match goal with
  | |- context [bind (for_each (upto n) ?b) _ ?st] =>
      destruct (for_upto_inv I n b) with (s := st) as (st2 & E2 & H2)
  end.
  - intros i st0 Hi HI. unfold I in *. rewrite page_cols_succ, page_image_app by lia.
    exact (write_page_chunk i row st0 _ dn cnt g ltac:(lia) HI).
  - unfold I. eexists. split; [exact HA|]. repeat split.
  - rewrite (bind_ret_step _ _ _ _ _ E2). clear E2 HA.
    rewrite Z.max_r in H2 by lia.
    destruct H2 as (p2 & H & Hr & Hw & Hx).
    destruct p2 as [[r2 w2 ab2] [c2 di2 ac2] ad2 x2].
    simpl in Hr, Hw, Hx. subst r2 w2 x2.
    step (step_CAS_HIGH16 chip).
    step (step_WE_HIGH16 chip).
    step (step_RAS_HIGH16 chip).
    step (step_setAddr16_Random chip row Hrow).
    step (step_RAS_LOW16 chip).
    lazymatch goal with Habs : abs _ _ _ _ |- _ => rename Habs into HB end.
    cbn [cells row_latch dout cbr_count] in HB.
    destruct (step_RAS_HIGH16 chip _ _ _ _ HB) as (s' & E & H').
    exists s'. split; [exact E|]. eexists. split; [exact H'|]. repeat split.
Qed.

End PageWrite.

(** ** Page-mode row access: the read-back *)

Section PageRead.

Variable chip : Chip.

Lemma testbit_data_bit tbl col row :
  Z.testbit (rd tbl (mix8 col row)) 2 = data_bit tbl col row.
Proof. unfold data_bit. rewrite land_4. now destruct (Z.testbit _ 2). Qed.

(** One column of the read-back of a row under pattern 4 or 5. *)
Lemma read_page_step pb0 pc0 pd0 ab0 di0 ac0 chunk c row (pat : Z) found ecol s cl dn cnt g :
  0 <= pb0 < 256 -> 0 <= pc0 < 256 -> 0 <= pd0 < 256 ->
  0 <= chunk < 16 -> 0 <= c < 32 ->
  viewB pb0 = {| ras := false; we := true; aB := ab0 |} ->
  viewC pc0 = {| cas := true; din := di0; aC := ac0 |} ->
  holds false true true false
        {| cells := cl; row_latch := row; dout := dn; cbr_count := cnt |} g s ->
  exists s' dn',
    (out chip rPORTB (Z.lor (Z.lor (Z.land pb0 0xEA) (rd lut_16_high_b chunk))
                            (rd lut_16_low_b c));;
     out chip rPORTC (Z.lor (Z.lor (Z.land pc0 0xEC) (rd lut_16_high_c chunk))
                            (rd lut_16_low_c c));;
     out chip rPORTD (Z.lor (Z.lor (Z.land pd0 0x3C) (rd lut_16_high_d chunk))
                            (rd lut_16_low_d c));;
     CAS_LOW16 chip;;
     expected ← randomTable_at (mix8 (Z.lor (u16 (Z.shiftl chunk 5)) c) row);
     pinc ← inp_PINC;
     let mismatch := negb (Z.land (Z.lxor pinc expected) 0x04 =? 0) in
     let error_column :=
       if mismatch && negb found then Z.lor (u16 (Z.shiftl chunk 5)) c else ecol in
     let error_found := found || mismatch in
     CAS_HIGH16 chip;;
     ret (pat, (error_found, error_column))) s
    = Ret (pat, scan_step chip (g_table g) cl row (found, ecol) (page_col chunk c)) s'
    /\ holds false true true false
          {| cells := cl; row_latch := row; dout := dn'; cbr_count := cnt |} g s'.
Proof.
  intros Hb Hc Hd Hch Hcc Vb Vc (p & H & Hr & Hcas & Hw & Hx).
  destruct p as [[r w ab] [c0 di ac] ad x]. simpl in Hr, Hcas, Hw, Hx. subst r c0 w x.
  assert (Hcol : 0 <= page_col chunk c < 512)
    by (destruct (page_col_facts chunk c Hch Hcc) as (E & _); lia).
  fold (page_col chunk c).
  step (step_page_B chip pb0 false true ab0 chunk c Hb Hch Hcc Vb).
  step (step_page_C chip pc0 true di0 ac0 chunk c false Hc Hch Hcc Vc).
  step (step_page_D chip pd0 chunk c Hd Hch Hcc).
  step (step_CAS_LOW16 chip).
  step_get (abs_randomTable_at (mix8 (page_col chunk c) row)).
  step_pinc (rd (g_table g) (mix8 (page_col chunk c) row)) v.
  cbn [cells row_latch dout cbr_count] in *. cbv zeta. rewrite Hx.
  rewrite testbit_data_bit.
  lazymatch goal with Habs : abs _ _ _ _ |- _ => rename Habs into HA end.
  destruct (step_CAS_HIGH16 chip _ _ _ _ HA) as (s' & E & H').
  rewrite (bind_ret_step _ _ _ _ _ E).
  exists s'. eexists. split; [reflexivity|].
  eexists. split; [exact H'|]. repeat split.
Qed.

Lemma foldM_prefix_inv {A B} (I : list A -> B -> state -> Prop) (l : list A)
      (body : B -> A -> M B) (acc0 : B) :
  (forall pre x acc s, In x l -> I pre acc s ->
     exists acc' s', body acc x s = Ret acc' s' /\ I (pre ++ [x]) acc' s') ->
  forall s, I [] acc0 s -> exists acc s', foldM l acc0 body s = Ret acc s' /\ I l acc s'.
Proof.
  intros Hb.
  assert (G : forall post pre acc s, (forall x, In x post -> In x l) -> I pre acc s ->
              exists acc' s', foldM post acc body s = Ret acc' s'
                              /\ I (pre ++ post) acc' s').
  { induction post as [|x post IH]; intros pre acc s Hin Hs.
    - exists acc, s. rewrite List.app_nil_r. split; [reflexivity|assumption].
    - simpl. destruct (Hb pre x acc s (Hin x (or_introl eq_refl)) Hs)
        as (acc1 & s1 & E1 & H1).
      rewrite (bind_ret_step _ _ _ _ _ E1).
      destruct (IH (pre ++ [x]) acc1 s1) as (acc2 & s2 & E2 & H2);
        [intros y Hy; apply Hin; now right|assumption|].
      exists acc2, s2. split; [exact E2|]. now rewrite <- List.app_assoc in H2. }
  intros s Hs. exact (G l [] acc0 s (fun x Hx => Hx) Hs).
Qed.

Lemma scan_page_snoc tbl cl row l col acc :
  scan_page chip tbl cl row (l ++ [col]) acc
  = scan_step chip tbl cl row (scan_page chip tbl cl row l acc) col.
Proof. unfold scan_page. now rewrite fold_left_app. Qed.

Lemma scan_page_app tbl cl row l1 l2 acc :
  scan_page chip tbl cl row (l1 ++ l2) acc
  = scan_page chip tbl cl row l2 (scan_page chip tbl cl row l1 acc).
Proof. unfold scan_page. now rewrite fold_left_app. Qed.

(** The read-back loop of [checkRow_16Pin] in page mode, for patterns 4
    and 5: it compares every column of the [n] chunks and reports the
    first mismatch. *)
Lemma checkRow_scan_page_spec cols n row patNr r s cl rl dn cnt g :
  0 <= row < 512 -> 0 <= n <= 16 -> u8 (Z.shiftr cols 5) = n -> 4 <= patNr ->
  holds r true true false {| cells := cl; row_latch := rl; dout := dn; cbr_count := cnt |} g s ->
  exists s' dn',
    checkRow_scan_page chip cols row patNr s
    = Ret (scan_page chip (g_table g) cl row (page_cols n) (false, 0)) s'
    /\ holds true true true false
          {| cells := cl; row_latch := row; dout := dn'; cbr_count := cnt |} g s'.
Proof.
  intros Hrow Hn Hcols Hpat (p & H & Hr & Hc & Hw & Hx).
  destruct p as [[r0 w0 ab] [c0 di ac] ad x]. simpl in Hr, Hc, Hw, Hx. subst r0 c0 w0 x.
  unfold checkRow_scan_page. cbv zeta. rewrite Hcols.
  replace (4 <=? patNr) with true by (symmetry; apply Z.leb_le; lia).
  cbv iota.
  unfold rasHandling_16Pin, cli, sei.
  step (step_RAS_HIGH16 chip).
  step (step_setAddr16_Random chip row Hrow).
  step (step_RAS_LOW16 chip).
  lazymatch goal with Habs : abs _ _ _ _ |- _ => rename Habs into HA end.
  cbn [cells row_latch dout cbr_count] in HA.
  pose (I := fun (pre : list Z) (acc : Z * (bool * Z)) (s : state) =>
    acc = (rd pattern patNr,
           scan_page chip (g_table g) cl row
                     (flat_map (fun chunk => map (page_col chunk) (downfrom 32)) pre)
                     (false, 0))
    /\ exists dn', holds false true true false
          {| cells := cl; row_latch := row; dout := dn'; cbr_count := cnt |} g s).
  norm_prog.
  match goal with
  | |- context [bind (foldM (upto n) ?a ?b) _ ?st] =>
      destruct (foldM_prefix_inv I (upto n) b a) with (s := st)
        as (acc & st2 & E2 & Hacc & dn2 & H2)
  end.
  - intros pre chunk acc st Hin (Ha & dn1 & HI). apply in_upto in Hin. subst acc.
    pose proof HI as (p1 & H1 & Hr1 & Hc1 & Hw1 & Hx1).
    destruct (abs_PORTB _ _ _ _ H1) as (Bb & Vb).
    destruct (abs_PORTC _ _ _ _ H1) as (Bc & Vc).
    destruct (abs_PORTD _ _ _ _ H1) as (Bd & _).
    destruct p1 as [[r1 w1 ab1] [c1 di1 ac1] ad1 x1].
    simpl in Hr1, Hc1, Hw1, Hx1. subst r1 c1 w1 x1. cbn [pB pC] in Vb, Vc.
    unfold bind at 1 2 3. unfold inp at 1 2 3.
    pose (J := fun (pre' : list Z) (acc : Z * (bool * Z)) (s : state) =>
      acc = (rd pattern patNr,
             scan_page chip (g_table g) cl row
               (flat_map (fun chunk => map (page_col chunk) (downfrom 32)) pre
                ++ map (page_col chunk) pre') (false, 0))
      /\ exists dn', holds false true true false
            {| cells := cl; row_latch := row; dout := dn'; cbr_count := cnt |} g s).
    match goal with
    | |- context [foldM (downfrom 32) ?a ?b] =>
        destruct (foldM_prefix_inv J (downfrom 32) b a) with (s := st)
          as (acc' & st' & E' & Hacc' & dn' & H')
    end.
    + intros pre' c acc st1 Hin' (Ha & dn3 & HJ). apply in_downfrom in Hin'. subst acc.
      cbn [fst snd].
      destruct (scan_page chip (g_table g) cl row _ (false, 0)) as [found ecol] eqn:Esc.
      cbn [fst snd].
      destruct (read_page_step (PORTB st) (PORTC st) (PORTD st) ab1 di1 ac1 chunk c row
                  (rd pattern patNr) found ecol st1 cl dn3 cnt g
                  Bb Bc Bd ltac:(lia) Hin' Vb Vc HJ) as (s' & dn4 & E & Hh).
      eexists _, s'. split; [exact E|]. unfold J. split; [|exists dn4; exact Hh].
      rewrite map_app. cbn [map]. rewrite List.app_assoc, scan_page_snoc, Esc.
      reflexivity.
    + unfold J. cbn [map]. rewrite List.app_nil_r. split; [reflexivity|].
      exists dn1. exact HI.
    + exists acc', st'. split; [exact E'|]. unfold I. split; [|exists dn'; exact H'].
      rewrite Hacc', flat_map_app. cbn [flat_map]. now rewrite List.app_nil_r.
  - unfold I. split; [reflexivity|]. exists dn. eexists. split; [exact HA|].
    repeat split.
  - rewrite (bind_ret_step _ _ _ _ _ E2). clear E2 HA.
    destruct H2 as (p2 & H & Hr & Hc & Hw & Hx).
    destruct p2 as [[r2 w2 ab2] [c2 di2 ac2] ad2 x2].
    simpl in Hr, Hc, Hw, Hx. subst r2 c2 w2 x2.
    step (step_CAS_HIGH16 chip).
    step (step_RAS_HIGH16 chip).
    lazymatch goal with Habs : abs ?s1 _ _ _ |- _ =>
      exists s1, dn2; split; [|eexists; split; [exact Habs|repeat split]] end.
    rewrite Hacc. reflexivity.
Qed.

End PageRead.

(** ** A row check that finds nothing *)

Section RowCheck.

Variable chip : Chip.

Lemma scan_page_clean tbl cl row l :
  (forall col, In col l -> cell_mismatch chip tbl cl row col = false) ->
  scan_page chip tbl cl row l (false, 0) = (false, 0).
Proof.
  intros H. induction l as [|x l IH] using rev_ind; [reflexivity|].
  rewrite scan_page_snoc, IH; [|intros col Hc; apply H, in_or_app; now left].
  unfold scan_step. cbn [fst snd]. rewrite H; [reflexivity|].
  apply in_or_app. right. now left.
Qed.

Lemma in_page_cols n col : 0 <= n <= 16 -> In col (page_cols n) <-> 0 <= col < 32 * n.
Proof.
  intros Hn. unfold page_cols. rewrite in_flat_map. split.
  - intros (chunk & Hch & Hin). apply in_upto in Hch.
    apply in_map_iff in Hin as (c & <- & Hc). apply in_downfrom in Hc.
    destruct (page_col_facts chunk c ltac:(lia) Hc) as (E & _). lia.
  - intros Hcol. exists (col / 32).
    assert (Hd : col = 32 * (col / 32) + col mod 32) by apply Z_div_mod_eq_full.
    pose proof (Z.mod_pos_bound col 32 eq_refl) as Hm.
    assert (Hq : 0 <= col / 32 < n).
    { split; [apply Z.div_pos; lia|apply Z.div_lt_upper_bound; lia]. }
    split; [apply in_upto; exact Hq|].
    apply in_map_iff. exists (col mod 32). split; [|apply in_downfrom; exact Hm].
    destruct (page_col_facts (col / 32) (col mod 32) ltac:(lia) Hm) as (E & _). lia.
Qed.

Lemma row_holds_clean tbl cols n row cl :
  0 <= n <= 16 -> 32 * n <= cols -> row_holds chip tbl cols row cl ->
  scan_page chip tbl cl row (page_cols n) (false, 0) = (false, 0).
Proof.
  intros Hn Hc Hh. apply scan_page_clean. intros col Hin.
  apply in_page_cols in Hin; [|assumption].
  unfold cell_mismatch. rewrite Hh by lia. now rewrite eqb_reflx.
Qed.

(** [checkRow_16Pin] on a page-mode type under pattern 4 or 5, for a row
    that holds its data: nothing is found, only the log grows. *)
Lemma checkRow_clean cols n row patNr check r x s d g :
  0 <= row < 512 -> 0 <= n <= 16 -> u8 (Z.shiftr cols 5) = n -> 32 * n <= cols ->
  4 <= patNr ->
  is_nibble_type (g_type g) = false ->
  row_holds chip (g_table g) cols row (cells d) ->
  holds r true true x d g s ->
  exists s' d',
    checkRow_16Pin chip cols row patNr check s = Ret tt s'
    /\ cells d' = cells d
    /\ holds true true true true d'
             (with_log (g_log g ++ [EvCheckRow row patNr check]) g) s'.
Proof.
  intros Hrow Hn Hcols Hle Hpat Hnib Hh (p & H & Hr & Hc & Hw & Hx).
  destruct p as [[r0 w0 ab] [c0 di ac] ad x0]. simpl in Hr, Hc, Hw, Hx. subst r0 c0 w0 x0.
  destruct d as [cl rl dn cnt]. cbn [cells] in *.
  unfold checkRow_16Pin.
  step (step_emit (EvCheckRow row patNr check)).
  lazymatch goal with Habs : abs _ _ _ ?g1 |- _ =>
    step_get abs_get_type; change (g_type g1) with (g_type g) end.
  cbv zeta. rewrite Hnib. cbn [negb].
  step (step_andnot_PORTC_2 chip).
  step (step_andnot_DDRC_2 chip).
  lazymatch goal with Habs : abs _ _ _ _ |- _ => rename Habs into HA end.
  destruct (checkRow_scan_page_spec chip cols n row patNr r _ cl rl dn cnt _
              Hrow Hn Hcols Hpat
              (ex_intro _ _ (conj HA (conj eq_refl (conj eq_refl (conj eq_refl eq_refl))))))
    as (sc & dn1 & E1 & (p1 & H1 & Hr1 & Hc1 & Hw1 & Hx1)).
  norm_prog. rewrite (bind_ret_step _ _ _ _ _ E1). clear E1 HA.
  change (g_table (with_log (g_log g ++ [EvCheckRow row patNr check]) g))
    with (g_table g).
  rewrite (row_holds_clean _ cols n row cl Hn Hle Hh). cbn [fst snd].
  destruct p1 as [[r1 w1 ab1] [c1 di1 ac1] ad1 x1].
  simpl in Hr1, Hc1, Hw1, Hx1. subst r1 c1 w1 x1.
  destruct (step_or_DDRC_2 chip _ _ _ _ H1) as (s' & E & H').
  rewrite (bind_ret_step _ _ _ _ _ E). unfold checkRow_verdict.
  exists s'. eexists. split; [reflexivity|]. split; [|eexists; split; [exact H'|]].
  - reflexivity.
  - repeat split.
Qed.

End RowCheck.

(** ** A pass of pattern 4 or 5 over a good chip *)

Section GoodChip.

Variable chip : Chip.
Variable g : globs.
Variables rows_n cols n patNr : Z.

Hypothesis Hsound : sound_cells chip.
Hypothesis Hdec : decodes chip rows_n cols.
Hypothesis Hrows : 0 < rows_n <= 512.
Hypothesis Hn : 0 <= n <= 16.
Hypothesis Hcols : u8 (Z.shiftr cols 5) = n.
Hypothesis Hcols32 : cols = 32 * n.
Hypothesis Hpat : 4 <= patNr.
Hypothesis Hpage : is_nibble_type (g_type g) = false.

Lemma page_image_lookup_row tbl row l cl R C :
  R <> row_sel chip row ->
  page_image chip tbl row l cl !! (R, C) = cl !! (R, C).
Proof.
  intros HR. induction l as [|x l IH] using rev_ind; [reflexivity|].
  rewrite page_image_snoc, lookup_insert_ne; [exact IH|].
  intros [= E _]. now apply HR.
Qed.

Lemma page_image_lookup_in tbl row l cl col :
  (forall a b, In a l -> In b l -> col_sel chip a = col_sel chip b -> a = b) ->
  In col l ->
  page_image chip tbl row l cl !! (row_sel chip row, col_sel chip col)
  = Some (data_bit tbl col row).
Proof.
  induction l as [|x l IH] using rev_ind; intros Hinj Hin; [contradiction|].
  rewrite page_image_snoc. apply in_app_or in Hin as [Hin|[->|[]]].
  - destruct (Z.eq_dec col x) as [->|Hne]; [apply lookup_insert_eq|].
    rewrite lookup_insert_ne.
    + apply IH; [|exact Hin]. intros a b Ha Hb. apply Hinj; apply in_or_app; now left.
    + intros [= E]. apply Hne. symmetry.
      apply Hinj; [apply in_or_app; right; now left|apply in_or_app; now left|exact E].
  - apply lookup_insert_eq.
Qed.

Lemma same_but_log_emit g' e :
  same_but_log g g' -> same_but_log g (with_log (g_log g' ++ [e]) g').
Proof. intros (l & ->). eexists. reflexivity. Qed.

Lemma same_but_log_fields g' :
  same_but_log g g' -> g_type g' = g_type g /\ g_table g' = g_table g.
Proof. intros (l & ->). now split. Qed.

Lemma emit_keeps_rows i e s :
  rows_written chip g cols i s ->
  exists s', emit e s = Ret tt s' /\ rows_written chip g cols i s'.
Proof.
  intros (d & g' & (p & H & P) & Hg & Hh).
  destruct (step_emit e _ _ _ _ H) as (s' & E & H').
  exists s'. split; [exact E|].
  exists d, (with_log (g_log g' ++ [e]) g'). split; [exists p; now split|].
  split; [now apply same_but_log_emit|exact Hh].
Qed.

Lemma checkRow_keeps_rows i row check s :
  0 <= row < i -> i <= rows_n ->
  rows_written chip g cols i s ->
  exists s', checkRow_16Pin chip cols row patNr check s = Ret tt s'
             /\ rows_written chip g cols i s'.
Proof.
  intros Hrow Hi (d & g' & Hh & Hg & Hall).
  destruct (same_but_log_fields g' Hg) as (Gt & Gtab).
  destruct (checkRow_clean chip cols n row patNr check true true s d g')
    as (s' & d' & E & Hc & H'); try assumption; try lia.
  - now rewrite Gt.
  - rewrite Gtab. apply Hall. lia.
  - exists s'. split; [exact E|].
    exists d', (with_log (g_log g' ++ [EvCheckRow row patNr check]) g').
    split; [exact H'|]. split; [now apply same_but_log_emit|].
    rewrite Hc. exact Hall.
Qed.

Lemma read_cell_sound c R C : read_cell chip c R C = default false (c !! (R, C)).
Proof. unfold read_cell. now rewrite Hsound. Qed.

(** Writing row [i] leaves the rows below it as they are and makes row
    [i] hold its data. *)
Lemma writeRow_writes {B} (k : M B) i s :
  0 <= i < rows_n ->
  rows_written chip g cols i s ->
  exists s',
    (or_reg chip rDDRC 0x02;; CAS_HIGH16 chip;; writeRow_page chip i cols;;
     emit (EvWriteRow i patNr);; k) s = k s'
    /\ rows_written chip g cols (i + 1) s'.
Proof.
  intros Hi (d & g' & (p & H & Hr & Hc & Hw & Hx) & Hg & Hall).
  destruct (same_but_log_fields g' Hg) as (Gt & Gtab).
  destruct p as [[r0 w0 ab] [c0 di ac] ad x]. simpl in Hr, Hc, Hw, Hx. subst r0 c0 w0 x.
  destruct d as [cl rl dn cnt]. cbn [cells] in Hall.
  step (step_or_DDRC_2 chip).
  step (step_CAS_HIGH16 chip).
  lazymatch goal with Habs : abs _ _ _ _ |- _ => rename Habs into HA end.
  destruct (writeRow_page_spec chip i cols n true true _ cl rl dn cnt g'
              ltac:(lia) Hn Hcols
              (ex_intro _ _ (conj HA (conj eq_refl (conj eq_refl (conj eq_refl eq_refl))))))
    as (sw & E1 & Hh1).
  norm_prog. rewrite (bind_ret_step _ _ _ _ _ E1). clear E1 HA.
  destruct Hh1 as (p1 & H1 & P1).
  destruct (step_emit (EvWriteRow i patNr) _ _ _ _ H1) as (s' & E & H').
  rewrite (bind_ret_step _ _ _ _ _ E).
  exists s'. split; [reflexivity|].
  eexists _, _. split; [exists p1; split; [exact H'|exact P1]|].
  split; [now apply same_but_log_emit|].
  cbn [cells]. rewrite Gtab. destruct Hdec as [Hrinj Hcinj].
  intros j Hj col Hcol. rewrite read_cell_sound.
  destruct (Z.eq_dec j i) as [->|Hne].
  - rewrite page_image_lookup_in; [reflexivity| |apply in_page_cols; [exact Hn|lia]].
    intros a b Ha Hb. apply in_page_cols in Ha, Hb; try exact Hn.
    apply Hcinj; lia.
  - rewrite page_image_lookup_row.
    + rewrite <- read_cell_sound. apply Hall; [lia|exact Hcol].
    + intros E2. apply Hne. apply Hrinj; [lia|lia|exact E2].
Qed.

Hypothesis Hram : rows (ram (g_type g)) = rows_n.
Hypothesis Hk : 0 <= delayRows (ram (g_type g)) < 128.
Hypothesis Hkrows : delayRows (ram (g_type g)) < rows_n.

Lemma rows_written_type i s :
  rows_written chip g cols i s -> get_type s = Ret (g_type g) s.
Proof.
  intros (d & g' & (p & H & _) & Hg & _).
  destruct (same_but_log_fields g' Hg) as (Gt & _).
  rewrite <- Gt. exact (abs_get_type _ _ _ _ H).
Qed.

Lemma s8_small k : 0 <= k < 128 -> s8 k = k.
Proof.
  intros H. unfold s8, u8. rewrite Z.mod_small by lia.
  destruct (k <? 128) eqn:E; [reflexivity|]. apply Z.ltb_ge in E. lia.
Qed.

Lemma u16_small x : 0 <= x < 65536 -> u16 x = x.
Proof. intros H. unfold u16. now apply Z.mod_small. Qed.

(** The retention checks that follow the write of row [i] find nothing. *)
Lemma retention_keeps_rows i s :
  0 <= i < rows_n ->
  rows_written chip g cols (i + 1) s ->
  exists s', retention_check chip i cols patNr s = Ret tt s'
             /\ rows_written chip g cols (i + 1) s'.
Proof.
  intros Hi Hw. unfold retention_check.
  rewrite (bind_ret_step _ _ _ _ _ (rows_written_type _ _ Hw)). cbv zeta.
  rewrite Hram, (u16_small (rows_n - 1)) by lia.
  set (k := delayRows (ram (g_type g))) in *.
  unfold delayMicroseconds.
  destruct (i =? rows_n - 1) eqn:E1.
  - apply Z.eqb_eq in E1. rewrite s8_small by exact Hk.
    apply (for_each_inv (rows_written chip g cols (i + 1))); [|exact Hw].
    intros x st Hx Hst. apply in_downfrom in Hx.
    rewrite (u16_small (i - x)) by lia.
    destruct (checkRow_keeps_rows (i + 1) (i - x) 3 st ltac:(lia) ltac:(lia) Hst)
      as (s1 & E & H1).
    rewrite (bind_ret_step _ _ _ _ _ E).
    destruct (emit_keeps_rows (i + 1)
                (EvDelay (writeTime (ram (g_type g)) * 20)) s1 H1) as (s2 & E2 & H2).
    rewrite (bind_ret_step _ _ _ _ _ E2).
    exact (emit_keeps_rows (i + 1) _ s2 H2).
  - destruct (k <=? i) eqn:E2.
    + apply Z.leb_le in E2. rewrite (u16_small (i - k)) by lia.
      destruct (checkRow_keeps_rows (i + 1) (i - k) 3 s ltac:(lia) ltac:(lia) Hw)
        as (s1 & E & H1).
      rewrite (bind_ret_step _ _ _ _ _ E).
      exact (emit_keeps_rows (i + 1) _ s1 H1).
    + exact (emit_keeps_rows (i + 1) _ s Hw).
Qed.

(** [writeRow_16Pin] for row [i] of the pass. *)
Lemma writeRow_keeps_rows i s :
  0 <= i < rows_n ->
  rows_written chip g cols i s ->
  exists s', writeRow_16Pin chip i cols patNr s = Ret tt s'
             /\ rows_written chip g cols (i + 1) s'.
Proof.
  intros Hi Hw. unfold writeRow_16Pin.
  rewrite (bind_ret_step _ _ _ _ _ (rows_written_type _ _ Hw)).
  rewrite Hpage. cbn [negb].
  destruct (writeRow_writes (retention_check chip i cols patNr) i s Hi Hw)
    as (s1 & E1 & H1).
  rewrite E1. exact (retention_keeps_rows i s1 Hi H1).
Qed.

End GoodChip.

Lemma page_type_facts t :
  In t [T_4164; T_41256; T_4816] ->
  0 < rows (ram t) <= 512
  /\ 0 <= columns (ram t) / 32 <= 16
  /\ u8 (Z.shiftr (columns (ram t)) 5) = columns (ram t) / 32
  /\ columns (ram t) = 32 * (columns (ram t) / 32)
  /\ is_nibble_type t = false
  /\ 0 <= delayRows (ram t) < 128
  /\ delayRows (ram t) < rows (ram t).
Proof.
  simpl. intros [<-|[<-|[<-|[]]]]; vm_compute; repeat split; congruence.
Qed.

(** A pass of pattern 4 or 5 over a good chip of type 4164, 41256 or
    4816, started with the control lines at rest and PC1 an output: on a
    chip without stuck cells that tells all rows and columns of the type
    apart, the pass (writes and all retention checks) returns without
    error, leaves type byte, random table and the half-good flags as they
    were, and leaves in every cell the data bit of the pattern. *)
Theorem random_pass_passes_good_chip (chip : Chip) (patNr : Z) (s : state) :
  In (type s) [T_4164; T_41256; T_4816] -> 4 <= patNr ->
  at_rest s -> Z.testbit (DDRC s) 1 = true ->
  sound_cells chip ->
  decodes chip (rows (ram (type s))) (columns (ram (type s))) ->
  exists s', random_pass chip (rows (ram (type s))) patNr s = Ret tt s'
    /\ type s' = type s /\ randomTable s' = randomTable s
    /\ half_flags s' = half_flags s
    /\ forall row col, 0 <= row < rows (ram (type s)) ->
         0 <= col < columns (ram (type s)) ->
         read_cell chip (cells (dram s')) (row_sel chip row) (col_sel chip col)
         = data_bit (randomTable s) col row.
Proof.
  intros Ht Hpat Hrest Hdir Hsound Hdec.
  destruct (page_type_facts _ Ht) as (F1 & F2 & F3 & F4 & F5 & F6 & F7).
  set (rows_n := rows (ram (type s))) in *.
  set (cols := columns (ram (type s))) in *.
  assert (H0 : rows_written chip (globals s) cols 0 s).
  { destruct (at_rest_abs s Hrest) as (H & Hr1 & Hr2 & Hr3).
    exists (dram s), (globals s). split; [|split].
    - exists (pins_of s). split; [exact H|]. repeat split; assumption.
    - exists (g_log (globals s)). now destruct (globals s).
    - intros j Hj. lia. }
  unfold random_pass.
  destruct (for_upto_inv (rows_written chip (globals s) cols) rows_n
              (fun row => t ← get_type;
                          writeRow_16Pin chip row (columns (ram t)) patNr))
    with (s := s) as (s' & E & H').
  - intros i st Hi Hst.
    rewrite (bind_ret_step _ _ _ _ _ (rows_written_type chip _ cols i st Hst)).
    apply (writeRow_keeps_rows chip (globals s) rows_n cols (cols / 32) patNr);
      try assumption; try reflexivity.
  - exact H0.
  - exists s'. split; [exact E|].
    rewrite Z.max_r in H' by lia.
    destruct H' as (d & g' & Hh & (l & Hg) & Hall).
    destruct (holds_pins _ _ _ _ _ _ _ Hh) as (_ & _ & _ & _ & Hd & Hgl).
    subst g'. unfold half_flags.
    assert (T : g_type (globals s') = g_type (globals s)) by now rewrite Hgl.
    assert (R : g_table (globals s') = g_table (globals s)) by now rewrite Hgl.
    assert (L : g_lower (globals s') = g_lower (globals s)) by now rewrite Hgl.
    assert (U : g_upper (globals s') = g_upper (globals s)) by now rewrite Hgl.
    cbn [globals g_type g_table g_lower g_upper] in T, R, L, U.
    rewrite L, U, Hd. repeat split; try assumption.
    intros row col Hrow Hcol. exact (Hall row Hrow col Hcol).
Qed.

Lemma random_pass_passes_good_chip_witness :
  exists s', random_pass (ideal 0x1FF)
               (rows (ram (type (with_type_state T_41256 bench_state)))) 4
               (with_type_state T_41256 bench_state) = Ret tt s'
    /\ type s' = type (with_type_state T_41256 bench_state)
    /\ randomTable s' = randomTable (with_type_state T_41256 bench_state)
    /\ half_flags s' = half_flags (with_type_state T_41256 bench_state)
    /\ forall row col,
         0 <= row < rows (ram (type (with_type_state T_41256 bench_state))) ->
         0 <= col < columns (ram (type (with_type_state T_41256 bench_state))) ->
         read_cell (ideal 0x1FF) (cells (dram s'))
           (row_sel (ideal 0x1FF) row) (col_sel (ideal 0x1FF) col)
         = data_bit (randomTable (with_type_state T_41256 bench_state)) col row.
Proof.
  apply (random_pass_passes_good_chip (ideal 0x1FF) 4
           (with_type_state T_41256 bench_state)).
  - simpl. tauto.
  - lia.
  - exact bench_at_rest.
  - reflexivity.
  - intros R C. reflexivity.
  - apply ideal_511_decodes; vm_compute; congruence.
Defined.

Lemma scan_page_sticky chip tbl cl row l acc :
  fst acc = true -> fst (scan_page chip tbl cl row l acc) = true.
Proof.
  revert acc. induction l as [|x l IH]; intros acc H; [exact H|].
  simpl. apply IH. unfold scan_step. cbn [fst]. now rewrite H.
Qed.

Lemma scan_page_found chip tbl cl row l acc col :
  In col l -> cell_mismatch chip tbl cl row col = true ->
  fst (scan_page chip tbl cl row l acc) = true.
Proof.
  revert acc. induction l as [|x l IH]; intros acc Hin Hm; [destruct Hin|].
  simpl. destruct Hin as [->|Hin].
  - apply scan_page_sticky. unfold scan_step. cbn [fst]. rewrite Hm.
    now destruct (fst acc).
  - now apply IH.
Qed.

(** A check of a row of a 41256 or 4816 under pattern 4 or 5, started
    with CAS and WE high: when some cell of the row does not read back as
    its data bit, the check ends in the error of the pattern with the
    check's error number; the chip is never passed on. *)
Theorem checkRow_detects_bad_cell (chip : Chip) (row col patNr check : Z) (s : state) :
  In (type s) [T_41256; T_4816] -> 4 <= patNr -> 0 <= row < 512 ->
  regs_ok s -> CAS_pin (PORTC s) = true -> WE_pin (PORTB s) = true ->
  0 <= col < columns (ram (type s)) ->
  cell_mismatch chip (randomTable s) (cells (dram s)) row col = true ->
  exists s', checkRow_16Pin chip (columns (ram (type s))) row patNr check s
             = Halt (Error (u8 (patNr + 1)) check (-1) (-1)) s'.
Proof.
  intros Ht Hpat Hrow Hregs Hcas Hwe Hcol Hmm.
  assert (Ht' : In (type s) [T_4164; T_41256; T_4816]) by (simpl in *; tauto).
  destruct (page_type_facts _ Ht') as (F1 & F2 & F3 & F4 & F5 & F6 & F7).
  assert (Hhg : half_good_type (type s) = false).
  { simpl in Ht. destruct Ht as [<-|[<-|[]]]; reflexivity. }
  set (cols := columns (ram (type s))) in *.
  pose proof (holds_of_state s Hregs) as Hh. rewrite Hcas, Hwe in Hh.
  destruct Hh as (p & H & Hr & Hc & Hw & Hx).
  destruct p as [[r0 w0 ab] [c0 di ac] ad x0]. simpl in Hr, Hc, Hw, Hx. subst r0 c0 w0 x0.
  remember (dram s) as d eqn:Ed. destruct d as [cl rl dn cnt]. cbn [cells] in Hmm.
  remember (globals s) as g eqn:Eg.
  assert (Tg : g_type g = type s) by now subst g.
  assert (Rg : g_table g = randomTable s) by now subst g.
  unfold checkRow_16Pin.
  step (step_emit (EvCheckRow row patNr check)).
  lazymatch goal with Habs : abs _ _ _ ?g1 |- _ =>
    step_get abs_get_type; change (g_type g1) with (g_type g) end.
  cbv zeta. rewrite Tg, F5. cbn [negb].
  step (step_andnot_PORTC_2 chip).
  step (step_andnot_DDRC_2 chip).
  lazymatch goal with Habs : abs _ _ _ _ |- _ => rename Habs into HA end.
  destruct (checkRow_scan_page_spec chip cols (cols / 32) row patNr _ _ cl rl dn cnt _
              Hrow F2 F3 Hpat
              (ex_intro _ _ (conj HA (conj eq_refl (conj eq_refl (conj eq_refl eq_refl))))))
    as (sc & dn1 & E1 & (p1 & H1 & Hr1 & Hc1 & Hw1 & Hx1)).
  norm_prog. rewrite (bind_ret_step _ _ _ _ _ E1). clear E1 HA.
  change (g_table (with_log (g_log g ++ [EvCheckRow row patNr check]) g))
    with (g_table g).
  rewrite Rg.
  assert (Hf : fst (scan_page chip (randomTable s) cl row (page_cols (cols / 32))
                      (false, 0)) = true).
  { apply (scan_page_found chip _ cl row _ _ col); [|exact Hmm].
    apply in_page_cols; [exact F2|]. lia. }
  destruct (scan_page chip (randomTable s) cl row (page_cols (cols / 32)) (false, 0))
    as [fnd ec]. cbn [fst snd] in *. subst fnd.
  destruct p1 as [[r1 w1 ab1] [c1 di1 ac1] ad1 x1].
  simpl in Hr1, Hc1, Hw1, Hx1. subst r1 c1 w1 x1.
  destruct (step_or_DDRC_2 chip _ _ _ _ H1) as (s' & E & H').
  rewrite (bind_ret_step _ _ _ _ _ E).
  apply checkRow_verdict_escalates.
  destruct H' as (_ & _ & _ & Hg'). 
  assert (T' : type s' = type s).
  { change (type s') with (g_type (globals s')). rewrite Hg'. exact Tg. }
  unfold swallowed. rewrite T', Hhg. reflexivity.
Qed.

Lemma checkRow_detects_bad_cell_witness :
  exists s', checkRow_16Pin (ideal 0x1FF)
               (columns (ram (type (with_type_state T_41256 bench_state)))) 0 4 3
               (with_type_state T_41256 bench_state)
             = Halt (Error (u8 (4 + 1)) 3 (-1) (-1)) s'.
Proof.
  apply (checkRow_detects_bad_cell (ideal 0x1FF) 0 0 4 3
           (with_type_state T_41256 bench_state)).
  - simpl. tauto.
  - lia.
  - lia.
  - apply bench_at_rest.
  - reflexivity.
  - reflexivity.
  - vm_compute. split; [congruence|reflexivity].
  - vm_compute. reflexivity.
Defined.

(** ** The read-back of a row on any chip *)

Section RowVerdict.

Variable chip : Chip.

(** The bookkeeping of a mismatch in [checkRow_16Pin]: the flags are
    updated, and the run goes on exactly when the mismatch is
    swallowed. *)
Lemma checkRow_verdict_spec row patNr check ec s p d g :
  abs s p d g ->
  exists s',
    checkRow_verdict row patNr check true ec s
    = (if swallowed (g_type g) (lower_after row ec (g_lower g))
                    (upper_after row ec (g_upper g))
       then Ret tt s'
       else Halt (Error (u8 (patNr + 1)) check (-1) (-1)) s')
    /\ abs s' p d (with_flags (lower_after row ec (g_lower g))
                              (upper_after row ec (g_upper g)) g).
Proof.
  intros (Hr & Hp & Hd & Hg). subst p d g.
  unfold checkRow_verdict, swallowed, lower_after, upper_after, with_flags.
  cbn [globals g_type g_lower g_upper g_suffix g_table g_log].
  destruct (128 <=? row), (128 <=? ec);
    cbv beta iota zeta delta [bind or_upper or_lower get_upper get_lower set_upper
                              set_lower get_type ret error];
    cbn [type error_in_lower_half error_in_upper_half];
    (eexists; split;
     [match goal with |- (if ?c then _ else _) _ = _ => destruct c end; reflexivity
     |split; [exact Hr|split; [reflexivity|split; reflexivity]]]).
Qed.

Lemma scan_page_found_col tbl cl row l :
  fst (scan_page chip tbl cl row l (false, 0)) = true ->
  In (snd (scan_page chip tbl cl row l (false, 0))) l
  /\ cell_mismatch chip tbl cl row (snd (scan_page chip tbl cl row l (false, 0))) = true.
Proof.
  induction l as [|x l IH] using rev_ind; [discriminate|].
  rewrite scan_page_snoc. unfold scan_step.
  destruct (scan_page chip tbl cl row l (false, 0)) as [fnd ec]. cbn [fst snd] in *.
  destruct fnd; cbn [orb negb andb].
  - rewrite Bool.andb_false_r. intros _. destruct (IH eq_refl) as [I1 I2].
    split; [apply in_or_app; now left|exact I2].
  - intros Hm. rewrite Hm. cbn [andb]. split; [|exact Hm].
    apply in_or_app. right. now left.
Qed.

Lemma scan_page_none tbl cl row l :
  fst (scan_page chip tbl cl row l (false, 0)) = false ->
  forall col, In col l -> cell_mismatch chip tbl cl row col = false.
Proof.
  intros H col Hin.
  destruct (cell_mismatch chip tbl cl row col) eqn:E; [|reflexivity].
  rewrite (scan_page_found chip tbl cl row l (false, 0) col Hin E) in H. discriminate.
Qed.

(** [checkRow_16Pin] in page mode under pattern 4 or 5, on any chip: the
    columns of the [n] chunks are read back and compared; without a
    mismatch the check returns, with one the flags are updated and the
    check returns or reports, as the half-good rule decides for the
    first mismatching column. *)
Lemma checkRow_16Pin_spec cols n row patNr check r x s d g :
  0 <= row < 512 -> 0 <= n <= 16 -> u8 (Z.shiftr cols 5) = n -> 4 <= patNr ->
  is_nibble_type (g_type g) = false ->
  holds r true true x d g s ->
  let res := scan_page chip (g_table g) (cells d) row (page_cols n) (false, 0) in
  let g1 := with_log (g_log g ++ [EvCheckRow row patNr check]) g in
  let lo := lower_after row (snd res) (g_lower g) in
  let up := upper_after row (snd res) (g_upper g) in
  exists s' d',
    cells d' = cells d
    /\ (if fst res then
          checkRow_16Pin chip cols row patNr check s
          = (if swallowed (g_type g) lo up then Ret tt s'
             else Halt (Error (u8 (patNr + 1)) check (-1) (-1)) s')
          /\ holds true true true true d' (with_flags lo up g1) s'
        else
          checkRow_16Pin chip cols row patNr check s = Ret tt s'
          /\ holds true true true true d' g1 s').
Proof.
  intros Hrow Hn Hcols Hpat Hnib (p & H & Hr & Hc & Hw & Hx).
  destruct p as [[r0 w0 ab] [c0 di ac] ad x0]. simpl in Hr, Hc, Hw, Hx. subst r0 c0 w0 x0.
  destruct d as [cl rl dn cnt]. cbn [cells] in *. cbv zeta.
  unfold checkRow_16Pin.
  step (step_emit (EvCheckRow row patNr check)).
  lazymatch goal with Habs : abs _ _ _ ?g1 |- _ =>
    step_get abs_get_type; change (g_type g1) with (g_type g) end.
  cbv zeta. rewrite Hnib. cbn [negb].
  step (step_andnot_PORTC_2 chip).
  step (step_andnot_DDRC_2 chip).
  lazymatch goal with Habs : abs _ _ _ _ |- _ => rename Habs into HA end.
  destruct (checkRow_scan_page_spec chip cols n row patNr r _ cl rl dn cnt _
              Hrow Hn Hcols Hpat
              (ex_intro _ _ (conj HA (conj eq_refl (conj eq_refl (conj eq_refl eq_refl))))))
    as (sc & dn1 & E1 & (p1 & H1 & Hr1 & Hc1 & Hw1 & Hx1)).
  norm_prog. rewrite (bind_ret_step _ _ _ _ _ E1). clear E1 HA.
  change (g_table (with_log (g_log g ++ [EvCheckRow row patNr check]) g))
    with (g_table g).
  destruct (scan_page chip (g_table g) cl row (page_cols n) (false, 0)) as [fnd ec].
  cbn [fst snd].
  destruct p1 as [[r1 w1 ab1] [c1 di1 ac1] ad1 x1].
  simpl in Hr1, Hc1, Hw1, Hx1. subst r1 c1 w1 x1.
  destruct (step_or_DDRC_2 chip _ _ _ _ H1) as (s' & E & H').
  rewrite (bind_ret_step _ _ _ _ _ E).
  destruct fnd.
  - destruct (checkRow_verdict_spec row patNr check ec _ _ _ _ H') as (sv & E2 & H2).
    exists sv, {| cells := cl; row_latch := row; dout := dn1; cbr_count := cnt |}.
    split; [reflexivity|]. split; [exact E2|].
    eexists. split; [exact H2|]. repeat split.
  - unfold checkRow_verdict.
    exists s', {| cells := cl; row_latch := row; dout := dn1; cbr_count := cnt |}.
    split; [reflexivity|]. split; [reflexivity|].
    eexists. split; [exact H'|]. repeat split.
Qed.

End RowVerdict.

(** ** Loops whose body decides between going on and reporting *)

Lemma for_each_decide {A} (I : state -> Prop) (P N : A -> Prop) (E : final)
      (l : list A) (body : A -> M unit) :
  (forall x s, In x l -> I s ->
     (P x /\ exists s', body x s = Ret tt s' /\ I s')
     \/ (N x /\ exists s', body x s = Halt E s')) ->
  forall s, I s ->
    ((forall x, In x l -> P x) /\ exists s', for_each l body s = Ret tt s' /\ I s')
    \/ ((exists x, In x l /\ N x) /\ exists s', for_each l body s = Halt E s').
Proof.
  induction l as [|x l IH]; intros Hb s Hs.
  - left. split; [intros x []|]. exists s. now split.
  - destruct (Hb x s (or_introl eq_refl) Hs) as [(Hp & s1 & E1 & H1)|(Hn & s1 & E1)].
    + destruct (IH (fun y st Hy => Hb y st (or_intror Hy)) s1 H1)
        as [(Hall & s2 & E2 & H2)|((y & Hy & Hny) & s2 & E2)].
      * left. split; [intros y [<-|Hy]; [exact Hp|now apply Hall]|].
        exists s2. split; [|exact H2]. simpl. now rewrite (bind_ret_step _ _ _ _ _ E1).
      * right. split; [exists y; split; [now right|exact Hny]|].
        exists s2. simpl. now rewrite (bind_ret_step _ _ _ _ _ E1).
    + right. split; [exists x; split; [now left|exact Hn]|].
      exists s1. simpl. now rewrite (bind_halt_step _ _ _ _ _ E1).
Qed.

Lemma for_upto_decide (I : Z -> state -> Prop) (P N : Z -> Prop) (E : final)
      (n : Z) (body : Z -> M unit) :
  (forall i s, 0 <= i < n -> I i s ->
     (P i /\ exists s', body i s = Ret tt s' /\ I (i + 1) s')
     \/ (N i /\ exists s', body i s = Halt E s')) ->
  forall s, I 0 s ->
    ((forall i, 0 <= i < n -> P i)
     /\ exists s', for_each (upto n) body s = Ret tt s' /\ I (Z.max 0 n) s')
    \/ ((exists i, 0 <= i < n /\ N i)
        /\ exists s', for_each (upto n) body s = Halt E s').
Proof.
  intros Hb s Hs. destruct (Z_le_gt_dec n 0) as [Hle|Hgt].
  { left. split; [intros i Hi; lia|]. exists s.
    replace (upto n) with (@nil Z)
      by (unfold upto; now replace (Z.to_nat n) with 0%nat by lia).
    rewrite Z.max_l by lia. now split. }
  rewrite Z.max_r by lia.
  assert (G : forall m, 0 <= m -> m <= n ->
            ((forall i, 0 <= i < m -> P i)
             /\ exists s', for_each (upto m) body s = Ret tt s' /\ I m s')
            \/ ((exists i, 0 <= i < m /\ N i)
                /\ exists s', for_each (upto m) body s = Halt E s')).
  { intros m Hm. pattern m. apply natlike_ind; [| |exact Hm].
    - intros _. left. split; [intros i Hi; lia|]. exists s. now split.
    - intros j Hj IH Hjn.
      unfold Z.succ. rewrite upto_succ by exact Hj.
      destruct (IH ltac:(lia)) as [(Hall & s1 & E1 & H1)|((i & Hi & Hni) & s1 & E1)].
      + destruct (Hb j s1 ltac:(lia) H1) as [(Hp & s2 & E2 & H2)|(Hn & s2 & E2)].
        * left. split.
          { intros i Hi. destruct (Z.eq_dec i j) as [->|Hne]; [exact Hp|].
            apply Hall. lia. }
          exists s2. split; [|exact H2].
          rewrite for_each_app, (bind_ret_step _ _ _ _ _ E1). simpl.
          now rewrite (bind_ret_step _ _ _ _ _ E2).
        * right. split; [exists j; split; [lia|exact Hn]|].
          exists s2. rewrite for_each_app, (bind_ret_step _ _ _ _ _ E1). simpl.
          now rewrite (bind_halt_step _ _ _ _ _ E2).
      + right. split; [exists i; split; [lia|exact Hni]|].
        exists s1. now rewrite for_each_app, (bind_halt_step _ _ _ _ _ E1). }
  exact (G n ltac:(lia) ltac:(lia)).
Qed.

(** ** A pass of pattern 4 or 5 on any chip *)

Section AnyChip.

Variable chip : Chip.
Variable g : globs.
Variable c0 : gmap (Z * Z) bool.
Variables rows_n cols n patNr k : Z.

Hypothesis Hrows : 0 < rows_n <= 512.
Hypothesis Hn : 0 <= n <= 16.
Hypothesis Hcols : u8 (Z.shiftr cols 5) = n.
Hypothesis Hcols32 : cols = 32 * n.
Hypothesis Hpat : 4 <= patNr.
Hypothesis Hpage : is_nibble_type (g_type g) = false.
Hypothesis Hhg : half_good_type (g_type g) = false.
Hypothesis Hram : rows (ram (g_type g)) = rows_n.
Hypothesis Hcolsram : columns (ram (g_type g)) = cols.
Hypothesis Hkram : delayRows (ram (g_type g)) = k.
Hypothesis Hk : 0 <= k < 128.
Hypothesis Hkrows : k < rows_n.

Local Abbreviation img i := (pass_image chip (g_table g) n i c0).
Local Abbreviation ok r i := (row_holds chip (g_table g) cols r (img i)).

Lemma pass_state_type i s :
  pass_state chip g n c0 i s -> get_type s = Ret (g_type g) s.
Proof.
  intros (d & g' & (p & H & _) & (l & ->) & _).
  exact (abs_get_type _ _ _ _ H).
Qed.

Lemma pass_state_emit i e s :
  pass_state chip g n c0 i s ->
  exists s', emit e s = Ret tt s' /\ pass_state chip g n c0 i s'.
Proof.
  intros (d & g' & (p & H & P) & (l & ->) & Hc).
  destruct (step_emit e _ _ _ _ H) as (s' & E & H').
  exists s'. split; [exact E|].
  exists d, (with_log (l ++ [e]) g). split; [exists p; now split|].
  split; [eexists; reflexivity|exact Hc].
Qed.

Lemma pass_image_succ i :
  0 <= i ->
  pass_image chip (g_table g) n (i + 1) c0
  = page_image chip (g_table g) i (page_cols n) (pass_image chip (g_table g) n i c0).
Proof.
  intros Hi. unfold pass_image. rewrite upto_succ, fold_left_app by exact Hi.
  reflexivity.
Qed.

(** The write part of [writeRow_16Pin] for row [i]. *)
Lemma writeRow_page_any {B} (m : M B) i s :
  0 <= i < rows_n ->
  pass_state chip g n c0 i s ->
  exists s',
    (or_reg chip rDDRC 0x02;; CAS_HIGH16 chip;; writeRow_page chip i cols;;
     emit (EvWriteRow i patNr);; m) s = m s'
    /\ pass_state chip g n c0 (i + 1) s'.
Proof.
  intros Hi (d & g' & (p & H & Hr & Hc & Hw & Hx) & (l & ->) & Hcl).
  destruct p as [[r0 w0 ab] [cb di ac] ad x]. simpl in Hr, Hc, Hw, Hx. subst r0 cb w0 x.
  destruct d as [cl rl dn cnt]. cbn [cells] in Hcl.
  step (step_or_DDRC_2 chip).
  step (step_CAS_HIGH16 chip).
  lazymatch goal with Habs : abs _ _ _ _ |- _ => rename Habs into HA end.
  destruct (writeRow_page_spec chip i cols n true true _ cl rl dn cnt (with_log l g)
              ltac:(lia) Hn Hcols
              (ex_intro _ _ (conj HA (conj eq_refl (conj eq_refl (conj eq_refl eq_refl))))))
    as (sw & E1 & Hh1).
  norm_prog. rewrite (bind_ret_step _ _ _ _ _ E1). clear E1 HA.
  destruct Hh1 as (p1 & H1 & P1).
  destruct (step_emit (EvWriteRow i patNr) _ _ _ _ H1) as (s' & E & H').
  rewrite (bind_ret_step _ _ _ _ _ E).
  exists s'. split; [reflexivity|].
  eexists _, _. split; [exists p1; split; [exact H'|exact P1]|].
  split; [eexists; reflexivity|].
  cbn [cells g_table with_log]. rewrite Hcl. symmetry. apply pass_image_succ. lia.
Qed.

(** One retention check during the pass: it returns exactly when the row
    reads back as its data from the cells as they are then. *)
Lemma checkRow_decides i r s :
  0 <= r < 512 ->
  pass_state chip g n c0 i s ->
  (ok r i /\ exists s', checkRow_16Pin chip cols r patNr 3 s = Ret tt s'
                        /\ pass_state chip g n c0 i s')
  \/ (~ ok r i /\ exists s', checkRow_16Pin chip cols r patNr 3 s
                             = Halt (retention_fault patNr) s').
Proof.
  intros Hr (d & g' & Hh & (l & ->) & Hcl).
  destruct (checkRow_16Pin_spec chip cols n r patNr 3 true true s d (with_log l g)
              Hr Hn Hcols Hpat Hpage Hh) as (s' & d' & Hc' & Hres).
  cbn [g_table g_type g_lower g_upper with_log] in Hres.
  rewrite <- Hcl.
  destruct (fst (scan_page chip (g_table g) (cells d) r (page_cols n) (false, 0)))
    eqn:Ef.
  - right. destruct Hres as (E & _).
    unfold swallowed in E. rewrite Hhg in E. cbn [andb] in E.
    split; [|exists s'; exact E].
    destruct (scan_page_found_col chip _ _ _ _ Ef) as (Hin & Hm).
    apply in_page_cols in Hin; [|exact Hn].
    intros Hok. unfold cell_mismatch in Hm.
    rewrite Hok in Hm by lia. now rewrite eqb_reflx in Hm.
  - left. destruct Hres as (E & Hh').
    split.
    + intros col Hcol.
      pose proof (scan_page_none chip _ _ _ _ Ef col
                    ltac:(apply in_page_cols; [exact Hn|lia])) as Hm.
      unfold cell_mismatch in Hm. apply negb_false_iff in Hm.
      now apply Bool.eqb_prop in Hm.
    + exists s'. split; [exact E|].
      exists d', (with_log ((l ++ [EvCheckRow r patNr 3])) g).
      split; [exact Hh'|]. split; [eexists; reflexivity|]. now rewrite Hc'.
Qed.

(** The retention checks that follow the write of row [i]. *)
Lemma retention_decides i s :
  0 <= i < rows_n ->
  pass_state chip g n c0 (i + 1) s ->
  ((forall r, 0 <= r < rows_n -> written_before_check k rows_n r = i -> ok r (i + 1))
   /\ exists s', retention_check chip i cols patNr s = Ret tt s'
                 /\ pass_state chip g n c0 (i + 1) s')
  \/ ((exists r, 0 <= r < rows_n /\ written_before_check k rows_n r = i
                 /\ ~ ok r (i + 1))
      /\ exists s', retention_check chip i cols patNr s
                    = Halt (retention_fault patNr) s').
Proof.
  intros Hi Hw. unfold retention_check.
  rewrite (bind_ret_step _ _ _ _ _ (pass_state_type _ _ Hw)). cbv zeta.
  rewrite Hram, Hkram, (u16_small (rows_n - 1)) by lia.
  unfold delayMicroseconds, written_before_check.
  destruct (i =? rows_n - 1) eqn:E1.
  - apply Z.eqb_eq in E1. rewrite s8_small by exact Hk.
    destruct (for_each_decide (pass_state chip g n c0 (i + 1))
                (fun x => ok (i - x) (i + 1)) (fun x => ~ ok (i - x) (i + 1))
                (retention_fault patNr)
                (downfrom (k + 1))
                (fun x => checkRow_16Pin chip cols (u16 (i - x)) patNr 3;;
                          emit (EvDelay (writeTime (ram (g_type g)) * 20));;
                          emit (EvDelay (rd (delays (ram (g_type g))) k * 20))))
      with (s := s) as [(Hall & s' & E & H')|((x & Hx & Hnx) & s' & E)].
    + intros x st Hx Hst. apply in_downfrom in Hx.
      rewrite (u16_small (i - x)) by lia.
      destruct (checkRow_decides (i + 1) (i - x) st ltac:(lia) Hst)
        as [(Hok & s1 & E & H1)|(Hno & s1 & E)].
      * left. split; [exact Hok|].
        rewrite (bind_ret_step _ _ _ _ _ E).
        destruct (pass_state_emit (i + 1)
                    (EvDelay (writeTime (ram (g_type g)) * 20)) s1 H1)
          as (s2 & E2 & H2).
        rewrite (bind_ret_step _ _ _ _ _ E2).
        exact (pass_state_emit (i + 1) _ s2 H2).
      * right. split; [exact Hno|]. exists s1.
        now rewrite (bind_halt_step _ _ _ _ _ E).
    + exact Hw.
    + left. split; [|exists s'; now split].
      intros r Hr Hmin. replace r with (i - (i - r)) by lia.
      apply Hall. apply in_downfrom. lia.
    + right. split; [|exists s'; exact E].
      apply in_downfrom in Hx. exists (i - x).
      split; [lia|]. split; [lia|exact Hnx].
  - apply Z.eqb_neq in E1. destruct (k <=? i) eqn:E2.
    + apply Z.leb_le in E2. rewrite (u16_small (i - k)) by lia.
      destruct (checkRow_decides (i + 1) (i - k) s ltac:(lia) Hw)
        as [(Hok & s1 & E & H1)|(Hno & s1 & E)].
      * left. split.
        { intros r Hr Hmin. replace r with (i - k) by lia. exact Hok. }
        rewrite (bind_ret_step _ _ _ _ _ E).
        exact (pass_state_emit (i + 1) _ s1 H1).
      * right. split.
        { exists (i - k). split; [lia|]. split; [lia|exact Hno]. }
        exists s1. now rewrite (bind_halt_step _ _ _ _ _ E).
    + apply Z.leb_gt in E2. left. split; [intros r Hr Hmin; lia|].
      exact (pass_state_emit (i + 1) _ s Hw).
Qed.

Lemma writeRow_decides i s :
  0 <= i < rows_n ->
  pass_state chip g n c0 i s ->
  ((forall r, 0 <= r < rows_n -> written_before_check k rows_n r = i -> ok r (i + 1))
   /\ exists s', writeRow_16Pin chip i cols patNr s = Ret tt s'
                 /\ pass_state chip g n c0 (i + 1) s')
  \/ ((exists r, 0 <= r < rows_n /\ written_before_check k rows_n r = i
                 /\ ~ ok r (i + 1))
      /\ exists s', writeRow_16Pin chip i cols patNr s
                    = Halt (retention_fault patNr) s').
Proof.
  intros Hi Hw. unfold writeRow_16Pin.
  rewrite (bind_ret_step _ _ _ _ _ (pass_state_type _ _ Hw)).
  rewrite Hpage. cbn [negb].
  destruct (writeRow_page_any (retention_check chip i cols patNr) i s Hi Hw)
    as (s1 & E1 & H1).
  rewrite E1. exact (retention_decides i s1 Hi H1).
Qed.

(** The pass: it returns exactly when every row reads back as its data
    from the cells as they are after the write of the row its check
    waits for, and reports a retention fault otherwise. *)
Lemma random_pass_decides s :
  pass_state chip g n c0 0 s ->
  ((forall r, 0 <= r < rows_n -> ok r (written_before_check k rows_n r + 1))
   /\ exists s', random_pass chip rows_n patNr s = Ret tt s'
                 /\ pass_state chip g n c0 rows_n s')
  \/ ((exists r, 0 <= r < rows_n /\ ~ ok r (written_before_check k rows_n r + 1))
      /\ exists s', random_pass chip rows_n patNr s = Halt (retention_fault patNr) s').
Proof.
  intros Hs. unfold random_pass.
  destruct (for_upto_decide (pass_state chip g n c0)
              (fun i => forall r, 0 <= r < rows_n ->
                                  written_before_check k rows_n r = i -> ok r (i + 1))
              (fun i => exists r, 0 <= r < rows_n
                                  /\ written_before_check k rows_n r = i
                                  /\ ~ ok r (i + 1))
              (retention_fault patNr) rows_n
              (fun row => t ← get_type;
                          writeRow_16Pin chip row (columns (ram t)) patNr))
    with (s := s) as [(Hall & s' & E & H')|((i & Hi & Hni) & s' & E)].
  - intros i st Hi Hst.
    rewrite (bind_ret_step _ _ _ _ _ (pass_state_type _ _ Hst)), Hcolsram.
    destruct (writeRow_decides i st Hi Hst) as [(Hp & X)|(Hnp & X)].
    + left. split; [exact Hp|exact X].
    + right. split; [exact Hnp|exact X].
  - exact Hs.
  - left. rewrite Z.max_r in H' by lia. split; [|exists s'; now split].
    intros r Hr. apply (Hall (written_before_check k rows_n r)); [|exact Hr|reflexivity].
    unfold written_before_check. lia.
  - right. split; [|exists s'; exact E].
    destruct Hni as (r & Hr & Hm & Hno). exists r. split; [exact Hr|].
    now rewrite Hm.
Qed.

End AnyChip.

(** ** The fast pattern test: the ports *)

Lemma viewB_fast pb i :
  0 <= pb < 256 -> 0 <= i < 8 ->
  viewB (u8 (Z.lor (Z.land pb 0xEA) (rd fast_pb_addr i)))
  = {| ras := ras (viewB pb); we := we (viewB pb); aB := fastB i |}.
Proof.
  intros H1 H2. apply pinsB_eqb_eq. revert pb i H1 H2. apply forallb_upto2.
  vm_compute. reflexivity.
Qed.

Lemma viewC_fast_r i :
  0 <= i < 4 ->
  viewC (u8 (rd fast_pc_r i)) = {| cas := true; din := false; aC := fastC i |}.
Proof.
  intros H. apply pinsC_eqb_eq. revert i H. apply forallb_upto.
  vm_compute. reflexivity.
Qed.

Lemma viewC_fast_w patNr i :
  0 <= i < 4 ->
  viewC (u8 (rd (fast_pc_w (fast_din_a0_0 patNr) (fast_din_a0_1 patNr)) i))
  = {| cas := true; din := fast_bit patNr (fastC i); aC := fastC i |}.
Proof.
  intros H.
  assert (D0 : fast_din_a0_0 patNr = 0 \/ fast_din_a0_0 patNr = 2).
  { unfold fast_din_a0_0. destruct (_ =? 0); auto. }
  assert (D1 : fast_din_a0_1 patNr = 0 \/ fast_din_a0_1 patNr = 2).
  { unfold fast_din_a0_1. destruct (patNr <=? 1); [exact D0|].
    destruct (_ =? 0); auto. }
  unfold fast_bit.
  assert (C : i = 0 \/ i = 1 \/ i = 2 \/ i = 3) by lia.
  destruct D0 as [-> | ->], D1 as [-> | ->], C as [->|[->|[->| ->]]]; reflexivity.
Qed.

Lemma viewD_fast pd k :
  0 <= pd < 256 -> 0 <= k < 16 ->
  viewD (u8 (rd (fast_pd_lut (Z.land pd 0x3C)) k)) = fastD k.
Proof.
  intros H1 H2. apply Z.eqb_eq. revert pd k H1 H2. apply forallb_upto2.
  vm_compute. reflexivity.
Qed.

(** Every column below 512 is addressed by its indices; the lower 256
    columns by [pc_i] 0 and 1. *)
Lemma fast_col_of col :
  0 <= col < 512 ->
  fast_col (fast_pc_of col) (fast_pb_of col) (fast_k_of col) = col
  /\ 0 <= fast_pc_of col < 4 /\ 0 <= fast_pb_of col < 8 /\ 0 <= fast_k_of col < 16
  /\ (col < 256 -> fast_pc_of col < 2).
Proof.
  intros H.
  assert (C : forallb (fun col =>
                (fast_col (fast_pc_of col) (fast_pb_of col) (fast_k_of col) =? col)
                && (0 <=? fast_pc_of col) && (fast_pc_of col <? 4)
                && (0 <=? fast_pb_of col) && (fast_pb_of col <? 8)
                && (0 <=? fast_k_of col) && (fast_k_of col <? 16)
                && ((256 <=? col) || (fast_pc_of col <? 2))) (upto 512) = true)
    by (vm_compute; reflexivity).
  pose proof (forallb_upto _ _ C col H) as D. cbv beta in D.
  repeat (apply andb_prop in D; destruct D as [D ?]).
  apply Z.eqb_eq in D.
  repeat match goal with
         | X : (_ <=? _) = true |- _ => apply Z.leb_le in X
         | X : (_ <? _) = true |- _ => apply Z.ltb_lt in X
         end.
  repeat split; try assumption.
  intros Hc. match goal with X : (_ || _) = true |- _ => apply orb_prop in X as [X|X] end.
  - apply Z.leb_le in H0. lia.
  - now apply Z.ltb_lt in H0.
Qed.

(** The columns the indices address, and the parity that selects the
    data bit. *)
Lemma fast_col_range pc_i pb_i k :
  0 <= pc_i < 4 -> 0 <= pb_i < 8 -> 0 <= k < 16 ->
  0 <= fast_col pc_i pb_i k < 512
  /\ (pc_i < 2 -> fast_col pc_i pb_i k < 256)
  /\ Z.odd (fast_col pc_i pb_i k) = Z.odd (fastC pc_i)
  /\ fast_pc_of (fast_col pc_i pb_i k) = pc_i
  /\ fast_pb_of (fast_col pc_i pb_i k) = pb_i
  /\ fast_k_of (fast_col pc_i pb_i k) = k.
Proof.
  intros H1 H2 H3.
  assert (C : forallb (fun pc_i => forallb (fun pb_i => forallb (fun k =>
                (0 <=? fast_col pc_i pb_i k) && (fast_col pc_i pb_i k <? 512)
                && ((2 <=? pc_i) || (fast_col pc_i pb_i k <? 256))
                && Bool.eqb (Z.odd (fast_col pc_i pb_i k)) (Z.odd (fastC pc_i))
                && (fast_pc_of (fast_col pc_i pb_i k) =? pc_i)
                && (fast_pb_of (fast_col pc_i pb_i k) =? pb_i)
                && (fast_k_of (fast_col pc_i pb_i k) =? k))
                (upto 16)) (upto 8)) (upto 4) = true)
    by (vm_compute; reflexivity).
  pose proof (forallb_upto _ _ C pc_i H1) as D1. cbv beta in D1.
  pose proof (forallb_upto _ _ D1 pb_i H2) as D2. cbv beta in D2.
  pose proof (forallb_upto _ _ D2 k H3) as D. cbv beta in D.
  repeat (apply andb_prop in D; destruct D as [D ?]).
  repeat match goal with
         | X : (_ =? _) = true |- _ => apply Z.eqb_eq in X
         | X : (_ <=? _) = true |- _ => apply Z.leb_le in X
         | X : (_ <? _) = true |- _ => apply Z.ltb_lt in X
         | X : Bool.eqb _ _ = true |- _ => apply Bool.eqb_prop in X
         end.
  repeat split; try assumption; lia.
Qed.

Lemma foldM_decide {A B} (I : B -> state -> Prop) (P N : A -> Prop) (E : final)
      (l : list A) (body : B -> A -> M B) :
  (forall x acc s, In x l -> I acc s ->
     (P x /\ exists acc' s', body acc x s = Ret acc' s' /\ I acc' s')
     \/ (N x /\ exists s', body acc x s = Halt E s')) ->
  forall acc s, I acc s ->
    ((forall x, In x l -> P x)
     /\ exists acc' s', foldM l acc body s = Ret acc' s' /\ I acc' s')
    \/ ((exists x, In x l /\ N x) /\ exists s', foldM l acc body s = Halt E s').
Proof.
  induction l as [|x l IH]; intros Hb acc s Hs.
  - left. split; [intros x []|]. exists acc, s. now split.
  - destruct (Hb x acc s (or_introl eq_refl) Hs)
      as [(Hp & acc1 & s1 & E1 & H1)|(Hn & s1 & E1)].
    + destruct (IH (fun y a st Hy => Hb y a st (or_intror Hy)) acc1 s1 H1)
        as [(Hall & acc2 & s2 & E2 & H2)|((y & Hy & Hny) & s2 & E2)].
      * left. split; [intros y [<-|Hy]; [exact Hp|now apply Hall]|].
        exists acc2, s2. split; [|exact H2]. simpl.
        now rewrite (bind_ret_step _ _ _ _ _ E1).
      * right. split; [exists y; split; [now right|exact Hny]|].
        exists s2. simpl. now rewrite (bind_ret_step _ _ _ _ _ E1).
    + right. split; [exists x; split; [now left|exact Hn]|].
      exists s1. simpl. now rewrite (bind_halt_step _ _ _ _ _ E1).
Qed.

(** ** The fast pattern test: the read-back of a row *)

Section FastRead.

Variable chip : Chip.
Variable g : globs.
Variables patNr row num_pc : Z.
Variable cl : gmap (Z * Z) bool.
Variable cnt : Z.

Local Abbreviation cell_ok col :=
  (read_cell chip cl (row_sel chip row) (col_sel chip col) = fast_bit patNr col).

(** A mismatch is reported: the type is not a half-good candidate, or
    there is no mismatch in the row. *)
Hypothesis Hfault :
  half_good_type (g_type g) = false
  \/ forall col, 0 <= col < 128 * num_pc -> cell_ok col.
Hypothesis Hnumpc : num_pc = 2 \/ num_pc = 4.
Hypothesis Hrow : 0 <= row < 512.
Local Abbreviation exp_a0 :=
  (fast_exp_a0 (fast_din_a0_0 patNr) (fast_din_a0_1 patNr)).

Lemma fast_exp_bit pc_i :
  0 <= pc_i < 4 ->
  Z.testbit (rd exp_a0 pc_i) 2 = fast_bit patNr (fastC pc_i).
Proof.
  intros H.
  assert (D0 : fast_din_a0_0 patNr = 0 \/ fast_din_a0_0 patNr = 2).
  { unfold fast_din_a0_0. destruct (_ =? 0); auto. }
  assert (D1 : fast_din_a0_1 patNr = 0 \/ fast_din_a0_1 patNr = 2).
  { unfold fast_din_a0_1. destruct (patNr <=? 1); [exact D0|].
    destruct (_ =? 0); auto. }
  unfold fast_bit.
  assert (C : pc_i = 0 \/ pc_i = 1 \/ pc_i = 2 \/ pc_i = 3) by lia.
  destruct D0 as [-> | ->], D1 as [-> | ->], C as [->|[->|[->| ->]]]; reflexivity.
Qed.

Lemma fast_bit_parity col col' :
  Z.odd col = Z.odd col' -> fast_bit patNr col = fast_bit patNr col'.
Proof. unfold fast_bit. now intros ->. Qed.

Lemma fast_mismatch_reports s p d :
  half_good_type (g_type g) = false ->
  abs s p d g ->
  exists s', fast_mismatch chip patNr row s = Halt (pattern_fault patNr) s'.
Proof.
  intros Hhg (_ & _ & _ & Hg).
  apply fast_mismatch_escalates. cbv zeta. unfold swallowed.
  replace (type s) with (g_type g) by now rewrite <- Hg.
  now rewrite Hhg.
Qed.

(** One cell: the column of the step is read from the latched row and
    compared with the bit of the pattern. *)
Lemma fast_read_step pd0 pc_i pb_i k ad dn s :
  0 <= pd0 < 256 -> 0 <= pc_i < num_pc -> 0 <= pb_i < 8 -> 0 <= k < 16 ->
  abs s {| pB := {| ras := false; we := true; aB := fastB pb_i |};
           pC := {| cas := true; din := false; aC := fastC pc_i |};
           aD := ad; dir := false |}
      {| cells := cl; row_latch := row; dout := dn; cbr_count := cnt |} g ->
  (cell_ok (fast_col pc_i pb_i k)
   /\ exists s' ad' dn',
        (out chip rPORTD (rd (fast_pd_lut (Z.land pd0 0x3C)) k);;
         CAS_LOW16 chip;; NOP;; CAS_HIGH16 chip;;
         pinc ← inp_PINC;
         if Z.land (Z.lxor pinc (rd exp_a0 pc_i)) 0x04 =? 0 then ret tt
         else fast_mismatch chip patNr row) s = Ret tt s'
        /\ abs s' {| pB := {| ras := false; we := true; aB := fastB pb_i |};
                     pC := {| cas := true; din := false; aC := fastC pc_i |};
                     aD := ad'; dir := false |}
               {| cells := cl; row_latch := row; dout := dn'; cbr_count := cnt |} g)
  \/ (~ cell_ok (fast_col pc_i pb_i k)
      /\ exists s',
        (out chip rPORTD (rd (fast_pd_lut (Z.land pd0 0x3C)) k);;
         CAS_LOW16 chip;; NOP;; CAS_HIGH16 chip;;
         pinc ← inp_PINC;
         if Z.land (Z.lxor pinc (rd exp_a0 pc_i)) 0x04 =? 0 then ret tt
         else fast_mismatch chip patNr row) s = Halt (pattern_fault patNr) s').
Proof.
  intros Hpd Hpc' Hpb Hk H.
  assert (Hpc : 0 <= pc_i < 4) by (destruct Hnumpc; lia).
  destruct (fast_col_range pc_i pb_i k Hpc Hpb Hk) as (Rc & Rlow & Hodd & _).
  destruct (abs_out_D chip (rd (fast_pd_lut (Z.land pd0 0x3C)) k) _ _ _ _ H)
    as (s1 & E1 & H1).
  rewrite viewD_fast in H1 by assumption. simpl_pins H1.
  unfold NOP.
  assert (X : forall (m : M unit),
            (out chip rPORTD (rd (fast_pd_lut (Z.land pd0 0x3C)) k);; m) s = m s1)
    by (intros m; now rewrite (bind_ret_step _ _ _ _ _ E1)).
  rewrite !X. clear X E1 H.
  step (step_CAS_LOW16 chip).
  step (step_CAS_HIGH16 chip).
  cbn [cells row_latch dout cbr_count] in *.
  lazymatch goal with Habs : abs ?st _ _ _ |- _ =>
    change (adr {| pB := {| ras := false; we := true; aB := fastB pb_i |};
                   pC := {| cas := false; din := false; aC := fastC pc_i |};
                   aD := fastD k; dir := false |})
      with (fast_col pc_i pb_i k) in Habs end.
  step_pinc (rd exp_a0 pc_i) v.
  rewrite Hx, fast_exp_bit by assumption.
  rewrite <- (fast_bit_parity (fast_col pc_i pb_i k) (fastC pc_i) Hodd).
  lazymatch goal with Habs : abs ?st _ _ _ |- _ => rename Habs into HA end.
  destruct (Bool.eqb (read_cell chip cl (row_sel chip row)
                        (col_sel chip (fast_col pc_i pb_i k)))
                     (fast_bit patNr (fast_col pc_i pb_i k))) eqn:Eb.
  - left. apply Bool.eqb_prop in Eb. split; [exact Eb|].
    eexists _, _, _. split; [reflexivity|exact HA].
  - right. apply Bool.eqb_false_iff in Eb. split; [exact Eb|].
    destruct Hfault as [Hhg|Hok]; [exact (fast_mismatch_reports _ _ _ Hhg HA)|].
    exfalso. apply Eb. apply Hok. destruct Hnumpc; lia.
Qed.


(** The read-back of a row: it returns exactly when every cell of the
    row reads as the bit of the pattern, and reports a pattern fault
    otherwise. *)
Lemma fast_read_row_decides pd0 r x rl dn s :
  0 <= pd0 < 256 ->
  holds r true true x {| cells := cl; row_latch := rl; dout := dn; cbr_count := cnt |} g s ->
  ((forall col, 0 <= col < 128 * num_pc -> cell_ok col)
   /\ exists s' dn',
        fast_read_row chip (fast_pd_lut (Z.land pd0 0x3C)) fast_pb_addr fast_pc_r
                      exp_a0 num_pc false patNr row s = Ret tt s'
        /\ holds true true true false
              {| cells := cl; row_latch := row; dout := dn'; cbr_count := cnt |} g s')
  \/ ((exists col, 0 <= col < 128 * num_pc /\ ~ cell_ok col)
      /\ exists s',
        fast_read_row chip (fast_pd_lut (Z.land pd0 0x3C)) fast_pb_addr fast_pc_r
                      exp_a0 num_pc false patNr row s = Halt (pattern_fault patNr) s').
Proof.
  intros Hpd (p & H & Hr & Hc & Hw & Hx).
  pose proof Hnumpc as Hnum.
  destruct p as [[r0 w0 ab] [c0 di ac] ad x0]. simpl in Hr, Hc, Hw, Hx. subst r0 c0 w0 x0.
  unfold fast_read_row, rasHandling_16Pin.
  step (step_andnot_PORTC_2 chip).
  step (step_andnot_DDRC_2 chip).
  step (step_RAS_HIGH16 chip).
  step (step_setAddr16_Random chip row Hrow).
  step (step_RAS_LOW16 chip).
  lazymatch goal with Habs : abs ?st _ _ _ |- _ => rename Habs into HA end.
  cbn [cells row_latch dout cbr_count] in HA.
  norm_prog.
  lazymatch goal with Habs : abs ?st _ _ _ |- _ =>
    destruct (abs_PORTB _ _ _ _ Habs) as (Bb & Vb); cbn [pB] in Vb;
    set (pbv := PORTB st) in *;
    assert (Einp : inp rPORTB st = Ret pbv st) by reflexivity;
    rewrite (bind_ret_step _ _ _ _ _ Einp); clear Einp
  end.
  cbv beta iota.
  (* the states between the steps of the three loops *)
  pose (RK := fun (acc : Z) (st : state) =>
    acc = Z.land pbv 0xEA /\
    exists ab1 ac1 di1 ad1 dn1,
      abs st {| pB := {| ras := false; we := true; aB := ab1 |};
                pC := {| cas := true; din := di1; aC := ac1 |};
                aD := ad1; dir := false |}
          {| cells := cl; row_latch := row; dout := dn1; cbr_count := cnt |} g).
  pose (Pc := fun pc_i => forall pb_i, In pb_i (upto 8) -> forall k, In k (upto 16) ->
                                       cell_ok (fast_col pc_i pb_i k)).
  pose (Nc := fun pc_i => exists pb_i, In pb_i (upto 8) /\ exists k, In k (upto 16) /\
                                       ~ cell_ok (fast_col pc_i pb_i k)).
  match goal with
  | |- context [bind (foldM (upto num_pc) ?a ?b) ?kk ?st] =>
      destruct (foldM_decide RK Pc Nc (pattern_fault patNr) (upto num_pc) b)
        with (acc := a) (s := st)
        as [(Hall & acc' & s' & E & Hacc & H')|((pc_i & Hin & Hn) & s' & E)]
  end.
  - (* one value of pc_i *)
    intros pc_i acc st Hin (-> & ab1 & ac1 & di1 & ad1 & dn1 & Hst).
    apply in_upto in Hin. assert (Hpc : 0 <= pc_i < 4) by (destruct Hnum; lia).
    destruct (abs_out_C chip (rd fast_pc_r pc_i) _ _ _ _ Hst) as (sa & E1 & H1).
    rewrite viewC_fast_r in H1 by exact Hpc. simpl_pins H1.
    rewrite (bind_ret_step _ _ _ _ _ E1). clear E1 Hst.
    pose (RJ := fun (acc : Z) (st : state) =>
      acc = Z.land pbv 0xEA /\
      exists ab2 ad2 dn2,
        abs st {| pB := {| ras := false; we := true; aB := ab2 |};
                  pC := {| cas := true; din := false; aC := fastC pc_i |};
                  aD := ad2; dir := false |}
            {| cells := cl; row_latch := row; dout := dn2; cbr_count := cnt |} g).
    match goal with
    | |- context [foldM (upto 8) ?a ?b ?st1] =>
        destruct (foldM_decide RJ
                    (fun pb_i => forall k, In k (upto 16) -> cell_ok (fast_col pc_i pb_i k))
                    (fun pb_i => exists k, In k (upto 16)
                                           /\ ~ cell_ok (fast_col pc_i pb_i k))
                    (pattern_fault patNr) (upto 8) b)
          with (acc := a) (s := st1)
          as [(Hall & acc' & s' & E & Hacc & H')|((pb_i & Hin' & Hn) & s' & E)]
    end.
    + (* one value of pb_i *)
      intros pb_i acc st2 Hin' (-> & ab2 & ad2 & dn2 & Hst2).
      apply in_upto in Hin'.
      destruct (abs_out_B chip (Z.lor (Z.land pbv 0xEA) (rd fast_pb_addr pb_i))
                  _ _ _ _ Hst2) as (sb & E2 & H2).
      rewrite viewB_fast, Vb in H2 by assumption. simpl_pins H2.
      rewrite (bind_ret_step _ _ _ _ _ E2). clear E2 Hst2.
      pose (RI := fun (st : state) =>
        exists ad3 dn3,
          abs st {| pB := {| ras := false; we := true; aB := fastB pb_i |};
                    pC := {| cas := true; din := false; aC := fastC pc_i |};
                    aD := ad3; dir := false |}
              {| cells := cl; row_latch := row; dout := dn3; cbr_count := cnt |} g).
      match goal with
      | |- context [bind (for_each (upto 16) ?b) ?kk ?st3] =>
          destruct (for_each_decide RI
                      (fun k => cell_ok (fast_col pc_i pb_i k))
                      (fun k => ~ cell_ok (fast_col pc_i pb_i k))
                      (pattern_fault patNr) (upto 16) b)
            with (s := st3)
            as [(Hall & s' & E & ad3 & dn3 & H')|((k & Hin3 & Hn) & s' & E)]
      end.
      * intros k st3 Hk (ad3 & dn3 & Hst3). apply in_upto in Hk.
        destruct (fast_read_step pd0 pc_i pb_i k ad3 dn3 st3 Hpd Hin Hin' Hk Hst3)
          as [(Hok & sd & ad4 & dn4 & E3 & H3)|(Hno & sd & E3)].
        -- left. split; [exact Hok|]. exists sd. split; [exact E3|].
           exists ad4, dn4. exact H3.
        -- right. split; [exact Hno|]. exists sd. exact E3.
      * eexists _, _. exact H2.
      * left. split; [exact Hall|]. exists (Z.land pbv 0xEA), s'.
        rewrite (bind_ret_step _ _ _ _ _ E). split; [reflexivity|].
        split; [reflexivity|]. eexists _, _, _. exact H'.
      * right. split; [exists k; now split|]. exists s'.
        now rewrite (bind_halt_step _ _ _ _ _ E).
    + split; [reflexivity|]. eexists _, _, _. exact H1.
    + left. split; [exact Hall|]. exists acc', s'. split; [exact E|].
      destruct H' as (ab2 & ad2 & dn2 & H'). split; [exact Hacc|].
      eexists _, _, _, _, _. exact H'.
    + right. split; [exists pb_i; split; [exact Hin'|exact Hn]|].
      exists s'. exact E.
  - split; [reflexivity|]. eexists _, _, _, _, _. exact HA.
  - left. split.
    + intros col Hcol.
      destruct (fast_col_of col ltac:(lia)) as (Ec & Rc & Rb & Rk & Hlow).
      rewrite <- Ec. apply Hall; apply in_upto; try assumption.
      destruct Hnum as [-> | ->]; [|lia].
      split; [lia|]. apply Hlow. lia.
    + rewrite (bind_ret_step _ _ _ _ _ E). clear E HA.
      destruct H' as (ab1 & ac1 & di1 & ad1 & dn1 & H').
      destruct (step_RAS_HIGH16 chip _ _ _ _ H') as (se & E2 & H2).
      exists se, dn1. split; [exact E2|]. eexists. split; [exact H2|]. repeat split.
  - right. split.
    + destruct Hn as (pb_i & Hb & k & Hk & Hno).
      apply in_upto in Hin, Hb, Hk.
      exists (fast_col pc_i pb_i k). split; [|exact Hno].
      destruct (fast_col_range pc_i pb_i k ltac:(lia) Hb Hk) as (R1 & R2 & _).
      destruct Hnum as [-> | ->]; [|lia]. split; [lia|]. apply R2. lia.
    + exists s'. now rewrite (bind_halt_step _ _ _ _ _ E).
Qed.

End FastRead.

(** ** The fast pattern test: the write of a row *)

Lemma fast_image_app chip patNr row l1 l2 c :
  fast_image chip patNr row (l1 ++ l2) c
  = fast_image chip patNr row l2 (fast_image chip patNr row l1 c).
Proof. unfold fast_image. now rewrite fold_left_app. Qed.

Lemma fast_image_snoc chip patNr row l col c :
  fast_image chip patNr row (l ++ [col]) c
  = <[(row_sel chip row, col_sel chip col) := fast_bit patNr col]>
      (fast_image chip patNr row l c).
Proof. unfold fast_image. now rewrite fold_left_app. Qed.

Section FastWrite.

Variable chip : Chip.
Variable g : globs.
Variables patNr row : Z.
Variable cnt : Z.
Variable dn : bool.

Hypothesis Hrow : 0 <= row < 512.

Local Abbreviation pc_w :=
  (fast_pc_w (fast_din_a0_0 patNr) (fast_din_a0_1 patNr)).

(** One cell: with RAS low on the latched row and WE low, the cell of
    the column of the step gets the bit of the pattern. *)
Lemma fast_write_step pd0 pc_i pb_i k cb ad c s :
  0 <= pd0 < 256 -> 0 <= pc_i < 4 -> 0 <= pb_i < 8 -> 0 <= k < 16 ->
  abs s {| pB := {| ras := false; we := false; aB := fastB pb_i |};
           pC := {| cas := cb; din := fast_bit patNr (fastC pc_i); aC := fastC pc_i |};
           aD := ad; dir := true |}
      {| cells := c; row_latch := row; dout := dn; cbr_count := cnt |} g ->
  exists s',
    (CAS_HIGH16 chip;;
     out chip rPORTD (rd (fast_pd_lut (Z.land pd0 0x3C)) k);;
     CAS_LOW16 chip) s = Ret tt s'
    /\ abs s' {| pB := {| ras := false; we := false; aB := fastB pb_i |};
                 pC := {| cas := false; din := fast_bit patNr (fastC pc_i);
                          aC := fastC pc_i |};
                 aD := fastD k; dir := true |}
           {| cells := <[(row_sel chip row, col_sel chip (fast_col pc_i pb_i k))
                         := fast_bit patNr (fast_col pc_i pb_i k)]> c;
              row_latch := row; dout := dn; cbr_count := cnt |} g.
Proof.
  intros Hpd Hpc Hpb Hk H.
  destruct (fast_col_range pc_i pb_i k Hpc Hpb Hk) as (_ & _ & Hodd & _).
  step (step_CAS_HIGH16 chip).
  lazymatch goal with Habs : abs ?st _ _ _ |- _ => rename Habs into HA end.
  destruct (abs_out_D chip (rd (fast_pd_lut (Z.land pd0 0x3C)) k) _ _ _ _ HA)
    as (sa & E1 & H1).
  rewrite viewD_fast in H1 by assumption. simpl_pins H1.
  rewrite (bind_ret_step _ _ _ _ _ E1). clear E1 HA.
  destruct (step_CAS_LOW16 chip _ _ _ _ H1) as (sb & E2 & H2).
  exists sb. split; [exact E2|]. simpl_pins H2.
  cbn [cells row_latch dout cbr_count] in H2.
  change (adr {| pB := {| ras := false; we := false; aB := fastB pb_i |};
                 pC := {| cas := false; din := fast_bit patNr (fastC pc_i);
                          aC := fastC pc_i |};
                 aD := fastD k; dir := true |})
    with (fast_col pc_i pb_i k) in H2.
  rewrite (fast_bit_parity patNr (fast_col pc_i pb_i k) (fastC pc_i) Hodd).
  match type of H2 with
  | context [if ?b then true else false] =>
      replace (if b then true else false) with b in H2 by now destruct b
  end.
  exact H2.
Qed.

(** The write phase of a row: every column of the [num_pc] groups gets
    the bit of the pattern, and the control lines come back to rest. *)
Lemma fast_write_row_spec num_pc pd0 r w x rl c s :
  0 <= num_pc <= 4 -> 0 <= pd0 < 256 ->
  holds r true w x {| cells := c; row_latch := rl; dout := dn; cbr_count := cnt |} g s ->
  exists s',
    fast_write_row chip (fast_pd_lut (Z.land pd0 0x3C)) fast_pb_addr pc_w
                   num_pc false row s = Ret tt s'
    /\ holds true true true true
          {| cells := fast_image chip patNr row (fast_cols num_pc) c;
             row_latch := row; dout := dn; cbr_count := cnt |} g s'.
Proof.
  intros Hnum Hpd (p & H & Hr & Hc & Hw & Hx).
  destruct p as [[r0 w0 ab] [c0 di ac] ad x0]. simpl in Hr, Hc, Hw, Hx. subst r0 c0 w0 x0.
  unfold fast_write_row, rasHandling_16Pin.
  step (step_or_DDRC_2 chip).
  step (step_RAS_HIGH16 chip).
  step (step_setAddr16_Random chip row Hrow).
  step (step_RAS_LOW16 chip).
  step (step_WE_LOW16 chip).
  lazymatch goal with Habs : abs ?st _ _ _ |- _ => rename Habs into HA end.
  cbn [cells row_latch dout cbr_count] in HA.
  norm_prog.
  lazymatch goal with Habs : abs ?st _ _ _ |- _ =>
    destruct (abs_PORTB _ _ _ _ Habs) as (Bb & Vb); cbn [pB] in Vb;
    set (pbv := PORTB st) in *;
    assert (Einp : inp rPORTB st = Ret pbv st) by reflexivity;
    rewrite (bind_ret_step _ _ _ _ _ Einp); clear Einp
  end.
  cbv beta iota.
  pose (K := fun (pre : list Z) (acc : Z) (st : state) =>
    acc = Z.land pbv 0xEA /\
    exists ab1 ac1 di1 ad1,
      abs st {| pB := {| ras := false; we := false; aB := ab1 |};
                pC := {| cas := true; din := di1; aC := ac1 |};
                aD := ad1; dir := true |}
          {| cells := fast_image chip patNr row
                        (flat_map (fun pc_i =>
                           flat_map (fun pb_i => map (fast_col pc_i pb_i) (upto 16))
                                    (upto 8)) pre) c;
             row_latch := row; dout := dn; cbr_count := cnt |} g).
  match goal with
  | |- context [bind (foldM (upto num_pc) ?a ?b) ?kk ?st] =>
      destruct (foldM_prefix_inv K (upto num_pc) b a) with (s := st)
        as (acc' & s' & E & Hacc & ab1 & ac1 & di1 & ad1 & H')
  end.
  - intros pre pc_i acc st Hin (-> & ab1 & ac1 & di1 & ad1 & Hst).
    apply in_upto in Hin. assert (Hpc : 0 <= pc_i < 4) by lia.
    destruct (abs_out_C chip (rd pc_w pc_i) _ _ _ _ Hst) as (sa & E1 & H1).
    rewrite viewC_fast_w in H1 by exact Hpc. simpl_pins H1.
    rewrite (bind_ret_step _ _ _ _ _ E1). clear E1 Hst.
    pose (J := fun (pre' : list Z) (acc : Z) (st : state) =>
      acc = Z.land pbv 0xEA /\
      exists ab2 ad2,
        abs st {| pB := {| ras := false; we := false; aB := ab2 |};
                  pC := {| cas := true; din := fast_bit patNr (fastC pc_i);
                           aC := fastC pc_i |};
                  aD := ad2; dir := true |}
            {| cells := fast_image chip patNr row
                          (flat_map (fun pc_i =>
                             flat_map (fun pb_i => map (fast_col pc_i pb_i) (upto 16))
                                      (upto 8)) pre
                           ++ flat_map (fun pb_i => map (fast_col pc_i pb_i) (upto 16))
                                       pre') c;
               row_latch := row; dout := dn; cbr_count := cnt |} g).
    match goal with
    | |- context [foldM (upto 8) ?a ?b ?st1] =>
        destruct (foldM_prefix_inv J (upto 8) b a) with (s := st1)
          as (acc' & s' & E & Hacc & ab2 & ad2 & H')
    end.
    + intros pre' pb_i acc st2 Hin' (-> & ab2 & ad2 & Hst2).
      apply in_upto in Hin'.
      destruct (abs_out_B chip (Z.lor (Z.land pbv 0xEA) (rd fast_pb_addr pb_i))
                  _ _ _ _ Hst2) as (sb & E2 & H2).
      rewrite viewB_fast, Vb in H2 by assumption. simpl_pins H2.
      rewrite (bind_ret_step _ _ _ _ _ E2). clear E2 Hst2.
      pose (I := fun (pre3 : list Z) (st : state) =>
        exists cb ad3,
          abs st {| pB := {| ras := false; we := false; aB := fastB pb_i |};
                    pC := {| cas := cb; din := fast_bit patNr (fastC pc_i);
                             aC := fastC pc_i |};
                    aD := ad3; dir := true |}
              {| cells := fast_image chip patNr row
                            ((flat_map (fun pc_i =>
                                flat_map (fun pb_i => map (fast_col pc_i pb_i) (upto 16))
                                         (upto 8)) pre
                              ++ flat_map (fun pb_i => map (fast_col pc_i pb_i) (upto 16))
                                          pre')
                             ++ map (fast_col pc_i pb_i) pre3) c;
                 row_latch := row; dout := dn; cbr_count := cnt |} g).
      match goal with
      | |- context [bind (for_each (upto 16) ?b) ?kk ?st3] =>
          destruct (for_each_prefix_inv I (upto 16) b) with (s := st3)
            as (s' & E & cb & ad3 & H')
      end.
      * intros pre3 k st3 Hk (cb & ad3 & Hst3). apply in_upto in Hk.
        destruct (fast_write_step pd0 pc_i pb_i k cb ad3 _ st3 Hpd Hpc Hin' Hk Hst3)
          as (sd & E3 & H3).
        exists sd. split; [exact E3|]. exists false, (fastD k).
        rewrite map_app. cbn [map]. rewrite List.app_assoc, fast_image_snoc.
        exact H3.
      * exists true, ad2. cbn [map]. rewrite List.app_nil_r. exact H2.
      * rewrite (bind_ret_step _ _ _ _ _ E). clear E H2.
        destruct (step_CAS_HIGH16 chip _ _ _ _ H') as (se & E4 & H4).
        simpl_pins H4. rewrite (bind_ret_step _ _ _ _ _ E4).
        exists (Z.land pbv 0xEA), se. split; [reflexivity|].
        split; [reflexivity|]. exists (fastB pb_i), ad3.
        rewrite flat_map_app. cbn [flat_map]. rewrite List.app_nil_r, List.app_assoc.
        exact H4.
    + split; [reflexivity|]. exists ab1, ad1. cbn [flat_map].
      rewrite List.app_nil_r. exact H1.
    + exists acc', s'. split; [exact E|]. split; [exact Hacc|].
      eexists _, _, _, _. rewrite flat_map_app. cbn [flat_map].
      rewrite List.app_nil_r. exact H'.
  - split; [reflexivity|]. eexists _, _, _, _. exact HA.
  - rewrite (bind_ret_step _ _ _ _ _ E). clear E HA.
    step (step_WE_HIGH16 chip).
    lazymatch goal with Habs : abs ?st _ _ _ |- _ => rename Habs into HB end.
    destruct (step_RAS_HIGH16 chip _ _ _ _ HB) as (sf & E5 & H5).
    exists sf. split; [exact E5|]. eexists. split; [exact H5|]. repeat split.
Qed.

End FastWrite.

(** ** The fast pattern test on any chip *)

Section FastPass.

Variable chip : Chip.
Variable g : globs.
Variable c0 : gmap (Z * Z) bool.
Variables patNr rows_n num_pc : Z.

Hypothesis Hpage : is_nibble_type (g_type g) = false.
Hypothesis Hram : rows (ram (g_type g)) = rows_n.
Hypothesis Hrows : 0 < rows_n <= 512.
Hypothesis Hnum : fast_num_pc (g_type g) = num_pc.

(** A mismatch is reported: the type is not a half-good candidate, or
    no row has a mismatch. *)
Hypothesis Hfault :
  half_good_type (g_type g) = false
  \/ forall row, 0 <= row < rows_n ->
       fast_row_holds chip patNr (128 * num_pc) row
                      (fast_pass_image chip patNr num_pc (row + 1) c0).

Lemma fast_num_pc_cases : num_pc = 2 \/ num_pc = 4.
Proof. rewrite <- Hnum. unfold fast_num_pc. destruct (256 <? _); auto. Qed.

Lemma fast_pass_image_succ i :
  0 <= i ->
  fast_pass_image chip patNr num_pc (i + 1) c0
  = fast_image chip patNr i (fast_cols num_pc) (fast_pass_image chip patNr num_pc i c0).
Proof.
  intros Hi. unfold fast_pass_image. rewrite upto_succ, fold_left_app by exact Hi.
  reflexivity.
Qed.

(** One row: it is written and read back at once. *)
Lemma fast_row_decides pd0 i s :
  0 <= pd0 < 256 -> 0 <= i < rows_n ->
  fast_state chip g patNr num_pc c0 i s ->
  (fast_row_holds chip patNr (128 * num_pc) i
                  (fast_pass_image chip patNr num_pc (i + 1) c0)
   /\ exists s',
        (fast_write_row chip (fast_pd_lut (Z.land pd0 0x3C)) fast_pb_addr
           (fast_pc_w (fast_din_a0_0 patNr) (fast_din_a0_1 patNr)) num_pc false i;;
         fast_read_row chip (fast_pd_lut (Z.land pd0 0x3C)) fast_pb_addr fast_pc_r
           (fast_exp_a0 (fast_din_a0_0 patNr) (fast_din_a0_1 patNr)) num_pc false
           patNr i) s = Ret tt s'
        /\ fast_state chip g patNr num_pc c0 (i + 1) s')
  \/ (~ fast_row_holds chip patNr (128 * num_pc) i
                       (fast_pass_image chip patNr num_pc (i + 1) c0)
      /\ exists s',
        (fast_write_row chip (fast_pd_lut (Z.land pd0 0x3C)) fast_pb_addr
           (fast_pc_w (fast_din_a0_0 patNr) (fast_din_a0_1 patNr)) num_pc false i;;
         fast_read_row chip (fast_pd_lut (Z.land pd0 0x3C)) fast_pb_addr fast_pc_r
           (fast_exp_a0 (fast_din_a0_0 patNr) (fast_din_a0_1 patNr)) num_pc false
           patNr i) s = Halt (pattern_fault patNr) s').
Proof.
  intros Hpd Hi (r & x & rl & dn & cnt & _ & Hs).
  pose proof fast_num_pc_cases as Hc.
  destruct (fast_write_row_spec chip g patNr i cnt dn ltac:(lia) num_pc pd0 r true x rl
              _ s ltac:(lia) Hpd Hs) as (s1 & E1 & H1).
  rewrite (bind_ret_step _ _ _ _ _ E1). rewrite <- fast_pass_image_succ in H1 by lia.
  assert (Hf : half_good_type (g_type g) = false
               \/ forall col, 0 <= col < 128 * num_pc ->
                    read_cell chip (fast_pass_image chip patNr num_pc (i + 1) c0)
                              (row_sel chip i) (col_sel chip col)
                    = fast_bit patNr col).
  { destruct Hfault as [Hhg|Hok]; [now left|right]. exact (Hok i Hi). }
  destruct (fast_read_row_decides chip g patNr i num_pc _ cnt Hf Hc ltac:(lia) pd0
              true true i dn s1 Hpd H1)
    as [(Hall & s2 & dn2 & E2 & H2)|((col & Hcol & Hno) & s2 & E2)].
  - left. split; [exact Hall|]. exists s2. split; [exact E2|].
    eexists _, _, _, _, _. split; [reflexivity|exact H2].
  - right. split; [|exists s2; exact E2].
    intros Hh. apply Hno. now apply Hh.
Qed.

(** [fastPatternTest_16Pin]: it returns exactly when every row reads
    back, right after its write, as the pattern in all columns, and
    reports a pattern fault otherwise. *)
Lemma fastPatternTest_decides r c x d s :
  holds r c true x d g s -> cells d = c0 ->
  ((forall row, 0 <= row < rows_n ->
      fast_row_holds chip patNr (128 * num_pc) row
                     (fast_pass_image chip patNr num_pc (row + 1) c0))
   /\ exists s' d',
        fastPatternTest_16Pin chip patNr s = Ret tt s'
        /\ holds true true true true d' g s'
        /\ cells d' = fast_pass_image chip patNr num_pc rows_n c0)
  \/ ((exists row, 0 <= row < rows_n
         /\ ~ fast_row_holds chip patNr (128 * num_pc) row
                             (fast_pass_image chip patNr num_pc (row + 1) c0))
      /\ exists s', fastPatternTest_16Pin chip patNr s = Halt (pattern_fault patNr) s').
Proof.
  intros (p & H & Hr & Hc & Hw & Hx) Hcl.
  destruct p as [[r0 w0 ab] [cb di ac] ad x0]. simpl in Hr, Hc, Hw, Hx. subst r0 cb w0 x0.
  destruct d as [cl rl dn cnt]. cbn [cells] in Hcl. subst cl.
  unfold fastPatternTest_16Pin.
  step_get abs_get_type. cbv zeta. rewrite Hpage, Hram.
  fold (fast_num_pc (g_type g)). rewrite Hnum.
  destruct (abs_PORTD _ _ _ _ H) as (Bd & _).
  assert (Einp : inp rPORTD s = Ret (PORTD s) s) by reflexivity.
  rewrite (bind_ret_step _ _ _ _ _ Einp). clear Einp.
  set (pd0 := PORTD s) in *.
  unfold cli, sei.
  step (step_CAS_HIGH16 chip).
  lazymatch goal with Habs : abs ?st _ _ _ |- _ => rename Habs into HA end.
  norm_prog.
  match goal with
  | |- context [bind (for_each (upto rows_n) ?b) ?kk ?st] =>
      destruct (for_upto_decide (fast_state chip g patNr num_pc c0)
                  (fun i => fast_row_holds chip patNr (128 * num_pc) i
                              (fast_pass_image chip patNr num_pc (i + 1) c0))
                  (fun i => ~ fast_row_holds chip patNr (128 * num_pc) i
                                (fast_pass_image chip patNr num_pc (i + 1) c0))
                  (pattern_fault patNr) rows_n b)
        with (s := st) as [(Hall & s' & E & H')|((i & Hi & Hni) & s' & E)]
  end.
  - intros i st Hi Hst. exact (fast_row_decides pd0 i st Bd Hi Hst).
  - eexists _, _, _, _, _. split; [intros Hlt; lia|].
    eexists. split; [exact HA|]. repeat split.
  - left. split; [exact Hall|].
    rewrite (bind_ret_step _ _ _ _ _ E). clear E HA.
    rewrite Z.max_r in H' by lia.
    destruct H' as (r1 & x1 & rl1 & dn1 & cnt1 & Hr0
                    & (p1 & H1 & Hr1 & Hc1 & Hw1 & Hx1)).
    rewrite (Hr0 ltac:(lia)) in Hr1.
    destruct p1 as [[r2 w2 ab2] [cb2 di2 ac2] ad2 x2].
    simpl in Hr1, Hc1, Hw1, Hx1. subst r2 cb2 w2 x2.
    destruct (step_or_DDRC_2 chip _ _ _ _ H1) as (sf & E5 & H5).
    rewrite bind_ret_l.
    exists sf, {| cells := fast_pass_image chip patNr num_pc rows_n c0;
                  row_latch := rl1; dout := dn1; cbr_count := cnt1 |}.
    split; [exact E5|]. split; [|reflexivity].
    eexists. split; [exact H5|]. repeat split.
  - right. split; [exists i; split; [exact Hi|exact Hni]|].
    exists s'. now rewrite (bind_halt_step _ _ _ _ _ E).
Qed.

End FastPass.

(** ** The event log of a pass that may halt *)

Section Tracing.

Variable chip : Chip.
Variable t : Z.

Lemma traces_bind {A B} tr1 tr2 (m : M A) (k : A -> M B) :
  traces t tr1 m -> (forall a, traces t tr2 (k a)) -> traces t (tr1 ++ tr2) (bind m k).
Proof.
  intros Hm Hk s Ht. unfold bind. specialize (Hm s Ht).
  destruct (m s) as [a s1|f1 s1].
  - destruct Hm as [T1 L1]. specialize (Hk a s1 T1).
    destruct (k a s1) as [b s2|f2 s2].
    + destruct Hk as [T2 L2]. split; [exact T2|].
      rewrite L2, L1. now rewrite <- List.app_assoc.
    + destruct Hk as (done & rest & -> & L2).
      exists (tr1 ++ done), rest. split; [now rewrite <- List.app_assoc|].
      rewrite L2, L1. now rewrite <- List.app_assoc.
  - destruct Hm as (done & rest & -> & L1).
    exists done, (rest ++ tr2). split; [now rewrite <- List.app_assoc|exact L1].
Qed.

Lemma silent_bind {A B} (m : M A) (k : A -> M B) :
  traces t [] m -> (forall a, traces t [] (k a)) -> traces t [] (bind m k).
Proof. apply (traces_bind [] []). Qed.

Lemma silent_then {A B} tr (m : M A) (k : A -> M B) :
  traces t [] m -> (forall a, traces t tr (k a)) -> traces t tr (bind m k).
Proof. apply (traces_bind [] tr). Qed.

Lemma traces_then_silent {A B} tr (m : M A) (k : A -> M B) :
  traces t tr m -> (forall a, traces t [] (k a)) -> traces t tr (bind m k).
Proof. intros Hm Hk. rewrite <- (List.app_nil_r tr). now apply traces_bind. Qed.

Lemma traces_get_type {B} tr (k : Z -> M B) :
  traces t tr (k t) -> traces t tr (bind get_type k).
Proof. intros Hk s Ht. unfold bind, get_type. rewrite Ht. now apply Hk. Qed.

Lemma silent_ret {A} (a : A) : traces t [] (ret a).
Proof. intros s Ht. simpl. split; [exact Ht|now rewrite List.app_nil_r]. Qed.

Lemma traces_emit e : traces t [e] (emit e).
Proof. intros s Ht. simpl. split; [exact Ht|reflexivity]. Qed.

Lemma traces_error {A} tr code kind row col : traces t tr (@error A code kind row col).
Proof.
  intros s Ht. simpl. exists [], tr. split; [reflexivity|now rewrite List.app_nil_r].
Qed.

Lemma traces_for_each {A} (f : A -> list event) (l : list A) (body : A -> M unit) :
  (forall x, traces t (f x) (body x)) -> traces t (flat_map f l) (for_each l body).
Proof.
  intros Hb. induction l as [|x l IH]; simpl.
  - apply silent_ret.
  - apply traces_bind; [apply Hb|]. intros _. apply IH.
Qed.

Lemma silent_for_each {A} (l : list A) (body : A -> M unit) :
  (forall x, traces t [] (body x)) -> traces t [] (for_each l body).
Proof.
  intros Hb. induction l as [|x l IH]; simpl.
  - apply silent_ret.
  - apply silent_bind; [apply Hb|]. intros _. apply IH.
Qed.

Lemma silent_foldM {A B} (l : list A) (acc : B) (body : B -> A -> M B) :
  (forall acc x, traces t [] (body acc x)) -> traces t [] (foldM l acc body).
Proof.
  intros Hb. revert acc. induction l as [|x l IH]; intros acc; simpl.
  - apply silent_ret.
  - apply silent_bind; [apply Hb|]. intros acc'. apply IH.
Qed.

Lemma silent_for_break {A B} (l : list A) (body : A -> M (option B)) :
  (forall x, traces t [] (body x)) -> traces t [] (for_break l body).
Proof.
  intros Hb. induction l as [|x l IH]; simpl.
  - apply silent_ret.
  - apply silent_bind; [apply Hb|]. intros [b|]; [|apply IH].
    apply silent_ret.
Qed.

End Tracing.

(** Proves that a program without [emit] leaves type byte and log alone,
    also when it halts. *)
Ltac silent_prim :=
  let s := fresh "s" in
  let Ht := fresh "Ht" in
  intros s Ht;
  unfold get_type, get_lower, get_upper, get_randomTable, randomTable_at,
         set_lower, set_upper, set_randomTable,
         NOP, cli, sei, ret, inp, out, inp_PINC;
  cbn [type log set_io];
  split; [exact Ht|now rewrite List.app_nil_r].

Ltac silents :=
  repeat
    lazymatch goal with
    | |- traces _ [] (bind _ _) => apply silent_bind; [|intros ?]
    | |- traces _ [] (for_each _ _) => apply silent_for_each; intros ?
    | |- traces _ [] (foldM _ _ _) => apply silent_foldM; intros ? ?
    | |- traces _ [] (for_break _ _) => apply silent_for_break; intros ?
    | |- traces _ [] (error _ _ _ _) => apply traces_error
    | |- traces _ [] (if ?c then _ else _) => destruct c
    | |- traces _ [] (match ?c with _ => _ end) => destruct c
    | |- traces _ [] _ => first [halt_unfold | silent_prim]
    end.

Section PassTrace.

Variable chip : Chip.
Variable t : Z.

Lemma checkRow_traces cols row patNr check :
  traces t [EvCheckRow row patNr check] (checkRow_16Pin chip cols row patNr check).
Proof.
  unfold checkRow_16Pin. apply traces_then_silent; [apply traces_emit|]. intros _.
  unfold checkRow_scan_page, checkRow_scan_nibble, checkRow_verdict. silents.
Qed.

Lemma retention_check_traces row cols patNr :
  traces t (retention_events t row patNr) (retention_check chip row cols patNr).
Proof.
  unfold retention_check, retention_events. apply traces_get_type. cbv zeta.
  destruct (row =? u16 (rows (ram t) - 1)).
  - apply traces_for_each. intros x.
    apply (traces_bind t [_] [_; _]); [apply checkRow_traces|]. intros _.
    apply (traces_bind t [_] [_]); [apply traces_emit|]. intros _. apply traces_emit.
  - destruct (delayRows (ram t) <=? row).
    + apply (traces_bind t [_] [_]); [apply checkRow_traces|]. intros _.
      apply traces_emit.
    + apply traces_emit.
Qed.

Lemma writeRow_traces row cols patNr :
  traces t (EvWriteRow row patNr :: retention_events t row patNr)
         (writeRow_16Pin chip row cols patNr).
Proof.
  unfold writeRow_16Pin. apply traces_get_type.
  apply silent_then; [silents|]. intros _.
  apply silent_then; [silents|]. intros _.
  apply silent_then.
  { unfold writeRow_page, writeRow_nibble. silents. }
  intros _. apply (traces_bind t [_]); [apply traces_emit|]. intros _.
  apply retention_check_traces.
Qed.

Lemma random_pass_traces total_rows patNr :
  traces t (pass_events t total_rows patNr) (random_pass chip total_rows patNr).
Proof.
  unfold random_pass, pass_events. apply traces_for_each. intros row.
  apply traces_get_type. apply writeRow_traces.
Qed.

End PassTrace.

(** ** The order of writes and checks in the events of a pass *)

Lemma occurrences_cons e x tr :
  occurrences e (x :: tr)
  = ((if event_eqb e x then 1 else 0) + occurrences e tr)%nat.
Proof.
  unfold occurrences. destruct (event_eqb e x) eqn:E.
  - rewrite filter_cons_True by (rewrite E; exact I). reflexivity.
  - rewrite filter_cons_False by (rewrite E; exact id). reflexivity.
Qed.

Lemma occurrences_app e l1 l2 :
  occurrences e (l1 ++ l2) = (occurrences e l1 + occurrences e l2)%nat.
Proof. unfold occurrences. now rewrite filter_app, length_app. Qed.

Lemma occurrences_flat_map_zero {A} e (f : A -> list event) (l : list A) :
  (forall x, In x l -> occurrences e (f x) = 0%nat) ->
  occurrences e (flat_map f l) = 0%nat.
Proof.
  intros H. induction l as [|x l IH]; [reflexivity|].
  cbn [flat_map]. rewrite occurrences_app, H, IH; [reflexivity| |now left].
  intros y Hy. apply H. now right.
Qed.

Lemma before_app_out e l1 l2 :
  occurrences e l1 = 0%nat -> before e (l1 ++ l2) = l1 ++ before e l2.
Proof.
  induction l1 as [|x l1 IH]; [reflexivity|].
  rewrite occurrences_cons. cbn [before app].
  destruct (event_eqb e x); [discriminate|]. intros H. now rewrite IH.
Qed.

Lemma before_app_in e l1 l2 :
  occurrences e l1 <> 0%nat -> before e (l1 ++ l2) = before e l1.
Proof.
  induction l1 as [|x l1 IH]; [intros H; now elim H|].
  rewrite occurrences_cons. cbn [before app].
  destruct (event_eqb e x); [reflexivity|]. intros H. now rewrite IH.
Qed.

Lemma written_rows_app l1 l2 :
  written_rows (l1 ++ l2) = written_rows l1 ++ written_rows l2.
Proof. unfold written_rows. apply flat_map_app. Qed.

Lemma written_rows_flat_map_nil {A} (f : A -> list event) (l : list A) :
  (forall x, written_rows (f x) = []) -> written_rows (flat_map f l) = [].
Proof.
  intros H. induction l as [|x l IH]; [reflexivity|].
  cbn [flat_map]. now rewrite written_rows_app, H, IH.
Qed.

Lemma written_before_none e tr :
  written_rows tr = [] -> written_rows (before e tr) = [].
Proof.
  induction tr as [|x tr IH]; [reflexivity|].
  cbn [before]. destruct (event_eqb e x); [reflexivity|].
  destruct x; cbn [written_rows flat_map app]; try discriminate; exact IH.
Qed.

Lemma retention_events_no_write t i patNr :
  written_rows (retention_events t i patNr) = [].
Proof.
  unfold retention_events. cbv zeta.
  destruct (i =? _); [|destruct (_ <=? i); reflexivity].
  now apply written_rows_flat_map_nil.
Qed.

Lemma downfrom_succ m : 0 <= m -> downfrom (m + 1) = m :: downfrom m.
Proof.
  intros H. unfold downfrom. rewrite upto_succ by exact H.
  now rewrite rev_app_distr.
Qed.

Section Schedule.

Variables t patNr total : Z.

Hypothesis Hst : staggers t total.

Local Abbreviation n := (rows (ram t)).
Local Abbreviation k := (delayRows (ram t)).
Local Abbreviation chk r := (EvCheckRow r patNr 3).
Local Abbreviation seg i := (EvWriteRow i patNr :: retention_events t i patNr).

(** The checks after the last row. *)
Lemma catch_up_occurrences i r m (d1 d2 : Z) :
  0 <= m <= i + 1 -> i < 65536 ->
  occurrences (chk r)
    (flat_map (fun x => [EvCheckRow (u16 (i - x)) patNr 3; EvDelay d1; EvDelay d2])
              (downfrom m))
  = if (0 <=? i - r) && (i - r <? m) then 1%nat else 0%nat.
Proof.
  intros Hm Hi. destruct Hm as [Hm0 Hm1]. revert Hm1. pattern m.
  apply natlike_ind; [| |exact Hm0].
  - intros _. cbn [downfrom upto Z.to_nat seq map rev flat_map].
    destruct (0 <=? i - r) eqn:E1; [|reflexivity].
    destruct (i - r <? 0) eqn:E2; [|reflexivity]. lia.
  - intros j Hj IH Hle. unfold Z.succ. rewrite downfrom_succ by exact Hj.
    cbn [flat_map app]. rewrite !occurrences_cons, IH by lia.
    cbn [event_eqb]. rewrite (u16_small (i - j)) by lia.
    rewrite !Z.eqb_refl, !Bool.andb_true_r.
    destruct (r =? i - j) eqn:E0, (0 <=? i - r) eqn:E1,
             (i - r <? j) eqn:E2, (i - r <? j + 1) eqn:E3;
      cbn [andb]; try reflexivity; lia.
Qed.

(** The check of row [r] belongs to the write of one row. *)
Lemma seg_occurrences i r :
  0 <= i < total -> 0 <= r < total ->
  occurrences (chk r) (seg i)
  = if i =? written_before_check k total r then 1%nat else 0%nat.
Proof.
  intros Hi Hr. destruct Hst as (Hk & Hkn & Htot).
  rewrite occurrences_cons. cbn [event_eqb]. cbn [Nat.add].
  unfold retention_events, written_before_check. cbv zeta.
  rewrite (u16_small (n - 1)) by lia.
  destruct (i =? n - 1) eqn:E1.
  - rewrite s8_small by exact Hk.
    rewrite catch_up_occurrences by lia.
    destruct (0 <=? i - r) eqn:E2, (i - r <? k + 1) eqn:E3,
             (i =? Z.min (r + k) (total - 1)) eqn:E4;
      cbn [andb]; try reflexivity; lia.
  - destruct (k <=? i) eqn:E2.
    + rewrite !occurrences_cons. cbn [event_eqb occurrences].
      rewrite (u16_small (i - k)) by lia.
      rewrite !Z.eqb_refl, !Bool.andb_true_r.
      destruct (r =? i - k) eqn:E3, (i =? Z.min (r + k) (total - 1)) eqn:E4;
        try reflexivity; lia.
    + rewrite !occurrences_cons. cbn [event_eqb occurrences].
      destruct (i =? Z.min (r + k) (total - 1)) eqn:E4; try reflexivity; lia.
Qed.

Lemma written_rows_pass m :
  0 <= m ->
  written_rows (flat_map (fun i => seg i) (upto m)) = upto m.
Proof.
  intros Hm. pattern m. apply natlike_ind; [reflexivity| |exact Hm].
  intros j Hj IH. unfold Z.succ. rewrite upto_succ, flat_map_app by exact Hj.
  rewrite written_rows_app, IH. cbn [flat_map]. rewrite List.app_nil_r.
  cbn [written_rows flat_map app].
  change (flat_map _ (retention_events t j patNr))
    with (written_rows (retention_events t j patNr)).
  now rewrite retention_events_no_write.
Qed.

(** In the events of a pass every row is checked once, and when it is
    checked exactly the rows up to the one its check waits for have been
    written. *)
Lemma pass_events_staggered r :
  0 <= r < total ->
  occurrences (chk r) (pass_events t total patNr) = 1%nat
  /\ written_rows (before (chk r) (pass_events t total patNr))
     = upto (written_before_check k total r + 1).
Proof.
  intros Hr. pose proof Hst as (Hk & Hkn & Htot).
  set (j := written_before_check k total r).
  assert (Hj : 0 <= j < total) by (unfold j, written_before_check; lia).
  unfold pass_events. rewrite (upto_split total j Hj).
  rewrite flat_map_app. cbn [flat_map].
  assert (Z1 : occurrences (chk r) (flat_map (fun i => seg i) (upto j)) = 0%nat).
  { apply occurrences_flat_map_zero. intros i Hi. apply in_upto in Hi.
    rewrite seg_occurrences by lia. fold j.
    destruct (i =? j) eqn:E; [lia|reflexivity]. }
  assert (Z2 : occurrences (chk r) (seg j) = 1%nat).
  { rewrite seg_occurrences by lia. fold j. now rewrite Z.eqb_refl. }
  assert (Z3 : occurrences (chk r)
                 (flat_map (fun i => seg i)
                           (map (fun i => j + 1 + i) (upto (total - j - 1)))) = 0%nat).
  { apply occurrences_flat_map_zero. intros i Hi.
    apply in_map_iff in Hi as (i' & <- & Hi'). apply in_upto in Hi'.
    rewrite seg_occurrences by lia. fold j.
    destruct (j + 1 + i' =? j) eqn:E; [lia|reflexivity]. }
  split.
  - rewrite !occurrences_app, Z1, Z2, Z3. reflexivity.
  - rewrite before_app_out by exact Z1.
    rewrite before_app_in by (rewrite Z2; discriminate).
    rewrite written_rows_app, written_rows_pass by lia.
    cbn [before event_eqb]. cbn [written_rows flat_map app].
    change (flat_map _ (before (chk r) (retention_events t j patNr)))
      with (written_rows (before (chk r) (retention_events t j patNr))).
    rewrite written_before_none by apply retention_events_no_write.
    now rewrite upto_succ by lia.
Qed.

End Schedule.

(** ** The 16-pin types *)

(** The geometry of the page-mode types, as the row access needs it. *)
Lemma page_mode_facts t :
  In t [T_4164; T_41256; T_4816; T_4532; T_3732] ->
  0 < rows (ram t) <= 512
  /\ 0 <= columns (ram t) / 32 <= 16
  /\ u8 (Z.shiftr (columns (ram t)) 5) = columns (ram t) / 32
  /\ columns (ram t) = 32 * (columns (ram t) / 32)
  /\ is_nibble_type t = false
  /\ 0 <= delayRows (ram t) < 128
  /\ delayRows (ram t) < rows (ram t)
  /\ (fast_num_pc t = 2 \/ fast_num_pc t = 4)
  /\ columns (ram t) <= 128 * fast_num_pc t.
Proof.
  simpl. intros [<-|[<-|[<-|[<-|[<-|[]]]]]]; vm_compute;
    repeat split; try congruence; auto.
Qed.

Lemma full_fault_types t :
  In t [T_41256; T_4816] ->
  In t [T_4164; T_41256; T_4816; T_4532; T_3732] /\ half_good_type t = false.
Proof. simpl. intros [<-|[<-|[]]]; split; auto 6. Qed.

Lemma types_stagger t :
  In t [T_4164; T_41256; T_41257; T_4816; T_4532; T_3732] ->
  staggers t (pass_rows t).
Proof.
  simpl. intros [<-|[<-|[<-|[<-|[<-|[<-|[]]]]]]]; unfold staggers; vm_compute;
    repeat split; try congruence; auto.
  right. repeat split; congruence.
Qed.

(** ** A state seen as the start of a pass *)

Lemma pass_state_start chip n s :
  at_rest s -> Z.testbit (DDRC s) 1 = true ->
  pass_state chip (globals s) n (cells (dram s)) 0 s.
Proof.
  intros Hrest Hdir. destruct (at_rest_abs s Hrest) as (H & Hr1 & Hr2 & Hr3).
  exists (dram s), (globals s). split; [|split].
  - exists (pins_of s). split; [exact H|]. repeat split; assumption.
  - exists (g_log (globals s)). now destruct (globals s).
  - reflexivity.
Qed.

Lemma stuck_row_fails chip tbl cols row col c :
  0 <= col < cols ->
  stuck chip (row_sel chip row) (col_sel chip col)
  = Some (negb (data_bit tbl col row)) ->
  ~ row_holds chip tbl cols row c.
Proof.
  intros Hcol Hst Hh. specialize (Hh col Hcol). unfold read_cell in Hh.
  rewrite Hst in Hh. now destruct (data_bit tbl col row).
Qed.

Lemma stuck_fast_row_fails chip patNr cols row col c :
  0 <= col < cols ->
  stuck chip (row_sel chip row) (col_sel chip col)
  = Some (negb (fast_bit patNr col)) ->
  ~ fast_row_holds chip patNr cols row c.
Proof.
  intros Hcol Hst Hh. specialize (Hh col Hcol). unfold read_cell in Hh.
  rewrite Hst in Hh. now destruct (fast_bit patNr col).
Qed.

(** ** Reporting of mismatches by the engine *)

Section Reports.

Variable chip : Chip.

(** A check of a row that has a mismatching cell. *)
Lemma checkRow_reports row col patNr check s :
  In (type s) [T_4164; T_41256; T_4816; T_4532; T_3732] ->
  4 <= patNr -> 0 <= row < 512 ->
  regs_ok s -> CAS_pin (PORTC s) = true -> WE_pin (PORTB s) = true ->
  0 <= col < columns (ram (type s)) ->
  cell_mismatch chip (randomTable s) (cells (dram s)) row col = true ->
  exists ec s',
    0 <= ec < columns (ram (type s))
    /\ cell_mismatch chip (randomTable s) (cells (dram s)) row ec = true
    /\ checkRow_16Pin chip (columns (ram (type s))) row patNr check s
       = (if swallowed (type s) (lower_after row ec (error_in_lower_half s))
                       (upper_after row ec (error_in_upper_half s))
          then Ret tt s'
          else Halt (Error (u8 (patNr + 1)) check (-1) (-1)) s')
    /\ half_flags s' = (lower_after row ec (error_in_lower_half s),
                        upper_after row ec (error_in_upper_half s)).
Proof.
  intros Ht Hpat Hrow Hregs Hcas Hwe Hcol Hmm.
  destruct (page_mode_facts _ Ht) as (F1 & F2 & F3 & F4 & F5 & _).
  pose proof (holds_of_state s Hregs) as Hh. rewrite Hcas, Hwe in Hh.
  destruct (checkRow_16Pin_spec chip (columns (ram (type s)))
              (columns (ram (type s)) / 32) row patNr check _ _ s (dram s) (globals s)
              Hrow F2 F3 Hpat F5 Hh) as (s' & d' & _ & Hres).
  cbn [globals g_table g_type g_lower g_upper] in Hres.
  assert (Hin : In col (page_cols (columns (ram (type s)) / 32)))
    by (apply in_page_cols; [exact F2|lia]).
  pose proof (scan_page_found chip (randomTable s) (cells (dram s)) row _ (false, 0)
                col Hin Hmm) as Hf.
  destruct (scan_page_found_col chip _ _ _ _ Hf) as (Hin' & Hm').
  apply in_page_cols in Hin'; [|exact F2].
  rewrite Hf in Hres. destruct Hres as (E & Hh').
  eexists _, s'. split; [|split; [exact Hm'|split; [exact E|]]]; [lia|].
  destruct (holds_state _ _ _ _ _ _ _ Hh') as (_ & Hg).
  unfold half_flags.
  change (error_in_lower_half s') with (g_lower (globals s')).
  change (error_in_upper_half s') with (g_upper (globals s')).
  now rewrite Hg.
Qed.

(** A pass of pattern 4 or 5 over a chip with a cell stuck at the
    complement of its data. *)
Lemma random_pass_reports patNr row col s :
  In (type s) [T_41256; T_4816] -> 4 <= patNr ->
  at_rest s -> Z.testbit (DDRC s) 1 = true ->
  0 <= row < rows (ram (type s)) -> 0 <= col < columns (ram (type s)) ->
  stuck chip (row_sel chip row) (col_sel chip col)
  = Some (negb (data_bit (randomTable s) col row)) ->
  exists s', random_pass chip (rows (ram (type s))) patNr s
             = Halt (Error (u8 (patNr + 1)) 3 (-1) (-1)) s'.
Proof.
  intros Ht Hpat Hrest Hdir Hrow Hcol Hst.
  destruct (full_fault_types _ Ht) as (Ht5 & Hhg).
  destruct (page_mode_facts _ Ht5) as (F1 & F2 & F3 & F4 & F5 & F6 & F7 & _).
  destruct (random_pass_decides chip (globals s) (cells (dram s))
              (rows (ram (type s))) (columns (ram (type s)))
              (columns (ram (type s)) / 32) patNr (delayRows (ram (type s)))
              F1 F2 F3 F4 Hpat F5 Hhg eq_refl eq_refl eq_refl F6 F7 s
              (pass_state_start chip _ s Hrest Hdir))
    as [(Hall & _)|(_ & s' & E)].
  - exfalso. exact (stuck_row_fails chip _ _ row col _ Hcol Hst (Hall row Hrow)).
  - exists s'. exact E.
Qed.

(** The fast pattern test over a chip with a cell stuck at the
    complement of the pattern. *)
Lemma fastPatternTest_reports patNr row col s :
  In (type s) [T_41256; T_4816] ->
  regs_ok s -> WE_pin (PORTB s) = true ->
  0 <= row < rows (ram (type s)) -> 0 <= col < columns (ram (type s)) ->
  stuck chip (row_sel chip row) (col_sel chip col)
  = Some (negb (fast_bit patNr col)) ->
  exists s', fastPatternTest_16Pin chip patNr s
             = Halt (Error (u8 (patNr + 1)) 2 (-1) (-1)) s'.
Proof.
  intros Ht Hregs Hwe Hrow Hcol Hst.
  destruct (full_fault_types _ Ht) as (Ht5 & Hhg).
  destruct (page_mode_facts _ Ht5) as (F1 & _ & _ & _ & F5 & _ & _ & F8 & F9).
  pose proof (holds_of_state s Hregs) as Hh. rewrite Hwe in Hh.
  destruct (fastPatternTest_decides chip (globals s) (cells (dram s)) patNr
              (rows (ram (type s))) (fast_num_pc (type s))
              F5 eq_refl F1 eq_refl (or_introl Hhg) _ _ _ (dram s) s Hh eq_refl)
    as [(Hall & _)|(_ & s' & E)].
  - exfalso.
    exact (stuck_fast_row_fails chip patNr (128 * fast_num_pc (type s)) row col _
             ltac:(lia) Hst (Hall row Hrow)).
  - exists s'. exact E.
Qed.

End Reports.

(** ** Chips without defects *)

Lemma pass_image_last chip tbl n j c0 :
  0 <= j ->
  pass_image chip tbl n (j + 1) c0
  = page_image chip tbl j (page_cols n) (pass_image chip tbl n j c0).
Proof.
  intros Hj. unfold pass_image. now rewrite upto_succ, fold_left_app by exact Hj.
Qed.

(** On a chip without stuck cells that tells rows and columns apart,
    every row written so far in a pass holds its data. *)
Lemma pass_image_holds chip tbl n cols rows_n c0 :
  sound_cells chip -> decodes chip rows_n cols -> 0 <= n <= 16 -> cols = 32 * n ->
  forall j, 0 <= j <= rows_n ->
  forall r, 0 <= r < j -> row_holds chip tbl cols r (pass_image chip tbl n j c0).
Proof.
  intros Hsound (Hrinj & Hcinj) Hn Hcols j (Hj0 & Hj1). revert Hj1. pattern j.
  apply natlike_ind; [intros _ r Hr; lia| |exact Hj0].
  intros i Hi IH Hle r Hr col Hcol. unfold Z.succ.
  rewrite pass_image_last, (read_cell_sound chip Hsound) by exact Hi.
  destruct (Z.eq_dec r i) as [->|Hne].
  - rewrite page_image_lookup_in; [reflexivity| |apply in_page_cols; [exact Hn|lia]].
    intros a b Ha Hb. apply in_page_cols in Ha, Hb; try exact Hn.
    apply Hcinj; lia.
  - rewrite page_image_lookup_row.
    + rewrite <- (read_cell_sound chip Hsound). apply IH; [lia|lia|exact Hcol].
    + intros E. apply Hne. apply Hrinj; [lia|lia|exact E].
Qed.

(** ** C9: reporting of mismatches *)

(** C9, as the code has it.  A row check that meets a cell which does
    not read back as its data updates the half-good flags for the first
    such column and then, unless the half-good rule swallows the
    mismatch, ends the run in [error (patNr + 1) check]; for the types
    that are no half-good candidates a pass of pattern 4 or 5 over a chip
    with a cell stuck at the wrong value ends in [error (patNr + 1) 3],
    and the fast pattern test over such a chip in [error (patNr + 1) 2].
    No run of these functions can end in any other way, and the row and
    column arguments of [error] are left at their default -1.  The two
    bookkeeping blocks escalate whenever the flags do not swallow the
    mismatch.  [error] hands nothing back to its caller, its loop has not
    ended after any number of rounds, whatever the kind, and each round
    adds signals. *)
Theorem mismatch_reported_and_error_never_returns (chip : Chip) :
  (forall row col patNr check s,
      In (type s) [T_4164; T_41256; T_4816; T_4532; T_3732] ->
      4 <= patNr -> 0 <= row < 512 ->
      regs_ok s -> CAS_pin (PORTC s) = true -> WE_pin (PORTB s) = true ->
      0 <= col < columns (ram (type s)) ->
      cell_mismatch chip (randomTable s) (cells (dram s)) row col = true ->
      exists ec s',
        0 <= ec < columns (ram (type s))
        /\ cell_mismatch chip (randomTable s) (cells (dram s)) row ec = true
        /\ checkRow_16Pin chip (columns (ram (type s))) row patNr check s
           = (if swallowed (type s) (lower_after row ec (error_in_lower_half s))
                           (upper_after row ec (error_in_upper_half s))
              then Ret tt s'
              else Halt (Error (u8 (patNr + 1)) check (-1) (-1)) s')
        /\ half_flags s' = (lower_after row ec (error_in_lower_half s),
                            upper_after row ec (error_in_upper_half s))) /\
  (forall patNr row col s,
      In (type s) [T_41256; T_4816] -> 4 <= patNr ->
      at_rest s -> Z.testbit (DDRC s) 1 = true ->
      0 <= row < rows (ram (type s)) -> 0 <= col < columns (ram (type s)) ->
      stuck chip (row_sel chip row) (col_sel chip col)
      = Some (negb (data_bit (randomTable s) col row)) ->
      exists s', random_pass chip (rows (ram (type s))) patNr s
                 = Halt (Error (u8 (patNr + 1)) 3 (-1) (-1)) s') /\
  (forall patNr row col s,
      In (type s) [T_41256; T_4816] ->
      regs_ok s -> WE_pin (PORTB s) = true ->
      0 <= row < rows (ram (type s)) -> 0 <= col < columns (ram (type s)) ->
      stuck chip (row_sel chip row) (col_sel chip col)
      = Some (negb (fast_bit patNr col)) ->
      exists s', fastPatternTest_16Pin chip patNr s
                 = Halt (Error (u8 (patNr + 1)) 2 (-1) (-1)) s') /\
  (forall cols row patNr check,
      halts_only (fun f => f = Error (u8 (patNr + 1)) check (-1) (-1))
                 (checkRow_16Pin chip cols row patNr check)) /\
  (forall patNr,
      halts_only (fun f => f = Error (u8 (patNr + 1)) 2 (-1) (-1))
                 (fastPatternTest_16Pin chip patNr)) /\
  (forall row cols patNr,
      halts_only (fun f => f = Error (u8 (patNr + 1)) 3 (-1) (-1))
                 (writeRow_16Pin chip row cols patNr)) /\
  (forall row patNr check ec s,
      swallowed (type s) (lower_after row ec (error_in_lower_half s))
                (upper_after row ec (error_in_upper_half s)) = false ->
      exists s', checkRow_verdict row patNr check true ec s
                 = Halt (Error (u8 (patNr + 1)) check (-1) (-1)) s') /\
  (forall patNr row s,
      swallowed (type s)
        (lower_after row (if Z.land (PORTD s) 0x40 =? 0 then 0 else 128)
                     (error_in_lower_half s))
        (upper_after row (if Z.land (PORTD s) 0x40 =? 0 then 0 else 128)
                     (error_in_upper_half s)) = false ->
      exists s', fast_mismatch chip patNr row s
                 = Halt (Error (u8 (patNr + 1)) 2 (-1) (-1)) s') /\
  (forall (A B : Type) code kind row col (k : A -> M B) s,
      bind (error code kind row col) k s = Halt (Error code kind row col) s) /\
  (forall fuel code kind row col, error_body fuel code kind row col = None) /\
  (forall n code kind row col,
      (n < length (error_signals n code kind row col))%nat).
Proof.
  split; [intros row col patNr check s; apply checkRow_reports|].
  split; [intros patNr row col s; apply random_pass_reports|].
  split; [intros patNr row col s; apply fastPatternTest_reports|].
  split; [intros; apply checkRow_halts_only|].
  split; [intros; apply fastPatternTest_halts_only|].
  split; [intros; apply writeRow_halts_only|].
  split; [intros; now apply checkRow_verdict_escalates|].
  split; [intros patNr row s H; now apply (fast_mismatch_escalates chip patNr row s)|].
  split; [reflexivity|].
  split; [intros; apply error_never_returns|intros; apply error_keeps_signalling].
Qed.

Lemma mismatch_reported_and_error_never_returns_witness :
  exists s', random_pass (one_cell_stuck 0x1FF 300 5 true)
               (rows (ram (type (with_type_state T_41256 bench_state)))) 4
               (with_type_state T_41256 bench_state)
             = Halt (Error (u8 (4 + 1)) 3 (-1) (-1)) s'.
Proof.
  apply (proj1 (proj2 (mismatch_reported_and_error_never_returns
                         (one_cell_stuck 0x1FF 300 5 true)))
           4 300 5 (with_type_state T_41256 bench_state)).
  - simpl. tauto.
  - lia.
  - exact bench_at_rest.
  - reflexivity.
  - vm_compute. split; [congruence|reflexivity].
  - vm_compute. split; [congruence|reflexivity].
  - vm_compute. reflexivity.
Defined.

(** ** C3: retention staggering *)

(** C3.  A pass of pattern 4 or 5 over [total] rows of a chip whose table
    entry has [k] delay rows, on any chip and from any state.  The pass
    appends to the log the events of its schedule, all of them when it
    returns and a part of them from the start on when a check ends the
    run.  In the schedule every row is checked once, and when row [r] is
    checked exactly the rows up to [min (r + k) (total - 1)] have been
    written: the check is triggered by the write of row [r + k], and those
    of the trailing [k] rows follow the write of the last row.  The checks
    read the cells: for the page-mode types that are no half-good
    candidates the pass returns exactly when every row reads back as its
    data from the cells as they are after the write of the row its check
    waits for, and ends in the retention report otherwise.  The table
    entries of the six 16-pin types allow the staggering for the rows
    their pass covers. *)
Theorem retention_staggering (chip : Chip) (patNr total : Z) (s : state) :
  staggers (type s) total ->
  (forall s', random_pass chip total patNr s = Ret tt s' ->
     log s' = log s ++ pass_events (type s) total patNr) /\
  (forall f s', random_pass chip total patNr s = Halt f s' ->
     exists done rest,
       pass_events (type s) total patNr = done ++ rest /\ log s' = log s ++ done) /\
  (forall r, 0 <= r < total ->
     occurrences (EvCheckRow r patNr 3) (pass_events (type s) total patNr) = 1%nat
     /\ written_rows (before (EvCheckRow r patNr 3) (pass_events (type s) total patNr))
        = upto (written_before_check (delayRows (ram (type s))) total r + 1)) /\
  (In (type s) [T_41256; T_4816] -> 4 <= patNr ->
   at_rest s -> Z.testbit (DDRC s) 1 = true ->
   ((forall r, 0 <= r < total ->
       row_holds chip (randomTable s) (columns (ram (type s))) r
         (pass_image chip (randomTable s) (columns (ram (type s)) / 32)
            (written_before_check (delayRows (ram (type s))) total r + 1)
            (cells (dram s))))
    /\ exists s', random_pass chip total patNr s = Ret tt s')
   \/ ((exists r, 0 <= r < total
          /\ ~ row_holds chip (randomTable s) (columns (ram (type s))) r
                 (pass_image chip (randomTable s) (columns (ram (type s)) / 32)
                    (written_before_check (delayRows (ram (type s))) total r + 1)
                    (cells (dram s))))
       /\ exists s', random_pass chip total patNr s
                     = Halt (retention_fault patNr) s')) /\
  (forall t, In t [T_4164; T_41256; T_41257; T_4816; T_4532; T_3732] ->
             staggers t (pass_rows t)).
Proof.
  intros Hst.
  pose proof (random_pass_traces chip (type s) total patNr s eq_refl) as Htr.
  split; [|split; [|split; [|split]]].
  - intros s' E. rewrite E in Htr. apply Htr.
  - intros f s' E. rewrite E in Htr. destruct Htr as (done & rest & E1 & E2).
    now exists done, rest.
  - intros r Hr. now apply pass_events_staggered.
  - intros Ht Hpat Hrest Hdir.
    destruct (full_fault_types _ Ht) as (Ht5 & Hhg).
    destruct (page_mode_facts _ Ht5) as (F1 & F2 & F3 & F4 & F5 & F6 & F7 & _).
    assert (Htot : total = rows (ram (type s))).
    { destruct Hst as (_ & _ & [E|(E & _)]); [exact E|].
      exfalso. simpl in Ht. destruct Ht as [Ht|[Ht|[]]]; rewrite <- Ht in E;
        vm_compute in E; discriminate. }
    subst total.
    destruct (random_pass_decides chip (globals s) (cells (dram s))
                (rows (ram (type s))) (columns (ram (type s)))
                (columns (ram (type s)) / 32) patNr (delayRows (ram (type s)))
                F1 F2 F3 F4 Hpat F5 Hhg eq_refl eq_refl eq_refl F6 F7 s
                (pass_state_start chip _ s Hrest Hdir))
      as [(Hall & s' & E & _)|(Hex & s' & E)].
    + left. split; [exact Hall|]. now exists s'.
    + right. split; [exact Hex|]. now exists s'.
  - exact types_stagger.
Qed.

Lemma retention_staggering_witness :
  exists s',
    random_pass (ideal 0x1FF) 512 4 (with_type_state T_41256 bench_state) = Ret tt s'
    /\ log s' = log (with_type_state T_41256 bench_state)
                ++ pass_events T_41256 512 4
    /\ forall r, 0 <= r < 512 ->
         occurrences (EvCheckRow r 4 3) (pass_events T_41256 512 4) = 1%nat
         /\ written_rows (before (EvCheckRow r 4 3) (pass_events T_41256 512 4))
            = upto (written_before_check 1 512 r + 1).
Proof.
  assert (Hst : staggers (type (with_type_state T_41256 bench_state)) 512).
  { unfold staggers. vm_compute. repeat split; try congruence. now left. }
  destruct (retention_staggering (ideal 0x1FF) 4 512
              (with_type_state T_41256 bench_state) Hst) as (A1 & _ & B & C & _).
  destruct C as [(_ & s' & E)|((r & Hr & Hno) & _)].
  - simpl. tauto.
  - lia.
  - exact bench_at_rest.
  - reflexivity.
  - exists s'. split; [exact E|]. split; [exact (A1 s' E)|exact B].
  - exfalso. apply Hno.
    apply (pass_image_holds (ideal 0x1FF) _ 16 512 512).
    + intros R C. reflexivity.
    + apply ideal_511_decodes; lia.
    + lia.
    + reflexivity.
    + unfold written_before_check.
      change (delayRows (ram (type (with_type_state T_41256 bench_state)))) with 1.
      lia.
    + unfold written_before_check.
      change (delayRows (ram (type (with_type_state T_41256 bench_state)))) with 1.
      lia.
Defined.
